(* ===== verification/_CoqProject ===== *)
-Q . S2P
Prelude.v
SqlString.v
SqlEscape.v
HashTable.v
HashChain.v
HashSplit.v
HashPlace.v
HashRemove.v
HashMerge.v
HashOps.v
HashTheorems.v
CString.v
SqlNames.v
SqlUpdate.v
KeyWhere.v
EscapeTheorems.v
NameTheorems.v
UpdateTheorems.v
WhereTheorems.v
StrtollTheorems.v
Collation.v
CollationTheorems.v
AutoInc.v
AutoTheorems.v
ConnTree.v
World.v
OptionText.v
OptionTable.v
TextTheorems.v
TextSafety.v
OptionParse.v
OptionDefaults.v
OptionTheorems.v
ParseSafety.v
ParseTotal.v
Links.v
LinkTheorems.v
SqlText.v
ConnQueue.v
DbXa.v
SysTable.v
ConnPool.v
SessionConns.v
XaTrx.v
Example.v
XidTheorems.v
PoolTheorems.v
SessionTheorems.v
ConnWp.v
ConnSpec.v
QuerySpec.v
StmtSpec.v
ConnTheorems.v
PartSpec.v
XaSpec.v
XaMain.v
SysSpec.v
SysTheorems.v
LiveSpec.v
XaTheorems.v
XaLimits.v
