(* ===== verification/Prelude.v ===== *)
(** * TSpider: verification of the Spider storage engine

    TSpider is a MariaDB server whose storage engine Spider (storage/spider)
    keeps no rows: every table is a link to a table of a backend server, and a
    transaction of a session becomes a distributed transaction over the
    connections it uses.  This library models the life of such a table and
    session as far as the engine's own state goes: the options of a table are
    parsed, the keys of its connections are made, a session gets connections from
    the pool, queues settings on them, joins them to its transaction, commits or
    rolls back by two-phase commit with a log, and returns them; the values of
    auto-increment columns are handed out over the nodes of a cluster; and the SQL
    text for the backends is built: values, names, the UPDATE of a row and the
    condition of an index read.

    ** The program and its model

    A C function is a state transformer [M W A := W -> option (A * W)] of the part
    of the state it works on; [None] is undefined behaviour (a NULL or dangling
    pointer, an access outside an array) or a loop that outran its fuel, and the
    theorems that state a result exclude both.  What the code cannot decide itself
    is a class: the answers of backends, failing allocations, the engine of the
    log tables, the clock and versions ([World.Env], indexed by the number of
    calls made so far, so a theorem for every [Env] is one for every behaviour of
    the outside; [SqlString.Heap] for the memory of strings), the system variables of spd_param.cc ([World.Vars]), the
    servers and defaults that the option parser consults ([OptionParse.OptEnv]).

    - Prelude: record update, the state monad, its rules ([runs]: a function
      returns and its result satisfies a predicate), tactics and hints.

    Data structures and strings of the server:
    - HashTable: the linear hashing table (mysys/hash.c), its keys behind the class
      [HashKey].  HashChain, HashSplit, HashPlace, HashRemove, HashMerge and
      HashOps prove what each step does to the chains of the buckets;
      HashTheorems: refinement of a collection of records, the integrity check,
      each record freed once, updates.
    - CString: C strings in a byte array, number conversion, [my_strtoll10]
      (strings/my_strtoll10.c); StrtollTheorems: equivalence with decimal notation.
    - Collation: utf8_bin, the comparison and hash number of keys
      (strings/strcoll.ic, strings_def.h, ctype-utf8.c, ctype-mb.c);
      CollationTheorems: equivalence with a comparison of bytes, agreement of
      comparison and hash number, and the instance of [HashKey] they give.
    - AutoInc: auto-increment values of partitioned tables (sql/handler.cc,
      sql/handler.h, sql/sql_insert.cc, sql/ha_partition.cc, ha_spider.cc);
      AutoTheorems: uniqueness in a cluster with mode values below the common step,
      failed rows included as long as their values lie in the interval of the rows
      before them, and the settings and the failed row for which it is lost.

    Table options (spd_table.cc, spd_table.h):
    - OptionText: the parser's state and its work in place on the text: quotes,
      escapes, lists.  OptionTable: the options by length of title, as in the
      switch of [spider_parse_connect_info].  OptionParse: the macros and the loop
      over the parameters.  OptionDefaults: lists stretched to the links, fields
      of the server, defaults, checks of a new table, connection keys.
    - TextTheorems: quoting and reading back, lists of words.  TextSafety,
      ParseSafety and ParseTotal: every function of the parser returns and stays
      inside the text, and so does all of [spider_parse_connect_info].
      OptionTheorems: the first value counts, options within bounds, checks, and
      texts that are not read as they are meant.

    SQL text for the backends:
    - SqlString: the String class (sql/sql_string.h, sql_string.cc), its memory byte
      by byte, and the specifications of its operations: a write outside of the
      memory is [None], so a theorem with [runs] excludes it.
    - SqlEscape: values ([append_column_value] in spd_db_mysql.cc, escaping in
      mysys/charset.c, character lengths in strings/) and the lexer of literals
      that reads them (sql/sql_lex.cc); the character set is a class, with
      instances for utf8, utf8mb4, gbk and latin1.  EscapeTheorems: values are read
      back, but not on a backend without backslash escapes.
    - SqlNames: quoted names, the table names of the links
      ([create_table_names_str]) and the lexer of identifiers; NameTheorems: names
      are read back.
    - SqlUpdate: the UPDATE of a row and the statement of each link
      (spd_db_mysql.cc); UpdateTheorems: its exact text, inside the memory, the
      table it names on each link, and the write outside of the memory for
      floating point columns.
    - KeyWhere: the conditions for the two ends of an index range
      (spd_db_conn.cc, [spider_db_append_key_where_internal]); WhereTheorems: their
      text, that they select the rows of the range, and the ranges of which they
      lose rows.

    Connections and transactions:
    - ConnTree: the join tree of the connections of a transaction
      (spd_conn.cc, [spider_tree_*]), a pointer tree over a heap, with its
      functional model and the interface [JoinOrder] that the transaction code
      is proved against.
    - World: the state of a session's connections: two heaps ([w_conns],
      [w_links]), the transaction record ([SPIDER_TRX]), the fields of [THD] the
      engine uses, the XA log, the pool, the counters per server and a trace of
      everything sent to the outside (spd_include.h, spd_err.h, spd_sys_table.h).
    - Links: servers and links of a table (spd_conn.cc, spd_trx.cc);
      LinkTheorems.  The functions that choose among several links are compiled
      only without SPIDER_DISABLE_LINK, which spd_conn.h defines.
    - SqlText: the text of an XID (spd_db_conn.cc); XidTheorems: XIDs and log keys.
    - ConnQueue: the queued settings of a backend session, connecting, queries
      and their errors (spd_conn.cc, spd_db_conn.cc, spd_db_mysql.cc).
    - DbXa: commit, rollback and the XA steps on one connection (spd_db_conn.cc,
      spd_db_mysql.cc).
    - SysTable: the XA log tables (spd_sys_table.cc).
    - ConnPool: creating, pooling, recycling, killing, freeing (spd_conn.cc);
      PoolTheorems.
    - SessionConns: the connections a session holds, in hash tables as in the
      code: [spider_get_conn], [spider_free_trx_conn] (spd_conn.cc, spd_trx.cc);
      SessionTheorems: what is held, pooled and counted after any sequence of
      operations.
    - XaTrx: start, two-phase commit, rollback (spd_trx.cc).
    - Example: a concrete session, the input of the witnesses.
    - ConnWp, ConnSpec, QuerySpec, StmtSpec: weakest preconditions over one
      connection, and the specifications of the functions of ConnQueue and DbXa;
      ConnTheorems: recorded settings agree with the backend, connect attempts.
    - PartSpec, XaSpec, XaMain: one participant, the loops over the
      participants, the phases and the entry points.
    - SysSpec, SysTheorems, LiveSpec: the log tables as operations on their rows
      and their refinement of a map; the run in which everything works.
    - XaTheorems: order and atomicity of the commit, success, the end of the
      transaction, rollback, giving up.
    - XaLimits: the runs in which the outcome is wrong or in doubt.

    ** Fuel

    The loops over the tree take the size of the heap as fuel, which bounds the
    number of its nodes ([walks_size]); the loop over queued results takes the
    number of statements plus one; the connect loop takes its retry count.  Walks
    of a bucket and over a hash table take the number of records, comparisons and
    scans of strings the length of the strings, and the loops of the option parser
    the length of the text, plus one; escaping takes the length of the value, and
    the lexer the length of the text.  The theorems about SQL text ask that names
    and values leave the statement below 2^32 bytes, since its sizes are 32 bit
    numbers ([fits], [room_for], [conds_weight]).  The theorems state that the functions
    return, so the fuel is enough; [first_value_counts], [options_in_bounds] and
    [new_table_checked] are about a parser that returned, and
    [parse_connect_info_returns] shows that it does, for texts that do not start
    with a quote and tables without keys, while memory lasts.

    ** Not modelled

    One thread runs at a time: locks, condition variables and background
    searches are left out.  The release of table handlers after a commit
    ([spider_reuse_trx_ha], [spider_free_trx_ha]) and [internal_xid_state.xid] are
    left out, so are the server's logs, memory accounting, the columns of the log tables that
    repeat how to connect, recovery by XID (its entry points return at once),
    shares and their statistics threads, and the functions of the engine that
    build SELECT, INSERT and DELETE statements and read rows, which work on the
    item trees and tables of the SQL layer.  In SQL text the conversion between
    character sets is left out: the value, the string and the backend use one, and
    the text of a value ([Field::val_str]) is given.  HANDLER statements, bulk and
    direct updates and pushed-down conditions are left out too.  A kill of the session is modelled but excluded by the hypotheses
    of the commit theorems ([last_killed = 0]).  In the option parser the copies
    for ALTER TABLE and the search of the table's partition are left out, and
    values of real options are kept as their text.

    ** Conditions of the theorems

    Where C leaves a result undefined and the usual one is meant, the model has the
    usual one: the overlapping [strcpy] of the option parser copies from the front,
    and the negation of the least [longlong] wraps around.  The theorems that a
    success of commit or rollback was acknowledged are for [spider_force_commit] 0,
    whose default is 2; that the commit ends the transaction is for a log that is
    not in use; the theorems about the log's rows take the engine's word that a row
    is missing. *)

From stdpp Require Import base gmap list.
From Stdlib Require Import ZArith Lia.

(** ** Record update

    [r <| f := v |>] is the C assignment [r->f = v] on a record value.  A record
    type declares its eta expansion once ([Eta]); the setter of a field is found
    by abstracting that field's projection in it. *)

Class Eta (R : Type) := eta : R -> R.

Class Updatable {R E : Type} (g : R -> E) := upd_field : (E -> E) -> R -> R.

Ltac derive_updatable :=
  match goal with
  | |- @Updatable ?R ?E ?g =>
      let body := eval hnf in (@eta R _) in
      match eval pattern g in body with
      | ?P _ =>
          exact (fun (f : E -> E) (r : R) =>
                   ltac:(let t := eval cbv beta in (P (fun x => f (g x)) r) in
                         exact t))
      end
  end.

#[export] Hint Extern 1 (Updatable _) => derive_updatable : typeclass_instances.

Declare Scope spider_scope.
Delimit Scope spider_scope with spider.

Notation "r <| g := v |>" := (upd_field (g := g) (fun _ => v) r)
  (at level 1, g at level 1, v at level 99, left associativity,
   format "r  <| g  :=  v |>") : spider_scope.
Notation "r <| g ::= f |>" := (upd_field (g := g) f r)
  (at level 1, g at level 1, f at level 99, left associativity,
   format "r  <| g  ::=  f |>") : spider_scope.

(** ** Stateful C functions

    A C function over the program state [W] is a state transformer.  [None] is
    undefined behaviour (a NULL dereference) or a loop that did not end within
    its fuel. *)

Definition M (W A : Type) : Type := W -> option (A * W).

#[export] Instance M_ret {W} : MRet (M W) := fun A a w => Some (a, w).

#[export] Instance M_bind {W} : MBind (M W) := fun A B f m w =>
  match m w with
  | Some (a, w') => f a w'
  | None => None
  end.

Definition gets {W A} (f : W -> A) : M W A := fun w => Some (f w, w).
Definition modify {W} (f : W -> W) : M W unit := fun w => Some (tt, f w).
Definition ub {W A} : M W A := fun _ => None.
Definition when {W} (b : bool) (m : M W unit) : M W unit :=
  if b then m else mret tt.

(** A pure partial computation (a pointer walk) inside the state monad. *)
Definition lift_opt {W A} (o : W -> option A) : M W A := fun w =>
  match o w with Some a => Some (a, w) | None => None end.

(** The error of a function for which there is no memory. *)
Definition HA_ERR_OUT_OF_MEM : Z := 128.

(** [if ((error_num = m())) goto error; k()] *)
Definition andthen {W} (m k : M W Z) : M W Z :=
  m ≫= fun e => if Z.eqb e 0 then k else mret e.

Notation "m &&; k" := (andthen m k)
  (at level 100, k at level 200, right associativity) : spider_scope.

(** [for (x : l) f(x)] *)
Fixpoint iterM {W A} (f : A -> M W unit) (l : list A) : M W unit :=
  match l with
  | [] => mret tt
  | x :: l' => f x ≫= fun _ => iterM f l'
  end.

(** The same with an accumulator, the local variables of the loop. *)
Fixpoint foldM {W A S} (f : S -> A -> M W S) (s : S) (l : list A) : M W S :=
  match l with
  | [] => mret s
  | x :: l' => f s x ≫= fun s' => foldM f s' l'
  end.

Section MonadLemmas.
  Context {W : Type}.

Lemma bind_eq {A B} (m : M W A) (f : A -> M W B) w a w' :
  m w = Some (a, w') -> (m ≫= f) w = f a w'.
Proof. intros H. unfold mbind, M_bind. by rewrite H. Qed.

Lemma bind_assoc {A B C} (m : M W A) (f : A -> M W B) (g : B -> M W C) w :
  ((m ≫= f) ≫= g) w = (m ≫= fun x => f x ≫= g) w.
Proof. unfold mbind, M_bind. by destruct (m w) as [[??]|]. Qed.

Lemma ret_eq {A} (a : A) (w : W) : mret (M := M W) a w = Some (a, w).
Proof. done. Qed.

Lemma gets_eq {A} (f : W -> A) w : gets f w = Some (f w, w).
Proof. done. Qed.

Lemma modify_eq (f : W -> W) w : modify f w = Some (tt, f w).
Proof. done. Qed.

(** The function returns, and [Q] holds of its result and the state then. *)
Definition runs {A} (m : M W A) (w : W) (Q : A -> W -> Prop) : Prop :=
  exists a w', m w = Some (a, w') /\ Q a w'.

Lemma runs_ret {A} (a : A) w (Q : A -> W -> Prop) : Q a w -> runs (mret a) w Q.
Proof. intros H. by exists a, w. Qed.

Lemma runs_bind {A B} (m : M W A) (f : A -> M W B) w (Q : B -> W -> Prop) :
  runs m w (fun a w' => runs (f a) w' Q) -> runs (m ≫= f) w Q.
Proof.
  intros (a & w' & Hm & b & w'' & Hf & HQ). exists b, w''. split; [|done]. by rewrite (bind_eq _ _ _ _ _ Hm).
Qed.

Lemma runs_conseq {A} (m : M W A) w (Q Q' : A -> W -> Prop) :
  runs m w Q' -> (forall a w', Q' a w' -> Q a w') -> runs m w Q.
Proof. intros (a & w' & Hm & HQ) H. exists a, w'. auto. Qed.

Lemma runs_and {A} (m : M W A) w (P Q : A -> W -> Prop) :
  runs m w P -> runs m w Q -> runs m w (fun a w' => P a w' /\ Q a w').
Proof. intros (a & w' & E & HP) (b & w'' & E' & HQ). rewrite E in E'. injection E' as <- <-. by exists a, w'. Qed.

Lemma runs_gets {A} (g : W -> A) w (Q : A -> W -> Prop) : Q (g w) w -> runs (gets g) w Q.
Proof. intros H. by exists (g w), w. Qed.

Lemma runs_modify (g : W -> W) w (Q : unit -> W -> Prop) : Q tt (g w) -> runs (modify g) w Q.
Proof. intros H. by exists tt, (g w). Qed.

Lemma runs_lift {A} (o : W -> option A) w a (Q : A -> W -> Prop) : o w = Some a -> Q a w -> runs (lift_opt o) w Q.
Proof. intros E H. exists a, w. unfold lift_opt. by rewrite E. Qed.

Lemma runs_andthen (m k : M W Z) w (Q : Z -> W -> Prop) :
  runs m w (fun e w' => if Z.eqb e 0 then runs k w' Q else Q e w') -> runs (andthen m k) w Q.
Proof.
  intros H. unfold andthen. apply runs_bind. eapply runs_conseq; [exact H|]. intros e w' H'. simpl in *.
  destruct (Z.eqb e 0); [done|]. by apply runs_ret.
Qed.

Lemma runs_when (b : bool) (m : M W unit) w (Q : unit -> W -> Prop) :
  (b = true -> runs m w Q) -> (b = false -> Q tt w) -> runs (when b m) w Q.
Proof. intros H1 H2. destruct b; [by apply H1|]. by apply runs_ret, H2. Qed.

(** The loop rules: an invariant of the state that every round keeps. *)
Lemma runs_iterM {A} (I : W -> Prop) (f : A -> M W unit) l w :
  (forall x w, x ∈ l -> I w -> runs (f x) w (fun _ => I)) -> I w -> runs (iterM f l) w (fun _ => I).
Proof.
  revert w. induction l as [|x l IH]; intros w Hf Hw; [by apply runs_ret|]. simpl. apply runs_bind.
  eapply runs_conseq; [apply Hf; [by left|done]|]. intros u w' Hw'. apply IH; [|done]. intros y w'' Hy. apply Hf. by right.
Qed.

Lemma runs_foldM {A S} (I : W -> Prop) (f : S -> A -> M W S) l s w :
  (forall x s w, x ∈ l -> I w -> runs (f s x) w (fun _ => I)) -> I w -> runs (foldM f s l) w (fun _ => I).
Proof.
  revert s w. induction l as [|x l IH]; intros s w Hf Hw; [by apply runs_ret|]. simpl. apply runs_bind.
  eapply runs_conseq; [apply Hf; [by left|done]|]. intros s' w' Hw'. apply IH; [|done]. intros y s'' w'' Hy. apply Hf. by right.
Qed.
End MonadLemmas.

Create HintDb spider_db discriminated.

(** Runs a straight-line prefix of a monadic body on a concrete state. *)
Ltac mrun :=
  repeat (unfold mbind, M_bind, mret, M_ret, gets, modify, when, ub, lift_opt; simpl).
