(* ===== verification/SqlString.v ===== *)
(** * The String class

    The growing byte buffer in which SQL text is built (sql/sql_string.h,
    sql/sql_string.cc), which spider_string (storage/spider/spd_malloc.cc) wraps
    with its memory accounting.  The memory of a buffer is a list of bytes; [None]
    is an access outside of it.  Lengths have 32 bits, sizes 64. *)

From Stdlib Require Import NArith Lia.
From stdpp Require Import base numbers list.
From S2P Require Import Prelude.
Local Open Scope spider_scope.
Local Open Scope N_scope.

(** [alloced]: the memory belongs to the buffer; otherwise it is that of the
    caller, or constant with [Alloced_length] 0. *)
Record string_buf := mk_buf {
  Ptr : list N;
  str_length : N;
  Alloced_length : N;
  extra_alloc : N;
  alloced : bool }.

#[export] Instance eta_buf : Eta string_buf := fun s =>
  mk_buf (Ptr s) (str_length s) (Alloced_length s) (extra_alloc s) (alloced s).

(** A buffer, and the number of allocations made so far. *)
Record buf_state := mk_buf_state {
  buf : string_buf;
  buf_tick : nat }.

#[export] Instance eta_buf_state : Eta buf_state := fun s => mk_buf_state (buf s) (buf_tick s).

(** Which allocations fail, and what new memory holds. *)
Class Heap := mk_heap {
  heap_oom : nat -> bool;
  junk : nat -> nat -> N }.

Definition uint32 (n : N) : N := n mod 2 ^ 32.

(** [memcpy (Ptr + pos, bs)] *)
Definition write (mem : list N) (pos : nat) (bs : list N) : option (list N) :=
  if decide (pos + length bs <= length mem)%nat then Some (take pos mem ++ bs ++ drop (pos + length bs) mem) else None.

(** The bytes of the string. *)
Definition contents (s : string_buf) : list N := take (N.to_nat (str_length s)) (Ptr s).

Section Buffer.
  Context {H : Heap}.

Definition get_buf {A} (f : string_buf -> A) : M buf_state A := gets (fun st => f (buf st)).

Definition set_buf (f : string_buf -> string_buf) : M buf_state unit := modify (fun st => st <| buf ::= f |>).

(** New memory of [n] bytes, if there is any. *)
Definition new_bytes (n : N) : M buf_state (option (list N)) := fun st =>
  Some (if heap_oom (buf_tick st) then None else Some (junk (buf_tick st) <$> seq 0 (N.to_nat n)),
        st <| buf_tick := S (buf_tick st) |>).

Definition put_bytes (pos : N) (bs : list N) : M buf_state unit :=
  mem ← lift_opt (fun st => write (Ptr (buf st)) (N.to_nat pos) bs);
  set_buf (fun s => s <| Ptr := mem |>).

Definition ALIGN_SIZE (n : N) : N := (n + 7) / 8 * 8.

(** TRUE: the memory could not be had. *)
Definition realloc_raw (alloc_length : N) : M buf_state bool :=
  s ← get_buf id;
  if Alloced_length s <=? alloc_length then
    let len := uint32 (ALIGN_SIZE (alloc_length + 1)) in
    if len <=? alloc_length then mret true else
    m ← new_bytes len;
    match m with
    | None => mret true
    | Some m =>
        if alloced s then
          set_buf (fun s => s <| Ptr := take (N.to_nat len) (Ptr s ++ drop (length (Ptr s)) m) |> <| Alloced_length := len |>);;
          mret false
        else
          let n := if len - 1 <? str_length s then 0 else str_length s in
          src ← lift_opt (fun _ => if decide (N.to_nat n <= length (Ptr s))%nat then Some (take (N.to_nat n) (Ptr s)) else None);
          m ← lift_opt (fun _ => write m 0 (src ++ [0]));
          set_buf (fun s => s <| Ptr := m |> <| str_length := n |> <| Alloced_length := len |> <| alloced := true |>);;
          mret false
    end
  else mret false.

(** [realloc]; the byte at [arg_length] is set to 0. *)
Definition realloc (arg_length : N) : M buf_state bool :=
  e ← realloc_raw arg_length;
  if (e : bool) then mret true else put_bytes arg_length [0];; mret false.

Definition realloc_with_extra (arg_length : N) : M buf_state bool :=
  set_buf (fun s => if extra_alloc s <? 4096 then s <| extra_alloc := extra_alloc s * 2 + 128 |> else s);;
  extra ← get_buf extra_alloc;
  e ← realloc_raw (arg_length + extra);
  if (e : bool) then mret true else put_bytes arg_length [0];; mret false.

Definition realloc_with_extra_if_needed (arg_length : N) : M buf_state bool :=
  n ← get_buf Alloced_length;
  if arg_length <? n then put_bytes arg_length [0];; mret false
  else realloc_with_extra arg_length.

(** The argument of [spider_string::reserve] has 32 bits. *)
Definition reserve (space_needed : N) : M buf_state bool :=
  n ← get_buf str_length;
  realloc (n + uint32 space_needed).

(** The memory is not checked. *)
Definition q_append (data : list N) : M buf_state unit :=
  n ← get_buf str_length;
  put_bytes n data;;
  set_buf (fun s => s <| str_length := uint32 (n + N.of_nat (length data)) |>).

(** [append (s, arg_length)] of an ASCII compatible character set: the new length
    is a sum of 32 bits. *)
Definition append (data : list N) : M buf_state bool :=
  match take (N.to_nat (uint32 (N.of_nat (length data)))) data with
  | [] => mret false
  | data =>
      n ← get_buf str_length;
      e ← realloc_with_extra_if_needed (uint32 (n + N.of_nat (length data)));
      if (e : bool) then mret true else q_append data;; mret false
  end.

(** [append (s, arg_length, cs)] without conversion: the new length is a size. *)
Definition append_cs (data : list N) : M buf_state bool :=
  n ← get_buf str_length;
  e ← realloc_with_extra_if_needed (n + N.of_nat (length data));
  if (e : bool) then mret true else q_append data;; mret false.

Definition real_alloc (length : N) : M buf_state bool :=
  let arg_length := ALIGN_SIZE (length + 1) in
  if arg_length <=? length then mret true else
  set_buf (fun s => s <| str_length := 0 |>);;
  n ← get_buf Alloced_length;
  if n <? arg_length then
    set_buf (fun _ => mk_buf [] 0 0 0 false);;
    m ← new_bytes arg_length;
    match m with
    | None => mret true
    | Some m =>
        set_buf (fun s => s <| Ptr := m |> <| Alloced_length := uint32 arg_length |> <| alloced := true |>);;
        put_bytes 0 [0];; mret false
    end
  else put_bytes 0 [0];; mret false.

(** [copy (str)] of another string with the bytes [str]. *)
Definition copy (str : list N) : M buf_state bool :=
  n ← get_buf Alloced_length;
  let length := N.of_nat (length str) in
  e ← (if length <? n then mret false else real_alloc length);
  if (e : bool) then mret true else
  set_buf (fun s => s <| str_length := length |>);;
  put_bytes 0 (str ++ [0]);; mret false.
End Buffer.

(** ** Memory *)

(** What is known of every buffer. *)
Record buf_ok (s : string_buf) : Prop := mk_buf_ok {
  buf_length : str_length s <= N.of_nat (length (Ptr s));
  buf_alloced : Alloced_length s <= N.of_nat (length (Ptr s));
  buf_owned : alloced s = true -> Alloced_length s = N.of_nat (length (Ptr s));
  buf_32 : N.of_nat (length (Ptr s)) < 2 ^ 32;
  buf_extra : extra_alloc s <= 8318 }.

(** [s'] is [s] with [room] more bytes in its memory after the string. *)
Record grown (room : N) (s s' : string_buf) : Prop := mk_grown {
  grown_ok : buf_ok s';
  grown_length : str_length s' = str_length s;
  grown_contents : contents s' = contents s;
  grown_room : str_length s + room < N.of_nat (length (Ptr s')) }.

Lemma uint32_small n : n < 2 ^ 32 -> uint32 n = n.
Proof. apply N.mod_small. Qed.

Lemma uint32_lt n : uint32 n < 2 ^ 32.
Proof. by apply N.mod_lt. Qed.

Lemma ALIGN_SIZE_le n : n <= ALIGN_SIZE n <= n + 7.
Proof. unfold ALIGN_SIZE. pose proof (N.div_mod (n + 7) 8 ltac:(done)). pose proof (N.mod_lt (n + 7) 8 ltac:(done)). pose proof (N.le_0_l ((n + 7) mod 8)). lia. Qed.

Lemma write_some mem pos bs : (pos + length bs <= length mem)%nat ->
  write mem pos bs = Some (take pos mem ++ bs ++ drop (pos + length bs) mem).
Proof. intros H. unfold write. by rewrite decide_True. Qed.

Lemma write_length mem pos bs mem' : write mem pos bs = Some mem' -> length mem' = length mem.
Proof.
  unfold write. destruct (decide _); [|done]. intros [= <-]. rewrite !length_app, length_take, length_drop. lia.
Qed.

(** What is before a write is not changed. *)
Lemma write_before mem pos bs mem' n : write mem pos bs = Some mem' -> (n <= pos)%nat -> take n mem' = take n mem.
Proof.
  unfold write. destruct (decide _); [|done]. intros [= <-] Hn. rewrite take_app_le by (rewrite length_take; lia).
  by rewrite take_take, Nat.min_l.
Qed.

Lemma write_at mem pos bs mem' : write mem pos bs = Some mem' -> take (pos + length bs) mem' = take pos mem ++ bs.
Proof.
  unfold write. destruct (decide _); [|done]. intros [= <-]. rewrite app_assoc, take_app_le by (rewrite length_app, length_take; lia).
  apply take_ge. rewrite length_app, length_take. lia.
Qed.

Section Spec.
  Context {H : Heap}.

Lemma runs_put_bytes pos bs st (Q : unit -> buf_state -> Prop) :
  (N.to_nat pos + length bs <= length (Ptr (buf st)))%nat ->
  (forall mem, write (Ptr (buf st)) (N.to_nat pos) bs = Some mem -> Q tt (st <| buf ::= fun s => s <| Ptr := mem |> |>)) ->
  runs (put_bytes pos bs) st Q.
Proof.
  intros Hb HQ. unfold put_bytes. apply runs_bind. eapply runs_lift; [by apply write_some|]. apply runs_modify, HQ, write_some, Hb.
Qed.

(** Why [n] bytes are not given: an allocation fails, or the length does not fit
    into 32 bits. *)
Definition refused (n : N) : Prop := (exists t, heap_oom t = true) \/ 2 ^ 32 <= n + 8.

Lemma length_junk t n : length (junk t <$> seq 0 n) = n.
Proof. by rewrite length_fmap, length_seq. Qed.

(** Memory that is made larger. *)
Lemma larger_ok s len n m : buf_ok s -> alloced s = true -> str_length s <= n -> Alloced_length s <= n -> n < len -> len < 2 ^ 32 ->
  length m = N.to_nat len ->
  grown (n - str_length s) s (s <| Ptr := take (N.to_nat len) (Ptr s ++ drop (length (Ptr s)) m) |> <| Alloced_length := len |>).
Proof.
  intros [H1 H2 H3 H4 H5] Ea Hs Ha Hn Hl Hm. specialize (H3 Ea).
  rewrite take_ge by (rewrite length_app, length_drop; lia).
  assert (El : length (Ptr s ++ drop (length (Ptr s)) m) = N.to_nat len) by (rewrite length_app, length_drop; lia).
  split; cbn; [split; cbn; rewrite ?El; lia|done| |rewrite El; lia]. unfold contents. cbn. apply take_app_le. lia.
Qed.

(** New memory into which the string is copied. *)
Lemma copied_ok s len n m m' : buf_ok s -> str_length s <= n -> n < len -> len < 2 ^ 32 -> length m = N.to_nat len ->
  write m 0 (contents s ++ [0]) = Some m' ->
  grown (n - str_length s) s (s <| Ptr := m' |> <| str_length := str_length s |> <| Alloced_length := len |> <| alloced := true |>).
Proof.
  intros [H1 H2 H3 H4 H5] Hs Hn Hl Hm Hw. pose proof (write_length _ _ _ _ Hw) as El. rewrite Hm in El.
  split; cbn; [split; cbn; rewrite ?El; lia|done| |rewrite El; lia]. unfold contents at 1. cbn. apply write_at in Hw.
  rewrite take_0, app_nil_l in Hw. assert (Hc : length (contents s) = N.to_nat (str_length s)) by (unfold contents; rewrite length_take; lia).
  rewrite <- (Nat.min_l (N.to_nat (str_length s)) (0 + length (contents s ++ [0]))), <- take_take, Hw by (rewrite length_app; simpl; lia).
  rewrite take_app_le by lia. apply take_ge. lia.
Qed.

(** After [realloc_raw] there is room up to [n], or nothing has changed. *)
Lemma runs_realloc_raw n st : buf_ok (buf st) -> str_length (buf st) <= n ->
  runs (realloc_raw n) st (fun e st' => if (e : bool) then buf st' = buf st /\ refused n else grown (n - str_length (buf st)) (buf st) (buf st')).
Proof.
  intros Hok Hn. unfold realloc_raw, get_buf. apply runs_bind, runs_gets. cbv beta delta [id].
  destruct (N.leb_spec (Alloced_length (buf st)) n); [|apply runs_ret; by destruct Hok; split; [|done|done|lia]].
  pose proof (ALIGN_SIZE_le (n + 1)) as [Hal Hau]. cbv zeta. pose proof (uint32_lt (ALIGN_SIZE (n + 1))) as Hlt.
  destruct (N.leb_spec (uint32 (ALIGN_SIZE (n + 1))) n) as [Hle|].
  { apply runs_ret. split; [done|right]. destruct (N.lt_ge_cases (ALIGN_SIZE (n + 1)) (2 ^ 32)) as [E|]; [|lia]. rewrite uint32_small in Hle by done. lia. }
  apply runs_bind. unfold new_bytes, runs at 1.
  eexists _, _. split; [done|]. destruct (heap_oom _) eqn:Eo; [apply runs_ret; split; [done|left; by eexists]|]. destruct (alloced (buf st)) eqn:Ea.
  - apply runs_bind, runs_modify, runs_ret. eapply larger_ok; [done|done|done|done| |done|apply length_junk]. done.
  - assert (Hs : (uint32 (ALIGN_SIZE (n + 1)) - 1 <? str_length (buf st)) = false) by (apply N.ltb_ge; lia). rewrite Hs. apply runs_bind.
    eapply runs_lift; [rewrite decide_True; [done|]; destruct Hok; lia|]. apply runs_bind.
    eapply runs_lift; [apply write_some|]. { rewrite length_app, length_take, length_junk. simpl. lia. }
    apply runs_bind, runs_modify, runs_ret. eapply copied_ok; [done|done| |done|apply length_junk|apply write_some]; [done|].
    rewrite length_app, length_junk. unfold contents. rewrite length_take. simpl. lia.
Qed.

Lemma runs_realloc n st : buf_ok (buf st) -> str_length (buf st) <= n ->
  runs (realloc n) st (fun e st' => if (e : bool) then buf st' = buf st /\ refused n else grown (n - str_length (buf st)) (buf st) (buf st')).
Proof.
  intros Hok Hn. unfold realloc. apply runs_bind. eapply runs_conseq; [by apply runs_realloc_raw|]. intros [] st' H'; [by apply runs_ret|].
  destruct H' as [Hok' El Ec Hr]. apply runs_bind, runs_put_bytes; [simpl; lia|]. intros mem Hw. apply runs_ret.
  pose proof (write_length _ _ _ _ Hw) as Hlen. destruct Hok' as [K1 K2 K3 K4 K5]. split; cbn; [split; cbn; rewrite ?Hlen; done|done| |rewrite Hlen; lia].
  rewrite <- Ec. unfold contents. cbn. apply (write_before _ _ _ _ _ Hw). lia.
Qed.

Lemma runs_reserve k st : buf_ok (buf st) -> k < 2 ^ 32 ->
  runs (reserve k) st (fun e st' => if (e : bool) then buf st' = buf st /\ refused (str_length (buf st) + k) else grown k (buf st) (buf st')).
Proof.
  intros Hok Hk. unfold reserve, get_buf. apply runs_bind, runs_gets. rewrite uint32_small by done.
  eapply runs_conseq; [apply runs_realloc; [done|lia]|]. intros [] st' H'; [done|]. by replace (str_length (buf st) + k - str_length (buf st)) with k in H' by lia.
Qed.

Lemma runs_extra_if_needed k st : buf_ok (buf st) ->
  runs (realloc_with_extra_if_needed (str_length (buf st) + k)) st (fun e st' =>
    if (e : bool) then buf_ok (buf st') /\ contents (buf st') = contents (buf st) /\ refused (str_length (buf st) + k + 8318)
    else grown k (buf st) (buf st')).
Proof.
  intros Hok. unfold realloc_with_extra_if_needed, get_buf. apply runs_bind, runs_gets. destruct Hok as [H1 H2 H3 H4 H5] eqn:E. clear E.
  destruct (N.ltb_spec (str_length (buf st) + k) (Alloced_length (buf st))).
  - apply runs_bind, runs_put_bytes; [simpl; lia|]. intros mem Hw. apply runs_ret. pose proof (write_length _ _ _ _ Hw) as Hl.
    split; cbn; [split; cbn; rewrite ?Hl; done|done| |rewrite Hl; lia]. unfold contents. cbn. apply (write_before _ _ _ _ _ Hw). lia.
  - unfold realloc_with_extra. apply runs_bind, runs_modify. apply runs_bind, runs_gets. apply runs_bind.
    match goal with |- runs (realloc_raw (_ + ?x)) ?st _ => set (st1 := st); set (extra := x) end.
    assert (Hp : Ptr (buf st1) = Ptr (buf st) /\ str_length (buf st1) = str_length (buf st) /\ Alloced_length (buf st1) = Alloced_length (buf st) /\
      alloced (buf st1) = alloced (buf st) /\ extra_alloc (buf st1) <= 8318) by (unfold st1; cbn; destruct (N.ltb_spec (extra_alloc (buf st)) 4096); cbn; split_and!; (done || lia)).
    destruct Hp as (P1 & P2 & P3 & P4 & P5).
    assert (Hc : contents (buf st1) = contents (buf st)) by (unfold contents; by rewrite P1, P2).
    assert (Hok1 : buf_ok (buf st1)) by (split; rewrite ?P1, ?P2, ?P3, ?P4; done).
    eapply runs_conseq; [apply runs_realloc_raw; [done|rewrite P2; lia]|]. intros [] st2 H'; [apply runs_ret; destruct H' as [-> [?|?]]; (split; [done|split; [done|]]); [by left|right; lia]|].
    destruct H' as [Hok2 El Ec Hr]. apply runs_bind, runs_put_bytes; [simpl; lia|]. intros mem Hw. apply runs_ret.
    pose proof (write_length _ _ _ _ Hw) as Hl. destruct Hok2 as [K1 K2 K3 K4 K5].
    split; cbn; [split; cbn; rewrite ?Hl; done|by rewrite El, P2| |rewrite Hl; lia].
    rewrite <- Hc, <- Ec. unfold contents. cbn. apply (write_before _ _ _ _ _ Hw). lia.
Qed.

(** [q_append] where there is room. *)
Lemma runs_q_append data st : buf_ok (buf st) -> str_length (buf st) + N.of_nat (length data) <= N.of_nat (length (Ptr (buf st))) ->
  runs (q_append data) st (fun _ st' => buf_ok (buf st') /\ contents (buf st') = contents (buf st) ++ data /\
    str_length (buf st') = str_length (buf st) + N.of_nat (length data) /\ length (Ptr (buf st')) = length (Ptr (buf st))).
Proof.
  intros [H1 H2 H3 H4 H5] Hr. unfold q_append, get_buf. apply runs_bind, runs_gets. apply runs_bind, runs_put_bytes; [lia|]. intros mem Hw.
  apply runs_modify. pose proof (write_length _ _ _ _ Hw) as Hl. cbn. rewrite uint32_small by lia. split_and!; [|unfold contents; cbn|done|done].
  - split; cbn; rewrite ?Hl; [lia|done|done|done|done].
  - rewrite N2Nat.inj_add, Nat2N.id. by apply write_at.
Qed.

(** [q_append] uses up reserved room. *)
Lemma runs_q_append_grown room data s st : grown room s (buf st) -> N.of_nat (length data) <= room ->
  runs (q_append data) st (fun _ st' => buf_ok (buf st') /\ contents (buf st') = contents s ++ data /\
    str_length (buf st') = str_length s + N.of_nat (length data) /\ str_length s + room < N.of_nat (length (Ptr (buf st')))).
Proof.
  intros [G1 G2 G3 G4] Hd. eapply runs_conseq; [apply runs_q_append; [done|lia]|]. intros [] st' (K1 & K2 & K3 & K4).
  rewrite K2, K3, K4, G2, G3. done.
Qed.

Lemma runs_append_cs data st : buf_ok (buf st) ->
  runs (append_cs data) st (fun e st' => buf_ok (buf st') /\ contents (buf st') = contents (buf st) ++ (if (e : bool) then [] else data) /\
    (e = true -> refused (str_length (buf st) + N.of_nat (length data) + 8318))).
Proof.
  intros Hok. unfold append_cs, get_buf. apply runs_bind, runs_gets, runs_bind. eapply runs_conseq; [by apply runs_extra_if_needed|].
  intros [] st' H'; [destruct H' as (? & ? & ?); apply runs_ret; by rewrite app_nil_r|]. apply runs_bind.
  eapply runs_conseq; [eapply runs_q_append_grown; [exact H'|done]|]. intros [] st'' (K1 & K2 & _). by apply runs_ret.
Qed.

Lemma runs_real_alloc n st : buf_ok (buf st) -> n + 8 < 2 ^ 32 ->
  runs (real_alloc n) st (fun e st' => if (e : bool) then exists t, heap_oom t = true
    else buf_ok (buf st') /\ n < N.of_nat (length (Ptr (buf st')))).
Proof.
  intros [H1 H2 H3 H4 H5] Hn. pose proof (ALIGN_SIZE_le (n + 1)) as [Hl Hu]. unfold real_alloc, get_buf.
  destruct (N.leb_spec (ALIGN_SIZE (n + 1)) n); [lia|]. apply runs_bind, runs_modify. apply runs_bind, runs_gets. cbn.
  destruct (N.ltb_spec (Alloced_length (buf st)) (ALIGN_SIZE (n + 1))).
  - apply runs_bind, runs_modify. apply runs_bind. unfold new_bytes, runs at 1. eexists _, _. split; [done|].
    destruct (heap_oom _) eqn:Eo; [apply runs_ret; by eexists|]. apply runs_bind, runs_modify. cbn.
    apply runs_bind, runs_put_bytes; [cbn; rewrite length_junk; lia|]. intros mem Hw. apply runs_ret. apply write_length in Hw. cbn in *.
    rewrite length_junk in Hw. rewrite Hw, uint32_small by lia. split; [split; cbn; rewrite ?Hw; lia|lia].
  - apply runs_bind, runs_put_bytes; [cbn; lia|]. intros mem Hw. apply runs_ret. apply write_length in Hw. cbn in *.
    rewrite Hw. split; [split; cbn; rewrite ?Hw; try done; lia|lia].
Qed.

Lemma runs_string_copy bs st : buf_ok (buf st) -> N.of_nat (length bs) + 8 < 2 ^ 32 ->
  runs (copy bs) st (fun e st' => if (e : bool) then exists t, heap_oom t = true else buf_ok (buf st') /\ contents (buf st') = bs).
Proof.
  intros Hok Hn. unfold copy, get_buf. apply runs_bind, runs_gets. cbv zeta. apply runs_bind.
  eapply runs_conseq with (Q' := fun e st' => if (e : bool) then exists t, heap_oom t = true
    else buf_ok (buf st') /\ N.of_nat (length bs) < N.of_nat (length (Ptr (buf st')))).
  { destruct (N.ltb_spec (N.of_nat (length bs)) (Alloced_length (buf st))); [|by apply runs_real_alloc].
    apply runs_ret. split; [done|]. destruct Hok. lia. }
  intros [] st' H'; [by apply runs_ret|]. destruct H' as ([H1 H2 H3 H4 H5] & Hl). apply runs_bind, runs_modify. cbn.
  apply runs_bind, runs_put_bytes; [cbn; rewrite length_app; simpl; lia|]. intros mem Hw. apply runs_ret.
  pose proof (write_length _ _ _ _ Hw) as El. apply write_at in Hw. cbn in El. change (take (length (bs ++ [0])) mem = bs ++ [0]) in Hw.
  split; [split; cbn; rewrite ?El; try done; lia|].
  unfold contents. cbn. rewrite Nat2N.id. rewrite <- (Nat.min_l (length bs) (length (bs ++ [0]))), <- take_take, Hw by (rewrite length_app; lia).
  by rewrite take_app_length.
Qed.

(** The sum of the lengths must fit into 32 bits. *)
Lemma runs_append data st : buf_ok (buf st) -> str_length (buf st) + N.of_nat (length data) < 2 ^ 32 ->
  runs (append data) st (fun e st' => buf_ok (buf st') /\ contents (buf st') = contents (buf st) ++ (if (e : bool) then [] else data) /\
    (e = true -> refused (str_length (buf st) + N.of_nat (length data) + 8318))).
Proof.
  intros Hok Hs. unfold append, get_buf. rewrite uint32_small, Nat2N.id, firstn_all by lia.
  destruct data as [|b data]; [apply runs_ret; by rewrite app_nil_r|].
  apply runs_bind, runs_gets. rewrite uint32_small by done. apply runs_bind. eapply runs_conseq; [by apply runs_extra_if_needed|].
  intros [] st' H'; [destruct H' as (? & ? & ?); apply runs_ret; by rewrite app_nil_r|]. apply runs_bind.
  eapply runs_conseq; [eapply runs_q_append_grown; [exact H'|done]|]. intros [] st'' (K1 & K2 & _). by apply runs_ret.
Qed.
(** ** Writing *)

(** The buffer holds [out], and has room for [room] bytes and a 0. *)
Definition written (out : list N) (s : string_buf) : Prop := buf_ok s /\ contents s = out.

Definition ready (out : list N) (room : N) (s : string_buf) : Prop :=
  written out s /\ str_length s + room < N.of_nat (length (Ptr s)).

Definition no_memory_left : Prop := exists t, heap_oom t = true.

(** A function that appends [text] to [out]: its result is 0, or there is no memory. *)
Definition wrote (out text : list N) (r : Z) (s : string_buf) : Prop :=
  (r = 0%Z /\ written (out ++ text) s) \/ (r = HA_ERR_OUT_OF_MEM /\ buf_ok s /\ no_memory_left).

Lemma written_length out s : written out s -> str_length s = N.of_nat (length out).
Proof. intros [[H1 H2 H3 H4 H5] <-]. unfold contents. rewrite length_take. lia. Qed.

Lemma ready_written out room s : ready out room s -> written out s.
Proof. by intros [H' _]. Qed.

Lemma refused_memory n : refused n -> n + 8 < 2 ^ 32 -> no_memory_left.
Proof. intros [?|?] Hn; [done|lia]. Qed.

Lemma reserves k out st : written out (buf st) -> N.of_nat (length out) + k + 8 < 2 ^ 32 ->
  runs (reserve k) st (fun e st' => if (e : bool) then written out (buf st') /\ no_memory_left else ready out k (buf st')).
Proof.
  intros Hw Hk. pose proof (written_length _ _ Hw) as El. destruct Hw as [Hok Hc].
  eapply runs_conseq; [apply runs_reserve; [done|lia]|]. intros [] st' H'.
  - destruct H' as [-> Hr]. split; [done|]. eapply refused_memory; [exact Hr|lia].
  - destruct H' as [G1 G2 G3 G4]. split; [split; [done|by rewrite G3]|by rewrite G2].
Qed.

Lemma q_appends data out room st : ready out room (buf st) -> N.of_nat (length data) <= room ->
  runs (q_append data) st (fun _ st' => ready (out ++ data) (room - N.of_nat (length data)) (buf st')).
Proof.
  intros [[Hok Hc] Hr] Hd. eapply runs_conseq; [apply runs_q_append; [done|lia]|]. intros [] st' (K1 & K2 & K3 & K4).
  split; [split; [done|by rewrite K2, Hc]|]. rewrite K3, K4. lia.
Qed.

Lemma appends data out st : written out (buf st) -> N.of_nat (length out) + N.of_nat (length data) + 8326 < 2 ^ 32 ->
  runs (append data) st (fun e st' => if (e : bool) then buf_ok (buf st') /\ no_memory_left else written (out ++ data) (buf st')).
Proof.
  intros Hw Hd. pose proof (written_length _ _ Hw) as El. destruct Hw as [Hok Hc].
  eapply runs_conseq; [apply runs_append; [done|lia]|]. intros [] st' (K1 & K2 & K3).
  - split; [done|]. eapply refused_memory; [by apply K3|lia].
  - split; [done|by rewrite K2, Hc].
Qed.

Lemma appends_cs data out st : written out (buf st) -> N.of_nat (length out) + N.of_nat (length data) + 8326 < 2 ^ 32 ->
  runs (append_cs data) st (fun e st' => if (e : bool) then buf_ok (buf st') /\ no_memory_left else written (out ++ data) (buf st')).
Proof.
  intros Hw Hd. pose proof (written_length _ _ Hw) as El. destruct Hw as [Hok Hc].
  eapply runs_conseq; [by apply runs_append_cs|]. intros [] st' (K1 & K2 & K3).
  - split; [done|]. eapply refused_memory; [by apply K3|lia].
  - split; [done|by rewrite K2, Hc].
Qed.

(** ** Writing over what is there *)

(** The string is [out], and the memory after it holds [rest]. *)
Definition holds (out rest : list N) (s : string_buf) : Prop := buf_ok s /\ str_length s = N.of_nat (length out) /\ Ptr s = out ++ rest.

Lemma holds_written out rest s : holds out rest s -> written out s.
Proof. intros (Hok & El & Ep). split; [done|]. unfold contents. rewrite El, Ep, Nat2N.id. apply take_app_length. Qed.

Lemma written_holds out s : written out s -> holds out (drop (length out) (Ptr s)) s.
Proof.
  intros Hw. pose proof (written_length _ _ Hw) as El. destruct Hw as [Hok Hc]. unfold contents in Hc. rewrite El, Nat2N.id in Hc.
  split; [done|split; [done|]]. rewrite <- Hc at 1. by rewrite take_drop.
Qed.

Lemma ready_holds out room s : ready out room s -> exists rest, holds out rest s /\ room < N.of_nat (length rest).
Proof.
  intros [Hw Hr]. exists (drop (length out) (Ptr s)). split; [by apply written_holds|]. rewrite (written_length _ _ Hw) in Hr. rewrite length_drop. lia.
Qed.

(** The string is cut, or made longer over what is in the memory. *)
Lemma holds_length out rest out' rest' s : holds out rest s -> out ++ rest = out' ++ rest' ->
  holds out' rest' (s <| str_length := N.of_nat (length out') |>).
Proof.
  intros ([H1 H2 H3 H4 H5] & El & Ep) E. split; [split; cbn; try done|split; [done|cbn; by rewrite Ep]]. rewrite Ep, E, length_app. lia.
Qed.

Lemma q_append_holds data out rest st : holds out rest (buf st) -> (length data <= length rest)%nat ->
  runs (q_append data) st (fun _ st' => holds (out ++ data) (drop (length data) rest) (buf st')).
Proof.
  intros ([H1 H2 H3 H4 H5] & El & Ep) Hd. unfold q_append, get_buf. apply runs_bind, runs_gets.
  assert (Hlen : length (Ptr (buf st)) = (length out + length rest)%nat) by (by rewrite Ep, length_app).
  apply runs_bind, runs_put_bytes; [lia|]. intros mem Hw. apply runs_modify. pose proof (write_length _ _ _ _ Hw) as Em.
  rewrite El, Nat2N.id in Hw. rewrite write_some in Hw by lia. injection Hw as <-. rewrite uint32_small by lia.
  split; [split; cbn; rewrite ?Em; (done || lia)|]. split; cbn; [rewrite El, length_app; lia|].
  by rewrite Ep, take_app_length, drop_app_add, app_assoc.
Qed.
End Spec.

(** The next step of a writer: after [reserve] the error is returned or the proof
    goes on, and [q_append] takes from the room. *)
Ltac reserve_step :=
  apply runs_bind; eapply runs_conseq; [eapply reserves; [eassumption || (eapply ready_written; eassumption)|]|].

Ltac q_step :=
  apply runs_bind; eapply runs_conseq; [eapply q_appends; [eassumption|]|].
