(* ===== verification/SqlEscape.v ===== *)
(** * Values in SQL text

    How Spider writes the value of a column into a statement, and how the server
    that gets the statement reads it: the character sets (strings/ctype-*.c), the
    escaping of mysys/charset.c, spider_string::append_escape_string and
    spider_db_mysql_util::append_column_value on the side of Spider, and the text
    literals of the lexer (sql/sql_lex.cc) on the side of the data node. *)

From Stdlib Require Import ZArith NArith Lia.
From stdpp Require Import base numbers list.
From S2P Require Import Prelude.
From S2P Require Import SqlString.
Local Open Scope spider_scope.
Local Open Scope N_scope.

(** ** Character sets *)

(** [charlen]: the length of the character at the start of a string, or a number
    below 1.  [use_mb]: there are characters of more than one byte. *)
Class Charset := mk_charset {
  use_mb : bool;
  charlen : list N -> Z }.

Definition MY_CS_ILSEQ : Z := 0%Z.
Definition MY_CS_TOOSMALLN (n : Z) : Z := (-100 - n)%Z.

Definition is_continuation_byte (c : N) : bool := N.lxor c 128 <? 64.

Definition my_valid_mbcharlen_utf8mb3 (s : list N) : Z :=
  match s with
  | [] => MY_CS_TOOSMALLN 1
  | c :: s =>
      if c <? 128 then 1%Z else
      if c <? 194 then MY_CS_ILSEQ else
      if c <? 224 then
        match s with
        | s1 :: _ => if is_continuation_byte s1 then 2%Z else MY_CS_ILSEQ
        | _ => MY_CS_TOOSMALLN 2
        end
      else
        match s with
        | s1 :: s2 :: _ =>
            if is_continuation_byte s1 && is_continuation_byte s2 && ((225 <=? c) || (160 <=? s1)) then 3%Z else MY_CS_ILSEQ
        | _ => MY_CS_TOOSMALLN 3
        end
  end.

Definition my_charlen_utf8 (s : list N) : Z :=
  match s with
  | [] => MY_CS_TOOSMALLN 1
  | c :: _ => if c <? 240 then my_valid_mbcharlen_utf8mb3 s else MY_CS_ILSEQ
  end.

Definition my_charlen_utf8mb4 (s : list N) : Z :=
  match s with
  | [] => MY_CS_TOOSMALLN 1
  | c :: s' =>
      if c <? 240 then my_valid_mbcharlen_utf8mb3 s else
      if c <? 245 then
        match s' with
        | s1 :: s2 :: s3 :: _ =>
            if is_continuation_byte s1 && is_continuation_byte s2 && is_continuation_byte s3 &&
               ((241 <=? c) || (144 <=? s1)) && ((c <=? 243) || (s1 <=? 143)) then 4%Z else MY_CS_ILSEQ
        | _ => MY_CS_TOOSMALLN 4
        end
      else MY_CS_ILSEQ
  end.

Definition isgbkcode (c d : N) : bool :=
  (129 <=? c) && (c <=? 254) && (((64 <=? d) && (d <=? 126)) || ((128 <=? d) && (d <=? 254))).

Definition my_charlen_gbk (s : list N) : Z :=
  match s with
  | [] => MY_CS_TOOSMALLN 1
  | b :: s =>
      if b <? 128 then 1%Z else
      match s with
      | [] => MY_CS_TOOSMALLN 2
      | b1 :: _ => if isgbkcode b b1 then 2%Z else MY_CS_ILSEQ
      end
  end.

Definition my_charlen_8bit (s : list N) : Z :=
  match s with [] => MY_CS_TOOSMALLN 1 | _ => 1%Z end.

Definition utf8 : Charset := mk_charset true my_charlen_utf8.
Definition utf8mb4 : Charset := mk_charset true my_charlen_utf8mb4.
Definition gbk : Charset := mk_charset true my_charlen_gbk.
Definition latin1 : Charset := mk_charset false my_charlen_8bit.

(** What the writer and the reader of SQL text need of a character set. *)
Class CharsetOk (C : Charset) : Prop := mk_charset_ok {
  ascii_single b s : b < 128 -> charlen (b :: s) = 1%Z;
  single_stable b s t : charlen (b :: s) = 1%Z -> charlen (b :: t) = 1%Z;
  multi_stable s t : (1 < charlen s)%Z ->
    (Z.to_nat (charlen s) <= length s)%nat /\ charlen (take (Z.to_nat (charlen s)) s ++ t) = charlen s;
  multi_high s : (1 < charlen s)%Z -> 39 ∉ take (Z.to_nat (charlen s)) s;
  no_mb b s : use_mb = false -> charlen (b :: s) = 1%Z }.

(** ** Writing *)

Definition my_ismbchar {C : Charset} (s : list N) : nat :=
  if (1 <? charlen s)%Z then Z.to_nat (charlen s) else 0%nat.

(** What is put before a byte that cannot stand in a literal. *)
Definition escape_of (b : N) : option N :=
  match b with
  | 0 => Some 48
  | 10 => Some 110
  | 13 => Some 114
  | 92 => Some 92
  | 39 => Some 39
  | 34 => Some 34
  | 26 => Some 90
  | _ => None
  end.

Section Writer.
  Context {C : Charset} {H : Heap}.

(** The loop of [escape_string_for_mysql]: the bytes written from [to] on, and
    whether [to_end], [room] bytes further, was met. *)
Fixpoint escape_loop (fuel room : nat) (from : list N) : list N * bool :=
  match fuel, from with
  | S fuel, b :: from' =>
      let tmp_length := if use_mb then charlen from else 1%Z in
      if (1 <? tmp_length)%Z then
        let n := Z.to_nat tmp_length in
        if (room <? n)%nat then ([], true) else
        let r := escape_loop fuel (room - n) (drop n from) in (take n from ++ r.1, r.2)
      else
        match (if (tmp_length <? 1)%Z then if b =? 0 then None else Some b else escape_of b) with
        | Some e =>
            if (room <? 2)%nat then ([], true) else
            let r := escape_loop fuel (room - 2) from' in (92 :: e :: r.1, r.2)
        | None =>
            if (room <? 1)%nat then ([], true) else
            let r := escape_loop fuel (room - 1) from' in (b :: r.1, r.2)
        end
  | _, _ => ([], false)
  end.

(** [escape_string_for_mysql] with a [to_length] of 0: the bytes written, the last
    a 0, and the length returned. *)
Definition escape_string_for_mysql (from : list N) : list N * N :=
  let r := escape_loop (length from) (2 * length from) from in
  (r.1 ++ [0], if r.2 then 2 ^ 64 - 1 else N.of_nat (length r.1)).

Definition append_escape_string (st : list N) : M buf_state unit :=
  n ← get_buf str_length;
  let r := escape_string_for_mysql st in
  put_bytes n r.1;;
  set_buf (fun s => s <| str_length := uint32 (n + r.2) |>).
End Writer.

(** ** Reading *)

(** What the lexer makes of a text literal.  The rest is the text after it. *)
Inductive lexed :=
  | end_of_query
  | no_memory
  | lex_text (to : list N) (is_8bit : bool) (rest : list N).

Definition unescape_of (c : N) : list N :=
  match c with
  | 110 => [10]
  | 116 => [9]
  | 114 => [13]
  | 98 => [8]
  | 48 => [0]
  | 90 => [26]
  | 95 | 37 => [92; c]
  | _ => [c]
  end.

Section Lexer.
  Context {C : Charset}.

(** [my_unescape]: a single [sep] at the end makes it run past the end. *)
Fixpoint my_unescape (fuel : nat) (sep : N) (backslash_escapes : bool) (str : list N) : option (list N) :=
  match fuel, str with
  | _, [] => Some []
  | 0%nat, _ => None
  | S fuel, b :: str' =>
      let l := if use_mb then my_ismbchar str else 0%nat in
      if negb (l =? 0)%nat then (take l str ++.) <$> my_unescape fuel sep backslash_escapes (drop l str) else
      match (if backslash_escapes && (b =? 92) then str' else []) with
      | c :: str'' => (unescape_of c ++.) <$> my_unescape fuel sep backslash_escapes str''
      | [] =>
          if b =? sep then
            match str' with
            | [] => None
            | _ :: str'' => (b ::.) <$> my_unescape fuel sep backslash_escapes str''
            end
          else (b ::.) <$> my_unescape fuel sep backslash_escapes str'
      end
  end.

(** The loop of [get_text] over what is left of the query: the number of bytes up to
    and with the closing [sep], and the two flags; [None] at the end of the query.
    After the query there is a byte 0. *)
Fixpoint get_text_loop (fuel : nat) (sep : N) (no_backslash : bool) (input : list N) (ptr : nat) (found_escape is_8bit : bool)
    : option (nat * bool * bool) :=
  match fuel, input with
  | S fuel, c :: input' =>
      let is_8bit := is_8bit || (128 <=? c) in
      let l := if use_mb then my_ismbchar input else 0%nat in
      if negb (l =? 0)%nat then get_text_loop fuel sep no_backslash (drop l input) (ptr + l) found_escape is_8bit else
      if (c =? 92) && negb no_backslash then
        match input' with
        | [] => None
        | _ :: input'' => get_text_loop fuel sep no_backslash input'' (ptr + 2) true is_8bit
        end
      else if c =? sep then
        if default 0 (head input') =? c then get_text_loop fuel sep no_backslash (tail input') (ptr + 2) true is_8bit
        else Some (S ptr, found_escape, is_8bit)
      else get_text_loop fuel sep no_backslash input' (S ptr) found_escape is_8bit
  | _, _ => None
  end.

(** [get_text (dst, sep, 1, 1)] at a token that starts with [sep]; [mem]: there is
    memory for the text.  [None]: the loop of [my_unescape] leaves the text. *)
Definition get_text (mem no_backslash : bool) (sep : N) (tok : list N) : option lexed :=
  match get_text_loop (length tok) sep no_backslash (drop 1 tok) 1 false false with
  | None => Some end_of_query
  | Some (ptr, found_escape, is_8bit) =>
      let str := take (ptr - 2) (drop 1 tok) in
      if mem then
        (fun to => lex_text to is_8bit (drop ptr tok)) <$>
        (if (found_escape : bool) then my_unescape (length str) sep (negb no_backslash) str else Some str)
      else Some no_memory
  end.
End Lexer.

(** ** Column values *)

Definition MYSQL_TYPE_FLOAT : N := 4.
Definition MYSQL_TYPE_DOUBLE : N := 5.
Definition MYSQL_TYPE_VARCHAR : N := 15.
Definition MYSQL_TYPE_ENUM : N := 247.
Definition MYSQL_TYPE_BLOB : N := 252.
Definition MYSQL_TYPE_GEOMETRY : N := 255.
Definition MAX_FIELD_WIDTH : nat := 766.

(** What Spider asks of a [Field]: [val_str] is the text of its value in a row or
    in a key. *)
Record Field := mk_field {
  field_index : nat;
  type : N;
  real_type : N;
  string_result : bool;
  str_needs_quotes : bool }.

Definition SPIDER_SQL_LINESTRING_HEAD_STR : list N := [0; 0; 0; 0; 1; 2; 0; 0; 0; 2; 0; 0; 0].

Section Values.
  Context {C : Charset} {H : Heap}.

(** [n] bytes at [pos] of a key. *)
Definition key_bytes (key : list N) (pos n : nat) : option (list N) :=
  if decide (pos + n <= length key)%nat then Some (take n (drop pos key)) else None.

(** The text of the value: the first part of [append_column_value]. *)
Definition column_text (f : Field) (val_str : option (list N) -> list N) (new_ptr : option (list N)) : option (list N) :=
  match new_ptr with
  | Some key =>
      if (type f =? MYSQL_TYPE_BLOB) || (real_type f =? MYSQL_TYPE_VARCHAR) then
        lo ← key !! 0%nat; hi ← key !! 1%nat;
        key_bytes key 2 (N.to_nat (lo + 256 * hi))
      else if type f =? MYSQL_TYPE_GEOMETRY then
        xmin ← key_bytes key 0 8; ymin ← key_bytes key 16 8;
        xmax ← key_bytes key 8 8; ymax ← key_bytes key 24 8;
        Some (SPIDER_SQL_LINESTRING_HEAD_STR ++ xmin ++ ymin ++ xmax ++ ymax)
      else Some (val_str (Some key))
  | None => Some (val_str None)
  end.

(** A string over [n] bytes of the stack. *)
Definition stack_buf (n : nat) : M buf_state string_buf :=
  t ← gets buf_tick;
  mret (mk_buf (junk t <$> seq 0 n) 0 (N.of_nat n) 0 false).

(** An operation on a second string. *)
Definition on_buf {A} (s : string_buf) (m : M buf_state A) : M buf_state (A * string_buf) := fun st =>
  r ← m (mk_buf_state s (buf_tick st));
  Some ((r.1, buf r.2), st <| buf_tick := buf_tick r.2 |>).

(** Is the value of such a field escaped? *)
Definition escaped_type (f : Field) : bool :=
  (type f =? MYSQL_TYPE_VARCHAR) || ((MYSQL_TYPE_ENUM <=? type f) && (type f <=? MYSQL_TYPE_GEOMETRY)).

(** [tmp_str2]: the value in the character set of the data node, [None] without memory. *)
Definition like_text (is_like : bool) (ptr : list N) : M buf_state (option (list N)) :=
  tmp_str2 ← stack_buf MAX_FIELD_WIDTH;
  r ← on_buf tmp_str2 (e ← append_cs ptr; if (e : bool) then mret true else if is_like then append [37] else mret false);
  mret (if (r.1 : bool) then None else Some (contents r.2)).

(** [append_column_value] of a value that is in the character set of the data node. *)
Definition append_column_value (f : Field) (val_str : option (list N) -> list N) (new_ptr : option (list N)) (is_like : bool)
    : M buf_state Z :=
  ptr ← lift_opt (fun _ => column_text f val_str new_ptr);
  let length := N.of_nat (length ptr) in
  if string_result f then
    e ← reserve 1;
    if (e : bool) then mret HA_ERR_OUT_OF_MEM else
    q_append [39];;
    e ← (if escaped_type f then
           tmp ← like_text is_like ptr;
           match tmp with
           | None => mret true
           | Some tmp_str2 =>
               e ← reserve (uint32 (N.of_nat (Datatypes.length tmp_str2) * 2));
               if (e : bool) then mret true else append_escape_string tmp_str2;; mret false
           end
         else append ptr);
    if (e : bool) then mret HA_ERR_OUT_OF_MEM else
    e ← reserve 1;
    if (e : bool) then mret HA_ERR_OUT_OF_MEM else
    q_append [39];; mret 0%Z
  else if str_needs_quotes f then
    e ← reserve (uint32 (2 + length * 2 + 2));
    if (e : bool) then mret HA_ERR_OUT_OF_MEM else
    q_append [39];; append_escape_string ptr;; q_append [39];; mret 0%Z
  else
    e ← append ptr;
    mret (if (e : bool) then HA_ERR_OUT_OF_MEM else 0%Z).
End Values.
