(* ===== verification/HashTable.v ===== *)
(** * The hash table of the server

    mysys/hash.c: a hash table in one growing array ([DYNAMIC_ARRAY]), grown and
    shrunk by one bucket per record (linear hashing).  The records of a bucket
    are linked by array indexes; the first one of a bucket that is not empty is
    in the array at the number of the bucket.  The engine keeps the connections
    of a transaction, the open connections and its shares in such tables.

    Indexes, hash numbers and sizes are numbers at the width the code gives them
    ([uint], [size_t]).  The array is a finite map; its element beyond the last
    record, which [alloc_dynamic] returns uninitialised, is not in it.  The key
    is in the record, so [h_key] is the memory the table reads keys from.  The
    hash function and the comparison of keys belong to the character set and are
    the class [HashKey].  Searching with a [length] of 0 (the key has the length
    of each record's key) is left out. *)

From Stdlib Require Import NArith Lia.
From stdpp Require Import base numbers gmap list strings.
From S2P Require Import Prelude.
Local Open Scope spider_scope.
Local Open Scope N_scope.

(** [(uint) -1] *)
Definition NO_RECORD : N := 2 ^ 32 - 1.

(** Casts to [uint] and the subtraction of [size_t]. *)
Definition to_uint (x : N) : N := x mod 2 ^ 32.
Definition size_t_sub (a b : N) : N := (a + 2 ^ 64 - b) mod 2 ^ 64.

(** [hash_function] and [my_strnncoll] of the character set. *)
Class HashKey (K : Type) := {
  hash_function : K -> N;
  key_same : K -> K -> bool
}.

Record HASH_LINK (D : Type) := mk_link {
  next : N;
  hash_nr : N;
  data : D
}.
Arguments mk_link {D}.
Arguments next {D}.
Arguments hash_nr {D}.
Arguments data {D}.

#[export] Instance eta_link {D} : Eta (HASH_LINK D) := fun k =>
  mk_link (next k) (hash_nr k) (data k).

(** [HASH]; [h_free] says whether [free] is set, [h_freed] the records it was
    called on. *)
Record HASH (K D : Type) := mk_hash {
  blength : N;
  records : N;
  h_unique : bool;
  array : gmap N (HASH_LINK D);
  h_key : D -> K;
  h_free : bool;
  h_freed : list D
}.
Arguments mk_hash {K D}.
Arguments blength {K D}.
Arguments records {K D}.
Arguments h_unique {K D}.
Arguments array {K D}.
Arguments h_key {K D}.
Arguments h_free {K D}.
Arguments h_freed {K D}.

#[export] Instance eta_hash {K D} : Eta (HASH K D) := fun h =>
  mk_hash (blength h) (records h) (h_unique h) (array h) (h_key h) (h_free h) (h_freed h).

(** The flags of the loop of [my_hash_insert]. *)
Definition LOWFIND : N := 1.
Definition LOWUSED : N := 2.
Definition HIGHFIND : N := 4.
Definition HIGHUSED : N := 8.

(** [flag & bits] as a truth value. *)
Definition has (flag bits : N) : bool := negb (N.land flag bits =? 0).

Definition my_hash_mask (hashnr buffmax maxlength : N) : N :=
  if N.land hashnr (size_t_sub buffmax 1) <? maxlength
  then to_uint (N.land hashnr (size_t_sub buffmax 1))
  else to_uint (N.land hashnr (size_t_sub (N.shiftr buffmax 1) 1)).

Section Hash.
  Context {K D : Type} `{HashKey K} `{EqDecision D}.

Definition my_hash_rec_mask (pos : HASH_LINK D) (buffmax maxlength : N) : N :=
  my_hash_mask (hash_nr pos) buffmax maxlength.

Definition rec_hashnr (hash : HASH K D) (record : D) : N := hash_function (h_key hash record).

(** 0 of the C function is [true] here. *)
Definition hashcmp (hash : HASH K D) (pos : HASH_LINK D) (key : K) : bool :=
  key_same (h_key hash (data pos)) key.

(** ** Initialising and freeing *)

Definition my_hash_init2 (key : D -> K) (free : bool) (unique : bool) : HASH K D :=
  mk_hash 1 0 unique ∅ key free [].

(** [free] is called on the records in the order of the array. *)
Definition my_hash_free_elements (hash : HASH K D) : HASH K D :=
  let recs := omap (fun i => data <$> array hash !! N.of_nat i) (seq 0 (N.to_nat (records hash))) in
  let hash := hash <| records := 0 |> in
  if h_free hash then hash <| h_freed := h_freed hash ++ recs |> else hash.

Definition my_hash_free (hash : HASH K D) : HASH K D :=
  (my_hash_free_elements hash) <| h_free := false |> <| array := ∅ |> <| blength := 0 |>.

Definition my_hash_reset (hash : HASH K D) : HASH K D :=
  (my_hash_free_elements hash) <| array := ∅ |> <| blength := 1 |>.

(** ** Searching *)

(** The record and its index, [Some None] if there is none. *)
Fixpoint first_loop (fuel : nat) (hash : HASH K D) (key : K) (flag : bool) (idx : N) :
    option (option (N * D)) :=
  match fuel with
  | O => None
  | S fuel' =>
      pos ← array hash !! idx;
      if hashcmp hash pos key then Some (Some (idx, data pos))
      else if flag && negb (my_hash_rec_mask pos (blength hash) (records hash) =? idx) then Some None
      else if next pos =? NO_RECORD then Some None
      else first_loop fuel' hash key false (next pos)
  end.

Definition my_hash_first_from_hash_value (hash : HASH K D) (hash_value : N) (key : K) :
    option (option (N * D)) :=
  if records hash =? 0 then Some None else
  first_loop (N.to_nat (records hash)) hash key true
    (my_hash_mask hash_value (blength hash) (records hash)).

Definition my_hash_first (hash : HASH K D) (key : K) : option (option (N * D)) :=
  my_hash_first_from_hash_value hash (hash_function key) key.

Definition my_hash_search_using_hash_value (hash : HASH K D) (hash_value : N) (key : K) :
    option (option D) :=
  option_map snd <$> my_hash_first_from_hash_value hash hash_value key.

Definition my_hash_search (hash : HASH K D) (key : K) : option (option D) :=
  option_map snd <$> my_hash_first hash key.

Fixpoint next_loop (fuel : nat) (hash : HASH K D) (key : K) (idx : N) : option (option (N * D)) :=
  if idx =? NO_RECORD then Some None else
  match fuel with
  | O => None
  | S fuel' =>
      pos ← array hash !! idx;
      if hashcmp hash pos key then Some (Some (idx, data pos))
      else next_loop fuel' hash key (next pos)
  end.

Definition my_hash_next (hash : HASH K D) (key : K) (current_record : N) :
    option (option (N * D)) :=
  if current_record =? NO_RECORD then Some None else
  pos ← array hash !! current_record;
  next_loop (N.to_nat (records hash)) hash key (next pos).

(** ** Changing links *)

(** Change the link to [find] in the chain from [next_link]. *)
Fixpoint movelink (fuel : nat) (arr : gmap N (HASH_LINK D)) (find next_link newlink : N) :
    option (gmap N (HASH_LINK D)) :=
  match fuel with
  | O => None
  | S fuel' =>
      old_link ← arr !! next_link;
      if next old_link =? find then Some (<[next_link := old_link <| next := newlink |>]> arr)
      else movelink fuel' arr find (next old_link) newlink
  end.

(** ** Insertion *)

(** The local variables of the loop of [my_hash_insert]; a record that is being
    moved is its hash number and its data. *)
Record split_state := mk_split {
  s_flag : N;
  s_empty : N;
  s_gpos : N;
  s_rec : option (N * D);
  s_gpos2 : N;
  s_rec2 : option (N * D);
  s_array : gmap N (HASH_LINK D)
}.

#[export] Instance eta_split : Eta split_state := fun s =>
  mk_split (s_flag s) (s_empty s) (s_gpos s) (s_rec s) (s_gpos2 s) (s_rec2 s) (s_array s).

(** [gpos->data= rec_data; gpos->hash_nr= rec_hash_nr; gpos->next= nx] *)
Definition store_rec (gpos : N) (r : option (N * D)) (nx : N) (arr : gmap N (HASH_LINK D)) :
    option (gmap N (HASH_LINK D)) :=
  p ← r; Some (<[gpos := mk_link nx p.1 p.2]> arr).

(** A record of the bucket that stays in it. *)
Definition split_low (s : split_state) (idx : N) (pos : HASH_LINK D) : option split_state :=
  let r := Some (hash_nr pos, data pos) in
  if negb (has (s_flag s) LOWFIND) then
    if has (s_flag s) HIGHFIND then
      Some (s <| s_flag := N.lor LOWFIND HIGHFIND |> <| s_gpos := s_empty s |> <| s_rec := r |>
              <| s_empty := idx |>)
    else Some (s <| s_flag := N.lor LOWFIND LOWUSED |> <| s_gpos := idx |> <| s_rec := r |>)
  else if negb (has (s_flag s) LOWUSED) then
    arr ← store_rec (s_gpos s) (s_rec s) (to_uint idx) (s_array s);
    Some (s <| s_array := arr |>
            <| s_flag := N.lor (N.land (s_flag s) HIGHFIND) (N.lor LOWFIND LOWUSED) |>
            <| s_gpos := idx |> <| s_rec := r |>)
  else Some (s <| s_gpos := idx |> <| s_rec := r |>).

(** One that moves to the new bucket. *)
Definition split_high (s : split_state) (idx : N) (pos : HASH_LINK D) : option split_state :=
  let r := Some (hash_nr pos, data pos) in
  if negb (has (s_flag s) HIGHFIND) then
    Some (s <| s_flag := N.lor (N.land (s_flag s) LOWFIND) HIGHFIND |> <| s_gpos2 := s_empty s |>
            <| s_empty := idx |> <| s_rec2 := r |>)
  else if negb (has (s_flag s) HIGHUSED) then
    arr ← store_rec (s_gpos2 s) (s_rec2 s) (to_uint idx) (s_array s);
    Some (s <| s_array := arr |>
            <| s_flag := N.lor (N.land (s_flag s) LOWFIND) (N.lor HIGHFIND HIGHUSED) |>
            <| s_gpos2 := idx |> <| s_rec2 := r |>)
  else Some (s <| s_gpos2 := idx |> <| s_rec2 := r |>).

(** The [do ... while] over the bucket [first_index]. *)
Fixpoint split_loop (fuel : nat) (info : HASH K D) (halfbuff first_index : N) (s : split_state) (idx : N) :
    option split_state :=
  match fuel with
  | O => None
  | S fuel' =>
      pos ← s_array s !! idx;
      if (s_flag s =? 0) && negb (my_hash_mask (hash_nr pos) (blength info) (records info) =? first_index)
      then Some s
      else
        s ← (if N.land (hash_nr pos) halfbuff =? 0 then split_low s idx pos else split_high s idx pos);
        if next pos =? NO_RECORD then Some s
        else split_loop fuel' info halfbuff first_index s (next pos)
  end.

(** The links that are still to be stored after it. *)
Definition split_finish (s : split_state) : option (N * gmap N (HASH_LINK D)) :=
  arr ← (if N.land (s_flag s) (N.lor LOWFIND LOWUSED) =? LOWFIND
         then store_rec (s_gpos s) (s_rec s) NO_RECORD (s_array s) else Some (s_array s));
  arr ← (if N.land (s_flag s) (N.lor HIGHFIND HIGHUSED) =? HIGHFIND
         then store_rec (s_gpos2 s) (s_rec2 s) NO_RECORD arr else Some arr);
  Some (s_empty s, arr).

(** The bucket is split: the index that is free afterwards, and the array. *)
Definition hash_split (info : HASH K D) : option (N * gmap N (HASH_LINK D)) :=
  let halfbuff := N.shiftr (blength info) 1 in
  let first_index := size_t_sub (records info) halfbuff in
  if first_index =? records info then Some (records info, array info) else
  s ← split_loop (N.to_nat (records info)) info halfbuff first_index
        (mk_split 0 (records info) 0 None 0 None (array info)) first_index;
  split_finish s.

(** The new record takes its place; [empty] is free. *)
Definition hash_place (info : HASH K D) (empty : N) (arr : gmap N (HASH_LINK D)) (nr : N) (record : D) :
    option (gmap N (HASH_LINK D)) :=
  let idx := my_hash_mask nr (blength info) (records info + 1) in
  if idx =? empty then Some (<[idx := mk_link NO_RECORD nr record]> arr) else
  pos ← arr !! idx;
  let arr := <[empty := pos]> arr in
  let gpos := my_hash_rec_mask pos (blength info) (records info + 1) in
  if idx =? gpos then Some (<[idx := mk_link (to_uint empty) nr record]> arr) else
  let arr := <[idx := pos <| next := NO_RECORD |>]> arr in
  arr ← movelink (S (N.to_nat (records info))) arr (to_uint idx) (to_uint gpos) (to_uint empty);
  pos ← arr !! idx;
  Some (<[idx := mk_link (next pos) nr record]> arr).

(** TRUE: duplicate key or out of memory. *)
Definition my_hash_insert (oom : bool) (info : HASH K D) (record : D) : option (bool * HASH K D) :=
  let key := h_key info record in
  let current_hash_nr := hash_function key in
  dup ← (if h_unique info then my_hash_search_using_hash_value info current_hash_nr key else Some None);
  match dup with
  | Some _ => Some (true, info)
  | None =>
      if oom then Some (true, info) else
      s ← hash_split info;
      arr ← hash_place info s.1 s.2 current_hash_nr record;
      let info := info <| array := arr |> <| records := records info + 1 |> in
      Some (false, if records info =? blength info
                   then info <| blength := blength info + blength info |> else info)
  end.

(** ** Deletion *)

(** [while (pos->data != record)]: the element before it in the chain and its
    index, or [None] if the chain ends first. *)
Fixpoint find_record (fuel : nat) (arr : gmap N (HASH_LINK D)) (record : D) (gpos : option N) (idx : N) :
    option (option (option N * N)) :=
  match fuel with
  | O => None
  | S fuel' =>
      pos ← arr !! idx;
      if decide (data pos = record) then Some (Some (gpos, idx))
      else if next pos =? NO_RECORD then Some None
      else find_record fuel' arr record (Some idx) (next pos)
  end.

(** The record at [idx] leaves its chain: the index that is free afterwards. *)
Definition hash_unlink (arr : gmap N (HASH_LINK D)) (gpos : option N) (idx : N) :
    option (N * gmap N (HASH_LINK D)) :=
  pos ← arr !! idx;
  match gpos with
  | Some g =>
      prev ← arr !! g;
      Some (idx, <[g := prev <| next := next pos |>]> arr)
  | None =>
      if next pos =? NO_RECORD then Some (idx, arr) else
      e ← arr !! next pos;
      Some (next pos, <[idx := e]> arr)
  end.

(** The last element of the array moves to the free index.  [blength0] is the
    length before the deletion; [hash] has the new one and the new number of
    records. *)
Definition move_last (fuel : nat) (hash : HASH K D) (blength0 empty : N) (arr : gmap N (HASH_LINK D)) :
    option (gmap N (HASH_LINK D)) :=
  let lastpos := records hash in
  if empty =? lastpos then Some arr else
  last ← arr !! lastpos;
  let pos := my_hash_mask (hash_nr last) (blength hash) (records hash) in
  if pos =? empty then Some (<[empty := last]> arr) else
  p ← arr !! pos;
  let pos3 := my_hash_mask (hash_nr p) (blength hash) (records hash) in
  if negb (pos =? pos3) then
    movelink fuel (<[pos := last]> (<[empty := p]> arr)) (to_uint pos) (to_uint pos3) (to_uint empty)
  else
  let pos2 := my_hash_mask (hash_nr last) blength0 (records hash + 1) in
  let same := pos2 =? my_hash_mask (hash_nr p) blength0 (records hash + 1) in
  if same && negb (pos2 =? records hash) then
    movelink fuel (<[empty := last]> arr) (to_uint lastpos) (to_uint pos) (to_uint empty)
  else
  let idx := if same then to_uint pos else NO_RECORD in
  arr ← movelink fuel (<[empty := last]> arr) idx (to_uint empty) (next p);
  p ← arr !! pos;
  Some (<[pos := p <| next := to_uint empty |>]> arr).

(** TRUE: record not found. *)
Definition my_hash_delete (hash : HASH K D) (record : D) : option (bool * HASH K D) :=
  if records hash =? 0 then Some (true, hash) else
  let blength0 := blength hash in
  let fuel := N.to_nat (records hash) in
  f ← find_record fuel (array hash) record None
        (my_hash_mask (rec_hashnr hash record) blength0 (records hash));
  match f with
  | None => Some (true, hash)
  | Some (gpos, idx) =>
      let hash := hash <| records := records hash - 1 |> in
      let hash := if records hash <? N.shiftr (blength hash) 1
                  then hash <| blength := N.shiftr (blength hash) 1 |> else hash in
      u ← hash_unlink (array hash) gpos idx;
      arr ← move_last fuel hash blength0 u.1 u.2;
      let hash := hash <| array := delete (records hash) arr |> in
      Some (false, if h_free hash then hash <| h_freed := h_freed hash ++ [record] |> else hash)
  end.

(** ** Update *)

(** No other record than [record] has its new key: TRUE if one has. *)
Fixpoint update_duplicate (fuel : nat) (hash : HASH K D) (key : K) (record : D) (found : option (N * D)) :
    option bool :=
  match found, fuel with
  | None, _ => Some false
  | Some _, O => None
  | Some (i, d), S fuel' =>
      if decide (d = record) then
        n ← my_hash_next hash key i; update_duplicate fuel' hash key record n
      else Some true
  end.

(** The record that left its chain ([org_link]) takes its new place; [empty] is
    free and [idx] is where the record was. *)
Definition update_place (fuel : nat) (hash : HASH K D) (org_link : HASH_LINK D) (nr empty idx : N)
    (arr : gmap N (HASH_LINK D)) : option (gmap N (HASH_LINK D)) :=
  let new_index := my_hash_mask nr (blength hash) (records hash) in
  if new_index =? empty then
    let arr := if empty =? idx then arr else <[empty := org_link]> arr in
    e ← arr !! empty;
    Some (<[empty := e <| next := NO_RECORD |> <| hash_nr := nr |>]> arr)
  else
    pos ← arr !! new_index;
    let new_pos_index := my_hash_rec_mask pos (blength hash) (records hash) in
    if negb (new_index =? new_pos_index) then
      let arr := <[empty := pos]> arr in
      arr ← movelink fuel arr new_index new_pos_index (to_uint empty);
      Some (<[new_index := org_link <| next := NO_RECORD |> <| hash_nr := nr |>]> arr)
    else
      let arr := <[empty := org_link <| next := next pos |> <| hash_nr := nr |>]> arr in
      pos ← arr !! new_index;
      Some (<[new_index := pos <| next := to_uint empty |>]> arr).

(** TRUE: the new key is a duplicate, or the record is not found under the old
    one.  The record has its new key already. *)
Definition my_hash_update (hash : HASH K D) (record : D) (old_key : K) : option (bool * HASH K D) :=
  let new_key := h_key hash record in
  let nr := hash_function new_key in
  let fuel := N.to_nat (records hash) in
  dup ← (if h_unique hash then
           f ← my_hash_first_from_hash_value hash nr new_key;
           update_duplicate (S fuel) hash new_key record f
         else Some false);
  if (dup : bool) then Some (true, hash) else
  let org_index := my_hash_mask (hash_function old_key) (blength hash) (records hash) in
  let new_index := my_hash_mask nr (blength hash) (records hash) in
  f ← find_record fuel (array hash) record None org_index;
  match f with
  | None => Some (true, hash)
  | Some (previous, idx) =>
      pos ← array hash !! idx;
      if org_index =? new_index then
        Some (false, hash <| array := <[idx := pos <| hash_nr := nr |>]> (array hash) |>)
      else
        u ← hash_unlink (array hash) previous idx;
        arr ← update_place fuel hash pos nr u.1 idx u.2;
        Some (false, hash <| array := arr |>)
  end.

(** ** Elements by index *)

Definition my_hash_element (hash : HASH K D) (idx : N) : option D :=
  if idx <? records hash then data <$> array hash !! idx else None.

(** The row at the index of a search. *)
Definition my_hash_replace (hash : HASH K D) (current_record : N) (new_row : D) : option (HASH K D) :=
  if current_record =? NO_RECORD then Some hash else
  pos ← array hash !! current_record;
  Some (hash <| array := <[current_record := pos <| data := new_row |>]> (array hash) |>).

(** The records [action] is called on, until it returns 1. *)
Fixpoint iterate_loop (action : D -> bool) (recs : list D) : bool * list D :=
  match recs with
  | [] => (false, [])
  | d :: recs' =>
      if action d then (true, [d]) else
      let '(r, seen) := iterate_loop action recs' in (r, d :: seen)
  end.

Definition hash_records (hash : HASH K D) : list D :=
  omap (fun i => data <$> array hash !! N.of_nat i) (seq 0 (N.to_nat (records hash))).

(** [func] on all records; [S] is what its argument points to. *)
Definition my_hash_delegate {S : Type} (hash : HASH K D) (func : D -> S -> S) (func_arg : S) : S :=
  fold_left (fun a d => func d a) (hash_records hash) func_arg.

Definition my_hash_iterate (hash : HASH K D) (action : D -> bool) : bool * list D :=
  iterate_loop action (hash_records hash).

(** ** The check of the debug library *)

(** The links of the bucket [i] from [idx]: the records found so far, and
    whether there was an error. *)
Fixpoint check_links (fuel : nat) (hash : HASH K D) (i idx found : N) (error : bool) : option (N * bool) :=
  if (idx =? NO_RECORD) || negb (found <? to_uint (records hash + 1)) then Some (found, error) else
  match fuel with
  | O => None
  | S fuel' =>
      let error := error || (records hash <=? idx) in
      hash_info ← array hash !! idx;
      if negb (my_hash_rec_mask hash_info (blength hash) (records hash) =? i)
      then check_links fuel' hash i (next hash_info) found true
      else check_links fuel' hash i (next hash_info) (found + 1) error
  end.

(** The loop over the elements [idxs] of the array. *)
Fixpoint check_elements (hash : HASH K D) (idxs : list N) (found : N) (error : bool) : option (N * bool) :=
  match idxs with
  | [] => Some (found, error)
  | i :: idxs' =>
      pos ← array hash !! i;
      let error := error || negb (hash_nr pos =? hash_function (h_key hash (data pos))) in
      r ← (if my_hash_rec_mask pos (blength hash) (records hash) =? i
           then check_links (N.to_nat (records hash)) hash i (next pos) (found + 1) error
           else Some (found, error));
      check_elements hash idxs' r.1 r.2
  end.

(** TRUE: error. *)
Definition my_hash_check (hash : HASH K D) : option bool :=
  r ← check_elements hash (N.of_nat <$> seq 0 (N.to_nat (records hash))) 0 false;
  Some (r.2 || negb (r.1 =? records hash)).
End Hash.
