(* ===== verification/HashChain.v ===== *)
(** * Chains of the hash table

    Buckets of mysys/hash.c as lists: [seg arr es z] is a run of links from one
    index to the next whose last link is [z]; [tbl home arr es] says that the
    array [arr] holds exactly the buckets [es], each bucket starting at its own
    number.  Every operation is a change of one or two buckets ([tbl_change]),
    and [items] are the records of an array, up to their order. *)

From Stdlib Require Import NArith Lia.
From stdpp Require Import base numbers gmap list strings.
From S2P Require Import Prelude HashTable.
Local Open Scope spider_scope.
Local Open Scope N_scope.

(** Different indexes below [n] are at most [n]. *)
Lemma length_indexes (ps : list N) n :
  NoDup ps -> (forall i, i ∈ ps -> i < n) -> (length ps <= N.to_nat n)%nat.
Proof.
  intros Hn Hi. rewrite <- (length_seq (N.to_nat n) 0), <- (length_fmap N.of_nat (seq _ _)).
  apply submseteq_length, NoDup_submseteq; [done|]. intros i Hin. apply list_elem_of_fmap. exists (N.to_nat i).
  specialize (Hi i Hin). rewrite elem_of_seq. lia.
Qed.

Section Chains.
  Context {D : Type}.
  Implicit Types (arr : gmap N (HASH_LINK D)) (k : HASH_LINK D) (x : N * D) (es : list (N * (N * D))).

(** A record: its hash number and its data. *)
Definition item (k : HASH_LINK D) : N * D := (hash_nr k, data k).

Definition link_of (nx : N) (x : N * D) : HASH_LINK D := mk_link nx x.1 x.2.

Lemma item_link nx x : item (link_of nx x) = x.
Proof. by destruct x. Qed.

Definition hd_or (z : N) (es : list (N * (N * D))) : N := match es with [] => z | e :: _ => e.1 end.

Fixpoint seg (arr : gmap N (HASH_LINK D)) (es : list (N * (N * D))) (z : N) : Prop :=
  match es with
  | [] => True
  | (i, x) :: es' => arr !! i = Some (link_of (hd_or z es') x) /\ seg arr es' z
  end.

Lemma hd_or_app z es es' : hd_or z (es ++ es') = hd_or (hd_or z es') es.
Proof. by destruct es. Qed.

Lemma seg_app arr es es' z : seg arr (es ++ es') z <-> seg arr es (hd_or z es') /\ seg arr es' z.
Proof.
  induction es as [|[i x] es IH]; simpl; [tauto|]. rewrite IH, hd_or_app. tauto.
Qed.

Lemma seg_frame arr arr' es z :
  (forall i, i ∈ es.*1 -> arr' !! i = arr !! i) -> seg arr es z -> seg arr' es z.
Proof.
  induction es as [|[i x] es IH]; simpl; [done|]. intros Hf [Hi Hs]. split.
  - rewrite Hf by set_solver. done.
  - apply IH; [|done]. intros j Hj. apply Hf. set_solver.
Qed.

Lemma seg_insert arr es z i k : i ∉ es.*1 -> seg arr es z -> seg (<[i := k]> arr) es z.
Proof. intros Hi. apply seg_frame. intros j Hj. apply lookup_insert_ne. by intros <-. Qed.

Lemma seg_delete arr es z i : i ∉ es.*1 -> seg (delete i arr) es z <-> seg arr es z.
Proof.
  intros Hi. split; apply seg_frame; intros j Hj; rewrite lookup_delete_ne; try done; by intros <-.
Qed.

(** [holds arr es]: the records [es] are at their indexes. *)
Definition holds arr es : Prop := Forall (fun e => item <$> arr !! e.1 = Some e.2) es.

Lemma seg_holds arr es z : seg arr es z -> holds arr es.
Proof.
  induction es as [|[i x] es IH]; simpl; [constructor|]. intros [Hi Hs]. constructor; [|by apply IH].
  simpl. rewrite Hi. simpl. by rewrite item_link.
Qed.

Lemma holds_lookup arr es i x : holds arr es -> (i, x) ∈ es -> exists k, arr !! i = Some k /\ item k = x.
Proof.
  intros H Hi. apply (proj1 (Forall_forall _ _) H) in Hi. simpl in Hi. apply fmap_Some in Hi as (k & Hk & ->). eauto.
Qed.

Lemma seg_in arr es z i : seg arr es z -> i ∈ es.*1 -> exists x, (i, x) ∈ es /\ item <$> arr !! i = Some x.
Proof.
  intros Hs Hi. apply list_elem_of_fmap in Hi as ([j x] & -> & Hi). exists x. split; [done|].
  by apply (proj1 (Forall_forall _ _) (seg_holds _ _ _ Hs)) in Hi.
Qed.

(** The link of an element of a run. *)
Lemma seg_lookup arr es1 i x es2 z :
  seg arr (es1 ++ (i, x) :: es2) z -> arr !! i = Some (link_of (hd_or z es2) x).
Proof. rewrite seg_app. simpl. tauto. Qed.

(** The link of one element changes. *)
Lemma seg_relink arr es1 i x z :
  i ∉ es1.*1 -> forall w, seg arr (es1 ++ [(i, x)]) z -> seg (<[i := link_of w x]> arr) (es1 ++ [(i, x)]) w.
Proof.
  intros Hi w. rewrite !seg_app. simpl. intros [H1 _]. split; [by apply seg_insert|].
  by rewrite lookup_insert_eq.
Qed.

(** [movelink] finds the element whose link is [find]. *)
Lemma movelink_spec arr es1 i x es2 z new : forall fuel,
  seg arr (es1 ++ (i, x) :: es2) z -> (length es1 < fuel)%nat ->
  hd_or z es2 ∉ (es1 ++ [(i, x)]).*1 ->
  movelink fuel arr (hd_or z es2) (hd_or i es1) new = Some (<[i := link_of new x]> arr).
Proof.
  induction es1 as [|[j y] es1 IH]; intros fuel Hs Hl Hf; (destruct fuel as [|fuel]; [simpl in Hl; lia|]);
    simpl in *; destruct Hs as [Hj Hs]; rewrite Hj; simpl.
  - by rewrite N.eqb_refl.
  - rewrite (hd_or_app z es1 ((i, x) :: es2)). simpl.
    destruct (N.eqb_spec (hd_or i es1) (hd_or z es2)) as [E|E].
    + exfalso. apply Hf. rewrite <- E. apply elem_of_cons. right. rewrite fmap_app, elem_of_app.
      destruct es1 as [|[j' y'] es1]; simpl; [right|left]; apply list_elem_of_here.
    + apply IH; [done|lia|]. by apply not_elem_of_cons in Hf as [_ Hf].
Qed.

(** ** The table *)

(** A bucket: its chain starts at its number. *)
Record bucket (home : N -> N) arr (p : N) es : Prop := {
  b_seg : seg arr es NO_RECORD;
  b_nodup : NoDup es.*1;
  b_head : hd_or p es = p;
  b_home : Forall (fun e => home e.2.1 = p) es
}.

Record tbl (home : N -> N) arr (bs : N -> list (N * (N * D))) : Prop := {
  t_bucket : forall p, bucket home arr p (bs p);
  t_all : forall i k, arr !! i = Some k -> (i, item k) ∈ bs (home (hash_nr k))
}.

Lemma bucket_nil home arr p : bucket home arr p [].
Proof. by split; try constructor. Qed.

Lemma bucket_frame home arr arr' p es :
  (forall i, i ∈ es.*1 -> arr' !! i = arr !! i) -> bucket home arr p es -> bucket home arr' p es.
Proof. intros Hf [H1 H2 H3 H4]. split; try done. by eapply seg_frame. Qed.

(** An index belongs to one bucket. *)
Lemma tbl_in home arr bs p i x : tbl home arr bs -> (i, x) ∈ bs p ->
  exists k, arr !! i = Some k /\ item k = x /\ home (hash_nr k) = p.
Proof.
  intros [Hb _] Hi. destruct (Hb p) as [Hs _ _ Hh].
  destruct (holds_lookup _ _ _ _ (seg_holds _ _ _ Hs) Hi) as (k & Hk & <-). exists k. split_and!; [done..|].
  by apply (proj1 (Forall_forall _ _) Hh) in Hi.
Qed.

Lemma tbl_index home arr bs p i : tbl home arr bs -> i ∈ (bs p).*1 ->
  exists k, arr !! i = Some k /\ home (hash_nr k) = p.
Proof.
  intros Ht Hi. apply list_elem_of_fmap in Hi as ([j x] & -> & Hi).
  destruct (tbl_in _ _ _ _ _ _ Ht Hi) as (k & ? & _ & ?). by exists k.
Qed.

Lemma tbl_disjoint home arr bs p q i : tbl home arr bs -> i ∈ (bs p).*1 -> i ∈ (bs q).*1 -> p = q.
Proof.
  intros Ht Hp Hq. destruct (tbl_index _ _ _ _ _ Ht Hp) as (k & Hk & <-).
  destruct (tbl_index _ _ _ _ _ Ht Hq) as (k' & Hk' & <-). congruence.
Qed.

(** A bucket whose number is not an index of the array is empty, and so is one
    whose place is taken by a record of another bucket. *)
Lemma tbl_free home arr bs p : tbl home arr bs -> arr !! p = None -> bs p = [].
Proof.
  intros Ht Hp. destruct (t_bucket _ _ _ Ht p) as [Hs _ Hh _]. destruct (bs p) as [|[i x] es]; [done|].
  simpl in *. subst i. destruct Hs as [Hs _]. congruence.
Qed.

Lemma tbl_taken home arr bs p k :
  tbl home arr bs -> arr !! p = Some k -> home (hash_nr k) <> p -> bs p = [].
Proof.
  intros Ht Hp Hne. destruct (t_bucket _ _ _ Ht p) as [Hs _ Hh Hf]. destruct (bs p) as [|[i x] es]; [done|].
  simpl in *. subst i. destruct Hs as [Hs _]. apply Forall_cons in Hf as [Hf _]. rewrite Hp in Hs.
  injection Hs as ->. by simpl in *.
Qed.

(** The record at the number of its own bucket is the first one. *)
Lemma tbl_first home arr bs p k :
  tbl home arr bs -> arr !! p = Some k -> home (hash_nr k) = p ->
  exists es, bs p = (p, item k) :: es /\ k = link_of (hd_or NO_RECORD es) (item k).
Proof.
  intros Ht Hp Hh. pose proof (t_all _ _ _ Ht p k Hp) as Hin. rewrite Hh in Hin.
  destruct (t_bucket _ _ _ Ht p) as [Hs _ Hd _]. destruct (bs p) as [|[i x] es]; [by apply not_elem_of_nil in Hin|].
  simpl in *. subst i. destruct Hs as [Hs _]. rewrite Hp in Hs. injection Hs as ->.
  exists es. by rewrite item_link.
Qed.

(** A record of another bucket has an element before it. *)
Lemma tbl_after home arr bs p k :
  tbl home arr bs -> arr !! p = Some k -> home (hash_nr k) <> p ->
  exists es1 j y es2, bs (home (hash_nr k)) = es1 ++ (j, y) :: (p, item k) :: es2 /\
    k = link_of (hd_or NO_RECORD es2) (item k).
Proof.
  intros Ht Hp Hne. pose proof (t_all _ _ _ Ht p k Hp) as Hin.
  destruct (t_bucket _ _ _ Ht (home (hash_nr k))) as [Hs _ Hd _].
  apply list_elem_of_split in Hin as (l1 & l2 & E). rewrite E in *.
  pose proof (seg_lookup _ _ _ _ _ _ Hs) as Hl. rewrite Hp in Hl. injection Hl as Hl.
  destruct l1 as [|e l1] using rev_ind.
  - simpl in *. congruence.
  - destruct e as [j y]. exists l1, j, y, l2. by rewrite <- (assoc_L (++)).
Qed.

(** The buckets of the list [A] change to [bs'], the others stay; outside of the
    indexes of [A] and of [free], which are not in the array, it is the same. *)
Lemma tbl_change home home' arr arr' bs bs' (A free : list N) :
  tbl home arr bs ->
  (forall p, p ∉ A -> bs' p = bs p) ->
  (forall p e, p ∉ A -> e ∈ bs p -> home' e.2.1 = p) ->
  (forall i, i ∈ free -> arr !! i = None) ->
  (forall i, (forall p, p ∈ A -> i ∉ (bs p).*1) -> i ∉ free -> arr' !! i = arr !! i) ->
  (forall p, p ∈ A -> bucket home' arr' p (bs' p)) ->
  (forall i, is_Some (arr' !! i) -> (exists p, p ∈ A /\ i ∈ (bs p).*1) \/ i ∈ free ->
     exists p, p ∈ A /\ i ∈ (bs' p).*1) ->
  tbl home' arr' bs'.
Proof.
  intros Ht Hsame Hhome Hfree Harr HA Hidx.
  assert (Hall : forall i k, arr' !! i = Some k -> (exists p, p ∈ A /\ i ∈ (bs p).*1) \/ i ∈ free ->
    exists p, p ∈ A /\ (i, item k) ∈ bs' p).
  { intros i k Hk Hi. destruct (Hidx i ltac:(by eexists) Hi) as (p & Hp & Hin). exists p. split; [done|].
    destruct (seg_in _ _ _ _ (b_seg _ _ _ _ (HA p Hp)) Hin) as (x & Hx & Ex). rewrite Hk in Ex. by injection Ex as ->. }
  split.
  - intros p. destruct (decide (p ∈ A)) as [Hp|Hp]; [by apply HA|]. rewrite Hsame by done.
    destruct (t_bucket _ _ _ Ht p) as [H1 H2 H3 H4]. split; try done.
    + eapply seg_frame; [|exact H1]. intros i Hi. apply Harr.
      * intros q Hq Hi'. apply Hp. by rewrite (tbl_disjoint _ _ _ p q i Ht Hi Hi').
      * intros Hf. destruct (tbl_index _ _ _ _ _ Ht Hi) as (k & Hk & _). by rewrite (Hfree i Hf) in Hk.
    + apply Forall_forall. intros e He. by apply Hhome.
  - intros i k Hk.
    destruct (decide (Exists (fun p => i ∈ (bs p).*1) A)) as [Hex|Hno].
    + apply Exists_exists in Hex as (p & Hp & Hi).
      destruct (Hall i k Hk (or_introl (ex_intro _ p (conj Hp Hi)))) as (q & Hq & Hin).
      destruct (HA q Hq) as [_ _ _ Hf]. pose proof (proj1 (Forall_forall _ _) Hf _ Hin) as E. simpl in E. by rewrite E.
    + destruct (decide (i ∈ free)) as [Hf|Hf].
      * destruct (Hall i k Hk (or_intror Hf)) as (q & Hq & Hin).
        destruct (HA q Hq) as [_ _ _ HF]. pose proof (proj1 (Forall_forall _ _) HF _ Hin) as E. simpl in E. by rewrite E.
      * assert (Hout : forall p, p ∈ A -> i ∉ (bs p).*1).
        { intros p Hp Hi. apply Hno, Exists_exists. by exists p. }
        rewrite Harr in Hk by done. pose proof (t_all _ _ _ Ht i k Hk) as Hin.
        assert (home (hash_nr k) ∉ A) as HnA.
        { intros HA'. apply (Hout _ HA'), list_elem_of_fmap. by exists (i, item k). }
        pose proof (Hhome _ _ HnA Hin) as E. simpl in E. rewrite E, (Hsame _ HnA). done.
Qed.

(** The same without a change of the hash function's buckets. *)
Lemma tbl_edit home arr arr' bs bs' (A free : list N) :
  tbl home arr bs ->
  (forall p, p ∉ A -> bs' p = bs p) ->
  (forall i, i ∈ free -> arr !! i = None) ->
  (forall i, (forall p, p ∈ A -> i ∉ (bs p).*1) -> i ∉ free -> arr' !! i = arr !! i) ->
  (forall p, p ∈ A -> bucket home arr' p (bs' p)) ->
  (forall i, is_Some (arr' !! i) -> (exists p, p ∈ A /\ i ∈ (bs p).*1) \/ i ∈ free ->
     exists p, p ∈ A /\ i ∈ (bs' p).*1) ->
  tbl home arr' bs'.
Proof.
  intros Ht H1 H2 H3 H4 H5. eapply (tbl_change home home); try done.
  intros p y _ Hy. by apply (proj1 (Forall_forall _ _) (b_home _ _ _ _ (t_bucket _ _ _ Ht p))) in Hy.
Qed.

(** ** The records of an array *)

Definition items arr : list (N * D) := item <$> (map_to_list arr).*2.

Lemma items_insert arr i k : arr !! i = None -> items (<[i := k]> arr) ≡ₚ item k :: items arr.
Proof. intros Hi. unfold items. by rewrite map_to_list_insert by done. Qed.

Lemma items_delete arr i k : arr !! i = Some k -> items arr ≡ₚ item k :: items (delete i arr).
Proof. intros Hi. rewrite <- (insert_delete_id arr i k Hi) at 1. apply items_insert, lookup_delete_eq. Qed.

Lemma items_relink arr i k k' : arr !! i = Some k -> item k' = item k -> items (<[i := k']> arr) ≡ₚ items arr.
Proof.
  intros Hi He. rewrite (items_delete arr i k Hi), <- insert_delete_eq, items_insert by apply lookup_delete_eq.
  by rewrite He.
Qed.

Lemma elem_of_items arr x : x ∈ items arr <-> exists i k, arr !! i = Some k /\ item k = x.
Proof.
  unfold items. rewrite list_elem_of_fmap. split.
  - intros (k & -> & Hk). apply list_elem_of_fmap in Hk as ([i k'] & -> & Hk). apply elem_of_map_to_list in Hk. by exists i, k'.
  - intros (i & k & Hk & <-). exists k. split; [done|]. apply list_elem_of_fmap. exists (i, k).
    split; [done|]. by apply elem_of_map_to_list.
Qed.

(** The array without some indexes. *)
Definition without (ps : list N) arr : gmap N (HASH_LINK D) := filter (fun e => e.1 ∉ ps) arr.

Lemma lookup_without ps arr i : without ps arr !! i = if decide (i ∈ ps) then None else arr !! i.
Proof.
  unfold without. destruct (decide (i ∈ ps)) as [Hi|Hi].
  - apply map_lookup_filter_None. right. intros k _ H. by apply H.
  - destruct (arr !! i) eqn:E.
    + by apply map_lookup_filter_Some.
    + apply map_lookup_filter_None. by left.
Qed.

Lemma items_split arr es : NoDup es.*1 -> holds arr es -> items arr ≡ₚ es.*2 ++ items (without es.*1 arr).
Proof.
  revert arr. induction es as [|[i x] es IH]; intros arr; simpl.
  - intros _ _. assert (without [] arr = arr) as ->; [|done]. apply map_eq. intros j. by rewrite lookup_without.
  - rewrite NoDup_cons. intros [Hi Hn] Hh. apply Forall_cons in Hh as [Hx Hh]. simpl in Hx.
    apply fmap_Some in Hx as (k & Hk & ->). rewrite (items_delete arr i k Hk). apply perm_skip.
    rewrite (IH (delete i arr) Hn).
    + apply Permutation_app_head.
      assert (without es.*1 (delete i arr) = without (i :: es.*1) arr) as ->; [|done].
      apply map_eq. intros j. rewrite !lookup_without. destruct (decide (i = j)) as [<-|Hne].
      * rewrite lookup_delete_eq. rewrite (decide_True (P := i ∈ i :: es.*1)) by set_solver. by destruct (decide _).
      * rewrite lookup_delete_ne by done. destruct (decide (j ∈ es.*1)); [by rewrite decide_True by set_solver|].
        by rewrite decide_False by set_solver.
    + apply Forall_forall. intros [j y] Hj. pose proof (proj1 (Forall_forall _ _) Hh _ Hj) as Hy. simpl in *.
      rewrite lookup_delete_ne; [done|]. intros ->. apply Hi, list_elem_of_fmap. by exists (j, y).
Qed.
End Chains.
