(* ===== verification/HashSplit.v ===== *)
(** * Growing the hash table by one bucket

    [my_hash_mask] as arithmetic, and the loop of [my_hash_insert] that splits
    one bucket of mysys/hash.c in two, in place: the records whose hash number
    has the new bit move to the new last bucket, the others stay, and one index
    becomes free for the record that is inserted. *)

From Stdlib Require Import NArith Lia.
From stdpp Require Import base numbers gmap functions list strings.
From S2P Require Import Prelude HashTable HashChain.
Local Open Scope spider_scope.
Local Open Scope N_scope.

(** ** Bucket numbers *)

(** The number of records and the length of the buffer, a power of two. *)
Record sized (n B : N) : Prop := {
  sz_pow : exists j, B = 2 ^ j;
  sz_half : B / 2 <= n;
  sz_le : n <= B;
  sz_pos : 0 < n;
  sz_max : n <= NO_RECORD
}.

Lemma sized_pow n B : sized n B -> exists j, B = 2 ^ j /\ j <= 33.
Proof.
  intros [(j & ->) H1 H2 H3 H4]. exists j. split; [done|]. apply N.lt_succ_r.
  apply (N.pow_lt_mono_r_iff 2); [lia|]. change NO_RECORD with 4294967295 in *. change (2 ^ N.succ 33) with 17179869184.
  pose proof (N.div_mod (2 ^ j) 2). pose proof (N.mod_lt (2 ^ j) 2). lia.
Qed.

Lemma land_pow h j : N.land h (size_t_sub (2 ^ j) 1) = h mod 2 ^ j \/ 64 < j.
Proof.
  destruct (N.le_gt_cases j 64) as [Hj|Hj]; [left|by right].
  assert (2 ^ j <= 2 ^ 64) by (by apply N.pow_le_mono_r).
  assert (0 < 2 ^ j) by (apply N.neq_0_lt_0, N.pow_nonzero; lia).
  rewrite <- N.land_ones, N.ones_equiv. f_equal. unfold size_t_sub.
  replace (2 ^ j + 2 ^ 64 - 1) with (N.pred (2 ^ j) + 1 * 2 ^ 64) by lia.
  rewrite N.Div0.mod_add. apply N.mod_small. lia.
Qed.

(** The bucket of a hash number. *)
Lemma mask_eq n B h : sized n B ->
  my_hash_mask h B n = if h mod B <? n then h mod B else h mod (B / 2).
Proof.
  intros Hs. destruct (sized_pow n B Hs) as (j & -> & Hj). destruct Hs as [_ H1 H2 H3 H4].
  unfold my_hash_mask. destruct (land_pow h j) as [->|]; [|lia].
  assert (NO_RECORD < 2 ^ 32) by done.
  destruct (N.ltb_spec (h mod 2 ^ j) n) as [Hlt|Hge]; unfold to_uint.
  - apply N.mod_small. lia.
  - destruct (N.eq_dec j 0) as [->|Hj0]; [rewrite N.pow_0_r, N.mod_1_r in Hge; lia|].
    rewrite <- N.div2_spec, N.div2_div.
    assert (2 ^ j / 2 = 2 ^ (j - 1)) as E.
    { rewrite <- (N.sub_add 1 j) at 1 by lia. rewrite N.pow_add_r, N.pow_1_r. apply N.div_mul. lia. }
    rewrite E in *. destruct (land_pow h (j - 1)) as [->|]; [|lia]. apply N.mod_small.
    pose proof (N.mod_lt h (2 ^ (j - 1))). assert (2 ^ (j - 1) <> 0) by (apply N.pow_nonzero; lia). lia.
Qed.

Lemma sized_half n B : sized n B -> n < B -> exists C, B = 2 * C /\ B / 2 = C /\ 0 < C /\ (exists i, C = 2 ^ i) /\ C <= n.
Proof.
  intros Hs Hn. destruct (sized_pow n B Hs) as (j & -> & Hj). destruct Hs as [_ H1 H2 H3 H4].
  assert (j <> 0) by (intros ->; rewrite N.pow_0_r in Hn; lia).
  exists (2 ^ (j - 1)). assert (2 ^ j = 2 ^ (j - 1) * 2) as E.
  { rewrite <- (N.sub_add 1 j) at 1 by lia. by rewrite N.pow_add_r, N.pow_1_r. }
  rewrite E in *. assert (0 < 2 ^ (j - 1)) by (apply N.neq_0_lt_0, N.pow_nonzero; lia).
  rewrite N.div_mul in * by lia. split_and!; [lia|done|done|by exists (j - 1)|done].
Qed.

Lemma mask_lt n B h : sized n B -> my_hash_mask h B n < n.
Proof.
  intros Hs. rewrite (mask_eq n B h Hs). destruct (N.ltb_spec (h mod B) n) as [|Hge]; [done|].
  destruct (N.eq_dec n B) as [->|Hne].
  - pose proof (N.mod_lt h B). destruct Hs. lia.
  - destruct Hs as [? ? ? ? ?] eqn:HS; clear HS. destruct (sized_half n B Hs) as (C & _ & -> & H1 & _ & H2); [lia|].
    pose proof (N.mod_lt h C). lia.
Qed.

(** The buffer is doubled when it is full; no bucket changes. *)
Lemma mask_double n h : sized n n -> 2 * n <= 2 ^ 34 -> my_hash_mask h (2 * n) n = my_hash_mask h n n.
Proof.
  intros Hs _. rewrite (mask_eq n n h Hs).
  destruct (sized_pow n n Hs) as (j & Ej & Hj).
  assert (sized n (2 * n)) as Hs2.
  { destruct Hs as [_ H1 H2 H3 H4]. split; try lia.
    - exists (N.succ j). by rewrite N.pow_succ_r', <- Ej.
    - rewrite N.mul_comm, N.div_mul; lia. }
  rewrite (mask_eq n (2 * n) h Hs2). destruct Hs as [_ _ _ H3 _].
  rewrite (N.mul_comm 2 n), N.div_mul by lia.
  pose proof (N.mod_lt h n ltac:(lia)). destruct (N.ltb_spec (h mod n) n); [|lia].
  destruct (N.ltb_spec (h mod (n * 2)) n) as [Hlt|]; [|done].
  rewrite N.Div0.mod_mul_r in Hlt |- *. pose proof (N.mod_lt (h / n) 2 ltac:(lia)).
  generalize dependent ((h / n) mod 2). generalize dependent (h mod n). intros r _ Hr b Hlt Hb.
  assert (b = 0 \/ b = 1) as [->| ->] by lia; lia.
Qed.

(** The records of one bucket change when a bucket is added. *)
Lemma mask_grow n B h : sized n B -> n < B -> n < NO_RECORD ->
  sized (n + 1) B /\
  my_hash_mask h B (n + 1) = (if h mod B =? n then n else my_hash_mask h B n) /\
  (h mod B = n -> my_hash_mask h B n = n - B / 2).
Proof.
  intros Hs Hn Hmax. assert (sized (n + 1) B) as Hs1 by (destruct Hs; split; [done|lia..]).
  split; [done|]. rewrite (mask_eq _ _ h Hs), (mask_eq _ _ h Hs1).
  destruct (sized_half n B Hs Hn) as (C & -> & E & HC & _ & HCn). rewrite E in *.
  rewrite (N.mul_comm 2 C), N.Div0.mod_mul_r in *.
  pose proof (N.mod_lt h C ltac:(lia)). pose proof (N.mod_lt (h / C) 2 ltac:(lia)).
  remember ((h / C) mod 2) as b eqn:Eb. remember (h mod C) as r eqn:Er. clear Eb Er.
  assert (b = 0 \/ b = 1) as [->| ->] by lia.
  - rewrite N.mul_0_r, N.add_0_r. split; [|lia].
    destruct (N.ltb_spec r n), (N.ltb_spec r (n + 1)), (N.eqb_spec r n); lia.
  - rewrite N.mul_1_r. destruct (N.ltb_spec (r + C) n), (N.ltb_spec (r + C) (n + 1)), (N.eqb_spec (r + C) n); lia.
Qed.

(** Its new bit is tested by [hash_nr & halfbuff]. *)
Lemma split_bit n B h : sized n B -> n < B -> my_hash_mask h B n = n - B / 2 ->
  (N.land h (N.shiftr B 1) =? 0) = negb (h mod B =? n).
Proof.
  intros Hs Hn Hh. rewrite (mask_eq _ _ h Hs) in Hh.
  destruct (sized_half n B Hs Hn) as (C & -> & E & HC & (i & ->) & HCn). rewrite E in *.
  replace (N.shiftr (2 * 2 ^ i) 1) with (2 ^ i) by (rewrite <- N.div2_spec, N.div2_div; lia).
  assert (N.land h (2 ^ i) = 2 ^ i * ((h / 2 ^ i) mod 2)) as ->.
  { rewrite <- N.bit0_mod, <- N.shiftr_div_pow2, N.shiftr_spec, N.add_0_l by lia.
    apply N.bits_inj. intros k. rewrite N.land_spec, N.pow2_bits_eqb. destruct (N.testbit h i) eqn:Hb; simpl.
    - rewrite N.mul_1_r, N.pow2_bits_eqb. destruct (N.eqb_spec i k) as [->|]; by rewrite ?Hb, ?andb_false_r.
    - rewrite N.mul_0_r, N.bits_0. destruct (N.eqb_spec i k) as [->|]; by rewrite ?Hb, ?andb_false_r. }
  rewrite (N.mul_comm 2), N.Div0.mod_mul_r in *. set (C := 2 ^ i) in *.
  pose proof (N.mod_lt h C ltac:(lia)). pose proof (N.mod_lt (h / C) 2 ltac:(lia)).
  remember ((h / C) mod 2) as b eqn:Eb. remember (h mod C) as r eqn:Er. clear Eb Er.
  assert (b = 0 \/ b = 1) as [->| ->] by lia.
  - rewrite !N.mul_0_r, N.add_0_r in *. change (0 =? 0) with true.
    destruct (N.ltb_spec r n), (N.eqb_spec r n); simpl; try done; lia.
  - rewrite !N.mul_1_r in *. destruct (N.eqb_spec C 0); [lia|].
    destruct (N.ltb_spec (r + C) n), (N.eqb_spec (r + C) n); simpl; try done; lia.
Qed.

(** ** The loop *)

Section Split.
  Context {K D : Type} `{HashKey K} `{EqDecision D}.
  Implicit Types (arr : gmap N (HASH_LINK D)) (es L lows highs : list (N * (N * D))) (x : N * D).

(** One half of a bucket while it is being built: [g] is the index and [r] the
    record of its last element, whose link is only right if it is [used]. *)
Definition part arr (found used : bool) es (g : N) (r : option (N * D)) (nxt : N) : Prop :=
  if found then
    exists es0 x, es = es0 ++ [(g, x)] /\ r = Some x /\ seg arr es0 g /\
      (used = true -> arr !! g = Some (link_of nxt x))
  else es = [].

#[local] Arguments part : simpl never.

Lemma part_here arr i x nxt :
  arr !! i = Some (link_of nxt x) -> part arr true true [(i, x)] i (Some x) nxt.
Proof. intros Hi. by exists [], x. Qed.

Lemma part_moved arr i x nxt : part arr true false [(i, x)] i (Some x) nxt.
Proof. by exists [], x. Qed.

Lemma part_extend arr es g r i x nxt :
  part arr true true es g r i -> arr !! i = Some (link_of nxt x) ->
  part arr true true (es ++ [(i, x)]) i (Some x) nxt.
Proof.
  intros (es0 & y & -> & -> & Hs & Hg) Hi. exists (es0 ++ [(g, y)]), x. split_and!; [done..| |done].
  apply seg_app. split; [done|]. split; [|done]. by apply Hg.
Qed.

Lemma part_store arr es g r i x u nx nxt :
  part arr true u es g r nx -> NoDup es.*1 -> i ∉ es.*1 -> arr !! i = Some (link_of nxt x) ->
  exists y, r = Some y /\
    part (<[g := link_of i y]> arr) true true (es ++ [(i, x)]) i (Some x) nxt.
Proof.
  intros (es0 & y & -> & -> & Hs & _) Hn Hni Hi. exists y. split; [done|].
  rewrite fmap_app in *. simpl in *. apply NoDup_app in Hn as (_ & Hn & _).
  exists (es0 ++ [(g, y)]), x. split_and!; [done..| |].
  - apply seg_app. split; [apply seg_insert; [|done]|].
    + intros Hg. apply (Hn g Hg). set_solver.
    + split; [|done]. by rewrite lookup_insert_eq.
  - intros _. rewrite lookup_insert_ne; [done|]. intros ->. set_solver.
Qed.

Lemma part_frame arr f u u' es g r nx nxt i k :
  part arr f u es g r nx -> i ∉ es.*1 -> u' = false -> part (<[i := k]> arr) f u' es g r nxt.
Proof.
  destruct f; [|done]. intros (es0 & y & -> & -> & Hs & _) Hi ->. exists es0, y. split_and!; try done.
  apply seg_insert; [|done]. rewrite fmap_app in Hi. set_solver.
Qed.

Lemma part_unused arr f u u' es g r nx nxt :
  part arr f u es g r nx -> u' = false -> part arr f u' es g r nxt.
Proof. destruct f; [|done]. intros (es0 & y & -> & -> & Hs & _) ->. by exists es0, y. Qed.

(** The chain is closed. *)
Lemma part_close arr f u es g r :
  part arr f u es g r NO_RECORD -> NoDup es.*1 ->
  (f = true -> u = true -> seg arr es NO_RECORD) /\
  (f = true -> exists y arr', r = Some y /\ store_rec g r NO_RECORD arr = Some arr' /\
     seg arr' es NO_RECORD /\ arr' = <[g := link_of NO_RECORD y]> arr /\ g ∈ es.*1) /\
  (f = false -> es = []).
Proof.
  intros Hp Hn. destruct f; [|by split_and!]. destruct Hp as (es0 & y & -> & -> & Hs & Hg).
  rewrite fmap_app in *. simpl in *. apply NoDup_app in Hn as (_ & Hn & _). split_and!; [|..|done].
  - intros _ Hu. apply seg_app. split; [done|]. split; [by apply Hg|done].
  - intros _. exists y, (<[g := link_of NO_RECORD y]> arr). split_and!; [done..| |done|set_solver].
    apply seg_app. split; [|split; [by rewrite lookup_insert_eq|done]].
    apply seg_insert; [|done]. intros Hi. apply (Hn g Hi). set_solver.
Qed.

Definition low_item (half : N) (x : N * D) : bool := N.land x.1 half =? 0.

(** The combinations of flags that occur. *)
Definition flag_ok (flag : N) : Prop :=
  flag = 0 \/ (flag = 4 \/ flag = 12) \/ (flag = 3 \/ flag = 7) \/ (flag = 5 \/ flag = 13).

Record split_inv arr0 (n f half : N) (L : list (N * (N * D))) (s : split_state (D := D))
    (rest lows highs : list (N * (N * D))) : Prop := {
  si_low : part (s_array s) (has (s_flag s) LOWFIND) (has (s_flag s) LOWUSED) lows
             (s_gpos s) (s_rec s) (hd_or NO_RECORD rest);
  si_high : part (s_array s) (has (s_flag s) HIGHFIND) (has (s_flag s) HIGHUSED) highs
              (s_gpos2 s) (s_rec2 s) (hd_or NO_RECORD rest);
  si_rest : seg (s_array s) rest NO_RECORD;
  si_pos : lows.*1 ++ highs.*1 ++ s_empty s :: rest.*1 ≡ₚ n :: L.*1;
  si_items : lows.*2 ++ highs.*2 ++ rest.*2 ≡ₚ L.*2;
  si_lows : Forall (fun e => low_item half e.2 = true) lows;
  si_highs : Forall (fun e => low_item half e.2 = false) highs;
  si_lhead : hd_or f lows = f;
  si_hhead : hd_or n highs = n;
  si_empty : if has (s_flag s) HIGHFIND
             then has (s_flag s) LOWFIND = false -> s_empty s = f else s_empty s = n;
  si_first : s_flag s = 0 -> hd_or f rest = f;
  si_flag : flag_ok (s_flag s);
  si_out : forall i, i ∉ n :: L.*1 -> s_array s !! i = arr0 !! i
}.

(** Evaluates the flags. *)
Ltac eval_flags :=
  repeat match goal with
  | H : context [has ?a ?b] |- _ =>
      let v := eval vm_compute in (has a b) in
      first [constr_eq v true | constr_eq v false]; change (has a b) with v in H
  | |- context [has ?a ?b] =>
      let v := eval vm_compute in (has a b) in
      first [constr_eq v true | constr_eq v false]; change (has a b) with v
  end; cbn [negb] in *.

(** The indexes in use are different. *)
Lemma split_distinct (ls hs rs : list N) e i n (ps : list N) :
  NoDup (n :: ps) -> ls ++ hs ++ e :: i :: rs ≡ₚ n :: ps ->
  NoDup ls /\ NoDup hs /\ (i ∉ ls /\ i ∉ hs /\ i ∉ rs /\ i <> e /\ e ∉ ls /\ e ∉ hs /\ e ∉ rs) /\
  (forall j, j ∈ ls -> j ∉ hs /\ j ∉ rs /\ j <> i) /\ (forall j, j ∈ hs -> j ∉ ls /\ j ∉ rs /\ j <> i).
Proof.
  intros Hn Hp. rewrite <- Hp in Hn. rewrite !NoDup_app, !NoDup_cons in Hn.
  destruct Hn as (H1 & H2 & H3 & H4 & H5 & H6 & H7). split_and!; [done|done|set_solver..| |]; intros j Hj; set_solver.
Qed.

(** The last elements of the two halves are among their indexes. *)
Lemma part_last arr u es g r nx : part arr true u es g r nx -> g ∈ es.*1.
Proof. intros (es0 & x & -> & _). rewrite fmap_app. set_solver. Qed.

Lemma si_index arr0 n f half L s rest lows highs i :
  split_inv arr0 n f half L s rest lows highs -> i ∈ lows.*1 ++ highs.*1 ++ s_empty s :: rest.*1 ->
  i ∈ n :: L.*1.
Proof. intros Hi. by rewrite (si_pos _ _ _ _ _ _ _ _ _ Hi). Qed.

(** Moving an element from the rest to the end of a half. *)
Lemma low_perm (ls hs rs ps : list N) e i :
  ls ++ hs ++ e :: i :: rs ≡ₚ ps -> (ls ++ [i]) ++ hs ++ e :: rs ≡ₚ ps.
Proof.
  intros <-. rewrite <- (assoc_L (++)). apply Permutation_app_head. simpl.
  rewrite (Permutation_middle hs (e :: rs) i). apply Permutation_app_head, perm_swap.
Qed.

Lemma high_perm (ls hs rs ps : list N) e i :
  ls ++ hs ++ e :: i :: rs ≡ₚ ps -> ls ++ (hs ++ [i]) ++ e :: rs ≡ₚ ps.
Proof. intros <-. rewrite <- (assoc_L (++)). do 2 apply Permutation_app_head. apply perm_swap. Qed.

Lemma low_perm_items (ls hs rs xs : list (N * D)) x :
  ls ++ hs ++ x :: rs ≡ₚ xs -> (ls ++ [x]) ++ hs ++ rs ≡ₚ xs.
Proof. intros <-. rewrite <- (assoc_L (++)). apply Permutation_app_head. simpl. apply Permutation_middle. Qed.

Lemma high_perm_items (ls hs rs xs : list (N * D)) x :
  ls ++ hs ++ x :: rs ≡ₚ xs -> ls ++ (hs ++ [x]) ++ rs ≡ₚ xs.
Proof. intros <-. by rewrite <- (assoc_L (++)). Qed.

Lemma part_hd arr u es g r nx z e : part arr true u es g r nx -> hd_or z es = z -> hd_or z (es ++ [e]) = z.
Proof. intros (es0 & y & -> & _). by rewrite <- (assoc_L (++)), !hd_or_app. Qed.

Lemma low_step arr0 n f half L s i x rest lows highs :
  NoDup (n :: L.*1) -> (forall j, j ∈ L.*1 -> j < NO_RECORD) -> i ∈ L.*1 ->
  low_item half x = true ->
  split_inv arr0 n f half L s ((i, x) :: rest) lows highs ->
  exists s' lows', split_low s i (link_of (hd_or NO_RECORD rest) x) = Some s' /\
    split_inv arr0 n f half L s' rest lows' highs /\ s_flag s' <> 0 /\
    s_array s' !! i = s_array s !! i.
Proof.
  intros Hnd Hmax HiL Hlow I. pose proof (si_index _ _ _ _ _ _ _ _ _ i I) as Hin0.
  destruct I as [I1 I2 I3 I4 I5 I6 I7 I8 I9 I10 I11 I12 I13].
  destruct (split_distinct _ _ _ _ _ _ _ Hnd I4) as (Nl & Nh & (D1 & D2 & D3 & D4 & D5 & D6 & D7) & Dl & Dh).
  destruct s as [flag e g r g2 r2 arr]. csimpl in *. destruct I3 as [Hi Hrest].
  assert (to_uint i = i) as Hu by (apply N.mod_small; specialize (Hmax i HiL); unfold NO_RECORD in *; lia).
  unfold split_low. csimpl. change (hash_nr (link_of _ x), data (link_of _ x)) with (x.1, x.2).
  rewrite <- surjective_pairing.
  pose proof I12 as Hflags. destruct Hflags as [->|[Hf|[Hf|Hf]]].
  - eval_flags. hnf in I1, I2. subst lows highs. eexists _, [(i, x)]. split; [reflexivity|]. split; [|done].
    specialize (I11 eq_refl). split; csimpl; eval_flags; try done; try (by constructor).
    + by apply part_here.
    + rewrite <- I4. apply perm_swap.
    + unfold flag_ok. tauto.
  - assert (Hc : has flag LOWFIND = false /\ has flag HIGHFIND = true) by (by destruct Hf as [->| ->]).
    destruct Hc as [Hc1 Hc2]. rewrite Hc1, Hc2 in *. cbn [negb] in *. hnf in I1. subst lows.
    eexists _, [(e, x)]. split; [reflexivity|]. split; [|done].
    specialize (I10 eq_refl). split; csimpl; eval_flags; try done; try (by constructor).
    + apply part_moved.
    + by eapply part_unused.
    + rewrite <- I4. csimpl. by rewrite Permutation_middle.
    + rewrite <- I5. csimpl. by rewrite Permutation_middle.
    + unfold flag_ok. tauto.
  - assert (Hc : has flag LOWFIND = true /\ has flag LOWUSED = true /\ has flag HIGHUSED = false) by (by destruct Hf as [->| ->]).
    destruct Hc as (Hc1 & Hc2 & Hc3). rewrite Hc1, Hc2 in *. cbn [negb] in *.
    eexists _, (lows ++ [(i, x)]). split; [reflexivity|]. split; [|split; [|done]].
    2: { destruct Hf as [->| ->]; done. }
    split; csimpl; rewrite ?Hc1, ?Hc2, ?Hc3; try done.
    + by eapply part_extend.
    + rewrite Hc3 in I2. by eapply part_unused.
    + rewrite fmap_app. by apply low_perm.
    + rewrite fmap_app. by apply low_perm_items.
    + apply Forall_app. split; [done|]. by constructor.
    + by eapply part_hd.
    + intros Hz. destruct Hf as [->| ->]; done.
  - assert (Hc : has flag LOWFIND = true /\ has flag LOWUSED = false /\ has flag HIGHFIND = true /\
        N.lor (N.land flag HIGHFIND) (N.lor LOWFIND LOWUSED) = 7) by (by destruct Hf as [->| ->]).
    destruct Hc as (Hc1 & Hc2 & Hc3 & Hc4). rewrite Hc1, Hc2, Hc3, Hc4 in *. cbn [negb] in *.
    pose proof (part_last _ _ _ _ _ _ I1) as Hg. destruct (Dl g Hg) as (G1 & G2 & G3).
    destruct (part_store _ _ _ _ _ x _ _ _ I1 Nl D1 Hi) as (y & -> & Hp). csimpl. rewrite Hu.
    eexists _, (lows ++ [(i, x)]). split; [reflexivity|]. split; [|split; [done|by csimpl; rewrite lookup_insert_ne]].
    split; csimpl; eval_flags; try done.
    + by eapply part_frame.
    + by apply seg_insert.
    + rewrite fmap_app. by apply low_perm.
    + rewrite fmap_app. by apply low_perm_items.
    + apply Forall_app. split; [done|]. by constructor.
    + by eapply part_hd.
    + unfold flag_ok. tauto.
    + intros j Hj. rewrite lookup_insert_ne; [by apply I13|]. intros ->. apply Hj.
      rewrite <- I4. apply elem_of_app. by left.
Qed.

Lemma high_step arr0 n f half L s i x rest lows highs :
  NoDup (n :: L.*1) -> (forall j, j ∈ L.*1 -> j < NO_RECORD) -> i ∈ L.*1 ->
  low_item half x = false ->
  split_inv arr0 n f half L s ((i, x) :: rest) lows highs ->
  exists s' highs', split_high s i (link_of (hd_or NO_RECORD rest) x) = Some s' /\
    split_inv arr0 n f half L s' rest lows highs' /\ s_flag s' <> 0 /\
    s_array s' !! i = s_array s !! i.
Proof.
  intros Hnd Hmax HiL Hlow I. destruct I as [I1 I2 I3 I4 I5 I6 I7 I8 I9 I10 I11 I12 I13].
  destruct (split_distinct _ _ _ _ _ _ _ Hnd I4) as (Nl & Nh & (D1 & D2 & D3 & D4 & D5 & D6 & D7) & Dl & Dh).
  destruct s as [flag e g r g2 r2 arr]. csimpl in *. destruct I3 as [Hi Hrest].
  assert (to_uint i = i) as Hu by (apply N.mod_small; specialize (Hmax i HiL); unfold NO_RECORD in *; lia).
  unfold split_high. csimpl. change (hash_nr (link_of _ x), data (link_of _ x)) with (x.1, x.2).
  rewrite <- surjective_pairing.
  assert (Hflags : flag = 0 \/ flag = 3 \/ (flag = 12 \/ flag = 13) \/ (flag = 4 \/ flag = 5 \/ flag = 7)).
  { unfold flag_ok in I12. tauto. }
  destruct Hflags as [->|[->|[Hf|Hf]]].
  - eval_flags. hnf in I1, I2. subst lows highs. eexists _, [(e, x)]. split; [reflexivity|]. split; [|done].
    specialize (I11 eq_refl). split; csimpl; eval_flags; try done; try (by constructor).
    + apply part_moved.
    + unfold flag_ok. tauto.
  - eval_flags. hnf in I2. subst highs. eexists _, [(e, x)]. split; [reflexivity|]. split; [|done].
    split; csimpl; eval_flags; try done; try (by constructor).
    + by eapply part_unused.
    + apply part_moved.
    + unfold flag_ok. tauto.
  - assert (Hc : has flag HIGHFIND = true /\ has flag HIGHUSED = true /\ has flag LOWUSED = false) by (by destruct Hf as [->| ->]).
    destruct Hc as (Hc1 & Hc2 & Hc3). rewrite Hc1, Hc2 in *. cbn [negb] in *.
    eexists _, (highs ++ [(i, x)]). split; [reflexivity|]. split; [|split; [|done]].
    2: { destruct Hf as [->| ->]; done. }
    split; csimpl; rewrite ?Hc1, ?Hc2, ?Hc3; try done.
    + rewrite Hc3 in I1. by eapply part_unused.
    + by eapply part_extend.
    + rewrite fmap_app. by apply high_perm.
    + rewrite fmap_app. by apply high_perm_items.
    + apply Forall_app. split; [done|]. by constructor.
    + by eapply part_hd.
    + intros Hz. destruct Hf as [->| ->]; done.
  - assert (Hc : has flag HIGHFIND = true /\ has flag HIGHUSED = false /\
        (N.lor (N.land flag LOWFIND) (N.lor HIGHFIND HIGHUSED) = if has flag LOWFIND then 13 else 12))
      by (by destruct Hf as [->|[->| ->]]).
    destruct Hc as (Hc1 & Hc2 & Hc3). rewrite Hc1, Hc2, Hc3 in *. cbn [negb] in *.
    pose proof (part_last _ _ _ _ _ _ I2) as Hg. destruct (Dh g2 Hg) as (G1 & G2 & G3).
    destruct (part_store _ _ _ _ _ x _ _ _ I2 Nh D2 Hi) as (y & -> & Hp). csimpl. rewrite Hu.
    eexists _, (highs ++ [(i, x)]). split; [reflexivity|].
    split; [|split; [by csimpl; destruct (has flag LOWFIND)|by csimpl; rewrite lookup_insert_ne]].
    assert (Hc : forall b : bool, has (if b then 13 else 12) LOWFIND = b /\ has (if b then 13 else 12) LOWUSED = false /\
      has (if b then 13 else 12) HIGHFIND = true /\ has (if b then 13 else 12) HIGHUSED = true) by (by intros []).
    destruct (Hc (has flag LOWFIND)) as (C1 & C2 & C3 & C4).
    split; csimpl; rewrite ?C1, ?C2, ?C3, ?C4; try done.
    + by eapply part_frame.
    + by apply seg_insert.
    + rewrite fmap_app. by apply high_perm.
    + rewrite fmap_app. by apply high_perm_items.
    + apply Forall_app. split; [done|]. by constructor.
    + by eapply part_hd.
    + by destruct (has flag LOWFIND).
    + unfold flag_ok. destruct (has flag LOWFIND); tauto.
    + intros j Hj. rewrite lookup_insert_ne; [by apply I13|]. intros ->. apply Hj.
      rewrite <- I4. apply elem_of_app. right. apply elem_of_app. by left.
Qed.

(** The loop visits the whole bucket. *)
Lemma split_loop_spec (info : HASH K D) arr0 n f L : forall fuel rest l0 s lows highs,
  n = records info -> NoDup (n :: L.*1) -> (forall j, j ∈ L.*1 -> j < NO_RECORD) ->
  Forall (fun e => my_hash_mask e.2.1 (blength info) n = f) L ->
  L = l0 ++ rest -> rest <> [] -> (length rest <= fuel)%nat ->
  split_inv arr0 n f (N.shiftr (blength info) 1) L s rest lows highs ->
  exists s' lows' highs',
    split_loop fuel info (N.shiftr (blength info) 1) f s (hd_or f rest) = Some s' /\
    split_inv arr0 n f (N.shiftr (blength info) 1) L s' [] lows' highs' /\ s_flag s' <> 0.
Proof.
  set (half := N.shiftr (blength info) 1).
  induction fuel as [|fuel IH]; intros rest l0 s lows highs Hn Hnd Hmax Hhome HL Hne Hlen I.
  { destruct rest; [done|simpl in Hlen; lia]. }
  destruct rest as [|[i x] rest]; [done|]. clear Hne.
  assert ((i, x) ∈ L) as HiL by (rewrite HL; set_solver).
  assert (i ∈ L.*1) as Hi1 by (apply list_elem_of_fmap; by exists (i, x)).
  destruct (si_rest _ _ _ _ _ _ _ _ _ I) as [Hi _]. cbn [split_loop hd_or fst]. rewrite Hi. cbn [mbind option_bind].
  pose proof (proj1 (Forall_forall _ _) Hhome _ HiL) as Hx. simpl in Hx.
  change (hash_nr (link_of _ x)) with x.1. rewrite <- Hn, Hx, N.eqb_refl. rewrite andb_false_r.
  assert (Hstep : exists s' lows' highs',
    (if N.land x.1 half =? 0 then split_low s i (link_of (hd_or NO_RECORD rest) x)
     else split_high s i (link_of (hd_or NO_RECORD rest) x)) = Some s' /\
    split_inv arr0 n f half L s' rest lows' highs' /\ s_flag s' <> 0).
  { destruct (N.land x.1 half =? 0) eqn:Hb.
    - destruct (low_step _ _ _ half _ _ _ _ _ _ _ Hnd Hmax Hi1 Hb I) as (s' & l' & E & I' & F & _). by exists s', l', highs.
    - destruct (high_step _ _ _ half _ _ _ _ _ _ _ Hnd Hmax Hi1 Hb I) as (s' & h' & E & I' & F & _). by exists s', lows, h'. }
  destruct Hstep as (s' & lows' & highs' & -> & I' & F). cbn [mbind option_bind].
  change (next (link_of ?a x)) with a. destruct rest as [|[j y] rest].
  - cbn [hd_or]. rewrite N.eqb_refl. by exists s', lows', highs'.
  - cbn [hd_or fst]. assert (j ∈ L.*1) as Hj.
    { apply list_elem_of_fmap. exists (j, y). split; [done|]. rewrite HL. set_solver. }
    specialize (Hmax j Hj) as Hjm. destruct (N.eqb_spec j NO_RECORD); [lia|].
    apply (IH ((j, y) :: rest) (l0 ++ [(i, x)]) s' lows' highs'); try done.
    + by rewrite <- (assoc_L (++)).
    + simpl in *. lia.
Qed.

(** The links of the last elements. *)
Lemma split_finish_spec arr0 n f half L s lows highs :
  NoDup (n :: L.*1) -> s_flag s <> 0 -> split_inv arr0 n f half L s [] lows highs ->
  exists arr', split_finish s = Some (s_empty s, arr') /\
    seg arr' lows NO_RECORD /\ seg arr' highs NO_RECORD /\
    (forall i, i ∉ n :: L.*1 -> arr' !! i = arr0 !! i).
Proof.
  intros Hnd Hnz [I1 I2 I3 I4 I5 I6 I7 I8 I9 I10 I11 I12 I13].
  assert (NoDup (lows.*1 ++ highs.*1 ++ [s_empty s])) as Hn by (csimpl in I4; by rewrite I4).
  apply NoDup_app in Hn as (Nl & Hlh & Hn). apply NoDup_app in Hn as (Nh & _ & _).
  destruct s as [flag e g r g2 r2 arr]. csimpl in *. unfold split_finish. csimpl.
  assert (Hlow : exists arr1, (if N.land flag (N.lor LOWFIND LOWUSED) =? LOWFIND
      then store_rec g r NO_RECORD arr else Some arr) = Some arr1 /\ seg arr1 lows NO_RECORD /\
      (forall i, i ∉ lows.*1 -> arr1 !! i = arr !! i) /\
      part arr1 (has flag HIGHFIND) (has flag HIGHUSED) highs g2 r2 NO_RECORD).
  { destruct (part_close _ _ _ _ _ _ I1 Nl) as (P1 & P2 & P3).
    assert (Hf : N.land flag (N.lor LOWFIND LOWUSED) =? LOWFIND = has flag LOWFIND && negb (has flag LOWUSED))
      by (destruct I12 as [->|[[->| ->]|[[->| ->]|[->| ->]]]]; done).
    rewrite Hf. destruct (has flag LOWFIND) eqn:F1; [destruct (has flag LOWUSED) eqn:F2|]; cbn [negb andb].
    - exists arr. split_and!; [done|by apply P1|done|done].
    - destruct (P2 eq_refl) as (y & arr1 & -> & Hst & Hs & -> & Hg). exists (<[g := link_of NO_RECORD y]> arr).
      split_and!; [done|done| |].
      + intros i Hi. apply lookup_insert_ne. by intros <-.
      + assert (g ∉ highs.*1) as Hg2 by (specialize (Hlh g Hg); set_solver).
        destruct (has flag HIGHUSED) eqn:F4; [|by eapply part_frame].
        destruct (has flag HIGHFIND) eqn:F3; [|done]. destruct I2 as (es0 & z & -> & -> & Hs2 & Hu).
        rewrite fmap_app in Hg2. exists es0, z. split_and!; try done; [apply seg_insert; [set_solver|done]|].
        intros _. rewrite lookup_insert_ne; [by apply Hu|]. intros ->. set_solver.
    - exists arr. rewrite (P3 eq_refl). by split_and!. }
  destruct Hlow as (arr1 & -> & Hs1 & Ho1 & I2'). cbn [mbind option_bind].
  destruct (part_close _ _ _ _ _ _ I2' Nh) as (P1 & P2 & P3).
  assert (Hf : N.land flag (N.lor HIGHFIND HIGHUSED) =? HIGHFIND = has flag HIGHFIND && negb (has flag HIGHUSED))
    by (destruct I12 as [->|[[->| ->]|[[->| ->]|[->| ->]]]]; done).
  assert (Hout : forall i, i ∉ n :: L.*1 -> i ∉ lows.*1 /\ i ∉ highs.*1).
  { intros i. rewrite <- I4. set_solver. }
  assert (Hout1 : forall i, i ∉ n :: L.*1 -> arr1 !! i = arr0 !! i).
  { intros i Hi. rewrite Ho1 by (by apply Hout). by apply I13. }
  rewrite Hf. destruct (has flag HIGHFIND) eqn:F1; [destruct (has flag HIGHUSED) eqn:F2|]; cbn [negb andb mbind option_bind].
  - exists arr1. split_and!; [done|done|by apply P1|done].
  - destruct (P2 eq_refl) as (y & arr2 & -> & Hst & Hs & -> & Hg). rewrite Hst. cbn [mbind option_bind].
    eexists. split_and!; [done| |done|].
    + apply seg_insert; [|done]. intros Hl. specialize (Hlh _ Hl). set_solver.
    + intros i Hi. rewrite lookup_insert_ne; [by apply Hout1|]. intros <-. by apply Hout in Hi as [_ Hi].
  - exists arr1. rewrite (P3 eq_refl). by split_and!.
Qed.

(** ** The bucket is split *)

Definition full (n : N) arr : Prop := forall i, is_Some (arr !! i) <-> i < n.
Definition holed (n e : N) arr : Prop := e < n /\ forall i, is_Some (arr !! i) <-> i < n /\ i <> e.

Lemma full_none n arr i : full n arr -> n <= i -> arr !! i = None.
Proof. intros Hf Hi. apply eq_None_not_Some. rewrite (Hf i). lia. Qed.

Lemma first_index_eq n B : sized n B -> n < B ->
  exists C, B / 2 = C /\ N.shiftr B 1 = C /\ 0 < C <= n /\ size_t_sub n C = n - C.
Proof.
  intros Hs Hn. destruct (sized_half n B Hs Hn) as (C & -> & E & HC & _ & HCn). exists C.
  split_and!; [done| |done|done|].
  - rewrite <- N.div2_spec, N.div2_div. exact E.
  - destruct Hs as [_ _ _ _ Hmax]. unfold size_t_sub. change NO_RECORD with 4294967295 in Hmax.
    replace (n + 2 ^ 64 - C) with (n - C + 1 * 2 ^ 64) by lia. rewrite N.Div0.mod_add.
    apply N.mod_small. change (2 ^ 64) with 18446744073709551616. lia.
Qed.

(** The halves of the bucket [f] in the new table. *)
Lemma split_tbl n B arr bs arr' e L lows highs :
  let f := n - B / 2 in
  sized n B -> n < B -> n < NO_RECORD -> full n arr ->
  tbl (fun h => my_hash_mask h B n) arr bs -> bs f = L -> NoDup (n :: L.*1) ->
  lows.*1 ++ highs.*1 ++ [e] ≡ₚ n :: L.*1 -> lows.*2 ++ highs.*2 ≡ₚ L.*2 ->
  Forall (fun y => low_item (N.shiftr B 1) y.2 = true) lows ->
  Forall (fun y => low_item (N.shiftr B 1) y.2 = false) highs ->
  hd_or f lows = f -> hd_or n highs = n ->
  seg arr' lows NO_RECORD -> seg arr' highs NO_RECORD ->
  (forall i, i ∉ n :: L.*1 -> arr' !! i = arr !! i) ->
  tbl (fun h => my_hash_mask h B (n + 1)) (delete e arr') (<[f := lows]> (<[n := highs]> bs)).
Proof.
  intros f Hs Hn Hmax Hfull Ht HL Hnd Hpos Hits Hlow Hhigh Hlh Hhh Hsl Hsh Hout.
  destruct (first_index_eq n B Hs Hn) as (C & EC & _ & HC & _).
  assert (f <> n) as Hfn by (unfold f; lia).
  assert (NoDup (lows.*1 ++ highs.*1 ++ [e])) as Hn2 by (by rewrite Hpos).
  apply NoDup_app in Hn2 as (Nl & Hl2 & Hn2). apply NoDup_app in Hn2 as (Nh & Hh2 & _).
  assert (Hhome : forall x, x ∈ L.*2 -> my_hash_mask x.1 B n = f).
  { intros x Hx. apply list_elem_of_fmap in Hx as ([i y] & -> & Hx). rewrite <- HL in Hx.
    destruct (t_bucket _ _ _ Ht f) as [_ _ _ Hb]. by apply (proj1 (Forall_forall _ _) Hb) in Hx. }
  assert (Hnew : forall h, my_hash_mask h B n = f ->
    my_hash_mask h B (n + 1) = if N.land h (N.shiftr B 1) =? 0 then f else n).
  { intros h Hh. destruct (mask_grow n B h Hs Hn Hmax) as (_ & -> & _). 
    rewrite (split_bit n B h Hs Hn Hh), Hh. by destruct (h mod B =? n). }
  assert (Hbucket : forall p es (b : bool), p = (if b then f else n) -> NoDup es.*1 -> e ∉ es.*1 ->
    Forall (fun y => low_item (N.shiftr B 1) y.2 = b) es -> (forall y, y ∈ es -> y.2 ∈ L.*2) ->
    hd_or p es = p -> seg arr' es NO_RECORD -> bucket (fun h => my_hash_mask h B (n + 1)) (delete e arr') p es).
  { intros p es b -> H1 H2 H3 H4 H5 H6. split; [by apply seg_delete|done|done|].
    apply Forall_forall. intros y Hy. apply (proj1 (Forall_forall _ _) H3) in Hy as Hb. simpl in Hb.
    rewrite (Hnew y.2.1 (Hhome _ (H4 _ Hy))). unfold low_item in Hb. by rewrite Hb. }
  assert (Hin : forall es y, y ∈ es -> y.2 ∈ es.*2).
  { intros es y Hy. apply list_elem_of_fmap. by exists y. }
  assert (bs n = []) as Hbn by (eapply tbl_free; [exact Ht|]; by eapply full_none).
  eapply (tbl_change _ _ arr _ bs _ [f; n] [n] Ht).
  - intros p Hp. rewrite !fn_lookup_insert_ne; set_solver.
  - intros p y Hp Hy. destruct (t_bucket _ _ _ Ht p) as [_ _ _ Hb]. apply (proj1 (Forall_forall _ _) Hb) in Hy as Hy'.
    simpl in Hy'. destruct (mask_grow n B y.2.1 Hs Hn Hmax) as (_ & -> & Hg).
    destruct (N.eqb_spec (y.2.1 mod B) n) as [E|E]; [|done]. exfalso. apply Hp. rewrite <- Hy', (Hg E). set_solver.
  - intros i ->%list_elem_of_singleton. by eapply full_none.
  - intros i Hi1 Hi2. specialize (Hi1 f ltac:(set_solver)). rewrite HL in Hi1.
    assert (i ∉ n :: L.*1) as Hi by set_solver. rewrite lookup_delete_ne; [by apply Hout|].
    intros ->. apply Hi. rewrite <- Hpos. set_solver.
  - intros p Hp. assert (p = f \/ p = n) as [->| ->] by set_solver.
    + rewrite fn_lookup_insert. apply (Hbucket _ _ true); try done; [specialize (Hl2 e); set_solver|].
      intros y Hy. rewrite <- Hits. apply elem_of_app. left. by apply Hin.
    + rewrite fn_lookup_insert_ne, fn_lookup_insert by done. apply (Hbucket _ _ false); try done; [specialize (Hh2 e); set_solver|].
      intros y Hy. rewrite <- Hits. apply elem_of_app. right. by apply Hin.
  - intros i Hk Hi. assert (i <> e) as Hie by (intros ->; rewrite lookup_delete_eq in Hk; by destruct Hk).
    assert (i ∈ lows.*1 ++ highs.*1 ++ [e]) as Hi'.
    { rewrite Hpos. destruct Hi as [(p & Hp & Hi)|Hi]; [|set_solver].
      assert (p = f \/ p = n) as [->| ->] by set_solver; [rewrite HL in Hi; set_solver|]. rewrite Hbn in Hi. set_solver. }
    apply elem_of_app in Hi' as [Hi'|Hi'].
    + exists f. rewrite fn_lookup_insert. split; [set_solver|done].
    + exists n. rewrite fn_lookup_insert_ne, fn_lookup_insert by done. split; set_solver.
Qed.

(** The records are the same. *)
Lemma split_items n arr arr' e L lows highs :
  NoDup (n :: L.*1) -> arr !! n = None -> seg arr L NO_RECORD ->
  lows.*1 ++ highs.*1 ++ [e] ≡ₚ n :: L.*1 -> lows.*2 ++ highs.*2 ≡ₚ L.*2 ->
  seg arr' lows NO_RECORD -> seg arr' highs NO_RECORD ->
  (forall i, i ∉ n :: L.*1 -> arr' !! i = arr !! i) ->
  items (delete e arr') ≡ₚ items arr.
Proof.
  intros Hnd Hn HsL Hpos Hits Hsl Hsh Hout.
  assert (NoDup (lows.*1 ++ highs.*1 ++ [e])) as Hn2 by (by rewrite Hpos).
  rewrite (assoc_L (++)) in Hn2. apply NoDup_app in Hn2 as (Hn2 & He & _).
  assert (e ∉ lows.*1 ++ highs.*1) as He' by (intros Hi; apply (He e Hi); set_solver). clear He.
  apply NoDup_cons in Hnd as [HnL HndL].
  rewrite (items_split arr L HndL (seg_holds _ _ _ HsL)).
  rewrite (items_split (delete e arr') (lows ++ highs)).
  - rewrite !fmap_app, Hits. apply Permutation_app_head.
    assert (without (lows.*1 ++ highs.*1) (delete e arr') = without L.*1 arr) as ->; [|done].
    apply map_eq. intros i. rewrite !lookup_without.
    assert (Hi : i ∈ lows.*1 ++ highs.*1 ++ [e] <-> i ∈ n :: L.*1) by (by rewrite Hpos).
    destruct (decide (i ∈ lows.*1 ++ highs.*1)) as [H1|H1], (decide (i ∈ L.*1)) as [H2|H2]; try done.
    + assert (i = n) as -> by set_solver. done.
    + assert (i = e) as -> by set_solver. by rewrite lookup_delete_eq.
    + destruct (decide (i = e)) as [->|Hne].
      * rewrite lookup_delete_eq. assert (e = n) as -> by set_solver. done.
      * rewrite lookup_delete_ne by done. apply Hout. set_solver.
  - by rewrite fmap_app.
  - rewrite <- fmap_app in He'. apply Forall_app.
    split; eapply seg_holds; (apply seg_delete; [rewrite fmap_app in He'; set_solver|done]).
Qed.

Lemma split_holed n arr arr' e L lows highs :
  full n arr -> NoDup (n :: L.*1) -> (forall i, i ∈ L.*1 -> i < n) ->
  lows.*1 ++ highs.*1 ++ [e] ≡ₚ n :: L.*1 ->
  seg arr' lows NO_RECORD -> seg arr' highs NO_RECORD ->
  (forall i, i ∉ n :: L.*1 -> arr' !! i = arr !! i) ->
  holed (n + 1) e (delete e arr').
Proof.
  intros Hfull Hnd HL Hpos Hsl Hsh Hout.
  assert (He : e ∈ n :: L.*1) by (rewrite <- Hpos; set_solver).
  split. { apply elem_of_cons in He as [->|He]; [lia|]. specialize (HL _ He). lia. }
  intros i. destruct (decide (i = e)) as [->|Hne].
  { rewrite lookup_delete_eq. split; [by intros [? ?]|lia]. }
  rewrite lookup_delete_ne by done.
  assert (Hi : i ∈ lows.*1 ++ highs.*1 ++ [e] <-> i ∈ n :: L.*1) by (by rewrite Hpos).
  destruct (decide (i ∈ n :: L.*1)) as [Hin|Hno].
  - split.
    + intros _. split; [|done]. apply elem_of_cons in Hin as [->|Hin]; [lia|]. specialize (HL _ Hin). lia.
    + intros _. apply Hi in Hin. rewrite !elem_of_app in Hin. destruct Hin as [Hin|[Hin|Hin]]; [..|set_solver].
      * destruct (seg_in _ _ _ _ Hsl Hin) as (x & _ & Ex). by destruct (arr' !! i).
      * destruct (seg_in _ _ _ _ Hsh Hin) as (x & _ & Ex). by destruct (arr' !! i).
  - rewrite (Hout i Hno), (Hfull i). assert (i <> n) by set_solver. lia.
Qed.

(** [my_hash_insert] makes room for one more bucket. *)
Lemma hash_split_spec (info : HASH K D) bs :
  let n := records info in let B := blength info in
  sized n B -> n < B -> n < NO_RECORD -> full n (array info) ->
  tbl (fun h => my_hash_mask h B n) (array info) bs ->
  exists e arr' bs', hash_split info = Some (e, arr') /\ holed (n + 1) e (delete e arr') /\
    tbl (fun h => my_hash_mask h B (n + 1)) (delete e arr') bs' /\ items (delete e arr') ≡ₚ items (array info).
Proof.
  intros n B Hs Hn Hmax Hfull Ht. destruct (first_index_eq n B Hs Hn) as (C & EC & ES & HC & EF).
  unfold hash_split. fold n B. rewrite ES, EF. set (f := n - C).
  assert (f < n) as Hfn by (unfold f; lia). destruct (N.eqb_spec f n) as [|_]; [lia|].
  assert (array info !! n = None) as Hnone by (by eapply full_none).
  destruct (proj2 (Hfull f) Hfn) as [k Hk].
  destruct (N.to_nat n) as [|fuel] eqn:Efuel; [lia|].
  destruct (N.eq_dec (my_hash_mask (hash_nr k) B n) f) as [Hh|Hh].
  - destruct (tbl_first _ _ _ _ _ Ht Hk Hh) as (es & HL & _). set (L := (f, item k) :: es) in *.
    destruct (t_bucket _ _ _ Ht f) as [HsL HnL HhL HomeL]. rewrite HL in *.
    assert (L <> []) as HLne by done. clearbody L.
    assert (HLn : forall i, i ∈ L.*1 -> i < n).
    { intros i Hi. apply Hfull. destruct (seg_in _ _ _ _ HsL Hi) as (x & _ & Ex). by destruct (array info !! i). }
    assert (NoDup (n :: L.*1)) as Hnd. { constructor; [|done]. intros Hi. specialize (HLn n Hi). lia. }
    assert (I : split_inv (array info) n f (N.shiftr B 1) L (mk_split 0 n 0 None 0 None (array info)) L [] []).
    { split; csimpl; try done. unfold flag_ok. by left. }
    destruct (split_loop_spec info (array info) n f L (S fuel) L [] (mk_split 0 n 0 None 0 None (array info)) [] []
      eq_refl Hnd) as (s & lows & highs & Hm & Is & Hflag); try done.
    { intros j Hj. specialize (HLn j Hj). lia. }
    { rewrite <- Efuel, <- (length_fmap fst L). by apply length_indexes. }
    rewrite HhL in Hm. fold B in Hm. rewrite ES in Hm. rewrite Hm. cbn [mbind option_bind].
    destruct (split_finish_spec _ _ _ _ _ _ _ _ Hnd Hflag Is) as (arr' & -> & Hsl & Hsh & Hout).
    destruct Is as [_ _ _ P1 P2 P3 P4 P5 P6 _ _ _ _]. csimpl in *. rewrite app_nil_r in P2.
    exists (s_empty s), arr', (<[f := lows]> (<[n := highs]> bs)). split_and!; [done| | |].
    + by eapply split_holed.
    + pose proof (split_tbl n B (array info) bs arr' (s_empty s) L lows highs) as Hst. cbv zeta in Hst.
      rewrite EC in Hst. by apply Hst.
    + by eapply split_items.
  - assert (bs f = []) as Hbf by (by eapply tbl_taken).
    assert (delete n (array info) = array info) as Hdel by (by apply delete_id).
    exists n, (array info), bs. rewrite Hdel. cbn [split_loop s_array s_flag]. rewrite Hk. cbn [mbind option_bind].
    fold n B. destruct (N.eqb_spec (my_hash_mask (hash_nr k) B n) f) as [|_]; [done|]. split_and!; [done| | |done].
    + split; [lia|]. intros i. rewrite (Hfull i). lia.
    + eapply (tbl_change _ _ _ _ bs bs [] [] Ht); try done; try set_solver.
      intros p y _ Hy. destruct (t_bucket _ _ _ Ht p) as [_ _ _ Hb]. apply (proj1 (Forall_forall _ _) Hb) in Hy as Hy'.
      simpl in Hy'. destruct (mask_grow n B y.2.1 Hs Hn Hmax) as (_ & -> & Hg).
      destruct (N.eqb_spec (y.2.1 mod B) n) as [E|E]; [|done]. exfalso.
      rewrite (Hg E), EC in Hy'. fold f in Hy'. rewrite <- Hy', Hbf in Hy. set_solver.
Qed.
End Split.
