(* ===== verification/HashPlace.v ===== *)
(** * Placing and unlinking records of the hash table

    The remaining steps of mysys/hash.c on a table with one free index: a record
    takes its place in it ([my_hash_insert], [my_hash_update]), or a record
    leaves its chain and frees an index ([my_hash_delete], [my_hash_update]). *)

From Stdlib Require Import NArith Lia.
From stdpp Require Import base numbers gmap functions list strings.
From S2P Require Import Prelude HashTable HashChain HashSplit.
Local Open Scope spider_scope.
Local Open Scope N_scope.

Lemma to_uint_small i : i < NO_RECORD -> to_uint i = i.
Proof. intros Hi. apply N.mod_small. unfold NO_RECORD in Hi. lia. Qed.

Section Place.
  Context {K D : Type} `{HashKey K} `{EqDecision D}.
  Implicit Types (arr m : gmap N (HASH_LINK D)) (es : list (N * (N * D))) (x : N * D).

(** ** Records after a replacement *)

Lemma items_replace m i k k' : m !! i = Some k -> items (<[i := k']> m) ≡ₚ item k' :: items (delete i m).
Proof. intros Hi. rewrite <- insert_delete_eq. apply items_insert, lookup_delete_eq. Qed.

(** The record at [i] moves to the free index [e], another one replaces it. *)
Lemma items_place m e i k k' :
  m !! e = None -> m !! i = Some k -> items (<[i := k']> (<[e := k]> m)) ≡ₚ item k' :: items m.
Proof.
  intros He Hi. assert (i <> e) as Hne by congruence.
  assert ((<[e := k]> m) !! i = Some k) as Hi' by (by rewrite lookup_insert_ne).
  rewrite (items_replace _ i k k' Hi'). apply perm_skip.
  apply (Permutation_cons_inv (a := item k)). by rewrite <- (items_delete _ i k Hi'), items_insert.
Qed.

Lemma full_of_holed n e m arr :
  holed n e m -> (forall i, is_Some (arr !! i) <-> is_Some (m !! i) \/ i = e) -> full n arr.
Proof.
  intros [He Hm] Ha i. rewrite (Ha i), (Hm i). destruct (decide (i = e)) as [->|]; [|tauto].
  split; [done|]. by right.
Qed.

Lemma holed_none n e m : holed n e m -> m !! e = None.
Proof. intros [_ Hm]. apply eq_None_not_Some. rewrite (Hm e). tauto. Qed.

Lemma holed_some n e m i : holed n e m -> i < n -> i <> e -> exists k, m !! i = Some k.
Proof. intros [_ Hm] H1 H2. by apply Hm. Qed.

Lemma insert_is_Some m i (k : HASH_LINK D) j : is_Some (<[i := k]> m !! j) <-> is_Some (m !! j) \/ j = i.
Proof. rewrite lookup_insert_is_Some'. naive_solver. Qed.

(** ** A record takes its place *)

(** The free index is the number of its bucket. *)
Lemma place_empty home n e m bs nr d :
  holed n e m -> tbl home m bs -> home nr = e ->
  tbl home (<[e := mk_link NO_RECORD nr d]> m) (<[e := [(e, (nr, d))]]> bs).
Proof.
  intros Hm Ht He. pose proof (holed_none _ _ _ Hm) as Hn. pose proof (tbl_free _ _ _ _ Ht Hn) as Hbe.
  eapply (tbl_edit _ m _ bs _ [e] [e] Ht).
  - intros p Hp. rewrite fn_lookup_insert_ne; set_solver.
  - by intros i ->%list_elem_of_singleton.
  - intros i _ Hi. apply lookup_insert_ne. set_solver.
  - intros p ->%list_elem_of_singleton. rewrite fn_lookup_insert. split; csimpl.
    + by rewrite lookup_insert_eq.
    + apply NoDup_singleton.
    + done.
    + by constructor.
  - intros i _ Hi. exists e. rewrite fn_lookup_insert. split; [set_solver|].
    destruct Hi as [(p & Hp & Hi)|Hi]; [|set_solver]. apply list_elem_of_singleton in Hp as ->. rewrite Hbe in Hi. set_solver.
Qed.

(** The first record of the bucket moves to the free index; the new one is
    linked before it. *)
Lemma place_first home n e m bs nr d p k :
  holed n e m -> tbl home m bs -> home nr = p -> m !! p = Some k -> home (hash_nr k) = p ->
  exists bs', tbl home (<[p := mk_link e nr d]> (<[e := k]> m)) bs'.
Proof.
  intros Hm Ht Hp Hk Hh. pose proof (holed_none _ _ _ Hm) as Hn. assert (p <> e) as Hpe by congruence.
  destruct (tbl_first _ _ _ _ _ Ht Hk Hh) as (es & Hb & Ek).
  destruct (t_bucket _ _ _ Ht p) as [Hs Hnd _ Hf]. rewrite Hb in Hs, Hnd, Hf. csimpl in *. destruct Hs as [_ Hs].
  apply NoDup_cons in Hnd as [Hpn Hnd]. apply Forall_cons in Hf as [_ Hf].
  assert (e ∉ es.*1) as Hee.
  { intros Hi. destruct (seg_in _ _ _ _ Hs Hi) as (x & _ & Ex). by rewrite Hn in Ex. }
  exists (<[p := (p, (nr, d)) :: (e, item k) :: es]> bs).
  eapply (tbl_edit _ m _ bs _ [p] [e] Ht).
  - intros q Hq. rewrite fn_lookup_insert_ne; set_solver.
  - by intros i ->%list_elem_of_singleton.
  - intros i Hi Hie. specialize (Hi p ltac:(set_solver)). rewrite Hb in Hi. csimpl in Hi.
    rewrite !lookup_insert_ne by set_solver. done.
  - intros q ->%list_elem_of_singleton. rewrite fn_lookup_insert. split; csimpl.
    + rewrite lookup_insert_eq. split; [done|]. rewrite lookup_insert_ne, lookup_insert_eq by done. split; [by rewrite <- Ek|].
      apply seg_insert; [done|]. by apply seg_insert.
    + apply NoDup_cons. split; [set_solver|]. by apply NoDup_cons.
    + done.
    + constructor; [done|]. by constructor.
  - intros i _ Hi. exists p. rewrite fn_lookup_insert. split; [set_solver|].
    destruct Hi as [(q & Hq & Hi)|Hi]; [|set_solver]. apply list_elem_of_singleton in Hq as ->. rewrite Hb in Hi. set_solver.
Qed.

(** A record that is not the first one of its bucket moves to the free index, and
    the record before it is linked to it; its old index is free after that. *)
Lemma move_inner home n e m bs p k :
  holed n e m -> tbl home m bs -> m !! p = Some k -> home (hash_nr k) <> p ->
  exists es1 j y bs', hd_or j es1 = home (hash_nr k) /\ seg m (es1 ++ [(j, y)]) p /\
    NoDup (es1 ++ [(j, y)]).*1 /\ p ∉ (es1 ++ [(j, y)]).*1 /\ j ∈ (bs (home (hash_nr k))).*1 /\
    tbl home (delete p (<[j := link_of e y]> (<[e := k]> m))) bs'.
Proof.
  intros Hm Ht Hk Hh. pose proof (holed_none _ _ _ Hm) as Hn. assert (p <> e) as Hpe by congruence.
  set (g := home (hash_nr k)) in *.
  destruct (tbl_after _ _ _ _ _ Ht Hk Hh) as (es1 & j & y & es2 & Hb & Ek). fold g in Hb.
  destruct (t_bucket _ _ _ Ht g) as [Hs Hnd Hhd Hf]. rewrite Hb in Hs, Hnd, Hhd, Hf.
  assert (Hes : forall i, i ∈ (bs g).*1 -> i <> e).
  { intros i Hi ->. rewrite Hb in Hi. destruct (seg_in _ _ _ _ Hs Hi) as (x & _ & Ex). by rewrite Hn in Ex. }
  assert (Hl : es1 ++ (j, y) :: (p, item k) :: es2 = (es1 ++ [(j, y)]) ++ (p, item k) :: es2) by (by rewrite <- (assoc_L (++))).
  assert (hd_or j es1 = g) as Hhj by (by rewrite hd_or_app in Hhd).
  rewrite Hb, Hl in *. clear Hhd Hl. apply seg_app in Hs as [Hs1 Hs2]. cbn [hd_or fst] in Hs1. destruct Hs2 as [_ Hs2].
  rewrite fmap_app in Hnd, Hes. csimpl in *. apply NoDup_app in Hnd as (Nl & Hdis & Np). apply NoDup_cons in Np as [Np N2].
  apply Forall_app in Hf as [Hf1 Hf2]. apply Forall_cons in Hf2 as [Hfp Hf2].
  assert (p ∉ (es1 ++ [(j, y)]).*1) as Hpl by (intros Hi; apply (Hdis _ Hi); set_solver).
  assert (j ∈ (es1 ++ [(j, y)]).*1) as Hjl by (rewrite fmap_app; set_solver).
  assert (j ∉ es2.*1) as Hj2 by (intros Hi; apply (Hdis _ Hjl); set_solver).
  assert (e ∉ (es1 ++ [(j, y)]).*1 /\ e ∉ es2.*1) as [He1 He2] by (split; intros Hi; apply (Hes e); set_solver).
  assert (j <> p /\ j <> e) as [Hjp Hje] by (split; intros ->; [by apply Hpl|by apply He1]).
  assert (j ∉ es1.*1) as Hj1 by (rewrite fmap_app in Nl; apply NoDup_app in Nl as (_ & Nl & _); intros Hi; apply (Nl j Hi); set_solver).
  exists es1, j, y, (<[g := (es1 ++ [(j, y)]) ++ (e, item k) :: es2]> bs).
  split_and!; [done..|rewrite fmap_app; set_solver +Hjl|].
  eapply (tbl_edit _ m _ bs _ [g] [e] Ht).
  - intros q Hq. rewrite fn_lookup_insert_ne; set_solver.
  - by intros i ->%list_elem_of_singleton.
  - intros i Hi Hie. specialize (Hi g ltac:(set_solver)). rewrite Hb, fmap_app in Hi. csimpl in Hi.
    rewrite lookup_delete_ne, !lookup_insert_ne; [done|intros ->; set_solver..].
  - intros q ->%list_elem_of_singleton. rewrite fn_lookup_insert. split.
    + apply seg_delete; [rewrite fmap_app; csimpl; set_solver|]. apply seg_app. cbn [hd_or fst]. split.
      * eapply seg_relink; [done|]. by apply seg_insert.
      * split; [rewrite lookup_insert_ne, lookup_insert_eq by done; by rewrite <- Ek|].
        apply seg_insert; [done|]. by apply seg_insert.
    + rewrite fmap_app. csimpl. apply NoDup_app. split_and!; [done| |by apply NoDup_cons].
      intros i Hi [->|Hi']%elem_of_cons; [by apply He1|]. apply (Hdis i Hi). set_solver.
    + by rewrite !hd_or_app.
    + apply Forall_app. split; [done|]. by constructor.
  - intros i Hsi Hi. exists g. rewrite fn_lookup_insert, fmap_app. csimpl. split; [set_solver|].
    assert (i <> p) by (intros ->; rewrite lookup_delete_eq in Hsi; by destruct Hsi).
    destruct Hi as [(q & ->%list_elem_of_singleton & Hi)|Hi]; [rewrite Hb, fmap_app in Hi; csimpl in Hi|]; set_solver.
Qed.

Lemma move_inner_holed n e m p k j y :
  holed n e m -> m !! p = Some k -> is_Some (m !! j) -> j <> p ->
  holed n p (delete p (<[j := link_of e y]> (<[e := k]> m))).
Proof.
  intros [He Hm] Hp Hj Hjp. assert (p < n /\ p <> e) as [Hpn Hpe] by (by apply Hm; eexists).
  split; [done|]. intros i. destruct (decide (i = p)) as [->|Hip]; [rewrite lookup_delete_eq; split; [by intros []|lia]|].
  rewrite lookup_delete_ne, !insert_is_Some, (Hm i) by done. apply Hm in Hj. split; [|by destruct (decide (i = e)); naive_solver].
  intros [[?| ->]| ->]; tauto.
Qed.

(** A record of another bucket is there: it moves to the free index, the new
    record takes its place. *)
Lemma place_foreign home n e m bs nr d p k :
  holed n e m -> tbl home m bs -> home nr = p -> m !! p = Some k -> home (hash_nr k) <> p ->
  exists es1 j y bs', hd_or j es1 = home (hash_nr k) /\ seg m (es1 ++ [(j, y)]) p /\
    NoDup (es1 ++ [(j, y)]).*1 /\ p ∉ (es1 ++ [(j, y)]).*1 /\
    tbl home (<[p := mk_link NO_RECORD nr d]> (<[j := link_of e y]> (<[e := k]> m))) bs'.
Proof.
  intros Hm Ht Hp Hk Hh. destruct (move_inner _ _ _ _ _ _ _ Hm Ht Hk Hh) as (es1 & j & y & bs' & H1 & Hs & H3 & H4 & _ & Ht').
  assert (is_Some (m !! j)) as Hj by (by rewrite (seg_lookup _ _ _ _ _ _ Hs)).
  assert (j <> p) as Hjp by (intros ->; apply H4; rewrite fmap_app; set_solver).
  pose proof (place_empty _ _ _ _ _ nr d (move_inner_holed _ _ _ _ _ _ y Hm Hk Hj Hjp) Ht' Hp) as Hpl.
  rewrite insert_delete_eq in Hpl. by eexists _, _, _, _.
Qed.

(** [movelink] from the first element of a bucket to the one before [find]. *)
Lemma movelink_bucket m es1 j y find new fuel n :
  seg m (es1 ++ [(j, y)]) find -> NoDup (es1 ++ [(j, y)]).*1 -> find ∉ (es1 ++ [(j, y)]).*1 ->
  (forall i, i ∈ (es1 ++ [(j, y)]).*1 -> i < n) -> (N.to_nat n <= fuel)%nat ->
  movelink fuel m find (hd_or j es1) new = Some (<[j := link_of new y]> m).
Proof.
  intros Hs Hn Hf Hi Hl. apply (movelink_spec m es1 j y [] find new fuel Hs); [|done].
  pose proof (length_indexes _ _ Hn Hi) as Hlen. rewrite length_fmap, length_app in Hlen. simpl in Hlen. lia.
Qed.

Lemma seg_lt n e m es z i : holed n e m -> seg m es z -> i ∈ es.*1 -> i < n /\ i <> e.
Proof. intros [_ Hm] Hs Hi. apply Hm. destruct (seg_in _ _ _ _ Hs Hi) as (x & _ & Ex). by destruct (m !! i). Qed.

(** The stale content of the free index does not matter. *)
Lemma delete_insert_free e arr (k : HASH_LINK D) : <[e := k]> (delete e arr) = <[e := k]> arr.
Proof. apply insert_delete_eq. Qed.

(** ** The new record is in the array *)

Record placed (home : N -> N) (n : N) m x arr' : Prop := {
  pl_full : full n arr';
  pl_tbl : exists bs, tbl home arr' bs;
  pl_items : items arr' ≡ₚ x :: items m }.

Lemma placed_empty home n e m bs nr d :
  holed n e m -> tbl home m bs -> home nr = e -> placed home n m (nr, d) (<[e := mk_link NO_RECORD nr d]> m).
Proof.
  intros Hm Ht He. split.
  - eapply full_of_holed; [exact Hm|]. intros i. apply insert_is_Some.
  - eexists. by eapply place_empty.
  - rewrite items_insert; [done|]. by eapply holed_none.
Qed.

Lemma placed_first home n e m bs nr d p k :
  holed n e m -> tbl home m bs -> home nr = p -> m !! p = Some k -> home (hash_nr k) = p ->
  placed home n m (nr, d) (<[p := mk_link e nr d]> (<[e := k]> m)).
Proof.
  intros Hm Ht Hp Hk Hh. split; [|by eapply place_first|by apply items_place; [eapply holed_none|]].
  eapply full_of_holed; [exact Hm|]. intros i. rewrite !insert_is_Some. assert (is_Some (m !! p)) by (by rewrite Hk). naive_solver.
Qed.

(** [my_hash_update] links the record after the first one. *)
Lemma placed_second home n e m bs nr d p k :
  holed n e m -> tbl home m bs -> home nr = p -> m !! p = Some k -> home (hash_nr k) = p ->
  placed home n m (nr, d) (<[p := link_of e (item k)]> (<[e := mk_link (next k) nr d]> m)).
Proof.
  intros Hm Ht Hp Hk Hh. pose proof (holed_none _ _ _ Hm) as Hn. assert (p <> e) as Hpe by congruence. split.
  - eapply full_of_holed; [exact Hm|]. intros i. rewrite !insert_is_Some. assert (is_Some (m !! p)) by (by rewrite Hk). naive_solver.
  - destruct (tbl_first _ _ _ _ _ Ht Hk Hh) as (es & Hb & Ek).
    destruct (t_bucket _ _ _ Ht p) as [Hs Hnd _ Hf]. rewrite Hb in Hs, Hnd, Hf. csimpl in *. destruct Hs as [_ Hs].
    apply NoDup_cons in Hnd as [Hpn Hnd]. apply Forall_cons in Hf as [Hfk Hf].
    assert (e ∉ es.*1) as Hee by (intros Hi; destruct (seg_in _ _ _ _ Hs Hi) as (x & _ & Ex); by rewrite Hn in Ex).
    exists (<[p := (p, item k) :: (e, (nr, d)) :: es]> bs). eapply (tbl_edit _ m _ bs _ [p] [e] Ht).
    + intros q Hq. rewrite fn_lookup_insert_ne; set_solver.
    + by intros i ->%list_elem_of_singleton.
    + intros i Hi Hie. specialize (Hi p ltac:(set_solver)). rewrite Hb in Hi. csimpl in Hi.
      rewrite !lookup_insert_ne by set_solver. done.
    + intros q ->%list_elem_of_singleton. rewrite fn_lookup_insert. split; csimpl.
      * rewrite lookup_insert_eq. split; [done|]. rewrite lookup_insert_ne, lookup_insert_eq by done.
        split; [by rewrite Ek at 1|]. apply seg_insert; [done|]. by apply seg_insert.
      * apply NoDup_cons. split; [set_solver|]. by apply NoDup_cons.
      * done.
      * constructor; [done|]. by constructor.
    + intros i _ Hi. exists p. rewrite fn_lookup_insert. split; [set_solver|].
      destruct Hi as [(q & ->%list_elem_of_singleton & Hi)|Hi]; [rewrite Hb in Hi|]; set_solver.
  - rewrite (items_relink _ p k), items_insert; [done|done|by rewrite lookup_insert_ne|by rewrite item_link].
Qed.

Lemma placed_foreign home n e m bs nr d p k :
  holed n e m -> tbl home m bs -> home nr = p -> m !! p = Some k -> home (hash_nr k) <> p ->
  exists es1 j y, hd_or j es1 = home (hash_nr k) /\ seg m (es1 ++ [(j, y)]) p /\
    NoDup (es1 ++ [(j, y)]).*1 /\ p ∉ (es1 ++ [(j, y)]).*1 /\ j <> p /\
    placed home n m (nr, d) (<[p := mk_link NO_RECORD nr d]> (<[j := link_of e y]> (<[e := k]> m))).
Proof.
  intros Hm Ht Hp Hk Hh. destruct (place_foreign _ _ _ _ _ nr d _ _ Hm Ht Hp Hk Hh) as (es1 & j & y & bs' & Hhd & Hs & Hnd & Hpn & Ht').
  pose proof (seg_lookup _ _ _ _ _ _ Hs) as Hj. assert (j <> p) as Hjp by (intros ->; apply Hpn; rewrite fmap_app; set_solver +).
  pose proof (holed_none _ _ _ Hm) as Hn. exists es1, j, y. split_and!; [done..|]. split; [|by exists bs'|].
  - eapply full_of_holed; [exact Hm|]. intros i. rewrite !insert_is_Some.
    assert (is_Some (m !! p)) by (by rewrite Hk). assert (is_Some (m !! j)) by (by rewrite Hj). naive_solver.
  - rewrite (insert_insert_ne _ p j) by done. rewrite (items_relink _ j (link_of p y)); [by apply items_place| |by rewrite !item_link].
    rewrite !lookup_insert_ne; [done|congruence|done].
Qed.

Lemma hash_place_spec (info : HASH K D) e arr bs nr d :
  let n := records info + 1 in let B := blength info in let home := fun h => my_hash_mask h B n in
  sized n B -> holed n e (delete e arr) -> tbl home (delete e arr) bs ->
  exists arr', hash_place info e arr nr d = Some arr' /\ placed home n (delete e arr) (nr, d) arr'.
Proof.
  intros n B home Hs Hh Ht. unfold hash_place. fold n B. change (my_hash_mask nr B n) with (home nr).
  set (p := home nr). assert (p < n) as Hp by (by apply mask_lt).
  assert (e < NO_RECORD /\ p < NO_RECORD) as [Hemax Hpmax] by (destruct Hs, Hh; lia).
  destruct (N.eqb_spec p e) as [Epe|Hpe].
  { rewrite Epe. eexists. split; [reflexivity|]. rewrite <- delete_insert_free. by eapply placed_empty. }
  destruct (holed_some _ _ _ p Hh Hp Hpe) as [k Hk].
  assert (arr !! p = Some k) as Hk' by (by rewrite lookup_delete_ne in Hk). rewrite Hk'. cbn [mbind option_bind].
  unfold my_hash_rec_mask. change (my_hash_mask (hash_nr k) B n) with (home (hash_nr k)).
  rewrite (to_uint_small e), (to_uint_small p) by done. rewrite <- (delete_insert_free e arr k).
  destruct (N.eqb_spec p (home (hash_nr k))) as [Eg|Hg]; [eexists; split; [done|by eapply placed_first]|].
  destruct (placed_foreign home n e _ bs nr d p k Hh Ht eq_refl Hk) as (es1 & j & y & Hhd & Hsg & Hnd & Hpn & Hjp & Hpl); [congruence|].
  set (m := delete e arr) in *.
  assert (Hlt : forall i, i ∈ (es1 ++ [(j, y)]).*1 -> i < n /\ i <> e) by (intros i; by eapply seg_lt).
  assert (home (hash_nr k) < NO_RECORD) as Hgmax by (pose proof (mask_lt n B (hash_nr k) Hs); unfold home; destruct Hs; lia).
  rewrite (to_uint_small (home (hash_nr k))), <- Hhd by done.
  rewrite (movelink_bucket _ es1 j y p e _ n); try done.
  - cbn [mbind option_bind]. rewrite lookup_insert_ne, lookup_insert_eq by done. cbn [mbind option_bind].
    change (next (k <| next := NO_RECORD |>)) with NO_RECORD. eexists. split; [done|].
    rewrite (insert_insert_ne _ j p), insert_insert_eq by done. exact Hpl.
  - apply seg_insert; [done|]. apply seg_insert; [|done]. intros Hi. by apply Hlt in Hi as [_ ?].
  - intros i Hi. by apply Hlt.
  - unfold n. lia.
Qed.

Lemma update_place_spec (hash : HASH K D) (org : HASH_LINK D) e idx arr bs nr fuel :
  let n := records hash in let B := blength hash in let home := fun h => my_hash_mask h B n in
  sized n B -> holed n e (delete e arr) -> tbl home (delete e arr) bs -> (e = idx -> arr !! idx = Some org) ->
  (N.to_nat n <= fuel)%nat ->
  exists arr', update_place fuel hash org nr e idx arr = Some arr' /\ placed home n (delete e arr) (nr, data org) arr'.
Proof.
  intros n B home Hs Hh Ht Hst Hfuel. unfold update_place. fold n B. change (my_hash_mask nr B n) with (home nr).
  set (p := home nr). assert (p < n) as Hp by (by apply mask_lt).
  assert (e < NO_RECORD) as Hemax by (destruct Hs, Hh; lia).
  destruct (N.eqb_spec p e) as [Epe|Hpe].
  { assert ((if e =? idx then arr else <[e := org]> arr) = <[e := org]> arr) as ->.
    { destruct (N.eqb_spec e idx) as [<-|]; [|done]. by rewrite insert_id by auto. }
    rewrite lookup_insert_eq. cbn [mbind option_bind]. eexists. split; [done|]. rewrite insert_insert_eq, <- delete_insert_free.
    by eapply (placed_empty home n e _ bs nr (data org)). }
  destruct (holed_some _ _ _ p Hh Hp Hpe) as [k Hk].
  assert (arr !! p = Some k) as Hk' by (by rewrite lookup_delete_ne in Hk). rewrite Hk'. cbn [mbind option_bind].
  unfold my_hash_rec_mask. change (my_hash_mask (hash_nr k) B n) with (home (hash_nr k)).
  rewrite (to_uint_small e) by done. destruct (N.eqb_spec p (home (hash_nr k))) as [Eg|Hg]; cbn [negb].
  { rewrite lookup_insert_ne, Hk' by done. cbn [mbind option_bind]. eexists. split; [done|].
    rewrite <- (delete_insert_free e arr). by eapply (placed_second home n e _ bs nr (data org) p k). }
  destruct (placed_foreign home n e _ bs nr (data org) p k Hh Ht eq_refl Hk) as (es1 & j & y & Hhd & Hsg & Hnd & Hpn & Hjp & Hpl); [congruence|].
  rewrite <- (delete_insert_free e arr k). set (m := delete e arr) in *.
  assert (Hlt : forall i, i ∈ (es1 ++ [(j, y)]).*1 -> i < n /\ i <> e) by (intros i; by eapply seg_lt).
  rewrite <- Hhd, (movelink_bucket _ es1 j y p e _ n); try done.
  - cbn [mbind option_bind]. eexists. split; [done|]. exact Hpl.
  - apply seg_insert; [|done]. intros Hi. by apply Hlt in Hi as [_ ?].
  - intros i Hi. by apply Hlt.
Qed.
End Place.
