(* ===== verification/HashRemove.v ===== *)
(** * Removing records of the hash table

    [my_hash_delete] of mysys/hash.c: the search of the record in its chain, its
    removal, and the move of the last element of the array to the index that
    became free, which merges the last bucket with the one it was split from. *)

From Stdlib Require Import NArith Lia.
From stdpp Require Import base numbers gmap functions list strings.
From S2P Require Import Prelude HashTable HashChain HashSplit HashPlace.
Local Open Scope spider_scope.
Local Open Scope N_scope.

Section Remove.
  Context {K D : Type} `{HashKey K} `{EqDecision D}.
  Implicit Types (arr m : gmap N (HASH_LINK D)) (es l : list (N * (N * D))) (x : N * D).

(** ** Finding the record *)

Lemma find_record_some arr l2 i x z : forall l1 fuel g,
  seg arr (l1 ++ (i, x) :: l2) z -> (length l1 < fuel)%nat -> (forall y, y ∈ l1 -> y.2.2 <> x.2) ->
  (forall j, j ∈ l1.*1 ++ [i] -> j <> NO_RECORD) ->
  find_record fuel arr x.2 g (hd_or i l1) = Some (Some (default g (Some <$> last l1.*1), i)).
Proof.
  induction l1 as [|[j y] l1 IH]; intros fuel g Hs Hl Hne Hmax; (destruct fuel as [|fuel]; [simpl in Hl; lia|]);
    destruct Hs as [Hj Hs]; cbn [find_record hd_or fst app]; rewrite Hj; cbn [mbind option_bind].
  - rewrite decide_True by done. done.
  - rewrite decide_False by (exact (Hne (j, y) (list_elem_of_here _ _))).
    change (next (link_of ?a y)) with a. rewrite hd_or_app. cbn [hd_or fst].
    destruct (N.eqb_spec (hd_or i l1) NO_RECORD) as [E|_].
    { exfalso. apply (Hmax (hd_or i l1)); [|done]. destruct l1 as [|[j' y'] l1]; csimpl; set_solver. }
    rewrite IH; [|done|simpl in Hl; lia| |].
    + csimpl. rewrite last_cons. by destruct (last l1.*1).
    + intros y' Hy'. apply Hne. set_solver.
    + intros j' Hj'. apply Hmax. csimpl. set_solver.
Qed.

Lemma find_record_none arr d : forall l fuel g i,
  seg arr l NO_RECORD -> l <> [] -> (length l <= fuel)%nat -> (forall y, y ∈ l -> y.2.2 <> d) ->
  find_record fuel arr d g (hd_or i l) = Some None.
Proof.
  induction l as [|[j y] l IH]; intros fuel g i Hs Hne Hl Hd; [done|]. destruct fuel as [|fuel]; [simpl in Hl; lia|].
  destruct Hs as [Hj Hs]. cbn [find_record hd_or fst]. rewrite Hj. cbn [mbind option_bind].
  rewrite decide_False by (exact (Hd (j, y) (list_elem_of_here _ _))). change (next (link_of ?a y)) with a.
  destruct (N.eqb_spec (hd_or NO_RECORD l) NO_RECORD) as [E|E]; [done|].
  destruct l as [|e l]; [done|]. change (hd_or NO_RECORD (e :: l)) with (hd_or i (e :: l)).
  apply IH; [done|done|simpl in *; lia|]. intros y' Hy'. apply Hd. set_solver.
Qed.

(** ** Leaving the chain *)

Lemma full_delete n m i : full n m -> i < n -> holed n i (delete i m).
Proof.
  intros Hf Hi. split; [done|]. intros j. destruct (decide (j = i)) as [->|Hne].
  - rewrite lookup_delete_eq. split; [by intros []|lia].
  - rewrite lookup_delete_ne by done. rewrite (Hf j). tauto.
Qed.

Lemma full_insert n m i (k : HASH_LINK D) : full n m -> i < n -> full n (<[i := k]> m).
Proof. intros Hf Hi j. rewrite insert_is_Some, (Hf j). split; [intros [?| ->]; done|by left]. Qed.

Lemma bucket_lt home n m p es i : full n m -> bucket home m p es -> i ∈ es.*1 -> i < n.
Proof. intros Hf [Hs _ _ _] Hi. apply Hf. destruct (seg_in _ _ _ _ Hs Hi) as (x & _ & Ex). by destruct (m !! i). Qed.

(** A bucket loses one element: the rest is a bucket of the changed array, which
    is the same elsewhere. *)
Lemma tbl_shrink home arr arr' bs p es e :
  tbl home arr bs -> bucket home (delete e arr') p es ->
  e ∈ (bs p).*1 ->
  (forall i, i ∈ (bs p).*1 -> i <> e -> i ∈ es.*1) ->
  (forall i, i ∉ (bs p).*1 -> arr' !! i = arr !! i) ->
  tbl home (delete e arr') (<[p := es]> bs).
Proof.
  intros Ht Hb He Hes Hout. eapply (tbl_edit _ arr _ bs _ [p] [] Ht).
  - intros q Hq. rewrite fn_lookup_insert_ne; [done|]. intros ->. set_solver.
  - set_solver.
  - intros i Hi _. specialize (Hi p ltac:(set_solver)). rewrite lookup_delete_ne by (by intros ->). by apply Hout.
  - intros q ->%list_elem_of_singleton. by rewrite fn_lookup_insert.
  - intros i Hs [(q & Hq & Hi)|Hi]; [|set_solver]. apply list_elem_of_singleton in Hq as ->. exists p.
    rewrite fn_lookup_insert. split; [set_solver|]. apply Hes; [done|]. intros ->. rewrite lookup_delete_eq in Hs. by destruct Hs.
Qed.

Lemma unlink_items arr arr' e x :
  items arr' ≡ₚ items arr -> item <$> arr' !! e = Some x -> x :: items (delete e arr') ≡ₚ items arr.
Proof. intros Hi He. apply fmap_Some in He as (k & Hk & ->). by rewrite <- Hi, <- items_delete. Qed.

(** What is left of a full array after the record at [i] was taken out: the index
    [e] is free, and the content the array keeps there does not matter, except
    that it is the removed link itself when that index is the free one. *)
Record unlinked (home : N -> N) (n : N) arr (i : N) x (e : N) arr' : Prop := {
  un_hole : holed n e (delete e arr');
  un_tbl : exists bs, tbl home (delete e arr') bs;
  un_items : x :: items (delete e arr') ≡ₚ items arr;
  un_stale : e = i -> arr' !! i = arr !! i }.

Lemma unlink_only home n arr bs p i x :
  tbl home arr bs -> full n arr -> i < n -> bs p = [(i, x)] -> unlinked home n arr i x i arr.
Proof.
  intros Ht Hfull Hin Hb. pose proof (b_seg _ _ _ _ (t_bucket _ _ _ Ht p)) as Hs. rewrite Hb in Hs. destruct Hs as [Hi _].
  split; [by apply full_delete| | |done].
  - exists (<[p := []]> bs). eapply tbl_shrink; [done|apply bucket_nil|rewrite Hb; set_solver|rewrite Hb; set_solver|done].
  - apply unlink_items; [done|]. rewrite Hi. csimpl. by rewrite item_link.
Qed.

Lemma unlink_head home n arr bs p i x j y l :
  tbl home arr bs -> full n arr -> bs p = (i, x) :: (j, y) :: l ->
  unlinked home n arr i x j (<[i := link_of (hd_or NO_RECORD l) y]> arr).
Proof.
  intros Ht Hfull Hb. pose proof (t_bucket _ _ _ Ht p) as Hbp. rewrite Hb in Hbp.
  assert (Hlt : forall j', j' ∈ ((i, x) :: (j, y) :: l).*1 -> j' < n) by (intros j'; by eapply bucket_lt).
  destruct Hbp as [[Hi [Hj Hs]] Hnd Hhd Hf]. csimpl in *. apply NoDup_cons in Hnd as [Hni [Hnj Hnd]%NoDup_cons].
  apply Forall_cons in Hf as [Hfi [Hfj Hf]%Forall_cons]. assert (i <> j) as Hij by set_solver. assert (i ∉ l.*1) as Hi2 by set_solver.
  set (k := link_of (hd_or NO_RECORD l) y) in *. split; [| | |done].
  - apply full_delete; [apply full_insert; [done|]|]; apply Hlt; set_solver.
  - exists (<[p := (i, y) :: l]> bs). eapply tbl_shrink; [done| |rewrite Hb; set_solver|rewrite Hb; csimpl; set_solver|].
    + split; csimpl; [|by apply NoDup_cons|done|by constructor].
      rewrite lookup_delete_ne, lookup_insert_eq by done. split; [done|]. apply seg_delete; [done|]. by apply seg_insert.
    + intros i' Hi'. rewrite Hb in Hi'. apply lookup_insert_ne. set_solver.
  - rewrite delete_insert_ne by done. rewrite (items_replace _ i _ _ (eq_trans (lookup_delete_ne arr j i ltac:(done)) Hi)).
    rewrite (items_delete arr i _ Hi), item_link. apply perm_skip.
    rewrite (items_delete (delete i arr) j k) by (by rewrite lookup_delete_ne). by rewrite delete_delete.
Qed.

Lemma unlink_inner home n arr bs p l1 g z i x l2 :
  tbl home arr bs -> full n arr -> bs p = l1 ++ (g, z) :: (i, x) :: l2 ->
  unlinked home n arr i x i (<[g := link_of (hd_or NO_RECORD l2) z]> arr).
Proof.
  intros Ht Hfull Hb. pose proof (t_bucket _ _ _ Ht p) as Hbp. rewrite Hb in Hbp.
  assert (Hlt : forall j, j ∈ (l1 ++ (g, z) :: (i, x) :: l2).*1 -> j < n) by (intros j; by eapply bucket_lt).
  destruct Hbp as [Hs Hnd Hhd Hf]. assert (arr !! g = Some (link_of i z)) as Hg by (by apply (seg_lookup _ _ _ _ _ _ Hs)).
  assert (Hperm : (l1 ++ (g, z) :: (i, x) :: l2).*1 = l1.*1 ++ g :: i :: l2.*1) by (by rewrite fmap_app).
  rewrite Hperm in *. apply NoDup_app in Hnd as (N1 & Hdis & [Hg2 [Hi2 N2]%NoDup_cons]%NoDup_cons).
  assert (g <> i) as Hgi by set_solver. assert (g ∉ l1.*1) as Hg1 by (intros Hj; apply (Hdis _ Hj); set_solver).
  assert (i ∉ l1.*1) as Hi1 by (intros Hj; apply (Hdis _ Hj); set_solver).
  apply seg_app in Hs as [Hs1 (_ & Hi & Hs2)]. cbn [hd_or fst] in Hs1.
  apply Forall_app in Hf as [Hf1 [Hfg [Hfi Hf2]%Forall_cons]%Forall_cons]. split.
  - apply full_delete; [apply full_insert; [done|]|]; apply Hlt; set_solver.
  - exists (<[p := l1 ++ (g, z) :: l2]> bs).
    eapply tbl_shrink; [done| |rewrite Hb, Hperm; set_solver|rewrite Hb, Hperm, fmap_app; csimpl; set_solver|].
    + split; [| | |apply Forall_app; split; [done|by constructor]].
      * apply seg_delete; [rewrite fmap_app; csimpl; set_solver|]. apply seg_app. cbn [hd_or fst].
        split; [by apply seg_insert|]. split; [by rewrite lookup_insert_eq|]. apply seg_insert; [set_solver|done].
      * rewrite fmap_app. csimpl. apply NoDup_app. split_and!; [done| |apply NoDup_cons; split; [set_solver|done]].
        intros j Hj. specialize (Hdis j Hj). set_solver.
      * rewrite hd_or_app in *. exact Hhd.
    + intros j Hj. rewrite Hb, Hperm in Hj. apply lookup_insert_ne. set_solver.
  - apply unlink_items; [by eapply items_relink|]. rewrite lookup_insert_ne, Hi by done. csimpl. by rewrite item_link.
  - intros _. by rewrite lookup_insert_ne.
Qed.

Lemma hash_unlink_spec home n arr bs p l1 i x l2 :
  tbl home arr bs -> full n arr -> n <= NO_RECORD -> bs p = l1 ++ (i, x) :: l2 ->
  exists e arr', hash_unlink arr (last l1.*1) i = Some (e, arr') /\ unlinked home n arr i x e arr'.
Proof.
  intros Ht Hfull Hmax Hb. pose proof (t_bucket _ _ _ Ht p) as Hbp. rewrite Hb in Hbp.
  assert (Hlt : forall j, j ∈ (l1 ++ (i, x) :: l2).*1 -> j < n) by (intros j; by eapply bucket_lt).
  pose proof (b_seg _ _ _ _ Hbp) as Hs. pose proof (seg_lookup _ _ _ _ _ _ Hs) as Hi.
  unfold hash_unlink. rewrite Hi. cbn [mbind option_bind]. change (next (link_of ?a x)) with a.
  destruct l1 as [|[g z] l1 _] using rev_ind.
  - csimpl in *. destruct l2 as [|[j y] l2]; cbn [hd_or fst].
    + rewrite N.eqb_refl. exists i, arr. split; [done|]. apply (unlink_only _ _ _ bs p); [done..| |done]. apply Hlt. set_solver.
    + assert (j < n) as Hjn by (apply Hlt; set_solver). destruct (N.eqb_spec j NO_RECORD); [lia|].
      destruct Hs as (_ & Hj & _). rewrite Hj. cbn [mbind option_bind]. eexists _, _. split; [done|]. by eapply unlink_head.
  - rewrite fmap_app. csimpl. rewrite last_snoc. cbn [mbind option_bind]. rewrite <- (assoc_L (++)) in *. csimpl in *.
    rewrite (seg_lookup _ _ _ _ _ _ Hs : arr !! g = Some (link_of i z)). cbn [mbind option_bind].
    change ((link_of i z) <| next := ?a |>) with (link_of a z). eexists _, _. split; [done|]. by eapply unlink_inner.
Qed.
End Remove.
