(* ===== verification/HashMerge.v ===== *)
(** * The last bucket of the hash table is merged

    The move of the last element of the array in [my_hash_delete] of
    mysys/hash.c: with one record less the last bucket goes back to the bucket it
    was split from, and its place in the array is given up. *)

From Stdlib Require Import NArith Lia.
From stdpp Require Import base numbers gmap functions list strings.
From S2P Require Import Prelude HashTable HashChain HashSplit HashPlace HashRemove.
Local Open Scope spider_scope.
Local Open Scope N_scope.

(** Membership in a list of indexes, from the memberships of its parts. *)
Ltac in_list := rewrite ?elem_of_cons, ?elem_of_app; intuition congruence.

Section Merge.
  Context {D : Type}.
  Implicit Types (arr m : gmap N (HASH_LINK D)) (es l : list (N * (N * D))) (x : N * D).

(** The buckets before and after: the bucket [n] becomes part of the bucket [low]. *)
  Context (home home' : N -> N) (n low : N).
  Hypothesis (Hmerge : forall h, home' h = if home h =? n then low else home h) (Hfn : low <> n).

Lemma home_kept h : home h <> n -> home' h = home h.
Proof. intros Hh. rewrite Hmerge. by destruct (N.eqb_spec (home h) n). Qed.

Lemma home_merged h : home h = n -> home' h = low.
Proof. intros Hh. rewrite Hmerge, Hh. by rewrite N.eqb_refl. Qed.

Lemma home_new h : home' h <> n.
Proof. rewrite Hmerge. by destruct (N.eqb_spec (home h) n). Qed.

Lemma bucket_kept m bs p e : tbl home m bs -> p <> n -> e ∈ bs p -> home' e.2.1 = p.
Proof.
  intros Ht Hp He. pose proof (proj1 (Forall_forall _ _) (b_home _ _ _ _ (t_bucket _ _ _ Ht p)) _ He) as Hh.
  simpl in Hh. rewrite home_kept; [done|by rewrite Hh].
Qed.

(** Nothing to merge. *)
Lemma merge_empty m bs : tbl home m bs -> bs n = [] -> tbl home' m bs.
Proof.
  intros Ht Hn. eapply (tbl_change _ _ m _ bs _ [n] [] Ht).
  - done.
  - intros p e Hp He. eapply bucket_kept; [done| |done]. intros ->. set_solver.
  - set_solver.
  - done.
  - intros p ->%list_elem_of_singleton. rewrite Hn. apply bucket_nil.
  - intros i _ [(p & ->%list_elem_of_singleton & Hi)|Hi]; [rewrite Hn in Hi|]; set_solver.
Qed.

(** The free index is the number of the bucket merged with. *)
Lemma merge_free e m bs k :
  m !! e = None -> tbl home m bs -> m !! n = Some k -> home' (hash_nr k) = e ->
  exists bs', tbl home' (delete n (<[e := k]> m)) bs'.
Proof.
  intros Hn Ht Hk Hh. assert (e <> n) as Hen by congruence. pose proof (tbl_free _ _ _ _ Ht Hn) as Hbe.
  assert (home (hash_nr k) = n) as Hkn.
  { destruct (decide (home (hash_nr k) = n)) as [|Hne]; [done|]. rewrite (home_kept _ Hne) in Hh.
    pose proof (t_all _ _ _ Ht _ _ Hk) as Hin. rewrite Hh, Hbe in Hin. by apply not_elem_of_nil in Hin. }
  destruct (tbl_first _ _ _ _ _ Ht Hk Hkn) as (es & Hb & Ek).
  destruct (t_bucket _ _ _ Ht n) as [Hs Hnd _ Hf]. rewrite Hb in Hs, Hnd, Hf. csimpl in *. destruct Hs as [_ Hs].
  apply NoDup_cons in Hnd as [Hpn Hnd]. apply Forall_cons in Hf as [_ Hf].
  assert (e ∉ es.*1) as Hee by (intros Hi; destruct (seg_in _ _ _ _ Hs Hi) as (x & _ & Ex); by rewrite Hn in Ex).
  assert (low = e) as Hfe by (by rewrite <- (home_merged _ Hkn)).
  exists (<[e := (e, item k) :: es]> (<[n := []]> bs)). eapply (tbl_change _ _ m _ bs _ [n; e] [e] Ht).
  - intros q Hq. rewrite !fn_lookup_insert_ne; set_solver.
  - intros p x Hp Hx. eapply bucket_kept; [done| |done]. intros ->. set_solver.
  - by intros i ->%list_elem_of_singleton.
  - intros i Hi Hie. specialize (Hi n ltac:(set_solver)). rewrite Hb in Hi. csimpl in Hi.
    rewrite lookup_delete_ne, lookup_insert_ne by set_solver. done.
  - intros q [->| ->%list_elem_of_singleton]%elem_of_cons; [rewrite fn_lookup_insert_ne, fn_lookup_insert by done; apply bucket_nil|].
    rewrite fn_lookup_insert. split; csimpl; [|by apply NoDup_cons|done|].
    + rewrite lookup_delete_ne, lookup_insert_eq by done. split; [by rewrite <- Ek|].
      apply seg_delete; [done|]. by apply seg_insert.
    + constructor; [done|]. eapply Forall_impl; [exact Hf|]. intros x Hx. rewrite <- Hfe. by apply home_merged.
  - intros i Hsi Hi. exists e. rewrite fn_lookup_insert. csimpl. split; [set_solver|].
    assert (i <> n) by (intros ->; rewrite lookup_delete_eq in Hsi; by destruct Hsi).
    destruct Hi as [(q & Hq & Hi)|Hi]; [|set_solver].
    apply elem_of_cons in Hq as [->| ->%list_elem_of_singleton]; [rewrite Hb in Hi|rewrite Hbe in Hi]; set_solver.
Qed.

(** The two buckets become one: the first record of the bucket [low], which is
    [kp] at [p], stays, the last element of the array, [k], comes second, the other
    records of its bucket ([r1], a chain that ends at [z]) and those of the
    bucket [low] ([r2]) follow. *)
Record joined m (bs : N -> list (N * (N * D))) (k : HASH_LINK D) (p : N) (kp : HASH_LINK D) r1 r2 (z : N) : Prop := {
  jn_last : m !! n = Some k;
  jn_first : m !! p = Some kp;
  jn_ne : p <> n;
  jn_f : low = p;
  jn_k : k = link_of (hd_or z r1) (item k);
  jn_kp : kp = link_of (hd_or NO_RECORD r2) (item kp);
  jn_r1 : seg m r1 z;
  jn_r2 : seg m r2 NO_RECORD;
  jn_nodup : NoDup (p :: n :: (r1 ++ r2).*1);
  jn_home : Forall (fun e => home' e.2.1 = p) ((p, item kp) :: (n, item k) :: r1 ++ r2);
  jn_all : forall i, i ∈ (bs n).*1 \/ i ∈ (bs p).*1 <-> i ∈ p :: n :: (r1 ++ r2).*1 }.

(** In the array, [j] is the last one of [r1], or the moved element. *)
Lemma merge_buckets e m bs p k kp r1 r2 z es1 j y :
  m !! e = None -> tbl home m bs -> joined m bs k p kp r1 r2 z -> (e, item k) :: r1 = es1 ++ [(j, y)] ->
  exists bs', tbl home' (delete n (<[p := link_of e (item kp)]> (<[j := link_of (hd_or NO_RECORD r2) y]> (<[e := k]> m)))) bs'.
Proof.
  intros Hn Ht [Hk Hkp Hpn Hfp Ek Ekp Hs1 Hs2 Hnd Hf Hidx] Hes.
  assert (Hlive : forall i, i ∈ p :: n :: (r1 ++ r2).*1 -> is_Some (m !! i)).
  { intros i [Hi|Hi]%Hidx; destruct (tbl_index _ _ _ _ _ Ht Hi) as (? & -> & _); done. }
  assert (e ∉ p :: n :: (r1 ++ r2).*1) as He by (intros Hi%Hlive; rewrite Hn in Hi; by destruct Hi).
  rewrite fmap_app in *. apply NoDup_cons in Hnd as [Hp Hnd]. apply NoDup_cons in Hnd as [Hnn Hnd].
  apply not_elem_of_cons in He as [Hep [Hen [He1 He2]%not_elem_of_app]%not_elem_of_cons].
  apply not_elem_of_cons in Hp as [_ [Hp1 Hp2]%not_elem_of_app]. apply not_elem_of_app in Hnn as [Hn1 Hn2].
  assert (NoDup ((es1 ++ [(j, y)]).*1)) as Hes1.
  { rewrite <- Hes. csimpl. apply NoDup_cons. split; [done|]. by apply NoDup_app in Hnd as (? & _ & _). }
  assert (Hchain : seg (<[j := link_of (hd_or NO_RECORD r2) y]> (<[e := k]> m)) (es1 ++ [(j, y)]) (hd_or NO_RECORD r2)).
  { apply (seg_relink _ _ _ _ z); [rewrite fmap_app in Hes1; apply NoDup_app in Hes1 as (_ & Hd & _); intros Hi; apply (Hd j Hi); set_solver|].
    rewrite <- Hes. split; [by rewrite lookup_insert_eq, <- Ek|]. by apply seg_insert. }
  rewrite <- Hes in *. assert (j ∈ e :: r1.*1) as Hj.
  { change (j ∈ ((e, item k) :: r1).*1). rewrite Hes, fmap_app. set_solver. }
  assert (j <> p /\ j <> n /\ j ∉ r2.*1) as (Hjp & Hjn & Hj2).
  { apply NoDup_app in Hnd as (_ & Hd & _). split_and!; intros Hi; [subst j; set_solver..|].
    apply elem_of_cons in Hj as [->|Hj]; [set_solver|by apply (Hd j)]. }
  clear Hes Hes1. exists (<[p := (p, item kp) :: (e, item k) :: r1 ++ r2]> (<[n := []]> bs)).
  eapply (tbl_change _ _ m _ bs _ [n; p] [e] Ht).
  - intros q Hq. rewrite !fn_lookup_insert_ne; [done|intros ->; set_solver +Hq..].
  - intros q x Hq Hx. eapply bucket_kept; [done| |done]. intros ->. set_solver +Hq.
  - by intros i ->%list_elem_of_singleton.
  - intros i Hi Hie. assert (i ∉ p :: n :: r1.*1 ++ r2.*1) as Hi'.
    { intros [Hi'|Hi']%Hidx; [apply (Hi n)|apply (Hi p)]; done || set_solver +. }
    apply not_elem_of_cons in Hi' as [Hip [Hin [Hi1 _]%not_elem_of_app]%not_elem_of_cons].
    assert (i <> j) by (intros ->; apply elem_of_cons in Hj as [->|Hj]; [apply Hie; by left|done]).
    rewrite lookup_delete_ne, !lookup_insert_ne; [done|congruence||(intros ->; apply Hie; by left)..].
  - intros q [->| ->%list_elem_of_singleton]%elem_of_cons; [rewrite fn_lookup_insert_ne, fn_lookup_insert by done; apply bucket_nil|].
    rewrite fn_lookup_insert. split; csimpl; rewrite ?fmap_app.
    + rewrite lookup_delete_ne, lookup_insert_eq by done. split; [done|].
      match goal with |- ?a !! _ = _ /\ _ => change (seg a ((e, item k) :: (r1 ++ r2)) NO_RECORD) end.
      apply seg_delete; [csimpl; rewrite fmap_app; in_list|]. apply seg_insert; [csimpl; rewrite fmap_app; in_list|].
      apply (seg_app _ ((e, item k) :: r1)). split; [done|]. apply seg_insert; [done|]. by apply seg_insert.
    + apply NoDup_cons. split; [in_list|]. apply NoDup_cons. split; [in_list|done].
    + done.
    + apply Forall_cons in Hf as [Hf1 [Hf2 Hf]%Forall_cons]. by constructor; [|constructor].
  - intros i Hsi Hi. exists p. rewrite fn_lookup_insert. csimpl. rewrite fmap_app. split; [right; by left|].
    assert (i <> n) by (intros ->; rewrite lookup_delete_eq in Hsi; by destruct Hsi).
    destruct Hi as [(q & Hq & Hi)|Hi]; [|apply list_elem_of_singleton in Hi as ->; right; by left].
    assert (i ∈ p :: n :: r1.*1 ++ r2.*1) as Hi'.
    { apply Hidx. by apply elem_of_cons in Hq as [->| ->%list_elem_of_singleton]; [left|right]. }
    clear -Hi' H. set_solver.
Qed.

(** ** The records stay *)

(** [arr'], without its last element, is the array of the remaining records. *)
Record dropped m arr' : Prop := {
  dp_full : full n (delete n arr');
  dp_tbl : exists bs, tbl home' (delete n arr') bs;
  dp_items : items (delete n arr') ≡ₚ items m }.

Lemma dropped_intro m arr' k :
  full (n + 1) arr' -> arr' !! n = Some k -> items arr' ≡ₚ item k :: items m ->
  (exists bs, tbl home' (delete n arr') bs) -> dropped m arr'.
Proof.
  intros Hf Hk Hi Ht. split; [|done|].
  - intros i. destruct (decide (i = n)) as [->|Hne]; [rewrite lookup_delete_eq; split; [by intros []|lia]|].
    rewrite lookup_delete_ne, (Hf i) by done. lia.
  - apply (Permutation_cons_inv (a := item k)). by rewrite <- Hi, <- items_delete.
Qed.

Lemma drop_last_link e m bs k :
  holed (n + 1) e m -> tbl home m bs -> m !! n = Some k -> home' (hash_nr k) = e -> dropped m (<[e := k]> m).
Proof.
  intros Hm Ht Hk Hh. pose proof (holed_none _ _ _ Hm) as Hn. assert (e <> n) as Hen by congruence.
  eapply dropped_intro; [|by rewrite lookup_insert_ne|by apply items_insert|by eapply merge_free].
  eapply full_of_holed; [done|]. intros i. apply insert_is_Some.
Qed.

Lemma items_move_inner m e p k j y :
  m !! e = None -> m !! p = Some k -> item <$> m !! j = Some y -> j <> p ->
  items (delete p (<[j := link_of e y]> (<[e := k]> m))) ≡ₚ items m.
Proof.
  intros He Hk Hj Hjp. apply fmap_Some in Hj as (kj & Hj & ->). assert (p <> e /\ j <> e) as [Hpe Hje] by (split; congruence).
  apply (Permutation_cons_inv (a := item k)). rewrite <- items_delete by (by rewrite !lookup_insert_ne).
  rewrite (items_relink _ _ kj), items_insert; [done|done|by rewrite lookup_insert_ne|by rewrite item_link].
Qed.

(** A record of another bucket is at the number of the bucket merged with. *)
Lemma drop_foreign e m bs k p kp :
  holed (n + 1) e m -> tbl home m bs -> m !! n = Some k -> home' (hash_nr k) = p -> m !! p = Some kp ->
  home' (hash_nr kp) <> p ->
  exists es1 j y, hd_or j es1 = home' (hash_nr kp) /\ seg m (es1 ++ [(j, y)]) p /\ NoDup (es1 ++ [(j, y)]).*1 /\
    p ∉ (es1 ++ [(j, y)]).*1 /\ dropped m (<[p := k]> (<[j := link_of e y]> (<[e := kp]> m))).
Proof.
  intros Hm Ht Hk Hp Hkp Hne. pose proof (holed_none _ _ _ Hm) as Hn.
  assert (p <> n) as Hpn by (rewrite <- Hp; apply home_new).
  assert (home (hash_nr kp) <> p) as Hg by (intros Hg; apply Hne; rewrite home_kept; [done|congruence]).
  assert (home (hash_nr k) = n) as Hkn.
  { destruct (decide (home (hash_nr k) = n)) as [|Hkn]; [done|]. rewrite (home_kept _ Hkn) in Hp.
    pose proof (t_all _ _ _ Ht _ _ Hk) as Hin. rewrite Hp, (tbl_taken _ _ _ _ _ Ht Hkp Hg) in Hin.
    by apply not_elem_of_nil in Hin. }
  assert (home (hash_nr kp) <> n) as Hgn by (intros E; apply Hne; rewrite (home_merged _ E), <- Hp; by rewrite home_merged).
  destruct (move_inner _ _ _ _ _ _ _ Hm Ht Hkp Hg) as (es1 & j & y & bs' & Hhd & Hs & Hnd & Hpe & Hjb & Ht').
  exists es1, j, y. rewrite (home_kept _ Hgn). split_and!; [done..|].
  pose proof (seg_lookup _ _ _ _ _ _ Hs) as Hj. assert (j <> p) as Hjp by (intros ->; apply Hpe; rewrite fmap_app; set_solver).
  assert (j <> n) as Hjn by (intros ->; destruct (tbl_index _ _ _ _ _ Ht Hjb) as (k' & Hk' & E); congruence).
  assert (n <> e) as Hne' by congruence.
  pose proof (move_inner_holed _ _ _ _ _ _ y Hm Hkp ltac:(by eexists) Hjp) as Hm'.
  rewrite <- (insert_delete_eq _ p). destruct (drop_last_link p _ bs' k Hm' Ht') as [H1 H2 H3]; [|done|].
  { rewrite lookup_delete_ne, !lookup_insert_ne by done. done. }
  split; [done..|]. rewrite H3. apply items_move_inner; [done..| |done]. rewrite Hj. csimpl. by rewrite item_link.
Qed.

(** The last element is an inner one of a bucket that stays. *)
Lemma drop_inner e m bs k :
  holed (n + 1) e m -> tbl home m bs -> m !! n = Some k -> home (hash_nr k) <> n ->
  exists es1 j y, hd_or j es1 = home (hash_nr k) /\ seg m (es1 ++ [(j, y)]) n /\ NoDup (es1 ++ [(j, y)]).*1 /\
    n ∉ (es1 ++ [(j, y)]).*1 /\ dropped m (<[j := link_of e y]> (<[e := k]> m)).
Proof.
  intros Hm Ht Hk Hne. pose proof (holed_none _ _ _ Hm) as Hn.
  destruct (move_inner _ _ _ _ _ _ _ Hm Ht Hk Hne) as (es1 & j & y & bs' & Hhd & Hs & Hnd & Hpe & Hjb & Ht').
  exists es1, j, y. split_and!; [done..|].
  pose proof (seg_lookup _ _ _ _ _ _ Hs) as Hj. assert (j <> n) as Hjn by (intros ->; apply Hpe; rewrite fmap_app; set_solver).
  pose proof (move_inner_holed _ _ _ _ _ _ y Hm Hk ltac:(by eexists) Hjn) as [_ Hm'].
  split; [| |apply items_move_inner; [done..| |done]; rewrite Hj; csimpl; by rewrite item_link].
  - intros i. rewrite (Hm' i). lia.
  - exists bs'. apply merge_empty; [done|]. eapply tbl_free; [done|apply lookup_delete_eq].
Qed.

(** Both records are in the last bucket. *)
Lemma joined_same m bs k p kp :
  tbl home m bs -> m !! n = Some k -> home' (hash_nr k) = p -> m !! p = Some kp ->
  home (hash_nr k) = n -> home (hash_nr kp) = n -> exists r1 r2, joined m bs k p kp r1 r2 p.
Proof.
  intros Ht Hk Hp Hkp Hhk Hhp. assert (p <> n) as Hpn by (rewrite <- Hp; apply home_new).
  destruct (tbl_first _ _ _ _ _ Ht Hk Hhk) as (rest & Hb & _).
  destruct (tbl_after _ _ _ _ _ Ht Hkp ltac:(congruence)) as (es1 & j & y & r2 & Hb' & Ekp). rewrite Hhp in Hb'.
  assert (exists r1, bs n = (n, item k) :: r1 ++ (p, item kp) :: r2) as [r1 E].
  { rewrite Hb in Hb'. destruct es1 as [|e es1].
    - injection Hb' as _ _ ->. by exists [].
    - injection Hb' as _ ->. exists (es1 ++ [(j, y)]). by rewrite Hb, <- (assoc_L (++)). }
  assert (bs p = []) as Hbp by (eapply tbl_taken; [done..|congruence]).
  destruct (t_bucket _ _ _ Ht n) as [Hs Hnd _ Hf]. rewrite E in Hs, Hnd, Hf. destruct Hs as [Hl [Hs1 [_ Hs2]]%seg_app].
  csimpl in Hnd. rewrite fmap_app in Hnd. csimpl in Hnd. apply Forall_cons in Hf as [_ [Hf1 [_ Hf2]%Forall_cons]%Forall_app].
  exists r1, r2. split; [done|done|done| | |done|done|done| | |].
  - by rewrite <- Hp, home_merged.
  - rewrite Hk in Hl. injection Hl as Hl. rewrite hd_or_app in Hl. rewrite Hl at 1. by rewrite Hl, item_link.
  - rewrite fmap_app. assert (Hperm : n :: r1.*1 ++ p :: r2.*1 ≡ₚ p :: n :: r1.*1 ++ r2.*1) by solve_Permutation.
    by rewrite <- Hperm.
  - constructor; [|constructor]; [simpl; rewrite home_merged; [by rewrite <- Hp, home_merged|done]|done|].
    apply Forall_app. split; (eapply Forall_impl; [done|]); intros x Hx; simpl in Hx; rewrite home_merged; (done || by rewrite <- Hp, home_merged).
  - intros i. rewrite Hbp, E. csimpl. rewrite !fmap_app. csimpl. rewrite !elem_of_cons, !elem_of_app, !elem_of_cons.
    pose proof (not_elem_of_nil i). tauto.
Qed.

(** The record at [p] is the first one of the bucket merged with. *)
Lemma joined_apart m bs k p kp :
  tbl home m bs -> m !! n = Some k -> home' (hash_nr k) = p -> m !! p = Some kp ->
  home (hash_nr k) = n -> home (hash_nr kp) = p -> exists r1 r2, joined m bs k p kp r1 r2 NO_RECORD.
Proof.
  intros Ht Hk Hp Hkp Hhk Hhp. assert (p <> n) as Hpn by (rewrite <- Hp; apply home_new).
  destruct (tbl_first _ _ _ _ _ Ht Hk Hhk) as (r1 & Hb & Ek). destruct (tbl_first _ _ _ _ _ Ht Hkp Hhp) as (r2 & Hb' & Ekp).
  assert (Hdis : forall i, i ∈ (bs n).*1 -> i ∉ (bs p).*1) by (intros i H1 H2; apply Hpn; by eapply (tbl_disjoint _ _ _ p n)).
  pose proof (fun e => bucket_kept m bs p e Ht Hpn) as Hkeep.
  destruct (t_bucket _ _ _ Ht n) as [Hs1 Hnd1 _ Hf1], (t_bucket _ _ _ Ht p) as [Hs2 Hnd2 _ Hf2].
  rewrite Hb in Hs1, Hnd1, Hf1. rewrite Hb' in Hs2, Hnd2, Hf2. csimpl in *.
  destruct Hs1 as [_ Hs1], Hs2 as [_ Hs2]. apply NoDup_cons in Hnd1 as [Hn1 Hnd1], Hnd2 as [Hp2 Hnd2].
  apply Forall_cons in Hf1 as [_ Hf1]. rewrite Hb, Hb' in Hdis. csimpl in Hdis.
  exists r1, r2. split; [done..| |done|done|done|done| | |].
  - by rewrite <- Hp, home_merged.
  - rewrite fmap_app. apply NoDup_cons. split; [|apply NoDup_cons; split].
    + rewrite elem_of_cons, elem_of_app. intros [?|[Hi|?]]; [done| |done]. apply (Hdis p); set_solver +Hi.
    + rewrite elem_of_app. intros [?|Hi]; [done|]. apply (Hdis n); set_solver +Hi.
    + apply NoDup_app. split_and!; [done| |done]. intros i Hi Hi'. apply (Hdis i); set_solver +Hi Hi'.
  - constructor; [|constructor]; [apply Hkeep; rewrite Hb'; by left|done|]. apply Forall_app. split.
    + eapply Forall_impl; [done|]. intros x Hx. simpl in Hx. rewrite home_merged; (done || by rewrite <- Hp, home_merged).
    + apply Forall_forall. intros x Hx. apply Hkeep. rewrite Hb'. by right.
  - intros i. rewrite Hb, Hb'. csimpl. rewrite fmap_app, !elem_of_cons, elem_of_app. tauto.
Qed.

Lemma joined_drop e m bs k p kp r1 r2 z fuel :
  holed (n + 1) e m -> tbl home m bs -> joined m bs k p kp r1 r2 z -> z = p \/ z = NO_RECORD ->
  n < NO_RECORD -> (N.to_nat (n + 1) <= fuel)%nat ->
  exists arr', movelink fuel (<[e := k]> m) z e (next kp) = Some arr' /\ arr' !! p = Some kp /\
    dropped m (<[p := kp <| next := e |>]> arr').
Proof.
  intros Hm Ht Hj Hz Hmax Hfuel. pose proof (holed_none _ _ _ Hm) as Hn. pose proof Hm as [_ Hdom].
  destruct (exists_last (l := (e, item k) :: r1)) as (es1 & [j y] & Hes); [done|].
  pose proof (merge_buckets _ _ _ _ _ _ _ _ _ _ _ _ Hn Ht Hj Hes) as Ht'.
  destruct Hj as [Hk Hkp Hpn _ Ek Ekp Hs1 Hs2 Hnd _ _].
  assert (Hlive : forall i, i ∈ p :: n :: r1.*1 -> i < n + 1 /\ i <> e).
  { intros i Hi. apply Hdom. apply elem_of_cons in Hi as [->|[->|Hi]%elem_of_cons]; [by eexists..|].
    destruct (seg_in _ _ _ _ Hs1 Hi) as (x & _ & Ex). by destruct (m !! i). }
  rewrite fmap_app in Hnd. apply NoDup_cons in Hnd as [Hp [Hnn [Hnd _]%NoDup_app]%NoDup_cons].
  assert (e ∉ r1.*1) as He1 by (intros Hi; destruct (Hlive e); [set_solver +Hi|done]).
  assert (seg (<[e := k]> m) ((e, item k) :: r1) z) as Hs.
  { split; [by rewrite lookup_insert_eq, <- Ek|]. by apply seg_insert. }
  assert (hd_or j es1 = e) as Hhd by (by destruct es1; injection Hes as <-).
  assert (j ∈ e :: r1.*1) as Hj by (change (j ∈ ((e, item k) :: r1).*1); rewrite Hes, fmap_app; set_solver +).
  assert (p <> e /\ n <> e) as [Hpe Hne] by (split; congruence).
  assert (j <> p) as Hjp by (intros ->; apply elem_of_cons in Hj as [?|?]; set_solver).
  assert (j <> n) as Hjn by (intros ->; apply elem_of_cons in Hj as [?|?]; set_solver).
  assert (next kp = hd_or NO_RECORD r2) as Hnx by (by rewrite Ekp at 1).
  exists (<[j := link_of (next kp) y]> (<[e := k]> m)). rewrite Hnx. split_and!.
  - rewrite <- Hhd at 2. rewrite Hes in Hs. eapply (movelink_bucket _ _ _ _ _ _ _ (n + 1)); [done|..|done]; rewrite <- Hes; csimpl.
    + by apply NoDup_cons.
    + destruct Hz as [->| ->]; [set_solver +Hp Hpe|]. intros [Hi|Hi]%elem_of_cons.
      * destruct Hm as [Hm _]. lia.
      * destruct (Hlive NO_RECORD) as [Hi' _]; [set_solver +Hi|]. lia.
    + intros i [->|Hi]%elem_of_cons; [by destruct Hm|]. apply Hlive. set_solver +Hi.
  - by rewrite !lookup_insert_ne.
  - change (kp <| next := e |>) with (link_of e (item kp)). rewrite Hes in Hs. pose proof (seg_lookup _ _ _ _ _ _ Hs) as Hlj.
    eapply dropped_intro; [|by rewrite !lookup_insert_ne| |done].
    + eapply full_of_holed; [done|]. intros i. rewrite !insert_is_Some. split; [|tauto].
      intros [[?| ->]| ->]; [tauto|..]; [|left; by eexists].
      apply elem_of_cons in Hj as [->|Hj]; [by right|left]. apply Hdom, Hlive. set_solver +Hj.
    + rewrite (items_relink _ p kp), (items_relink _ j _ _ Hlj), items_insert; [done|done|by rewrite !item_link| |by rewrite item_link].
      by rewrite !lookup_insert_ne.
Qed.
(** ** The steps on the array, whose free index has some content *)

(** [movelink] along a bucket of the array in which an element was moved to the
    free index. *)
Lemma move_link size e arr es1 j y find new k fuel :
  holed size e (delete e arr) -> seg (delete e arr) (es1 ++ [(j, y)]) find -> NoDup (es1 ++ [(j, y)]).*1 ->
  find ∉ (es1 ++ [(j, y)]).*1 -> (N.to_nat size <= fuel)%nat ->
  movelink fuel (<[e := k]> arr) find (hd_or j es1) new = Some (<[j := link_of new y]> (<[e := k]> (delete e arr))).
Proof.
  intros Hm Hs Hnd Hf Hfuel. rewrite <- (delete_insert_free e arr k).
  eapply (movelink_bucket _ _ _ _ _ _ _ size); [|done..| |done].
  - apply seg_insert; [|done]. intros Hi. by destruct (seg_lt _ _ _ _ _ _ Hm Hs Hi).
  - intros i Hi. by destruct (seg_lt _ _ _ _ _ _ Hm Hs Hi).
Qed.

Lemma step_foreign e arr bs k p kp fuel :
  holed (n + 1) e (delete e arr) -> tbl home (delete e arr) bs -> delete e arr !! n = Some k -> p = home' (hash_nr k) ->
  delete e arr !! p = Some kp -> home' (hash_nr kp) <> p -> (N.to_nat (n + 1) <= fuel)%nat ->
  exists arr', movelink fuel (<[p := k]> (<[e := kp]> arr)) p (home' (hash_nr kp)) e = Some arr' /\ dropped (delete e arr) arr'.
Proof.
  intros Hm Ht Hk Hp Hkp Hne Hfuel.
  destruct (drop_foreign _ _ _ _ _ _ Hm Ht Hk (eq_sym Hp) Hkp Hne) as (es1 & j & y & Hhd & Hs & Hnd & Hpi & Hd).
  assert (Hlt : forall i, i ∈ (es1 ++ [(j, y)]).*1 -> i < n + 1 /\ i <> e) by (intros i Hi; by eapply seg_lt).
  eexists. split; [|exact Hd]. rewrite <- Hhd, <- (delete_insert_free e arr kp), (insert_insert_ne _ p j).
  - eapply (movelink_bucket _ _ _ _ _ _ _ (n + 1)); [|done..| |done]; [|by intros i Hi; apply Hlt].
    apply seg_insert; [done|]. apply seg_insert; [|done]. intros Hi. by apply (Hlt e).
  - intros <-. apply Hpi. rewrite fmap_app. set_solver +.
Qed.

Lemma step_inner e arr bs k fuel :
  holed (n + 1) e (delete e arr) -> tbl home (delete e arr) bs -> delete e arr !! n = Some k -> home (hash_nr k) <> n ->
  (N.to_nat (n + 1) <= fuel)%nat ->
  exists arr', movelink fuel (<[e := k]> arr) n (home (hash_nr k)) e = Some arr' /\ dropped (delete e arr) arr'.
Proof.
  intros Hm Ht Hk Hne Hfuel. destruct (drop_inner _ _ _ _ Hm Ht Hk Hne) as (es1 & j & y & Hhd & Hs & Hnd & Hpi & Hd).
  eexists. split; [|exact Hd]. rewrite <- Hhd. by eapply move_link.
Qed.

Lemma step_join e arr bs k p kp fuel :
  holed (n + 1) e (delete e arr) -> tbl home (delete e arr) bs -> delete e arr !! n = Some k -> p = home' (hash_nr k) ->
  delete e arr !! p = Some kp -> home' (hash_nr kp) = p -> (home (hash_nr k) = home (hash_nr kp) -> home (hash_nr k) = n) ->
  n < NO_RECORD -> (N.to_nat (n + 1) <= fuel)%nat ->
  exists arr', (arr1 ← movelink fuel (<[e := k]> arr) (if home (hash_nr k) =? home (hash_nr kp) then p else NO_RECORD) e (next kp);
                p' ← arr1 !! p; Some (<[p := p' <| next := e |>]> arr1)) = Some arr' /\ dropped (delete e arr) arr'.
Proof.
  intros Hm Ht Hk Hp Hkp Hh Hsame Hmax Hfuel. assert (p <> n) as Hpn by (rewrite Hp; apply home_new).
  assert (exists r1 r2, joined (delete e arr) bs k p kp r1 r2 (if home (hash_nr k) =? home (hash_nr kp) then p else NO_RECORD)) as (r1 & r2 & Hj).
  { destruct (N.eqb_spec (home (hash_nr k)) (home (hash_nr kp))) as [E|E].
    - apply joined_same; [done..|by apply Hsame|]. rewrite <- E. by apply Hsame.
    - assert (home (hash_nr k) = n) as Hkn.
      { destruct (decide (home (hash_nr k) = n)) as [|Hkn]; [done|]. rewrite (home_kept _ Hkn) in Hp. exfalso.
        pose proof (t_all _ _ _ Ht _ _ Hk) as Hin. rewrite <- Hp, (tbl_taken _ _ _ _ _ Ht Hkp) in Hin by congruence.
        by apply not_elem_of_nil in Hin. }
      apply joined_apart; [done..|]. rewrite <- home_kept; [done|congruence]. }
  destruct (joined_drop e _ _ _ _ _ _ _ _ fuel Hm Ht Hj) as (arr' & Hml & Hl & Hd); [|done..|].
  { destruct (_ =? _); [by left|by right]. }
  rewrite <- (delete_insert_free e arr k), Hml. cbn [mbind option_bind]. rewrite Hl. by eexists.
Qed.
End Merge.

(** ** The move of the last element *)

Section MoveLast.
  Context {K D : Type} `{HashKey K} `{EqDecision D}.
  Implicit Types (arr m : gmap N (HASH_LINK D)).

(** The bucket of a record with [n] records and with [n + 1]. *)
Lemma mask_merge n B : sized n B -> n < B -> n < NO_RECORD ->
  (forall h, my_hash_mask h B n = if my_hash_mask h B (n + 1) =? n then n - B / 2 else my_hash_mask h B (n + 1)) /\ n - B / 2 <> n.
Proof.
  intros Hs Hn Hmax. split.
  - intros h. destruct (mask_grow n B h Hs Hn Hmax) as (_ & -> & Hf). pose proof (mask_lt n B h Hs) as Hlt.
    destruct (N.eqb_spec (h mod B) n) as [E|E]; [by rewrite N.eqb_refl, Hf|].
    destruct (N.eqb_spec (my_hash_mask h B n) n); [lia|done].
  - destruct (sized_half n B Hs Hn) as (C & -> & -> & HC & _ & HCn). lia.
Qed.

Lemma move_last_spec (hash : HASH K D) B0 e arr bs fuel :
  let n := records hash in let B := blength hash in
  sized n B -> n < B -> n < NO_RECORD -> (forall h, my_hash_mask h B0 (n + 1) = my_hash_mask h B (n + 1)) ->
  holed (n + 1) e (delete e arr) -> tbl (fun h => my_hash_mask h B (n + 1)) (delete e arr) bs ->
  (N.to_nat (n + 1) <= fuel)%nat ->
  exists arr', move_last fuel hash B0 e arr = Some arr' /\ dropped (fun h => my_hash_mask h B n) n (delete e arr) arr'.
Proof.
  intros n B Hs HnB Hmax HB0 Hm Ht Hfuel. destruct (mask_merge n B Hs HnB Hmax) as [Hmerge Hlow].
  pose proof (fun h => mask_lt n B h Hs) as Hlt. unfold move_last. fold n B.
  pose (home h := my_hash_mask h B (n + 1)). pose (home' h := my_hash_mask h B n).
  change (forall h, home' h = if home h =? n then n - B / 2 else home h) in Hmerge. change (forall h, home' h < n) in Hlt.
  change (tbl home (delete e arr) bs) in Ht. change (forall h, my_hash_mask h B0 (n + 1) = home h) in HB0.
  change (fun h => my_hash_mask h B n) with home'. pose proof (holed_none _ _ _ Hm) as Hn. pose proof Hm as [Hen Hdom].
  destruct (N.eqb_spec e n) as [->|Hne].
  { exists arr. split; [done|]. split; [intros i; rewrite (Hdom i); lia| |done].
    exists bs. eapply merge_empty; [done..|]. by eapply tbl_free. }
  destruct (holed_some _ _ _ n Hm) as [k Hk]; [lia|done|].
  assert (arr !! n = Some k) as Hk' by (by rewrite lookup_delete_ne in Hk). rewrite Hk'. cbn [mbind option_bind].
  change (my_hash_mask (hash_nr k) B n) with (home' (hash_nr k)).
  destruct (N.eqb_spec (home' (hash_nr k)) e) as [Hpe|Hpe].
  { eexists. split; [done|]. rewrite <- (delete_insert_free e arr k). by eapply drop_last_link. }
  remember (home' (hash_nr k)) as p eqn:Ep. assert (p < n) as Hpn by (rewrite Ep; apply Hlt).
  destruct (holed_some _ _ _ p Hm) as [kp Hkp]; [lia|done|].
  assert (arr !! p = Some kp) as Hkp' by (by rewrite lookup_delete_ne in Hkp). rewrite Hkp'. cbn [mbind option_bind].
  rewrite !HB0. change (my_hash_mask (hash_nr kp) B n) with (home' (hash_nr kp)).
  assert (Huint : forall i, i < n + 1 -> to_uint i = i) by (intros i Hi; apply to_uint_small; lia).
  rewrite (Huint e), (Huint p), (Huint n), (Huint (home' (hash_nr kp))) by (specialize (Hlt (hash_nr kp)); lia).
  clearbody home home'.
  destruct (N.eqb_spec p (home' (hash_nr kp))) as [Hsame|Hother]; cbn [negb]; [|by eapply step_foreign; eauto].
  destruct (N.eqb_spec (home (hash_nr k)) n) as [Hkn|Hkn].
  { rewrite andb_false_r. by eapply step_join. }
  rewrite andb_true_r. pose proof (step_join home home' n _ Hmerge Hlow e arr bs k p kp fuel Hm Ht Hk Ep Hkp (eq_sym Hsame)) as Hjoin.
  destruct (N.eqb_spec (home (hash_nr k)) (home (hash_nr kp))) as [E|E]; [|by apply Hjoin].
  rewrite (Ep : p = home' (hash_nr k)), (home_kept home home' n _ Hmerge _ Hkn). by eapply step_inner.
Qed.
End MoveLast.
