(* ===== verification/HashOps.v ===== *)
(** * The operations of the hash table

    The shape every operation of mysys/hash.c keeps, and what each operation does
    to the collection of the records. *)

From Stdlib Require Import NArith Lia.
From stdpp Require Import base numbers gmap functions list strings.
From S2P Require Import Prelude HashTable HashChain HashSplit HashPlace HashRemove HashMerge.
Local Open Scope spider_scope.
Local Open Scope N_scope.

(** What the table relies on: the comparison of keys is an equivalence and equal
    keys have the same hash number. *)
Class HashKeyLaws (K : Type) `{HashKey K} : Prop := {
  key_same_refl k : key_same k k = true;
  key_same_sym k k' : key_same k k' = true -> key_same k' k = true;
  key_same_trans k k' k'' : key_same k k' = true -> key_same k' k'' = true -> key_same k k'' = true;
  key_same_hash k k' : key_same k k' = true -> hash_function k = hash_function k' }.

(** The first element of a list with a property. *)
Lemma first_with {A} (P : A -> Prop) `{!forall a, Decision (P a)} (l : list A) a :
  a ∈ l -> P a -> exists l1 b l2, l = l1 ++ b :: l2 /\ P b /\ forall c, c ∈ l1 -> ~ P c.
Proof.
  induction l as [|c l IH]; intros Ha HP; [by apply not_elem_of_nil in Ha|]. destruct (decide (P c)) as [Hc|Hc].
  { exists [], c, l. split_and!; [done..|]. intros ? []%not_elem_of_nil. }
  apply elem_of_cons in Ha as [->|Ha]; [done|]. destruct (IH Ha HP) as (l1 & b & l2 & -> & Hb & Hl1).
  exists (c :: l1), b, l2. split_and!; [done..|]. intros c' [->|Hc']%elem_of_cons; [done|by apply Hl1].
Qed.

Section Shape.
  Context {K D : Type} `{HashKey K} `{EqDecision D}.
  Implicit Types (h : HASH K D) (arr : gmap N (HASH_LINK D)) (l : list (N * (N * D))) (x : N * D) (d : D).

Definition home h (nr : N) : N := my_hash_mask nr (blength h) (records h).

(** ** The shape of a table *)

Record shaped h : Prop := {
  sh_size : sized (records h) (blength h);
  sh_lt : records h < blength h;
  sh_full : full (records h) (array h);
  sh_tbl : exists bs, tbl (home h) (array h) bs }.

Definition hash_shape h : Prop := shaped h \/ (records h = 0 /\ blength h = 1 /\ array h = ∅).

Lemma shape_records h : hash_shape h -> records h <> 0 -> shaped h.
Proof. by intros [|(? & _)]. Qed.

Lemma shape_full h : hash_shape h -> full (records h) (array h).
Proof.
  intros [Hs|(-> & _ & ->)]; [apply Hs|]. intros i. rewrite lookup_empty. split; [by intros []|lia].
Qed.

Lemma shape_max h : hash_shape h -> records h <= NO_RECORD.
Proof. intros [[[] _ _ _]|(-> & _)]; [done|]. unfold NO_RECORD. lia. Qed.

Lemma tbl_ext (hm hm' : N -> N) arr bs : (forall nr, hm nr = hm' nr) -> tbl hm arr bs -> tbl hm' arr bs.
Proof.
  intros E [Hb Ha]. split.
  - intros p. destruct (Hb p) as [H1 H2 H3 H4]. split; [done..|]. eapply Forall_impl; [done|]. intros e. simpl. by rewrite E.
  - intros i k. rewrite <- E. apply Ha.
Qed.

(** ** The chain at an index *)

(** Where a search starts: the chain of the bucket, or, if a record of another
    bucket is at its number, the rest of the chain of that one. *)
Record slot_chain h (bs : N -> list (N * (N * D))) (p : N) l : Prop := {
  sc_ne : l <> [];
  sc_seg : seg (array h) l NO_RECORD;
  sc_hd : hd_or p l = p;
  sc_lt : forall i, i ∈ l.*1 -> i < records h;
  sc_len : (length l <= N.to_nat (records h))%nat;
  sc_items : forall e, e ∈ l -> e.2 ∈ items (array h);
  sc_bucket : exists q l1, bs q = l1 ++ l;
  sc_own : bs p <> [] -> l = bs p;
  sc_other : bs p = [] -> forall e, e ∈ l -> home h e.2.1 <> p }.

Lemma slot_chain_suffix h bs p q l1 l :
  shaped h -> tbl (home h) (array h) bs -> bs q = l1 ++ l -> l <> [] -> hd_or p l = p ->
  (bs p <> [] -> l = bs p) -> (bs p = [] -> q <> p) -> slot_chain h bs p l.
Proof.
  intros Hsh Ht Hb Hne Hhd Hown Hother. destruct (t_bucket _ _ _ Ht q) as [Hs Hnd _ Hf]. rewrite Hb in Hs, Hnd, Hf.
  apply seg_app in Hs as [_ Hs]. rewrite fmap_app in Hnd. apply NoDup_app in Hnd as (_ & _ & Hnd). apply Forall_app in Hf as [_ Hf].
  assert (Hlt : forall i, i ∈ l.*1 -> i < records h).
  { intros i Hi. destruct (seg_in _ _ _ _ Hs Hi) as (x & _ & Ex). apply (sh_full _ Hsh). by destruct (array h !! i). }
  split; [done..| | |by exists q, l1|done|].
  - pose proof (length_indexes _ _ Hnd Hlt) as Hlen. by rewrite length_fmap in Hlen.
  - intros [i x] He. destruct (holds_lookup _ _ _ _ (seg_holds _ _ _ Hs) He) as (k & Hk & <-). apply elem_of_items. by exists i, k.
  - intros Hbp e He. rewrite (proj1 (Forall_forall _ _) Hf e He). by apply Hother.
Qed.

Lemma slot_chain_exists h bs p :
  shaped h -> tbl (home h) (array h) bs -> p < records h -> exists l, slot_chain h bs p l.
Proof.
  intros Hsh Ht Hp. destruct (proj2 (sh_full _ Hsh p) Hp) as [k Hk].
  destruct (decide (home h (hash_nr k) = p)) as [Hh|Hh].
  - destruct (tbl_first _ _ _ _ _ Ht Hk Hh) as (es & Hb & _). exists (bs p). eapply (slot_chain_suffix _ _ _ p []); rewrite ?Hb; done.
  - pose proof (tbl_taken _ _ _ _ _ Ht Hk Hh) as Hbp. destruct (tbl_after _ _ _ _ _ Ht Hk Hh) as (es1 & j & y & es2 & Hb & _).
    exists ((p, item k) :: es2). eapply (slot_chain_suffix _ _ _ (home h (hash_nr k)) (es1 ++ [(j, y)])); try done.
    by rewrite Hb, <- (assoc_L (++)).
Qed.

(** ** Searching a chain *)

Definition is_hit h (key : K) (e : N * (N * D)) : Prop := key_same (h_key h e.2.2) key = true.

#[global] Instance is_hit_dec h key e : Decision (is_hit h key e).
Proof. unfold is_hit. apply _. Defined.

(** The records of a chain with the key, each with its index. *)
Definition hits h (key : K) l : list (N * D) := (fun e => (e.1, e.2.2)) <$> filter (is_hit h key) l.

Lemma hits_cons h key i x l :
  hits h key ((i, x) :: l) = if key_same (h_key h x.2) key then (i, x.2) :: hits h key l else hits h key l.
Proof.
  unfold hits. rewrite filter_cons. case_decide as Hd; unfold is_hit in Hd; simpl in Hd; [by rewrite Hd|].
  by destruct (key_same _ _).
Qed.

Lemma hits_filter h key l : (hits h key l).*2 = filter (fun d => key_same (h_key h d) key = true) l.*2.*2.
Proof.
  induction l as [|[i x] l IH]; [done|]. rewrite hits_cons. csimpl. rewrite filter_cons, <- IH.
  by destruct (key_same (h_key h x.2) key).
Qed.

Lemma next_loop_spec h key : forall l fuel,
  seg (array h) l NO_RECORD -> (forall i, i ∈ l.*1 -> i < NO_RECORD) -> (length l <= fuel)%nat ->
  next_loop fuel h key (hd_or NO_RECORD l) = Some (head (hits h key l)).
Proof.
  induction l as [|[i x] l IH]; intros fuel Hs Hi Hl; [by destruct fuel; cbn; rewrite N.eqb_refl|].
  destruct fuel as [|fuel]; [simpl in Hl; lia|]. destruct Hs as [Hx Hs]. cbn [next_loop hd_or fst].
  assert (i < NO_RECORD) as Hmax by (apply Hi; csimpl; by left). destruct (N.eqb_spec i NO_RECORD); [lia|].
  rewrite Hx. cbn [mbind option_bind]. unfold hashcmp. rewrite hits_cons. change (data (link_of ?a x)) with x.2.
  destruct (key_same _ _); [done|]. change (next (link_of ?a x)) with a. apply IH; [done| |simpl in Hl; lia].
  intros j Hj. apply Hi. csimpl. by right.
Qed.

Lemma first_loop_spec h key p : forall l fuel,
  seg (array h) l NO_RECORD -> l <> [] -> (forall i, i ∈ l.*1 -> i < NO_RECORD) -> (length l <= fuel)%nat ->
  first_loop fuel h key false (hd_or p l) = Some (head (hits h key l)).
Proof.
  induction l as [|[i x] l IH]; intros fuel Hs Hne Hi Hl; [done|].
  destruct fuel as [|fuel]; [simpl in Hl; lia|]. destruct Hs as [Hx Hs]. cbn [first_loop hd_or fst].
  rewrite Hx. cbn [mbind option_bind]. unfold hashcmp. rewrite hits_cons. change (data (link_of ?a x)) with x.2.
  destruct (key_same _ _); [done|]. change (next (link_of ?a x)) with a. cbn [andb].
  destruct l as [|[j y] l]; [done|]. cbn [hd_or fst].
  assert (j < NO_RECORD) as Hmax by (apply Hi; csimpl; right; by left). destruct (N.eqb_spec j NO_RECORD); [lia|].
  apply (IH fuel); [done..| |simpl in *; lia]. intros i' Hi'. apply Hi. csimpl. by right.
Qed.

(** A search looks at the whole chain of its bucket, or, if that is empty, at the
    one record at its number. *)
Lemma first_spec h bs v key l :
  shaped h -> tbl (home h) (array h) bs -> slot_chain h bs (home h v) l ->
  my_hash_first_from_hash_value h v key = Some (head (hits h key (match bs (home h v) with [] => take 1 l | _ => l end))).
Proof.
  intros Hsh Ht [Hne Hs Hhd Hlt Hlen Hit _ Hown Hother]. unfold my_hash_first_from_hash_value.
  pose proof (sh_size _ Hsh) as [_ _ _ Hpos Hmax]. destruct (N.eqb_spec (records h) 0); [lia|].
  change (my_hash_mask v (blength h) (records h)) with (home h v).
  assert (Hi : forall i, i ∈ l.*1 -> i < NO_RECORD) by (intros i Hi%Hlt; lia).
  destruct (bs (home h v)) as [|e es] eqn:E.
  - destruct l as [|[i x] l]; [done|]. simpl in Hhd. cbn [take]. rewrite hits_cons.
    destruct (N.to_nat (records h)); [simpl in Hlen; lia|]. destruct Hs as [Hx _]. cbn [first_loop]. rewrite <- Hhd, Hx.
    cbn [mbind option_bind]. unfold hashcmp. change (data (link_of ?a x)) with x.2. destruct (key_same _ _); [done|].
    specialize (Hother eq_refl (i, x) (list_elem_of_here _ _)). unfold my_hash_rec_mask.
    change (my_hash_mask (hash_nr (link_of ?a x)) (blength h) (records h)) with (home h x.1). simpl in Hother.
    destruct (N.eqb_spec (home h x.1) i); [congruence|done].
  - rewrite <- (first_loop_spec h key (home h v) l (N.to_nat (records h)) Hs Hne Hi Hlen), Hhd.
    destruct (N.to_nat (records h)) as [|fuel]; [done|]. cbn [first_loop].
    destruct (array h !! home h v) as [k|] eqn:Ek; [|done]. cbn [mbind option_bind].
    destruct (hashcmp h k key); [done|]. unfold my_hash_rec_mask. change (my_hash_mask (hash_nr k) (blength h) (records h)) with (home h (hash_nr k)).
    destruct (N.eqb_spec (home h (hash_nr k)) (home h v)) as [|Hh]; [done|]. exfalso.
    by rewrite (tbl_taken _ _ _ _ _ Ht Ek Hh) in E.
Qed.
End Shape.

(** ** Well-formed tables *)

Section Ok.
  Context {K D : Type} `{HashKeyLaws K} `{EqDecision D}.
  Implicit Types (h : HASH K D) (arr : gmap N (HASH_LINK D)) (l : list (N * (N * D))) (x : N * D) (d : D).

(** No two records of the list have the same key. *)
Definition distinct_keys (key : D -> K) (ds : list D) : Prop :=
  forall d d' ds', ds ≡ₚ d :: d' :: ds' -> key_same (key d) (key d') = false.

Definition elements h : list D := (items (array h)).*2.

Record hash_ok h : Prop := {
  ok_shape : hash_shape h;
  ok_nr : forall x, x ∈ items (array h) -> x.1 = hash_function (h_key h x.2);
  ok_unique : h_unique h = true -> distinct_keys (h_key h) (elements h) }.

Lemma elem_of_elements h d : hash_ok h -> d ∈ elements h <-> (hash_function (h_key h d), d) ∈ items (array h).
Proof.
  intros Hok. unfold elements. rewrite list_elem_of_fmap. split.
  - intros ([nr d'] & -> & Hx). by rewrite <- (ok_nr _ Hok _ Hx).
  - intros Hx. by exists (hash_function (h_key h d), d).
Qed.

(** The records with a key are in the bucket of its hash number. *)
Lemma hits_elements h bs key :
  hash_ok h -> tbl (home h) (array h) bs ->
  (hits h key (bs (home h (hash_function key)))).*2 ≡ₚ filter (fun d => key_same (h_key h d) key = true) (elements h).
Proof.
  intros Hok Ht. set (es := bs (home h (hash_function key))).
  destruct (t_bucket _ _ _ Ht (home h (hash_function key))) as [Hs Hnd _ _]. fold es in Hs, Hnd.
  unfold elements. rewrite (items_split _ _ Hnd (seg_holds _ _ _ Hs)), fmap_app, filter_app.
  assert (filter (fun d => key_same (h_key h d) key = true) (items (without es.*1 (array h))).*2 = []) as ->.
  { apply elem_of_nil_inv. intros d [Hd Hin]%list_elem_of_filter. apply list_elem_of_fmap in Hin as (x & -> & Hx).
    apply elem_of_items in Hx as (i & k & Hk & <-). rewrite lookup_without in Hk. case_decide as Hi; [done|].
    pose proof (ok_nr _ Hok (item k) ltac:(apply elem_of_items; by exists i, k)) as Hnr.
    apply key_same_hash in Hd. simpl in *. pose proof (t_all _ _ _ Ht _ _ Hk) as Hin. rewrite Hnr, Hd in Hin.
    apply Hi. apply list_elem_of_fmap. by exists (i, item k). }
  by rewrite app_nil_r, hits_filter.
Qed.

Lemma first_ok h bs key :
  hash_ok h -> shaped h -> tbl (home h) (array h) bs ->
  my_hash_first h key = Some (head (hits h key (bs (home h (hash_function key))))).
Proof.
  intros Hok Hsh Ht. set (p := home h (hash_function key)).
  destruct (slot_chain_exists h bs p Hsh Ht) as [l Hl]; [apply mask_lt, Hsh|].
  unfold my_hash_first. rewrite (first_spec h bs _ key l Hsh Ht Hl). fold p.
  destruct (bs p) as [|e es] eqn:E; [|by rewrite (sc_own _ _ _ _ Hl), E by by rewrite E].
  f_equal. destruct l as [|[i x] l]; [done|]. cbn [take]. rewrite hits_cons.
  destruct (key_same (h_key h x.2) key) eqn:Ek; [|done]. exfalso.
  apply (sc_other _ _ _ _ Hl E (i, x)); [by left|]. apply key_same_hash in Ek. unfold p. rewrite <- Ek. simpl.
  by rewrite (ok_nr _ Hok x) by (by apply (sc_items _ _ _ _ Hl (i, x)); left).
Qed.

Lemma next_ok h bs key p l1 i x l2 :
  shaped h -> tbl (home h) (array h) bs -> bs p = l1 ++ (i, x) :: l2 ->
  my_hash_next h key i = Some (head (hits h key l2)).
Proof.
  intros Hsh Ht Hb. destruct (t_bucket _ _ _ Ht p) as [Hs Hnd _ _]. rewrite Hb in Hs, Hnd. pose proof (sz_max _ _ (sh_size _ Hsh)) as Hmax.
  assert (Hlt : forall j, j ∈ (l1 ++ (i, x) :: l2).*1 -> j < records h).
  { intros j Hj. destruct (seg_in _ _ _ _ Hs Hj) as (y & _ & Ey). apply (sh_full _ Hsh). by destruct (array h !! j). }
  unfold my_hash_next. assert (i < records h) as Hi by (apply Hlt; rewrite fmap_app; csimpl; set_solver +).
  destruct (N.eqb_spec i NO_RECORD); [lia|]. rewrite (seg_lookup _ _ _ _ _ _ Hs). cbn [mbind option_bind].
  change (next (link_of ?a x)) with a. apply seg_app in Hs as [_ [_ Hs]]. rewrite fmap_app in Hnd, Hlt. csimpl in *.
  apply NoDup_app in Hnd as (_ & _ & [_ Hnd]%NoDup_cons).
  assert (Hlt2 : forall j, j ∈ l2.*1 -> j < records h) by (intros j Hj; apply Hlt; set_solver +Hj).
  apply next_loop_spec; [done| |]; [intros j Hj%Hlt2; lia|].
  pose proof (length_indexes _ _ Hnd Hlt2) as Hlen. by rewrite length_fmap in Hlen.
Qed.

Lemma first_empty h key v : records h = 0 -> my_hash_first_from_hash_value h v key = Some None.
Proof. intros E. unfold my_hash_first_from_hash_value. by rewrite E. Qed.

Lemma elements_empty h : hash_shape h -> records h = 0 -> elements h = [].
Proof.
  intros [[[_ _ _ Hp _] _ _ _]|(_ & _ & E)] E0; [lia|]. unfold elements. rewrite E. unfold items. by rewrite map_to_list_empty.
Qed.

(** ** Searching *)

(** The records a caller sees that asks for the next one until there is none. *)
Fixpoint search_all (fuel : nat) h (key : K) (found : option (N * D)) : option (list D) :=
  match found, fuel with
  | None, _ => Some []
  | Some _, O => None
  | Some (i, d), S fuel' =>
      n ← my_hash_next h key i;
      ds ← search_all fuel' h key n;
      Some (d :: ds)
  end.

Lemma search_all_spec h bs key p : shaped h -> tbl (home h) (array h) bs -> forall l2 l1 fuel,
  bs p = l1 ++ l2 -> (length l2 <= fuel)%nat -> search_all fuel h key (head (hits h key l2)) = Some (hits h key l2).*2.
Proof.
  intros Hsh Ht. induction l2 as [|[i x] l2 IH]; intros l1 fuel Hb Hl; [by destruct fuel|].
  specialize (IH (l1 ++ [(i, x)])). rewrite <- (assoc_L (++)) in IH. specialize (fun f => IH f Hb).
  rewrite hits_cons. destruct (key_same _ _); [|apply IH; simpl in Hl; lia].
  destruct fuel as [|fuel]; [simpl in Hl; lia|]. cbn [search_all head].
  rewrite (next_ok _ _ _ _ _ _ _ _ Hsh Ht Hb). cbn [mbind option_bind]. rewrite IH by (simpl in Hl; lia). done.
Qed.

Lemma first_all h key : hash_ok h ->
  exists found ds, my_hash_first h key = Some found /\ search_all (N.to_nat (records h)) h key found = Some ds /\
    option_map snd found = head ds /\ ds ≡ₚ filter (fun d => key_same (h_key h d) key = true) (elements h).
Proof.
  intros Hok. destruct (decide (records h = 0)) as [E|E].
  { exists None, []. unfold my_hash_first. rewrite first_empty by done. rewrite (elements_empty _ (ok_shape _ Hok) E). split_and!; try done.
    by destruct (N.to_nat (records h)). }
  pose proof (shape_records _ (ok_shape _ Hok) E) as Hsh. destruct (sh_tbl _ Hsh) as [bs Ht].
  set (p := home h (hash_function key)). exists (head (hits h key (bs p))), (hits h key (bs p)).*2.
  split_and!; [by apply first_ok| |by destruct (hits h key (bs p))|by apply hits_elements].
  eapply (search_all_spec _ _ _ p Hsh Ht (bs p) []); [done|].
  destruct (t_bucket _ _ _ Ht p) as [Hs Hnd _ _]. rewrite <- (length_fmap fst). apply length_indexes; [done|].
  intros i Hi. destruct (seg_in _ _ _ _ Hs Hi) as (x & _ & Ex). apply (sh_full _ Hsh). by destruct (array h !! i).
Qed.

Lemma search_ok h key : hash_ok h ->
  exists r, my_hash_search h key = Some r /\
    match r with
    | Some d => d ∈ elements h /\ key_same (h_key h d) key = true
    | None => forall d, d ∈ elements h -> key_same (h_key h d) key = false
    end.
Proof.
  intros Hok. destruct (first_all h key Hok) as (found & ds & Hf & _ & Hhd & Hds). exists (option_map snd found). unfold my_hash_search. rewrite Hf.
  split; [done|]. rewrite Hhd. destruct ds as [|d ds]; simpl.
  - intros d Hd. destruct (key_same _ _) eqn:E; [|done]. exfalso. apply (not_elem_of_nil d). rewrite Hds. by apply list_elem_of_filter.
  - assert (d ∈ d :: ds) as Hd by left. rewrite Hds in Hd. by apply list_elem_of_filter in Hd as [? ?].
Qed.

(** ** Insertion *)

(** The table after a record was placed: its buffer doubles when it is full. *)
Definition grown h arr : HASH K D :=
  let h := h <| array := arr |> <| records := records h + 1 |> in
  if records h =? blength h then h <| blength := blength h + blength h |> else h.

Lemma grown_array h arr : array (grown h arr) = arr.
Proof. unfold grown. simpl. by destruct (_ =? _). Qed.

Lemma grown_fields h arr : let h' := grown h arr in
  h_key h' = h_key h /\ h_unique h' = h_unique h /\ h_free h' = h_free h /\ h_freed h' = h_freed h.
Proof. unfold grown. simpl. by destruct (_ =? _). Qed.

Lemma grown_shape h m x arr :
  sized (records h + 1) (blength h) ->
  placed (fun v => my_hash_mask v (blength h) (records h + 1)) (records h + 1) m x arr -> shaped (grown h arr).
Proof.
  intros Hs [Hfull [bs Ht] _]. unfold grown. cbv [upd_field]. simpl. destruct (N.eqb_spec (records h + 1) (blength h)) as [E|E].
  - rewrite <- E in *. set (n := records h + 1) in *. pose proof Hs as [[j Hj] Hh Hle Hpos Hmax].
    assert (2 * n <= 2 ^ 34) as H34 by (unfold NO_RECORD in Hmax; lia). replace (n + n) with (2 * n) by lia.
    split; simpl; [|lia|done|exists bs; eapply tbl_ext; [|done]; intros nr; symmetry; by apply mask_double].
    split; [exists (j + 1); rewrite Hj at 1; rewrite N.pow_add_r; lia| |lia..]. rewrite (N.mul_comm 2), N.div_mul by done. done.
  - destruct Hs as [Hj Hh Hle Hpos Hmax]. split; simpl; [by split|lia|done|by exists bs].
Qed.

Lemma insert_place h nr d : hash_shape h -> records h < NO_RECORD ->
  exists s arr, hash_split h = Some s /\ hash_place h s.1 s.2 nr d = Some arr /\ shaped (grown h arr) /\
    items arr ≡ₚ (nr, d) :: items (array h).
Proof.
  intros [Hsh|(E0 & E1 & E2)] Hmax.
  - destruct Hsh as [Hs Hlt Hfull [bs Ht]]. destruct (hash_split_spec h bs Hs Hlt Hmax Hfull Ht) as (e & arr & bs' & Hsp & Hh & Ht' & Hit).
    destruct (mask_grow _ _ 0 Hs Hlt Hmax) as (Hs1 & _ & _).
    destruct (hash_place_spec h e arr bs' nr d Hs1 Hh Ht') as (arr' & Hpl & Hp). exists (e, arr), arr'.
    split_and!; [done..|by eapply grown_shape|]. by rewrite (pl_items _ _ _ _ _ Hp), Hit.
  - assert (sized (records h + 1) (blength h)) as Hs1.
    { rewrite E0, E1. split; [by exists 0|done|done|lia|unfold NO_RECORD; lia]. }
    destruct (hash_place_spec h 0 (array h) (fun _ => []) nr d Hs1) as (arr' & Hpl & Hp).
    { rewrite E0, E2, delete_empty. split; [lia|]. intros i. rewrite lookup_empty. split; [by intros []|lia]. }
    { rewrite E2, delete_empty. split; [intros p; apply bucket_nil|]. intros i k. by rewrite lookup_empty. }
    exists (0, array h), arr'. split_and!; [|done|by eapply grown_shape|].
    + unfold hash_split. by rewrite E0, E1.
    + by rewrite (pl_items _ _ _ _ _ Hp), E2, delete_empty.
Qed.

Lemma distinct_cons (key : D -> K) d ds :
  (forall d', d' ∈ ds -> key_same (key d') (key d) = false) -> distinct_keys key ds -> distinct_keys key (d :: ds).
Proof.
  intros Hd Hds a b rest Hp. assert (Hsym : forall k k', key_same k k' = false -> key_same k' k = false).
  { intros k k' E. destruct (key_same k' k) eqn:E'; [|done]. apply key_same_sym in E'. congruence. }
  assert (d ∈ a :: b :: rest) as Hin by (rewrite <- Hp; left). apply elem_of_cons in Hin as [->|[->|Hin]%elem_of_cons].
  - apply Permutation_cons_inv in Hp. apply Hsym, Hd. rewrite Hp. by left.
  - rewrite (Permutation_swap b a) in Hp. apply Permutation_cons_inv in Hp. apply Hd. rewrite Hp. by left.
  - apply elem_of_Permutation in Hin as [rest' E]. apply (Hds a b rest'). apply (Permutation_cons_inv (a := d)).
    rewrite Hp, E. solve_Permutation.
Qed.

Lemma distinct_Permutation (key : D -> K) ds ds' : ds ≡ₚ ds' -> distinct_keys key ds -> distinct_keys key ds'.
Proof. intros E Hd a b rest Hp. apply (Hd a b rest). by rewrite E. Qed.

Lemma insert_ok h d : hash_ok h -> records h < NO_RECORD ->
  exists r h', my_hash_insert false h d = Some (r, h') /\ hash_ok h' /\ h_key h' = h_key h /\ h_unique h' = h_unique h /\
    h_free h' = h_free h /\ h_freed h' = h_freed h /\
    if (r : bool) then h' = h /\ h_unique h = true /\ exists d', d' ∈ elements h /\ key_same (h_key h d') (h_key h d) = true
    else elements h' ≡ₚ d :: elements h /\
         (h_unique h = true -> forall d', d' ∈ elements h -> key_same (h_key h d') (h_key h d) = false).
Proof.
  intros Hok Hmax. unfold my_hash_insert. set (key := h_key h d).
  destruct (search_ok h key Hok) as (sr & Hsr & Hdup). change (my_hash_search_using_hash_value h (hash_function key) key) with (my_hash_search h key).
  assert (exists dup, (if h_unique h then my_hash_search h key else Some None) = Some dup /\ (dup = None /\ (h_unique h = true -> sr = None) \/ (h_unique h = true /\ dup = sr))) as (dup & -> & Hcase).
  { rewrite Hsr. destruct (h_unique h); [exists sr|exists None]; naive_solver. }
  cbn [mbind option_bind]. destruct dup as [d'|].
  { destruct Hcase as [[? _]|[Hu <-]]; [done|]. destruct Hdup. exists true, h. split_and!; try done. by exists d'. }
  assert (Hnone : h_unique h = true -> forall d', d' ∈ elements h -> key_same (h_key h d') key = false).
  { intros Hu. assert (sr = None) as -> by naive_solver. done. }
  destruct (insert_place h (hash_function key) d (ok_shape _ Hok) Hmax) as (s & arr & Hs & Hp & Hsh & Hit).
  rewrite Hs. cbn [mbind option_bind]. rewrite Hp. cbn [mbind option_bind]. destruct (grown_fields h arr) as (Ek & Eu & Ef & Efr).
  assert (elements (grown h arr) ≡ₚ d :: elements h) as He by (unfold elements; by rewrite grown_array, Hit).
  exists false, (grown h arr). split_and!; [done| |done..]. split; [by left| |].
  - rewrite grown_array, Ek. intros x. rewrite Hit. intros [->|Hx]%elem_of_cons; [done|by apply ok_nr].
  - rewrite Eu, Ek. intros Hu. eapply distinct_Permutation; [by symmetry|]. apply distinct_cons; [by apply Hnone|by apply ok_unique].
Qed.

(** ** Finding a record by its address *)

Lemma found_record h bs nr d :
  shaped h -> tbl (home h) (array h) bs -> (nr, d) ∈ items (array h) ->
  (forall x, x ∈ items (array h) -> x.2 = d -> x.1 = nr) ->
  exists l1 i l2, bs (home h nr) = l1 ++ (i, (nr, d)) :: l2 /\
    find_record (N.to_nat (records h)) (array h) d None (home h nr) = Some (Some (last l1.*1, i)).
Proof.
  intros Hsh Ht Hin Hnr. apply elem_of_items in Hin as (i0 & k & Hk & Ek). pose proof (t_all _ _ _ Ht _ _ Hk) as Hi0.
  rewrite Ek in Hi0. assert (hash_nr k = nr) as E by (by injection Ek as ->). rewrite E in Hi0.
  destruct (first_with (fun e => e.2.2 = d) _ _ Hi0 eq_refl) as (l1 & [i x] & l2 & Hb & Hx & Hl1). simpl in Hx.
  destruct (t_bucket _ _ _ Ht (home h nr)) as [Hs Hnd Hhd _]. rewrite Hb in Hs, Hnd, Hhd.
  pose proof (seg_lookup _ _ _ _ _ _ Hs) as Hi.
  assert (x = (nr, d)) as ->.
  { rewrite (surjective_pairing x). f_equal; [|done]. apply Hnr; [|done]. apply elem_of_items. eexists i, _. split; [done|apply item_link]. }
  assert (Hlt : forall j, j ∈ (l1 ++ (i, (nr, d)) :: l2).*1 -> j < records h).
  { intros j Hj. destruct (seg_in _ _ _ _ Hs Hj) as (y & _ & Ey). apply (sh_full _ Hsh). by destruct (array h !! j). }
  pose proof (length_indexes _ _ Hnd Hlt) as Hlen. rewrite length_fmap, length_app in Hlen. simpl in Hlen.
  exists l1, i, l2. split; [done|]. rewrite <- Hhd at 1. rewrite hd_or_app. cbn [hd_or fst].
  change d with (nr, d).2. rewrite (find_record_some _ l2 _ _ NO_RECORD l1 _ None Hs); [by destruct (last l1.*1)|lia|done|].
  intros j Hj. pose proof (shape_max h (or_introl Hsh)). specialize (Hlt j). rewrite fmap_app in Hlt. csimpl in Hlt.
  assert (j < records h) by (apply Hlt; set_solver +Hj). lia.
Qed.

Lemma missing_record h bs nr d :
  shaped h -> tbl (home h) (array h) bs -> d ∉ elements h ->
  find_record (N.to_nat (records h)) (array h) d None (home h nr) = Some None.
Proof.
  intros Hsh Ht Hd. destruct (slot_chain_exists h bs (home h nr) Hsh Ht) as [l Hl]; [apply mask_lt, Hsh|].
  rewrite <- (sc_hd _ _ _ _ Hl) at 1. apply find_record_none; [apply Hl..|].
  intros e He Ee. apply Hd. unfold elements. rewrite <- Ee. apply list_elem_of_fmap. exists e.2. split; [done|]. by eapply sc_items.
Qed.

(** ** Deletion *)

Lemma shrink_size n B : sized (n + 1) B -> n + 1 < B -> 0 < n ->
  let B' := if n <? N.shiftr B 1 then N.shiftr B 1 else B in
  sized n B' /\ n < B' /\ forall v, my_hash_mask v B (n + 1) = my_hash_mask v B' (n + 1).
Proof.
  intros Hs Hlt Hpos. destruct (sized_half _ _ Hs Hlt) as (C & EB & HC & HCpos & HCpow & HCn). pose proof (sz_max _ _ Hs) as Hmax.
  rewrite N.shiftr_div_pow2. change (2 ^ 1) with 2. rewrite HC. cbv zeta. destruct (N.ltb_spec n C) as [Hn|Hn].
  - assert (C = n + 1) as E by lia. rewrite E in *. assert ((n + 1) / 2 <= n) by (apply N.Div0.div_le_upper_bound; lia).
    split_and!; [split; [done|done|lia|done|lia]|lia|]. intros v. rewrite EB. apply mask_double; [split; [done| |lia..]|unfold NO_RECORD in Hmax; lia].
    apply N.Div0.div_le_upper_bound. lia.
  - split_and!; [|lia|done]. destruct Hs as [Hp Hh Hle Hps Hmx]. split; [done|lia|lia|done|lia].
Qed.

(** The table with one record less, after the record left its chain and the last
    element was moved. *)
Definition shortened h : HASH K D :=
  let h := h <| records := records h - 1 |> in
  if records h <? N.shiftr (blength h) 1 then h <| blength := N.shiftr (blength h) 1 |> else h.

Definition shrunk h arr d : HASH K D :=
  let h := shortened h in
  let h := h <| array := delete (records h) arr |> in
  if h_free h then h <| h_freed := h_freed h ++ [d] |> else h.

Lemma shortened_fields h : let h' := shortened h in
  records h' = records h - 1 /\ array h' = array h /\ h_key h' = h_key h /\ h_unique h' = h_unique h /\
  h_free h' = h_free h /\ h_freed h' = h_freed h /\
  blength h' = (if records h - 1 <? N.shiftr (blength h) 1 then N.shiftr (blength h) 1 else blength h).
Proof. unfold shortened. simpl. by destruct (_ <? _). Qed.

Lemma shrunk_fields h arr d : let h' := shrunk h arr d in
  records h' = records h - 1 /\ array h' = delete (records h - 1) arr /\ h_key h' = h_key h /\ h_unique h' = h_unique h /\
  blength h' = blength (shortened h) /\ h_free h' = h_free h /\ h_freed h' = h_freed h ++ (if h_free h then [d] else []).
Proof.
  destruct (shortened_fields h) as (E1 & E2 & E3 & E4 & E5 & E6 & E7). unfold shrunk. simpl. rewrite E5.
  destruct (h_free h) eqn:Ef; simpl; rewrite ?app_nil_r, ?E1, ?E6, ?E5; by split_and!.
Qed.

Lemma my_hash_delete_eq h d gpos idx :
  records h <> 0 -> find_record (N.to_nat (records h)) (array h) d None (home h (rec_hashnr h d)) = Some (Some (gpos, idx)) ->
  my_hash_delete h d =
    u ← hash_unlink (array h) gpos idx;
    arr ← move_last (N.to_nat (records h)) (shortened h) (blength h) u.1 u.2;
    Some (false, shrunk h arr d).
Proof.
  intros Hn Hf. unfold my_hash_delete. destruct (N.eqb_spec (records h) 0); [done|].
  change (my_hash_mask ?v (blength h) (records h)) with (home h v). rewrite Hf. cbn [mbind option_bind]. cbv zeta.
  rewrite <- (proj1 (proj2 (shortened_fields h))). reflexivity.
Qed.

Lemma delete_found h bs d : shaped h -> tbl (home h) (array h) bs -> (rec_hashnr h d, d) ∈ items (array h) ->
  (forall x, x ∈ items (array h) -> x.2 = d -> x.1 = rec_hashnr h d) ->
  exists arr, my_hash_delete h d = Some (false, shrunk h arr d) /\ hash_shape (shrunk h arr d) /\
    items (array h) ≡ₚ (rec_hashnr h d, d) :: items (array (shrunk h arr d)).
Proof.
  intros Hsh Ht Hin Hnr. destruct (found_record h bs _ d Hsh Ht Hin Hnr) as (l1 & i & l2 & Hb & Hf).
  pose proof Hsh as [Hs Hlt Hfull _]. pose proof (sz_pos _ _ Hs) as Hpos. pose proof (sz_max _ _ Hs) as Hmax.
  destruct (hash_unlink_spec _ _ _ _ _ _ _ _ _ Ht Hfull Hmax Hb) as (e & arr & Hu & [Hhole [bs' Ht'] Hit _]).
  rewrite (my_hash_delete_eq h d _ i), Hu by (done || lia). cbn [mbind option_bind fst snd].
  destruct (shortened_fields h) as (E1 & _ & _ & _ & _ & _ & E7). set (n := records h - 1) in *.
  assert (records h = n + 1) as En by lia. destruct (decide (n = 0)) as [E0|E0].
  - assert (e = 0) as -> by (destruct Hhole; lia). unfold move_last. rewrite E1, E0. cbn [N.eqb mbind option_bind].
    exists arr. destruct (shrunk_fields h arr d) as (F1 & F2 & _ & _ & F5 & _ & _). fold n in F1, F2. rewrite E0 in *.
    split_and!; [done| |by rewrite F2]. right. split_and!; [done| |].
    + rewrite F5, E7. destruct (sized_half _ _ Hs Hlt) as (C & EB & HC & HCpos & _ & HCn).
      rewrite N.shiftr_div_pow2. change (2 ^ 1) with 2. rewrite HC. destruct (N.ltb_spec 0 C); lia.
    + rewrite F2. apply map_eq. intros j. rewrite lookup_empty. apply eq_None_not_Some. rewrite (proj2 Hhole j). lia.
  - rewrite En in Hs, Hlt, Hhole. destruct (shrink_size n (blength h) Hs Hlt) as (Hs' & Hlt' & Hmask); [lia|]. rewrite <- E7 in Hs', Hlt', Hmask.
    destruct (move_last_spec (shortened h) (blength h) e arr bs' (N.to_nat (records h))) as (arr' & Hml & [Dfull Dtbl Ditems]);
      rewrite ?E1; [done..|lia|done|done| |lia|].
    { eapply tbl_ext; [|done]. intros v. unfold home. by rewrite En, Hmask. }
    rewrite Hml. cbn [mbind option_bind]. exists arr'. rewrite E1 in *. destruct (shrunk_fields h arr' d) as (F1 & F2 & _ & _ & F5 & _ & _). fold n in F1, F2.
    split_and!; [done| |by rewrite F2, Ditems, Hit]. left. split; rewrite ?F1, ?F2, ?F5; [done..|]. destruct Dtbl as [bs'' Ht''].
    exists bs''. eapply tbl_ext; [|done]. intros v. unfold home. by rewrite F1, F5.
Qed.

Lemma distinct_tail (key : D -> K) d ds : distinct_keys key (d :: ds) -> distinct_keys key ds.
Proof. intros Hd a b rest Hp. apply (Hd a b (d :: rest)). rewrite Hp. solve_Permutation. Qed.

Lemma delete_ok h d : hash_ok h ->
  exists r h', my_hash_delete h d = Some (r, h') /\ hash_ok h' /\ h_key h' = h_key h /\ h_unique h' = h_unique h /\
    h_free h' = h_free h /\
    if (r : bool) then h' = h /\ d ∉ elements h
    else elements h ≡ₚ d :: elements h' /\ h_freed h' = h_freed h ++ (if h_free h then [d] else []).
Proof.
  intros Hok. destruct (decide (records h = 0)) as [E|E].
  { exists true, h. unfold my_hash_delete. rewrite E. split_and!; try done. rewrite (elements_empty _ (ok_shape _ Hok) E). apply not_elem_of_nil. }
  pose proof (shape_records _ (ok_shape _ Hok) E) as Hsh. destruct (sh_tbl _ Hsh) as [bs Ht]. destruct (decide (d ∈ elements h)) as [Hd|Hd].
  - pose proof (proj1 (elem_of_elements h d Hok) Hd) as Hin.
    destruct (delete_found h bs d Hsh Ht Hin) as (arr & Hdel & Hshape & Hit); [by intros x Hx <-; apply (ok_nr _ Hok)|].
    destruct (shrunk_fields h arr d) as (F1 & F2 & F3 & F4 & _ & F5 & F6). set (h' := shrunk h arr d) in *.
    assert (elements h ≡ₚ d :: elements h') as He by (unfold elements; by rewrite Hit).
    exists false, h'. split_and!; [done| |done..]. split; [done| |].
    + intros x Hx. rewrite F3. apply (ok_nr _ Hok). rewrite Hit. by right.
    + rewrite F3, F4. intros Hu. eapply distinct_tail, distinct_Permutation; [exact He|]. by apply ok_unique.
  - exists true, h. unfold my_hash_delete. destruct (N.eqb_spec (records h) 0); [done|].
    change (my_hash_mask ?v (blength h) (records h)) with (home h v). by rewrite (missing_record h bs _ d Hsh Ht Hd).
Qed.

(** ** Update *)

(** A record whose key was changed from [old]: its stored hash number is the one
    of the old key, the others are right. *)
Record stale h d (old : K) (rest : list (N * D)) : Prop := {
  st_shape : hash_shape h;
  st_items : items (array h) ≡ₚ (hash_function old, d) :: rest;
  st_nr : forall x, x ∈ rest -> x.1 = hash_function (h_key h x.2);
  st_other : d ∉ rest.*2;
  st_unique : h_unique h = true -> distinct_keys (h_key h) rest.*2 }.

Lemma stale_shaped h d old rest : stale h d old rest -> shaped h.
Proof.
  intros [[Hs|(_ & _ & E)] Hit _ _ _]; [done|]. rewrite E in Hit. unfold items in Hit.
  rewrite map_to_list_empty in Hit. by apply Permutation_nil_cons in Hit.
Qed.

Lemma stale_in h d old rest x : stale h d old rest -> x ∈ items (array h) -> x.2 <> d ->
  x ∈ rest /\ x.1 = hash_function (h_key h x.2).
Proof. intros Hst Hx Hd. rewrite (st_items _ _ _ _ Hst) in Hx. apply elem_of_cons in Hx as [->|Hx]; [done|]. split; [done|by eapply st_nr]. Qed.

Lemma stale_nr h d old rest x : stale h d old rest -> x ∈ items (array h) -> x.2 = d -> x.1 = hash_function old.
Proof.
  intros Hst Hx Hd. rewrite (st_items _ _ _ _ Hst) in Hx. apply elem_of_cons in Hx as [->|Hx]; [done|]. exfalso.
  apply (st_other _ _ _ _ Hst). rewrite <- Hd. apply list_elem_of_fmap. by exists x.
Qed.

(** Another record than [d] in the list. *)
Definition has_other d (ds : list D) : bool := existsb (fun d' => negb (bool_decide (d' = d))) ds.

Lemma has_other_true d ds : has_other d ds = true <-> exists d', d' ∈ ds /\ d' <> d.
Proof.
  unfold has_other. rewrite existsb_exists. setoid_rewrite negb_true_iff. setoid_rewrite bool_decide_eq_false.
  by setoid_rewrite list_elem_of_In.
Qed.

Lemma update_duplicate_spec h bs key d q : shaped h -> tbl (home h) (array h) bs -> forall l2 l1 fuel,
  bs q = l1 ++ l2 -> (length l2 <= fuel)%nat ->
  update_duplicate fuel h key d (head (hits h key l2)) = Some (has_other d (hits h key l2).*2).
Proof.
  intros Hsh Ht. induction l2 as [|[i x] l2 IH]; intros l1 fuel Hb Hl; [by destruct fuel|].
  specialize (IH (l1 ++ [(i, x)])). rewrite <- (assoc_L (++)) in IH. specialize (fun f => IH f Hb).
  rewrite hits_cons. destruct (key_same _ _); [|apply IH; simpl in Hl; lia].
  destruct fuel as [|fuel]; [simpl in Hl; lia|]. cbn [update_duplicate head]. csimpl. unfold has_other. cbn [existsb].
  case_decide as Hd; [rewrite bool_decide_true by done|by rewrite bool_decide_false].
  rewrite (next_ok _ _ _ _ _ _ _ _ Hsh Ht Hb). cbn [mbind option_bind]. rewrite IH by (simpl in Hl; lia). done.
Qed.

(** The other records with the new key are in the bucket of its hash number. *)
Lemma other_hits h bs d old rest key l :
  stale h d old rest -> tbl (home h) (array h) bs -> (forall e, e ∈ l -> e.2 ∈ items (array h)) ->
  (forall e, e ∈ bs (home h (hash_function key)) -> e ∈ l) ->
  has_other d (hits h key l).*2 = true <-> exists d', d' ∈ rest.*2 /\ key_same (h_key h d') key = true.
Proof.
  intros Hst Ht Hl Hall. rewrite has_other_true. split.
  - intros (d' & Hd' & Hne). rewrite hits_filter in Hd'. apply list_elem_of_filter in Hd' as [Hk Hd'].
    apply list_elem_of_fmap in Hd' as (x & -> & ([i y] & -> & He)%list_elem_of_fmap). exists y.2. split; [|done].
    destruct (stale_in _ _ _ _ y Hst (Hl _ He) Hne) as [Hy _]. apply list_elem_of_fmap. by exists y.
  - intros (d' & Hd' & Hk). exists d'. split; [|by intros ->; apply (st_other _ _ _ _ Hst)].
    apply list_elem_of_fmap in Hd' as (x & -> & Hx). assert (x ∈ items (array h)) as Hi by (rewrite (st_items _ _ _ _ Hst); by right).
    apply elem_of_items in Hi as (i & k & Hi & Ek). pose proof (t_all _ _ _ Ht _ _ Hi) as Hb. rewrite Ek in Hb.
    assert (hash_nr k = hash_function key) as Enr.
    { rewrite <- (key_same_hash _ _ Hk), <- (st_nr _ _ _ _ Hst x Hx), <- Ek. done. }
    rewrite Enr in Hb. rewrite hits_filter. apply list_elem_of_filter. split; [done|].
    apply list_elem_of_fmap. exists x. split; [done|]. apply list_elem_of_fmap. exists (i, x). split; [done|by apply Hall].
Qed.

(** The search for another record with the new key. *)
Lemma duplicate_spec h d old rest : stale h d old rest ->
  exists f b, my_hash_first_from_hash_value h (hash_function (h_key h d)) (h_key h d) = Some f /\
    update_duplicate (S (N.to_nat (records h))) h (h_key h d) d f = Some b /\
    (b = true <-> exists d', d' ∈ rest.*2 /\ key_same (h_key h d') (h_key h d) = true).
Proof.
  intros Hst. pose proof (stale_shaped _ _ _ _ Hst) as Hsh. destruct (sh_tbl _ Hsh) as [bs Ht]. set (key := h_key h d).
  set (p := home h (hash_function key)). destruct (slot_chain_exists h bs p Hsh Ht) as [l Hl]; [apply mask_lt, Hsh|].
  rewrite (first_spec h bs _ key l Hsh Ht Hl). fold p. destruct (sc_bucket _ _ _ _ Hl) as (q & l1 & Hb).
  assert (Hdup : update_duplicate (S (N.to_nat (records h))) h key d (head (hits h key l)) = Some (has_other d (hits h key l).*2)).
  { eapply update_duplicate_spec; [done..|]. pose proof (sc_len _ _ _ _ Hl). lia. }
  pose proof (other_hits h bs d old rest key l Hst Ht (sc_items _ _ _ _ Hl)) as Hoth. fold p in Hoth.
  destruct (bs p) as [|e es] eqn:E.
  - destruct l as [|[i x] l]; [by destruct (sc_ne _ _ _ _ Hl)|]. cbn [take]. rewrite hits_cons in *.
    specialize (Hoth ltac:(intros ? []%not_elem_of_nil)).
    destruct (key_same (h_key h x.2) key); [by eexists _, _|].
    eexists _, false. split_and!; [done|done|]. rewrite <- (other_hits h bs d old rest key [] Hst Ht); [done|intros ? []%not_elem_of_nil|fold p; by rewrite E].
  - eexists _, _. split_and!; [done..|]. apply Hoth. by rewrite (sc_own _ _ _ _ Hl), E by by rewrite E.
Qed.

(** A link of a bucket is given another content that belongs there. *)
Lemma relabel_tbl (hm : N -> N) arr bs p l1 i x x' l2 :
  tbl hm arr bs -> bs p = l1 ++ (i, x) :: l2 -> hm x'.1 = p ->
  tbl hm (<[i := link_of (hd_or NO_RECORD l2) x']> arr) (<[p := l1 ++ (i, x') :: l2]> bs).
Proof.
  intros Ht Hb Hh. destruct (t_bucket _ _ _ Ht p) as [Hs Hnd Hhd Hf]. rewrite Hb in Hs, Hnd, Hhd, Hf.
  assert (Hidx : (l1 ++ (i, x') :: l2).*1 = (bs p).*1) by (by rewrite Hb, !fmap_app).
  pose proof Hnd as Hnd'. rewrite fmap_app in Hnd'. csimpl in Hnd'. apply NoDup_app in Hnd' as (_ & Hdis & [Hi2 _]%NoDup_cons).
  eapply (tbl_edit _ arr _ bs _ [p] [] Ht).
  - intros q Hq. rewrite fn_lookup_insert_ne; [done|]. intros ->. set_solver +Hq.
  - intros ? []%not_elem_of_nil.
  - intros j Hj _. apply lookup_insert_ne. intros ->. apply (Hj p); [by left|]. rewrite Hb, fmap_app. csimpl. set_solver +.
  - intros q ->%list_elem_of_singleton. rewrite fn_lookup_insert. split; [| | |].
    + apply seg_app in Hs as [Hs1 [_ Hs2]]. apply seg_app. split; [apply seg_insert; [|done]; intros Hj; by apply (Hdis i Hj); left|].
      split; [by rewrite lookup_insert_eq|by apply seg_insert].
    + by rewrite Hidx, Hb.
    + rewrite hd_or_app in *. done.
    + apply Forall_app in Hf as [Hf1 [_ Hf2]%Forall_cons]. apply Forall_app. split; [done|]. by constructor.
  - intros j _ [(q & ->%list_elem_of_singleton & Hj)|[]%not_elem_of_nil]. exists p. rewrite fn_lookup_insert, Hidx. split; [by left|done].
Qed.

Lemma update_done h d old rest arr :
  stale h d old rest -> full (records h) arr -> (exists bs, tbl (home h) arr bs) ->
  items arr ≡ₚ (hash_function (h_key h d), d) :: rest ->
  (h_unique h = true -> forall d', d' ∈ rest.*2 -> key_same (h_key h d') (h_key h d) = false) ->
  hash_ok (h <| array := arr |>) /\ elements (h <| array := arr |>) ≡ₚ elements h.
Proof.
  intros Hst Hfull Ht Hit Hu. pose proof (stale_shaped _ _ _ _ Hst) as [Hs Hlt _ _].
  assert (elements (h <| array := arr |>) ≡ₚ d :: rest.*2) as He by (unfold elements; simpl; by rewrite Hit).
  split; [split|].
  - left. by split.
  - intros x. simpl. rewrite Hit. intros [->|Hx]%elem_of_cons; [done|by eapply st_nr].
  - intros E. eapply distinct_Permutation; [by symmetry|]. apply distinct_cons; [by apply Hu|exact (st_unique _ _ _ _ Hst E)].
  - rewrite He. unfold elements. by rewrite (st_items _ _ _ _ Hst).
Qed.

(** The record moves to the bucket of its new key, or stays where it is. *)
Lemma update_moves h d old rest : stale h d old rest ->
  (h_unique h = true -> forall d', d' ∈ rest.*2 -> key_same (h_key h d') (h_key h d) = false) ->
  let org := home h (hash_function old) in let nr := hash_function (h_key h d) in let fuel := N.to_nat (records h) in
  exists prev idx pos arr, find_record fuel (array h) d None org = Some (Some (prev, idx)) /\ array h !! idx = Some pos /\
    (if org =? home h nr then Some (<[idx := pos <| hash_nr := nr |>]> (array h))
     else u ← hash_unlink (array h) prev idx; update_place fuel h pos nr u.1 idx u.2) = Some arr /\
    hash_ok (h <| array := arr |>) /\ elements (h <| array := arr |>) ≡ₚ elements h.
Proof.
  intros Hst Hu org nr fuel. pose proof (stale_shaped _ _ _ _ Hst) as Hsh. destruct (sh_tbl _ Hsh) as [bs Ht]. pose proof Hsh as [Hs Hlt Hfull _].
  destruct (found_record h bs (hash_function old) d Hsh Ht) as (l1 & i & l2 & Hb & Hf).
  { rewrite (st_items _ _ _ _ Hst). by left. } { intros x. by eapply stale_nr. }
  assert (array h !! i = Some (link_of (hd_or NO_RECORD l2) (hash_function old, d))) as Hi.
  { eapply (seg_lookup _ l1). rewrite <- Hb. by apply (t_bucket _ _ _ Ht). }
  set (pos := link_of _ _) in Hi. fold org in Hb, Hf. exists (last l1.*1), i, pos. destruct (N.eqb_spec org (home h nr)) as [E|E].
  - exists (<[i := pos <| hash_nr := nr |>]> (array h)). do 3 (split; [done|]). eapply (update_done h d old rest); [done| | | |done].
    + apply full_insert; [done|]. apply Hfull. by eexists.
    + eexists. by eapply (relabel_tbl (home h) _ bs org _ _ _ (nr, d)).
    + rewrite (items_replace _ _ _ _ Hi). apply perm_skip. apply (Permutation_cons_inv (a := (hash_function old, d))).
      by rewrite <- (st_items _ _ _ _ Hst), (items_delete _ _ _ Hi).
  - destruct (hash_unlink_spec _ _ _ _ _ _ _ _ _ Ht Hfull (sz_max _ _ Hs) Hb) as (e & arr & -> & [Hhole [bs' Ht'] Hit Hstale]).
    cbn [mbind option_bind fst snd].
    destruct (update_place_spec h pos e i arr bs' nr fuel Hs Hhole Ht') as (arr' & Hup & [Pfull Ptbl Pit]); [by intros ->; rewrite Hstale|done|].
    exists arr'. do 3 (split; [done|]). eapply (update_done h d old rest); [done..| |done].
    rewrite Pit. apply perm_skip. apply (Permutation_cons_inv (a := (hash_function old, d))). by rewrite Hit, (st_items _ _ _ _ Hst).
Qed.

Lemma update_ok h d old rest : stale h d old rest ->
  exists r h', my_hash_update h d old = Some (r, h') /\ h_key h' = h_key h /\ h_unique h' = h_unique h /\
    if (r : bool) then h' = h /\ h_unique h = true /\ exists d', d' ∈ rest.*2 /\ key_same (h_key h d') (h_key h d) = true
    else hash_ok h' /\ elements h' ≡ₚ elements h /\
         (h_unique h = true -> forall d', d' ∈ rest.*2 -> key_same (h_key h d') (h_key h d) = false).
Proof.
  intros Hst. destruct (duplicate_spec h d old rest Hst) as (f & b & Hf & Hb & Hiff). unfold my_hash_update.
  assert (exists dup, (if h_unique h then f ← my_hash_first_from_hash_value h (hash_function (h_key h d)) (h_key h d);
      update_duplicate (S (N.to_nat (records h))) h (h_key h d) d f else Some false) = Some dup /\ dup = h_unique h && b) as (dup & -> & ->).
  { rewrite Hf. cbn [mbind option_bind]. rewrite Hb. destruct (h_unique h); by eexists. }
  cbn [mbind option_bind]. destruct (h_unique h && b) eqn:E.
  { apply andb_true_iff in E as [Hu Hbt]. exists true, h. by rewrite Hiff in Hbt. }
  assert (Hu : h_unique h = true -> forall d', d' ∈ rest.*2 -> key_same (h_key h d') (h_key h d) = false).
  { intros Hu d' Hd'. rewrite Hu in E. simpl in E. destruct (key_same _ _) eqn:Ek; [|done]. rewrite (proj2 Hiff) in E; [done|by exists d']. }
  destruct (update_moves h d old rest Hst Hu) as (prev & idx & pos & arr & Hfind & Hpos & Hmv & Hok & Hel).
  repeat match goal with |- context [my_hash_mask ?v (blength h) (records h)] => change (my_hash_mask v (blength h) (records h)) with (home h v) end.
  rewrite Hfind. cbn [mbind option_bind]. rewrite Hpos. cbn [mbind option_bind]. exists false, (h <| array := arr |>).
  split_and!; [|done..]. destruct (_ =? _); [by injection Hmv as <-|].
  destruct (hash_unlink (array h) prev idx); [|done]. cbn [mbind option_bind] in *. by rewrite Hmv.
Qed.
End Ok.
