(* ===== verification/HashTheorems.v ===== *)
(** * Theorems on the hash table

    The table of mysys/hash.c is a collection of records: the operations refine
    the ones on a list of records taken up to order. *)

From Stdlib Require Import NArith Lia.
From stdpp Require Import base numbers gmap functions list strings.
From S2P Require Import Prelude HashTable HashChain HashSplit HashPlace HashRemove HashMerge HashOps.
Local Open Scope spider_scope.
Local Open Scope N_scope.

Section Whole.
  Context {K D : Type} `{HashKeyLaws K} `{EqDecision D}.
  Implicit Types (h : HASH K D) (d : D) (ds : list D).

(** ** All the records *)

Lemma indexed_items (arr : gmap N (HASH_LINK D)) : forall ps : list N,
  (forall i, i ∈ ps -> is_Some (arr !! i)) ->
  let es := omap (fun i => (fun k => (i, item k)) <$> arr !! i) ps in
  es.*1 = ps /\ holds arr es /\ es.*2.*2 = omap (fun i => data <$> arr !! i) ps.
Proof.
  induction ps as [|i ps IH]; intros Hp; [by split_and!; try constructor|].
  destruct (Hp i) as [k Hk]; [by left|]. destruct IH as (E1 & E2 & E3); [by intros j Hj; apply Hp; right|].
  cbv zeta in *. csimpl. rewrite Hk. csimpl. rewrite E1, E3. split_and!; [done| |done]. constructor; [|done]. simpl. by rewrite Hk.
Qed.

Lemma indexed_records h : hash_shape h ->
  exists es, holds (array h) es /\ NoDup es.*1 /\ (forall i, i ∈ es.*1 <-> i < records h) /\
    es.*2.*2 = hash_records h /\ length es = N.to_nat (records h).
Proof.
  intros Hsh. pose proof (shape_full _ Hsh) as Hfull. set (ps := N.of_nat <$> seq 0 (N.to_nat (records h))).
  assert (Hin : forall i, i ∈ ps <-> i < records h).
  { intros i. unfold ps. rewrite list_elem_of_fmap. setoid_rewrite elem_of_seq. split; [intros (j & -> & Hj); lia|].
    intros Hi. exists (N.to_nat i). lia. }
  destruct (indexed_items (array h) ps) as (E1 & E2 & E3); [by intros i Hi%Hin; apply Hfull|]. cbv zeta in *.
  eexists. split; [done|]. rewrite E3. rewrite <- (length_fmap fst), E1. split_and!; [|done| |].
  - apply NoDup_fmap_2; [intros ?? E; lia|apply NoDup_seq].
  - unfold hash_records, ps. clear. induction (seq _ _) as [|i l IH]; [done|]. csimpl. by rewrite IH.
  - unfold ps. by rewrite length_fmap, length_seq.
Qed.

Lemma hash_records_elements h : hash_shape h -> hash_records h ≡ₚ elements h.
Proof.
  intros Hsh. destruct (indexed_records h Hsh) as (es & Hh & Hnd & Hin & <- & _). unfold elements.
  rewrite (items_split _ _ Hnd Hh). assert (without es.*1 (array h) = ∅) as ->; [|unfold items; by rewrite map_to_list_empty, app_nil_r].
  apply map_eq. intros i. rewrite lookup_without, lookup_empty. case_decide as Hi; [done|].
  apply eq_None_not_Some. by rewrite (shape_full _ Hsh i), <- Hin.
Qed.

Lemma elements_length h : hash_shape h -> N.of_nat (length (elements h)) = records h.
Proof.
  intros Hsh. rewrite <- (hash_records_elements h Hsh). destruct (indexed_records h Hsh) as (es & _ & _ & _ & <- & Hl).
  rewrite !length_fmap. lia.
Qed.

Lemma element_in h i : hash_ok h -> (i < records h)%N -> exists d, my_hash_element h i = Some d /\ d ∈ elements h.
Proof.
  intros Hok Hi. destruct (proj2 (shape_full _ (ok_shape _ Hok) i) Hi) as [l Hl]. exists (data l). unfold my_hash_element.
  apply N.ltb_lt in Hi. rewrite Hi, Hl. split; [done|]. apply list_elem_of_fmap. exists (item l). split; [done|].
  apply elem_of_items. by exists i, l.
Qed.

Lemma element_out h i : (records h <= i)%N -> my_hash_element h i = None.
Proof. intros Hi. unfold my_hash_element. apply N.ltb_ge in Hi. by rewrite Hi. Qed.

(** ** Empty tables *)

Lemma empty_ok h : records h = 0 -> blength h = 1 -> array h = ∅ -> hash_ok h /\ elements h = [].
Proof.
  intros E1 E2 E3. assert (hash_shape h) as Hsh by by right. pose proof (elements_empty h Hsh E1) as He. split; [|done]. split; [done| |].
  - intros x. unfold items. rewrite E3, map_to_list_empty. intros []%not_elem_of_nil.
  - intros _ d d' ds. rewrite He. intros Hp%Permutation_nil_cons. done.
Qed.

Lemma init_ok (key : D -> K) free unique : hash_ok (my_hash_init2 key free unique) /\ elements (my_hash_init2 key free unique) = [].
Proof. by apply empty_ok. Qed.

Lemma free_elements_freed h : h_freed (my_hash_free_elements h) = h_freed h ++ (if h_free h then hash_records h else []).
Proof. unfold my_hash_free_elements. simpl. destruct (h_free h); simpl; by rewrite ?app_nil_r. Qed.

Lemma reset_ok h : let h' := my_hash_reset h in
  hash_ok h' /\ elements h' = [] /\ h_key h' = h_key h /\ h_unique h' = h_unique h /\ h_free h' = h_free h /\
  h_freed h' = h_freed h ++ (if h_free h then hash_records h else []).
Proof.
  cbv zeta. rewrite <- free_elements_freed. destruct (empty_ok (my_hash_reset h) ltac:(by unfold my_hash_reset, my_hash_free_elements; simpl; destruct (h_free h)) eq_refl eq_refl) as [Hok He].
  split_and!; [done..| | | |reflexivity]; unfold my_hash_reset, my_hash_free_elements; simpl; destruct (h_free h) eqn:E; simpl; by rewrite ?E.
Qed.
End Whole.

(** ** The collection of records as a specification *)

Section Bag.
  Context {K D : Type} `{HashKeyLaws K} `{EqDecision D}.
  Implicit Types (h : HASH K D) (d : D) (ds : list D).

Inductive hash_op :=
| OInsert (d : D)
| ODelete (d : D)
| OSearch (k : K)
| OAll (k : K)
| OReset.

Inductive hash_result :=
| RFlag (b : bool)
| RRecord (r : option D)
| RRecords (ds : list D)
| RVoid.

Definition run_op h (o : hash_op) : option (hash_result * HASH K D) :=
  match o with
  | OInsert d => r ← my_hash_insert false h d; Some (RFlag r.1, r.2)
  | ODelete d => r ← my_hash_delete h d; Some (RFlag r.1, r.2)
  | OSearch k => r ← my_hash_search h k; Some (RRecord r, h)
  | OAll k => f ← my_hash_first h k; ds ← search_all (N.to_nat (records h)) h k f; Some (RRecords ds, h)
  | OReset => Some (RVoid, my_hash_reset h)
  end.

Fixpoint run_ops h (os : list hash_op) : option (list hash_result * HASH K D) :=
  match os with
  | [] => Some ([], h)
  | o :: os' =>
      r ← run_op h o;
      rs ← run_ops r.2 os';
      Some (r.1 :: rs.1, rs.2)
  end.

(** What the operations promise: [ds] is the collection before, [ds'] after. *)
Inductive bag_step (unique : bool) (key : D -> K) ds : hash_op -> hash_result -> list D -> Prop :=
| bag_insert d ds' :
    (unique = true -> forall d', d' ∈ ds -> key_same (key d') (key d) = false) -> ds' ≡ₚ d :: ds ->
    bag_step unique key ds (OInsert d) (RFlag false) ds'
| bag_duplicate d d' :
    unique = true -> d' ∈ ds -> key_same (key d') (key d) = true -> bag_step unique key ds (OInsert d) (RFlag true) ds
| bag_delete d ds' : ds ≡ₚ d :: ds' -> bag_step unique key ds (ODelete d) (RFlag false) ds'
| bag_missing d : d ∉ ds -> bag_step unique key ds (ODelete d) (RFlag true) ds
| bag_found k d : d ∈ ds -> key_same (key d) k = true -> bag_step unique key ds (OSearch k) (RRecord (Some d)) ds
| bag_none k : (forall d, d ∈ ds -> key_same (key d) k = false) -> bag_step unique key ds (OSearch k) (RRecord None) ds
| bag_all k ds' : ds' ≡ₚ filter (fun d => key_same (key d) k = true) ds -> bag_step unique key ds (OAll k) (RRecords ds') ds
| bag_reset : bag_step unique key ds OReset RVoid [].

Inductive bag_run (unique : bool) (key : D -> K) : list D -> list hash_op -> list hash_result -> list D -> Prop :=
| bag_done ds : bag_run unique key ds [] [] ds
| bag_next ds o r ds1 os rs ds2 :
    bag_step unique key ds o r ds1 -> bag_run unique key ds1 os rs ds2 -> bag_run unique key ds (o :: os) (r :: rs) ds2.

(** One operation: the result and the collection are the specified ones, the
    records are handed to the free function of the table when they leave it. *)
Definition kept (o : hash_op) (r : hash_result) : list D :=
  match o, r with OInsert d, RFlag false => [d] | _, _ => [] end.

Lemma run_op_ok h o : hash_ok h -> records h < NO_RECORD ->
  exists r h', run_op h o = Some (r, h') /\ hash_ok h' /\ h_key h' = h_key h /\ h_unique h' = h_unique h /\ h_free h' = h_free h /\
    bag_step (h_unique h) (h_key h) (elements h) o r (elements h') /\
    (h_free h = true -> h_freed h' ++ elements h' ≡ₚ kept o r ++ h_freed h ++ elements h).
Proof.
  intros Hok Hmax. destruct o as [d|d|k|k|]; cbn [run_op].
  - destruct (insert_ok h d Hok Hmax) as ([] & h' & -> & Hok' & Ek & Eu & Ef & Efr & Hr); cbn [mbind option_bind fst snd].
    + destruct Hr as (-> & Hu & d' & Hd' & Hk). eexists _, _. split_and!; try done. by eapply bag_duplicate.
    + destruct Hr as [He Hn]. eexists _, _. split_and!; try done; [by apply bag_insert|]. intros _. rewrite Efr, He. simpl. by rewrite Permutation_middle.
  - destruct (delete_ok h d Hok) as ([] & h' & -> & Hok' & Ek & Eu & Ef & Hr); cbn [mbind option_bind fst snd].
    + destruct Hr as (-> & Hd). eexists _, _. split_and!; try done. by apply bag_missing.
    + destruct Hr as [He Efr]. eexists _, _. split_and!; try done; [by apply bag_delete|]. intros E. rewrite Efr, E, He. simpl.
      by rewrite <- (assoc_L (++)).
  - destruct (search_ok h k Hok) as (r & -> & Hr); cbn [mbind option_bind]. eexists _, _. split_and!; try done.
    destruct r; [destruct Hr; by apply bag_found|by apply bag_none].
  - destruct (first_all h k Hok) as (f & ds & -> & Ha & _ & Hds); cbn [mbind option_bind]. rewrite Ha. cbn [mbind option_bind].
    eexists _, _. split_and!; try done. by apply bag_all.
  - destruct (reset_ok h) as (Hok' & He & Ek & Eu & Ef & Efr). eexists _, _. split_and!; try done; [rewrite He; apply bag_reset|].
    intros E. rewrite Efr, E, He, app_nil_r. by rewrite (hash_records_elements h (ok_shape _ Hok)).
Qed.

Fixpoint kepts (os : list hash_op) (rs : list hash_result) : list D :=
  match os, rs with o :: os', r :: rs' => kept o r ++ kepts os' rs' | _, _ => [] end.

Lemma bag_step_length unique key ds o r ds' : bag_step unique key ds o r ds' -> (length ds' <= S (length ds))%nat.
Proof.
  intros [d ds1 _ E|d d' _ _ _|d ds1 E|d _|k d _ _|k _|k ds1 _|]; try (simpl; lia); apply Permutation_length in E; simpl in E; lia.
Qed.

Lemma bag_run_length unique key ds os rs ds' : bag_run unique key ds os rs ds' -> (length ds' <= length os + length ds)%nat.
Proof. induction 1 as [|ds o r ds1 os rs ds2 Hs _ IH]; [done|]. apply bag_step_length in Hs. simpl. lia. Qed.

Lemma run_ops_ok : forall os h, hash_ok h -> records h + N.of_nat (length os) <= NO_RECORD ->
  exists rs h', run_ops h os = Some (rs, h') /\ hash_ok h' /\ h_key h' = h_key h /\ h_unique h' = h_unique h /\ h_free h' = h_free h /\
    bag_run (h_unique h) (h_key h) (elements h) os rs (elements h') /\
    (h_free h = true -> h_freed h' ++ elements h' ≡ₚ kepts os rs ++ h_freed h ++ elements h).
Proof.
  induction os as [|o os IH]; intros h Hok Hmax; [eexists [], h; split_and!; try done; constructor|].
  destruct (run_op_ok h o Hok) as (r & h1 & Ho & Hok1 & Ek & Eu & Ef & Hb & Hfr); [simpl in Hmax; lia|].
  destruct (IH h1 Hok1) as (rs & h2 & Hos & Hok2 & Ek2 & Eu2 & Ef2 & Hb2 & Hfr2).
  { pose proof (bag_step_length _ _ _ _ _ _ Hb). rewrite <- (elements_length h (ok_shape _ Hok)) in Hmax.
    rewrite <- (elements_length h1 (ok_shape _ Hok1)). simpl in Hmax. lia. }
  exists (r :: rs), h2. cbn [run_ops]. rewrite Ho. cbn [mbind option_bind fst snd]. rewrite Hos.
  split_and!; [done|done|congruence..| |].
  - econstructor; [exact Hb|]. by rewrite <- Ek, <- Eu.
  - intros E. rewrite Hfr2, Hfr by congruence. cbn [kepts]. rewrite <- (assoc_L (++)). solve_Permutation.
Qed.

(** ** The integrity check *)

Lemma check_links_spec h i l2 : forall fuel found,
  seg (array h) l2 NO_RECORD -> (forall j, j ∈ l2.*1 -> j < records h) -> Forall (fun e => home h e.2.1 = i) l2 ->
  records h < NO_RECORD -> found + N.of_nat (length l2) <= records h -> (length l2 <= fuel)%nat ->
  check_links fuel h i (hd_or NO_RECORD l2) found false = Some (found + N.of_nat (length l2), false).
Proof.
  induction l2 as [|[j x] l2 IH]; intros fuel found Hs Hlt Hf Hmax Hn Hl.
  - destruct fuel; cbn; by rewrite N.add_0_r.
  - destruct fuel as [|fuel]; [simpl in Hl; lia|]. destruct Hs as [Hj Hs]. apply Forall_cons in Hf as [Hx Hf]. cbn [check_links hd_or fst].
    assert (j < records h) as Hjn by (apply Hlt; csimpl; by left). simpl in Hn.
    destruct (N.eqb_spec j NO_RECORD); [lia|]. assert (to_uint (records h + 1) = records h + 1) as -> by (apply N.mod_small; unfold NO_RECORD in Hmax; lia).
    destruct (N.ltb_spec found (records h + 1)); [|lia]. cbn [orb negb].
    destruct (N.leb_spec (records h) j); [lia|]. rewrite Hj. cbn [mbind option_bind]. unfold my_hash_rec_mask.
    change (my_hash_mask (hash_nr (link_of ?a x)) (blength h) (records h)) with (home h x.1). simpl in Hx. rewrite Hx, N.eqb_refl. cbn [negb].
    change (next (link_of ?a x)) with a. rewrite IH; [f_equal; f_equal; simpl; lia|done|by intros j' Hj'; apply Hlt; csimpl; right|done|done|lia|simpl in Hl; lia].
Qed.

(** The indexes of the buckets [js]. *)
Definition bucket_indexes (bs : N -> list (N * (N * D))) (js : list N) : list N := js ≫= (fun i => (bs i).*1).

Lemma bucket_indexes_nodup h bs js : tbl (home h) (array h) bs -> NoDup js -> NoDup (bucket_indexes bs js).
Proof.
  intros Ht. induction js as [|i js IH]; intros Hnd; [constructor|]. apply NoDup_cons in Hnd as [Hi Hnd].
  unfold bucket_indexes. csimpl. apply NoDup_app. split_and!; [apply (t_bucket _ _ _ Ht)| |by apply IH].
  intros j Hj (k & Hj' & Hk)%list_elem_of_bind. rewrite (tbl_disjoint _ _ _ _ _ _ Ht Hj Hj') in Hi. done.
Qed.

Lemma check_elements_spec h bs : hash_ok h -> shaped h -> records h < NO_RECORD -> tbl (home h) (array h) bs -> forall js2 js1,
  NoDup (js1 ++ js2) -> (forall i, i ∈ js2 -> i < records h) ->
  check_elements h js2 (N.of_nat (length (bucket_indexes bs js1))) false = Some (N.of_nat (length (bucket_indexes bs (js1 ++ js2))), false).
Proof.
  intros Hok Hsh Hmax Ht. induction js2 as [|i js2 IH]; intros js1 Hnd Hlt; [by rewrite app_nil_r|]. cbn [check_elements].
  destruct (proj2 (sh_full _ Hsh i) (Hlt i (list_elem_of_here _ _))) as [k Hk]. rewrite Hk. cbn [mbind option_bind].
  assert (hash_nr k = hash_function (h_key h (data k))) as Enr.
  { apply (ok_nr _ Hok (item k)). apply elem_of_items. by exists i, k. }
  rewrite <- Enr, N.eqb_refl. cbn [orb negb]. unfold my_hash_rec_mask. change (my_hash_mask (hash_nr k) (blength h) (records h)) with (home h (hash_nr k)).
  assert (Hsnoc : length (bucket_indexes bs (js1 ++ [i])) = (length (bucket_indexes bs js1) + length (bs i))%nat).
  { unfold bucket_indexes. rewrite bind_app, length_app. csimpl. by rewrite app_nil_r, length_fmap. }
  specialize (IH (js1 ++ [i])). rewrite <- (assoc_L (++)) in IH. specialize (IH Hnd ltac:(intros j Hj; apply Hlt; by right)). rewrite Hsnoc in IH.
  destruct (N.eqb_spec (home h (hash_nr k)) i) as [Eh|Eh].
  - destruct (tbl_first _ _ _ _ _ Ht Hk Eh) as (es & Hb & Ek). rewrite Hb in IH. simpl in IH.
    destruct (t_bucket _ _ _ Ht i) as [Hs _ _ Hf]. rewrite Hb in Hs, Hf. destruct Hs as [_ Hs]. apply Forall_cons in Hf as [_ Hf].
    assert (Hbound : (length (bucket_indexes bs (js1 ++ [i])) <= N.to_nat (records h))%nat).
    { apply length_indexes.
      - eapply bucket_indexes_nodup; [done|]. change (i :: js2) with ([i] ++ js2) in Hnd. rewrite (assoc_L (++)) in Hnd. by apply NoDup_app in Hnd as (? & _ & _).
      - intros j (q & Hj & _)%list_elem_of_bind. apply (sh_full _ Hsh). destruct (tbl_index _ _ _ _ _ Ht Hj) as (k' & -> & _). by eexists. }
    rewrite Hsnoc, Hb in Hbound. simpl in Hbound.
    assert (next k = hd_or NO_RECORD es) as -> by (by rewrite Ek).
    rewrite check_links_spec; [|done| |done|done|lia|lia].
    + cbn [mbind option_bind fst snd]. rewrite <- IH. f_equal. lia.
    + intros j Hj. apply (sh_full _ Hsh). destruct (seg_in _ _ _ _ Hs Hj) as (x & _ & Ex). by destruct (array h !! j).
  - cbn [mbind option_bind fst snd]. rewrite (tbl_taken _ _ _ _ _ Ht Hk Eh) in IH. simpl in IH. by rewrite Nat.add_0_r in IH.
Qed.

Lemma check_ok h : hash_ok h -> records h < NO_RECORD -> my_hash_check h = Some false.
Proof.
  intros Hok Hmax. destruct (decide (records h = 0)) as [E|E]; [unfold my_hash_check; by rewrite E|].
  pose proof (shape_records _ (ok_shape _ Hok) E) as Hsh. destruct (sh_tbl _ Hsh) as [bs Ht].
  set (js := N.of_nat <$> seq 0 (N.to_nat (records h))).
  assert (NoDup js) as Hnd by (apply NoDup_fmap_2; [intros ?? Ej; lia|apply NoDup_seq]).
  assert (Hin : forall i, i ∈ js <-> i < records h).
  { intros i. unfold js. rewrite list_elem_of_fmap. setoid_rewrite elem_of_seq. split; [intros (j & -> & Hj); lia|].
    intros Hi. exists (N.to_nat i). lia. }
  unfold my_hash_check. fold js. pose proof (check_elements_spec h bs Hok Hsh Hmax Ht js [] Hnd ltac:(intros i; apply Hin)) as Hc. simpl in Hc. change (N.of_nat 0) with 0 in Hc. rewrite Hc.
  cbn [mbind option_bind fst snd orb].
  assert (js ≡ₚ bucket_indexes bs js) as <-; [|unfold js; rewrite length_fmap, length_seq, N2Nat.id, N.eqb_refl; done].
  apply NoDup_Permutation; [done|by eapply bucket_indexes_nodup|]. intros i. rewrite Hin. unfold bucket_indexes. rewrite list_elem_of_bind. split.
  - intros Hi. destruct (proj2 (sh_full _ Hsh i) Hi) as [k Hk]. exists (home h (hash_nr k)). split; [|by apply Hin, mask_lt, Hsh].
    apply list_elem_of_fmap. exists (i, item k). split; [done|]. by apply (t_all _ _ _ Ht).
  - intros (q & Hi & _). apply (sh_full _ Hsh). destruct (tbl_index _ _ _ _ _ Ht Hi) as (k & -> & _). by eexists.
Qed.

(** ** Rows in place *)

Lemma hits_head h key l i d : head (hits h key l) = Some (i, d) ->
  exists l1 x l2, l = l1 ++ (i, x) :: l2 /\ x.2 = d /\ key_same (h_key h d) key = true /\ hits h key l1 = [].
Proof.
  induction l as [|[j x] l IH]; [done|]. rewrite hits_cons. destruct (key_same (h_key h x.2) key) eqn:E.
  - intros [= -> <-]. by exists [], x, l.
  - intros Hh. destruct (IH Hh) as (l1 & y & l2 & -> & Hy & Hk & Hl1). exists ((j, x) :: l1), y, l2. by rewrite hits_cons, E.
Qed.

Lemma hits_skip h key l1 i x l2 : hits h key l1 = [] -> key_same (h_key h x.2) key = true ->
  head (hits h key (l1 ++ (i, x) :: l2)) = Some (i, x.2).
Proof. intros Hl Hk. unfold hits in *. rewrite filter_app, fmap_app, Hl. simpl. fold (hits h key ((i, x) :: l2)). by rewrite hits_cons, Hk. Qed.

Lemma distinct_replace (key : D -> K) d d' ds :
  key_same (key d') (key d) = true -> distinct_keys key (d :: ds) -> distinct_keys key (d' :: ds).
Proof.
  intros Hk Hd. apply distinct_cons; [|by eapply distinct_tail]. intros d'' Hd''.
  apply elem_of_Permutation in Hd'' as [rest E]. pose proof (Hd d'' d rest) as Hne.
  destruct (key_same (key d'') (key d')) eqn:E'; [|done]. rewrite <- Hne; [symmetry; by eapply key_same_trans|].
  rewrite E. solve_Permutation.
Qed.

(** ** The claims *)

(** C5. Every sequence of insertions, deletions, searches and resets of a new
    hash table of mysys/hash.c, unique or not, gives the results of the same
    sequence on a plain collection of records, and never reads outside of the
    array or walks a chain that does not end, as long as no more operations are
    done than there are indexes. *)
Theorem hash_refines_collection (key : D -> K) free unique os :
  N.of_nat (length os) <= NO_RECORD ->
  exists rs h ds, run_ops (my_hash_init2 key free unique) os = Some (rs, h) /\
    bag_run unique key [] os rs ds /\ hash_records h ≡ₚ ds /\ N.of_nat (length ds) = records h.
Proof.
  intros Hmax. destruct (init_ok key free unique) as [Hok He].
  destruct (run_ops_ok os _ Hok Hmax) as (rs & h & Hr & Hok' & _ & _ & _ & Hb & _). rewrite He in Hb.
  exists rs, h, (elements h). split_and!; [done..|by apply hash_records_elements, ok_shape|by apply elements_length, ok_shape].
Qed.

(** After any sequence of operations the check of the debug library,
    [my_hash_check], runs to its end and finds no error: the stored hash numbers
    are those of the keys, every chain stays in its bucket and inside of the
    array, and the chains together hold each record once. *)
Theorem hash_check_passes (key : D -> K) free unique os :
  N.of_nat (length os) < NO_RECORD ->
  exists rs h, run_ops (my_hash_init2 key free unique) os = Some (rs, h) /\ my_hash_check h = Some false.
Proof.
  intros Hmax. destruct (init_ok key free unique) as [Hok He].
  destruct (run_ops_ok os _ Hok (N.lt_le_incl _ _ Hmax)) as (rs & h & Hr & Hok' & _ & _ & _ & Hb & _). exists rs, h. split; [done|].
  apply check_ok; [done|]. apply bag_run_length in Hb. rewrite He in Hb. simpl in Hb.
  rewrite <- (elements_length h (ok_shape _ Hok')). lia.
Qed.

(** C30. A table with a free function hands it each record that was inserted
    exactly once: on the deletion of the record, on a reset, or when the table is
    freed at the end. *)
Theorem hash_frees_each_once (key : D -> K) unique os :
  N.of_nat (length os) <= NO_RECORD ->
  exists rs h, run_ops (my_hash_init2 key true unique) os = Some (rs, h) /\
    h_freed (my_hash_free h) ≡ₚ kepts os rs /\ records (my_hash_free h) = 0.
Proof.
  intros Hmax. destruct (init_ok key true unique) as [Hok He].
  destruct (run_ops_ok os _ Hok Hmax) as (rs & h & Hr & Hok' & _ & _ & Ef & _ & Hfr). simpl in Ef. specialize (Hfr eq_refl). rewrite He, !app_nil_r in Hfr.
  exists rs, h. split; [done|]. change (h_freed (my_hash_free h)) with (h_freed (my_hash_free_elements h)).
  rewrite free_elements_freed, Ef, (hash_records_elements h (ok_shape _ Hok')). split; [done|].
  unfold my_hash_free, my_hash_free_elements. simpl. by destruct (h_free h).
Qed.

(** [my_hash_update] after the key of a record was changed: the record is
    found under its new key from then on, and no other record is touched; only
    in a unique table where another record has the new key it returns TRUE and
    leaves the table as it was. *)
Theorem hash_update_moves_record h d ds (key' : D -> K) :
  hash_ok h -> elements h ≡ₚ d :: ds -> d ∉ ds -> (forall d', d' ∈ ds -> key' d' = h_key h d') ->
  exists r h', my_hash_update (h <| h_key := key' |>) d (h_key h d) = Some (r, h') /\
    (r = true <-> h_unique h = true /\ exists d', d' ∈ ds /\ key_same (key' d') (key' d) = true) /\
    (r = true -> h' = h <| h_key := key' |>) /\
    (r = false -> hash_ok h' /\ h_key h' = key' /\ elements h' ≡ₚ elements h).
Proof.
  intros Hok He Hd Hkey. set (h1 := h <| h_key := key' |>).
  destruct (proj1 (elem_of_Permutation (items (array h)) (hash_function (h_key h d), d))) as [rest Hit].
  { apply elem_of_elements; [done|]. rewrite He. by left. }
  assert (rest.*2 ≡ₚ ds) as Hrest by (apply (Permutation_cons_inv (a := d)); rewrite <- He; unfold elements; by rewrite Hit).
  assert (stale h1 d (h_key h d) rest) as Hst.
  { split; [by destruct (ok_shape _ Hok) as [[]|]; [left; split|right]|done| |by rewrite Hrest|].
    - intros x Hx. simpl. rewrite Hkey by (rewrite <- Hrest; apply list_elem_of_fmap; by exists x). apply (ok_nr _ Hok). rewrite Hit. by right.
    - intros Hu a b rest' Hp. simpl. rewrite Hrest in Hp. rewrite !Hkey by (rewrite Hp; set_solver +).
      apply (ok_unique _ Hok Hu a b (d :: rest')). rewrite He, Hp. solve_Permutation. }
  destruct (update_ok h1 d _ rest Hst) as (r & h' & Hup & Ek & Eu & Hr). exists r, h'. split; [done|].
  assert (Hin : forall d', d' ∈ rest.*2 <-> d' ∈ ds) by (intros d'; by rewrite Hrest). destruct r.
  - destruct Hr as (-> & Hu & d' & Hd' & Hk). split; [|done]. split; [|done]. intros _. split; [done|]. exists d'. by rewrite <- Hin.
  - destruct Hr as (Hok' & He' & Hn). split; [|done]. split; [done|]. intros (Hu & d' & Hd' & Hk). apply Hin in Hd'.
    pose proof (Hn Hu d' Hd') as E. simpl in E. congruence.
Qed.

(** [my_hash_iterate] calls the action on each record of the table once, and
    stops at the first one it returns 1 for. *)
Theorem hash_iterate_visits h action : hash_ok h ->
  exists seen rest, my_hash_iterate h action = (existsb action (hash_records h), seen) /\
    elements h ≡ₚ seen ++ rest /\
    (existsb action (hash_records h) = false -> rest = []) /\
    (existsb action (hash_records h) = true ->
     exists seen' d, seen = seen' ++ [d] /\ action d = true /\ forall d', d' ∈ seen' -> action d' = false).
Proof.
  intros Hok. unfold my_hash_iterate. setoid_rewrite <- (hash_records_elements h (ok_shape _ Hok)). generalize (hash_records h) as ds.
  induction ds as [|d ds IH]; [by exists [], []|]. cbn [iterate_loop existsb]. destruct (action d) eqn:Ea; simpl.
  - exists [d], ds. split_and!; try done. intros _. exists [], d. split_and!; [done..|]. intros ? []%not_elem_of_nil.
  - destruct IH as (seen & rest & E & Hp & Hf & Ht). rewrite E. exists (d :: seen), rest. split_and!; [done|by rewrite Hp|done|].
    intros Hx. destruct (Ht Hx) as (seen' & d' & -> & Hd' & Hs). exists (d :: seen'), d'. split_and!; [done..|].
    intros d'' [->|Hd'']%elem_of_cons; [done|by apply Hs].
Qed.

(** [my_hash_replace] at the position of a search puts a row with the same key in
    the place of the one found. *)
Lemma hash_replace_same_key h key i d d' :
  hash_ok h -> my_hash_first h key = Some (Some (i, d)) -> key_same (h_key h d') (h_key h d) = true ->
  exists h', my_hash_replace h i d' = Some h' /\ hash_ok h' /\ d' :: elements h ≡ₚ d :: elements h' /\
    my_hash_first h' key = Some (Some (i, d')).
Proof.
  intros Hok Hf Hk. assert (records h <> 0) as Hn by (intros E; unfold my_hash_first in Hf; by rewrite first_empty in Hf).
  pose proof (shape_records _ (ok_shape _ Hok) Hn) as Hsh. destruct (sh_tbl _ Hsh) as [bs Ht]. pose proof Hsh as [Hs Hlt Hfull _].
  rewrite (first_ok _ _ _ Hok Hsh Ht) in Hf. injection Hf as Hf. set (p := home h (hash_function key)) in *.
  destruct (hits_head _ _ _ _ _ Hf) as (l1 & [nr dd] & l2 & Hb & Hd & Hkd & Hl1). simpl in Hd, Hkd. subst dd.
  pose proof (seg_lookup _ _ _ _ _ _ (eq_rect _ (fun l => seg _ l _) (b_seg _ _ _ _ (t_bucket _ _ _ Ht p)) _ Hb)) as Hi.
  assert (nr = hash_function (h_key h d)) as Enr.
  { apply (ok_nr _ Hok (nr, d)). apply elem_of_items. eexists i, _. split; [done|]. apply item_link. }
  assert (nr = hash_function (h_key h d')) as Enr' by (by rewrite Enr, (key_same_hash _ _ Hk)).
  assert (i < records h) as Hin by (apply Hfull; by eexists). pose proof (sz_max _ _ Hs) as Hmax.
  unfold my_hash_replace. destruct (N.eqb_spec i NO_RECORD); [lia|]. rewrite Hi. cbn [mbind option_bind]. set (h' := h <| array := _ |>).
  assert (Ht' : tbl (home h') (array h') (<[p := l1 ++ (i, (nr, d')) :: l2]> bs)).
  { eapply (relabel_tbl (home h) (array h) bs p l1 i (nr, d) (nr, d') l2); [done..|].
    pose proof (b_home _ _ _ _ (t_bucket _ _ _ Ht p)) as Hh. rewrite Hb in Hh. by apply Forall_app in Hh as [_ [Hh _]%Forall_cons]. }
  assert (shaped h') as Hsh' by (split; [done|done|by apply full_insert|by eexists]).
  assert ((nr, d') :: items (array h) ≡ₚ (nr, d) :: items (array h')) as Hit.
  { rewrite (items_delete _ _ _ Hi), item_link. unfold h'. simpl. rewrite (items_replace _ _ _ _ Hi). apply perm_swap. }
  assert (d' :: elements h ≡ₚ d :: elements h') as He by exact (fmap_Permutation snd _ _ Hit).
  assert (hash_ok h') as Hok'.
  { split; [by left| |].
    - intros x Hx. assert (x ∈ (nr, d) :: items (array h')) as Hx' by by right. rewrite <- Hit in Hx'.
      apply elem_of_cons in Hx' as [->|Hx']; [done|by apply (ok_nr _ Hok)].
    - intros Hu. destruct (proj1 (elem_of_Permutation (elements h) d)) as [rest Er].
      { apply elem_of_elements; [done|]. rewrite <- Enr. apply elem_of_items. eexists i, _. split; [done|]. apply item_link. }
      assert (elements h' ≡ₚ d' :: rest) as Er' by (apply (Permutation_cons_inv (a := d)); rewrite <- He, Er; apply perm_swap).
      eapply distinct_Permutation; [by symmetry|]. eapply distinct_replace; [exact Hk|].
      eapply distinct_Permutation; [exact Er|]. exact (ok_unique _ Hok Hu). }
  exists h'. split_and!; [done..|]. rewrite (first_ok h' _ key Hok' Hsh' Ht'). change (home h' (hash_function key)) with p.
  rewrite fn_lookup_insert. f_equal. apply (hits_skip h' key l1 i (nr, d') l2); [done|]. by eapply key_same_trans.
Qed.
End Bag.

(** ** An example *)

Section Example.
(** Numbers as keys, with collisions; a record is its key and a value. *)
#[local] Instance small_key : HashKey N := { hash_function k := k mod 7; key_same := N.eqb }.

#[local] Instance small_laws : HashKeyLaws N.
Proof.
  split; simpl.
  - apply N.eqb_refl.
  - intros k k'. by rewrite !N.eqb_eq.
  - intros k k' k''. rewrite !N.eqb_eq. congruence.
  - intros k k'. rewrite N.eqb_eq. congruence.
Qed.

Definition example_ops : list (hash_op (K := N) (D := N * N)) :=
  [OInsert (1, 10); OInsert (8, 80); OInsert (2, 20); OInsert (8, 81); ODelete (1, 10); OSearch 8; OInsert (15, 150)].

Definition example_table : HASH N (N * N) :=
  match run_ops (my_hash_init2 fst true true) example_ops with Some (_, h) => h | None => my_hash_init2 fst true true end.

Lemma example_table_ok : hash_ok example_table.
Proof.
  destruct (init_ok (K := N) (D := N * N) fst true true) as [Hok _].
  destruct (run_ops_ok example_ops _ Hok ltac:(vm_compute; discriminate)) as (rs & h & Hr & Hok' & _).
  unfold example_table. by rewrite Hr.
Qed.

Lemma example_elements : elements example_table ≡ₚ [(8, 80); (2, 20); (15, 150)].
Proof. rewrite <- (hash_records_elements _ (ok_shape _ example_table_ok)). vm_compute. solve_Permutation. Qed.

Lemma hash_refines_collection_witness :
  exists rs h ds, run_ops (my_hash_init2 fst true true) example_ops = Some (rs, h) /\
    bag_run true fst [] example_ops rs ds /\ hash_records h ≡ₚ ds /\ N.of_nat (length ds) = records h.
Proof. apply (hash_refines_collection fst true true example_ops). vm_compute. discriminate. Defined.

Lemma hash_check_passes_witness :
  exists rs h, run_ops (my_hash_init2 fst true true) example_ops = Some (rs, h) /\ my_hash_check h = Some false.
Proof. apply (hash_check_passes fst true true example_ops). vm_compute. reflexivity. Defined.

Lemma hash_frees_each_once_witness :
  exists rs h, run_ops (my_hash_init2 fst true true) example_ops = Some (rs, h) /\
    h_freed (my_hash_free h) ≡ₚ kepts example_ops rs /\ records (my_hash_free h) = 0.
Proof. apply (hash_frees_each_once fst true example_ops). vm_compute. discriminate. Defined.

(** The key of a record is changed from 8 to 22. *)
Definition example_rekey (d : N * N) : N := if decide (d = (8, 80)) then 22 else d.1.

Lemma hash_update_moves_record_witness :
  exists r h', my_hash_update (example_table <| h_key := example_rekey |>) (8, 80) (h_key example_table (8, 80)) = Some (r, h') /\
    (r = true <-> h_unique example_table = true /\
       exists d', d' ∈ [(2, 20); (15, 150)] /\ key_same (example_rekey d') (example_rekey (8, 80)) = true) /\
    (r = true -> h' = example_table <| h_key := example_rekey |>) /\
    (r = false -> hash_ok h' /\ h_key h' = example_rekey /\ elements h' ≡ₚ elements example_table).
Proof.
  apply (hash_update_moves_record example_table (8, 80) [(2, 20); (15, 150)] example_rekey).
  - apply example_table_ok.
  - apply example_elements.
  - set_solver.
  - intros d' Hd'. unfold example_rekey. rewrite decide_False by set_solver. done.
Defined.

Lemma hash_iterate_visits_witness :
  exists seen rest, my_hash_iterate example_table (fun d => d.1 =? 2) =
      (existsb (fun d => d.1 =? 2) (hash_records example_table), seen) /\
    elements example_table ≡ₚ seen ++ rest /\
    (existsb (fun d => d.1 =? 2) (hash_records example_table) = false -> rest = []) /\
    (existsb (fun d => d.1 =? 2) (hash_records example_table) = true ->
     exists seen' d, seen = seen' ++ [d] /\ (d.1 =? 2) = true /\ forall d', d' ∈ seen' -> (d'.1 =? 2) = false).
Proof. apply (hash_iterate_visits example_table (fun d => d.1 =? 2)). apply example_table_ok. Defined.

Lemma hash_replace_example :
  exists i, my_hash_first example_table 2 = Some (Some (i, (2, 20))) /\
    exists h', my_hash_replace example_table i (2, 21) = Some h' /\ hash_ok h' /\
      (2, 21) :: elements example_table ≡ₚ (2, 20) :: elements h' /\ my_hash_first h' 2 = Some (Some (i, (2, 21))).
Proof.
  eexists. split; [vm_compute; reflexivity|]. apply (hash_replace_same_key example_table 2 _ (2, 20) (2, 21)).
  - apply example_table_ok.
  - vm_compute. reflexivity.
  - vm_compute. reflexivity.
Defined.
End Example.
