(* ===== verification/CString.v ===== *)
(** * Strings in memory

    The functions on character arrays that the options of a table are parsed with:
    those of the C library, and [my_strtoll10] of strings/my_strtoll10.c, which
    converts nine digits at a time.

    An array is the list of its bytes; a string in it ends with the byte 0.  A
    pointer into an array is an index.  A function that would read or write
    outside the array is [None]. *)

From Stdlib Require Import NArith Lia.
From stdpp Require Import base numbers list strings.
From S2P Require Import Prelude.
From Stdlib Require Import ZArith.
Local Open Scope spider_scope.
Local Open Scope N_scope.

(** The bytes of a text. *)
Definition bytes (s : string) : list N := Ascii.N_of_ascii <$> String.list_ascii_of_string s.

(** ** The C library *)

(** The bytes of a string, without the 0. *)
Fixpoint c_string (s : list N) : option (list N) :=
  match s with
  | [] => None
  | b :: s => if b =? 0 then Some [] else (fun r => b :: r) <$> c_string s
  end.

Definition strlen (buf : list N) (p : nat) : option nat := length <$> c_string (drop p buf).

(** The index of the first [c] of a string. *)
Fixpoint find_char (c : N) (s : list N) : option (option nat) :=
  match s with
  | [] => None
  | b :: s => if b =? c then Some (Some O) else if b =? 0 then Some None else option_map S <$> find_char c s
  end.

Definition strchr (buf : list N) (p : nat) (c : N) : option (option nat) :=
  option_map (Nat.add p) <$> find_char c (drop p buf).

(** Writing one byte, and the bytes of a string with the 0 ([strcpy]). *)
Definition store (buf : list N) (p : nat) (b : N) : option (list N) :=
  if decide (p < length buf)%nat then Some (<[p := b]> buf) else None.

Definition strcpy (buf : list N) (dst src : nat) : option (list N) :=
  s ← c_string (drop src buf);
  let bs := s ++ [0] in
  if decide (dst + length bs <= length buf)%nat then Some (take dst buf ++ bs ++ drop (dst + length bs) buf) else None.

Definition tolower (c : N) : N := if (65 <=? c) && (c <=? 90) then c + 32 else c.

(** [strncasecmp (s, t, n) == 0] *)
Fixpoint same_nocase (n : nat) (s t : list N) : option bool :=
  match n, s with
  | O, _ => Some true
  | S n, [] => None
  | S n, b :: s =>
      let c := default 0 (head t) in
      if negb (tolower b =? tolower c) then Some false
      else if b =? 0 then Some true
      else same_nocase n s (tail t)
  end.

Definition is_space (c : N) : bool := (c =? 32) || ((9 <=? c) && (c <=? 13)).
Definition is_digit (c : N) : bool := (48 <=? c) && (c <=? 57).

Fixpoint skip_space (s : list N) : option (list N) :=
  match s with
  | [] => None
  | b :: r => if is_space b then skip_space r else Some s
  end.

(** The value of the digits a string starts with. *)
Fixpoint digits_value (acc : N) (s : list N) : option N :=
  match s with
  | [] => None
  | b :: s => if is_digit b then digits_value (10 * acc + (b - 48)) s else Some acc
  end.

Definition clamp (lo hi x : Z) : Z := if Z.ltb x lo then lo else if Z.ltb hi x then hi else x.

Definition LONG_MIN : Z := - 2 ^ 63.
Definition LONG_MAX : Z := 2 ^ 63 - 1.

(** The value is cut to the range of [long]. *)
Definition atol (s : list N) : option Z :=
  s ← skip_space s;
  c ← head s;
  let negative := c =? 45 in
  v ← digits_value 0 (if negative || (c =? 43) then tail s else s);
  Some (clamp LONG_MIN LONG_MAX (if negative then - Z.of_N v else Z.of_N v)%Z).

(** Casts to [int] and [longlong]. *)
Definition to_int32 (x : Z) : Z := ((x + 2 ^ 31) mod 2 ^ 32 - 2 ^ 31)%Z.
Definition to_int64 (x : Z) : Z := ((x + 2 ^ 63) mod 2 ^ 64 - 2 ^ 63)%Z.

(** [(int) strtol (s)] *)
Definition atoi (s : list N) : option Z := to_int32 <$> atol s.

(** ** my_strtoll10 *)

Definition MAX_NEGATIVE_NUMBER : N := 0x8000000000000000.
Definition ULONGLONG_MAX : N := 2 ^ 64 - 1.
Definition INIT_CNT : nat := 9.
Definition LFACTOR : N := 1000000000.
Definition LFACTOR1 : N := 10000000000.
Definition LFACTOR2 : N := 100000000000.
Definition MY_ERRNO_EDOM : Z := 33.
Definition MY_ERRNO_ERANGE : Z := 34.

(** [lfactor] *)
Definition lfactor (n : nat) : option N :=
  [1; 10; 100; 1000; 10000; 100000; 1000000; 10000000; 100000000] !! n.

Fixpoint skip_blank (s : list N) : option (list N) :=
  match s with
  | [] => None
  | b :: r => if (b =? 32) || (b =? 9) then skip_blank r else Some s
  end.

(** At most [n] digits: the value, the rest and how many digits were missing. *)
Fixpoint digits (n : nat) (s : list N) (acc : N) : option (N * list N * nat) :=
  match n with
  | O => Some (acc, s, O)
  | S n' =>
      c ← head s;
      if is_digit c then digits n' (tail s) (acc * 10 + (c - 48)) else Some (acc, s, n)
  end.

(** The zeros before the number; [lim] is how far the end of the scan is. *)
Fixpoint pre_zeros (lim : nat) (s : list N) : option (list N * nat) :=
  match lim with
  | O => Some (s, O)
  | S lim' =>
      c ← head s;
      if c =? 48 then pre_zeros lim' (tail s) else Some (s, lim)
  end.

(** The value of a number, and [*error].  The code negates a [longlong]; for 2^63
    this is a signed overflow, which C leaves undefined, and it is taken to wrap
    around here. *)
Definition signed (negative : bool) (li : N) : Z :=
  if negative then to_int64 (- to_int64 (Z.of_N li)) else to_int64 (Z.of_N li).

Definition overflow (negative : bool) : Z * Z :=
  (if negative then LONG_MIN else to_int64 (Z.of_N ULONGLONG_MAX), MY_ERRNO_ERANGE).

(** From the end of the first nine digits [i]: the next nine, and two more. *)
Definition strtoll10_rest (negative : bool) (error : Z) (i : N) (s : list N) (lim : nat) : option (Z * Z) :=
  let cutoff := (if negative then MAX_NEGATIVE_NUMBER else ULONGLONG_MAX) / LFACTOR2 in
  let cutoff2 := (if negative then MAX_NEGATIVE_NUMBER else ULONGLONG_MAX) mod LFACTOR2 / 100 in
  let cutoff3 := (if negative then MAX_NEGATIVE_NUMBER else ULONGLONG_MAX) mod 100 in
  r ← digits (Nat.min INIT_CNT lim) s 0;
  let '(j, s, miss) := r in
  let lim' := (lim - (Nat.min INIT_CNT lim - miss))%nat in
  let end_i_and_j := f ← lfactor (Nat.min INIT_CNT lim - miss); Some (signed negative (i * f + j), error) in
  let end3 := Some (signed negative (i * LFACTOR + j), error) in
  if negb (Nat.eqb miss 0) then end_i_and_j
  else if Nat.eqb lim' 0 then if Nat.ltb lim INIT_CNT then end_i_and_j else end3
  else
    c ← head s;
    if negb (is_digit c) then end3
    else
      let k := c - 48 in
      let s := tail s in
      let lim' := pred lim' in
      c ← (if Nat.eqb lim' 0 then Some 0 else head s);
      if Nat.eqb lim' 0 || negb (is_digit c) then
        let li := i * LFACTOR1 + j * 10 + k in
        if negative && (MAX_NEGATIVE_NUMBER <? li) then Some (overflow negative)
        else Some (signed negative li, error)
      else
        let k := k * 10 + (c - 48) in
        let s := tail s in
        let lim' := pred lim' in
        c ← (if Nat.eqb lim' 0 then Some 0 else head s);
        if negb (Nat.eqb lim' 0) && is_digit c then Some (overflow negative)
        else if (cutoff <? i) || ((i =? cutoff) && ((cutoff2 <? j) || ((j =? cutoff2) && (cutoff3 <? k))))
        then Some (overflow negative)
        else Some (to_int64 (Z.of_N (i * LFACTOR2 + j * 100 + k)), error).

(** [my_strtoll10 (nptr, NULL, &error)] *)
Definition my_strtoll10 (nptr : list N) : option (Z * Z) :=
  s ← skip_blank nptr;
  c ← head s;
  if c =? 0 then Some (0%Z, MY_ERRNO_EDOM) else
  let lim := N.to_nat 65535 in
  let negative := c =? 45 in
  let error := if negative then (-1)%Z else 0%Z in
  let (s, lim) := if negative || (c =? 43) then (tail s, pred lim) else (s, lim) in
  c ← head s;
  if c =? 48 then
    z ← pre_zeros (pred lim) (tail s);
    let '(s, lim) := z in
    if Nat.eqb lim 0 then Some (signed negative 0, error) else
    r ← digits (Nat.min INIT_CNT lim) s 0;
    let '(i, s, miss) := r in
    let lim := (lim - (Nat.min INIT_CNT lim - miss))%nat in
    if negb (Nat.eqb miss 0) || Nat.eqb lim 0 then Some (signed negative i, error)
    else strtoll10_rest negative error i s lim
  else if negb (is_digit c) then Some (0%Z, MY_ERRNO_EDOM)
  else
    r ← digits (pred INIT_CNT) (tail s) (c - 48);
    let '(i, s, miss) := r in
    let lim := (lim - 1 - (pred INIT_CNT - miss))%nat in
    if negb (Nat.eqb miss 0) then Some (signed negative i, error)
    else strtoll10_rest negative error i s lim.
