(* ===== verification/SqlNames.v ===== *)
(** * Names in SQL text and the statements for one row

    How Spider writes the names of databases, tables and columns into statements
    (spd_db_conn.cc, spd_db_mysql.cc), the texts a share keeps for its links and
    columns, the SET and WHERE parts of the statement for a changed row, and how
    the lexer of the data node (sql/sql_lex.cc, sql/sql_class.h) reads a name. *)

From Stdlib Require Import ZArith NArith Lia.
From stdpp Require Import base numbers list strings.
From S2P Require Import Prelude.
From S2P Require Import SqlString.
From S2P Require Import SqlEscape.
From S2P Require Import CString.
Local Open Scope spider_scope.
Local Open Scope N_scope.

(** The backquote. *)
Definition name_quote : N := 96.

Definition ER_SPIDER_WRONG_CHARACTER_IN_NAME_NUM : Z := 12611.

Definition is_name_quote (head_code : N) : bool := head_code =? name_quote.

(** An empty string. *)
Definition empty_buf : string_buf := mk_buf [] 0 0 0 false.

(** [str->length (str->length () - n)] *)
Definition drop_last (n : N) : M buf_state unit := set_buf (fun s => s <| str_length := str_length s - n |>).

(** ** Reading *)

Section Lexer.
  Context {C : Charset}.

(** The loop of [scan_ident_delimited]: the number of bytes read and the last of them.
    After the query there is a byte 0. *)
Fixpoint scan_ident_loop (fuel : nat) (quote_char : N) (input : list N) (ptr : nat) : nat * N :=
  match fuel, input with
  | S fuel, c :: input' =>
      if c =? 0 then (S ptr, 0) else
      let var_length := charlen input in
      if (var_length =? 1)%Z then
        if c =? quote_char then
          if default 0 (head input') =? quote_char then scan_ident_loop fuel quote_char (tail input') (ptr + 2) else (S ptr, c)
        else scan_ident_loop fuel quote_char input' (S ptr)
      else if (1 <? var_length)%Z then
        scan_ident_loop fuel quote_char (drop (Z.to_nat var_length) input) (ptr + Z.to_nat var_length)
      else scan_ident_loop fuel quote_char input' (S ptr)
  | _, _ => (S ptr, 0)
  end.

(** The name between the quotes, and what is after it. *)
Definition scan_ident_delimited (tok : list N) : list N * list N :=
  let quote_char := default 0 (head tok) in
  let r := scan_ident_loop (length tok) quote_char (drop 1 tok) 1 in
  (take (r.1 - 2) (drop 1 tok), drop (if r.2 =? quote_char then r.1 else r.1 - 1) tok).
End Lexer.

Fixpoint quote_unescape (src : list N) (quote : N) : list N :=
  match src with
  | [] => []
  | b :: src => b :: (if b =? quote then match src with [] => [] | _ :: src => quote_unescape src quote end else quote_unescape src quote)
  end.

(** ** Writing *)

Section Names.
  Context {H : Heap}.

Definition append_name (name : list N) : M buf_state unit :=
  q_append [name_quote];; q_append name;; q_append [name_quote].

Definition append_escaped_name_quote : M buf_state Z :=
  e ← reserve 2;
  if (e : bool) then mret HA_ERR_OUT_OF_MEM else
  q_append [name_quote];; q_append [name_quote];; mret 0%Z.

(** [spider_db_append_name_with_quote_str] of a name in the character set of the
    string; the character set of the server is utf8. *)
Fixpoint append_name_loop (fuel : nat) (name : list N) : M buf_state Z :=
  match fuel, name with
  | S fuel, head_code :: _ =>
      let length := my_charlen_utf8 name in
      if (length <? 1)%Z then mret ER_SPIDER_WRONG_CHARACTER_IN_NAME_NUM else
      (if (length =? 1)%Z && is_name_quote head_code then append_escaped_name_quote
       else e ← append_cs (take (Z.to_nat length) name); mret (if (e : bool) then HA_ERR_OUT_OF_MEM else 0%Z))
      &&; append_name_loop fuel (drop (Z.to_nat length) name)
  | _, _ => mret 0%Z
  end.

Definition spider_db_append_name_with_quote_str (name : list N) : M buf_state Z := append_name_loop (length name) name.

Definition append_table_name (db_nm table_nm : list N) : M buf_state Z :=
  e ← reserve (uint32 (N.of_nat (length db_nm) + 1 + N.of_nat (length table_nm) + 4));
  if (e : bool) then mret HA_ERR_OUT_OF_MEM else
  append_name db_nm;; q_append (bytes ".");; append_name table_nm;; mret 0%Z.

(** ** The names of the links *)

(** The names of the tables of the links. *)
Record link_names := mk_link_names {
  tgt_table_names : list (list N);
  tgt_dbs : list (list N);
  sql_dbton_ids : list N }.

(** The texts kept for the links. *)
Record name_strs := mk_name_strs {
  table_names_str : list string_buf;
  db_names_str : list string_buf;
  db_table_str : list string_buf;
  same_db_table_name : bool;
  first_all_link_idx : Z;
  table_nm_max_length : N;
  db_nm_max_length : N }.

#[export] Instance eta_name_strs : Eta name_strs := fun s =>
  mk_name_strs (table_names_str s) (db_names_str s) (db_table_str s) (same_db_table_name s) (first_all_link_idx s)
    (table_nm_max_length s) (db_nm_max_length s).

(** One name of a link: a copy of that of the first link ([true]) or its own. *)
Definition link_name_str (copied : bool) (first_str : string_buf) (name : list N) : M buf_state (Z + string_buf) :=
  if copied then
    r ← on_buf empty_buf (copy (contents first_str));
    mret (if (r.1 : bool) then inl HA_ERR_OUT_OF_MEM else inr r.2)
  else
    r ← on_buf empty_buf (spider_db_append_name_with_quote_str name);
    mret (if (r.1 =? 0)%Z then inr r.2 else inl r.1).

(** The longest text of a name: [max_length] after link [i]. *)
Definition new_max (i : nat) (copied : bool) (len max_length : N) : N :=
  if copied then max_length else if (i =? 0)%nat then len else if max_length <? len then len else max_length.

(** A round of [create_table_names_str]. *)
Definition link_names_str (dbton_id : N) (L : link_names) (i : nat) (ns : name_strs) : M buf_state (Z + name_strs) :=
  id ← lift_opt (fun _ => sql_dbton_ids L !! i);
  if negb (id =? dbton_id) then mret (inr ns) else
  let ns := if (first_all_link_idx ns =? -1)%Z then ns <| first_all_link_idx := Z.of_nat i |> else ns in
  name ← lift_opt (fun _ => tgt_table_names L !! i); first ← lift_opt (fun _ => tgt_table_names L !! 0%nat);
  first_str ← lift_opt (fun _ => table_names_str ns !! 0%nat);
  let copied := negb (i =? 0)%nat && same_db_table_name ns && bool_decide (name = first) in
  r ← link_name_str copied first_str name;
  match r with
  | inl e => mret (inl e)
  | inr str =>
      let ns := ns <| table_names_str ::= fun l => <[i := str]> l |> <| same_db_table_name ::= fun b => b && (copied || (i =? 0)%nat) |>
                   <| table_nm_max_length ::= new_max i copied (str_length str) |> in
      name ← lift_opt (fun _ => tgt_dbs L !! i); first ← lift_opt (fun _ => tgt_dbs L !! 0%nat);
      first_str ← lift_opt (fun _ => db_names_str ns !! 0%nat);
      let copied := negb (i =? 0)%nat && same_db_table_name ns && bool_decide (name = first) in
      r ← link_name_str copied first_str name;
      match r with
      | inl e => mret (inl e)
      | inr dbstr =>
          let ns := ns <| db_names_str ::= fun l => <[i := dbstr]> l |> <| same_db_table_name ::= fun b => b && (copied || (i =? 0)%nat) |>
                       <| db_nm_max_length ::= new_max i copied (str_length dbstr) |> in
          first_str ← lift_opt (fun _ => db_table_str ns !! 0%nat);
          r ← (if negb (i =? 0)%nat && same_db_table_name ns then
                 r ← on_buf empty_buf (copy (contents first_str)); mret (if (r.1 : bool) then HA_ERR_OUT_OF_MEM else 0%Z, r.2)
               else on_buf empty_buf (append_table_name (contents dbstr) (contents str)));
          mret (if (r.1 =? 0)%Z then inr (ns <| db_table_str ::= fun l => <[i := r.2]> l |>) else inl r.1)
      end
  end.

Fixpoint link_rounds (dbton_id : N) (L : link_names) (idxs : list nat) (ns : name_strs) : M buf_state (Z + name_strs) :=
  match idxs with
  | [] => mret (inr ns)
  | i :: idxs =>
      r ← link_names_str dbton_id L i ns;
      match r with inl e => mret (inl e) | inr ns => link_rounds dbton_id L idxs ns end
  end.

(** [create_table_names_str]: an error, after which there are no texts, or the texts. *)
Definition create_table_names_str (dbton_id : N) (L : link_names) : M buf_state (Z + name_strs) :=
  let n := length (sql_dbton_ids L) in
  t ← new_bytes 0;
  d ← (match t with Some _ => new_bytes 0 | None => mret None end);
  dt ← (match d with Some _ => new_bytes 0 | None => mret None end);
  match dt with
  | None => mret (inl HA_ERR_OUT_OF_MEM)
  | Some _ => link_rounds dbton_id L (seq 0 n) (mk_name_strs (replicate n empty_buf) (replicate n empty_buf) (replicate n empty_buf) true (-1)%Z 0 0)
  end.
End Names.
