(* ===== verification/SqlUpdate.v ===== *)
(** * The UPDATE statement for one row

    spider_mysql_handler::append_update, append_update_set and append_update_where
    (spd_db_mysql.cc): the statement that changes the row with given values, and
    set_sql_for_exec, which writes the table name of another link over that of the
    first one. *)

From Stdlib Require Import ZArith NArith Lia.
From stdpp Require Import base numbers list strings.
From S2P Require Import Prelude.
From S2P Require Import SqlString.
From S2P Require Import SqlEscape.
From S2P Require Import CString.
From S2P Require Import SqlNames.
Local Open Scope spider_scope.
Local Open Scope N_scope.

(** A key: is it unique, and the fields of its parts. *)
Record key_info := mk_key_info {
  nosame : bool;
  key_parts : list nat }.

(** [primary_key]: [None] is MAX_KEY. *)
Record TABLE := mk_table {
  fields : list Field;
  keys : list key_info;
  primary_key : option nat;
  read_set : nat -> bool;
  write_set : nat -> bool }.

(** A row: the text of each field, [None] for NULL. *)
Definition row := nat -> option (list N).

(** What a handler knows when it writes a statement. *)
Record upd_env := mk_upd_env {
  column_name_str : list (list N);
  names : name_strs;
  conn_link_idx : list nat;
  first_link_idx : nat;
  low_priority : bool;
  ignore_dup_key : bool;
  insert_with_update : bool;
  update_with_primary_key_first : bool }.

Section Update.
  Context {C : Charset} {H : Heap} (U : upd_env).

Definition append_column_name (field_index : nat) : M buf_state unit :=
  name ← lift_opt (fun _ => column_name_str U !! field_index);
  append_name name.

Definition column_name_length (field_index : nat) : M buf_state N :=
  name ← lift_opt (fun _ => column_name_str U !! field_index);
  mret (N.of_nat (length name)).

(** [append_table_name_with_adjusting]: the name, and blanks up to the length of the
    longest one. *)
Definition append_table_name_with_adjusting (link_idx : nat) : M buf_state unit :=
  all_link_idx ← lift_opt (fun _ => conn_link_idx U !! link_idx);
  db_nm ← lift_opt (fun _ => contents <$> db_names_str (names U) !! all_link_idx);
  table_nm ← lift_opt (fun _ => contents <$> table_names_str (names U) !! all_link_idx);
  append_name db_nm;; q_append (bytes ".");; append_name table_nm;;
  let length := Z.to_N ((Z.of_N (db_nm_max_length (names U)) - Z.of_nat (length db_nm) +
                         Z.of_N (table_nm_max_length (names U)) - Z.of_nat (length table_nm)) mod 2 ^ 32) in
  q_append (replicate (N.to_nat length) 32).

(** [append_update (str, link_idx)]; the result is [table_name_pos]. *)
Definition append_update_head (link_idx : nat) : M buf_state (Z + N) :=
  e ← reserve 7;
  if (e : bool) then mret (inl HA_ERR_OUT_OF_MEM) else
  q_append (bytes "update ");;
  e ← (if low_priority U then e ← reserve 13; if (e : bool) then mret true else q_append (bytes "low_priority ");; mret false
       else mret false);
  if (e : bool) then mret (inl HA_ERR_OUT_OF_MEM) else
  e ← (if ignore_dup_key U && negb (insert_with_update U) then
         e ← reserve 7; if (e : bool) then mret true else q_append (bytes "ignore ");; mret false
       else mret false);
  if (e : bool) then mret (inl HA_ERR_OUT_OF_MEM) else
  e ← reserve (uint32 (db_nm_max_length (names U) + 1 + table_nm_max_length (names U) + 4));
  if (e : bool) then mret (inl HA_ERR_OUT_OF_MEM) else
  table_name_pos ← get_buf str_length;
  append_table_name_with_adjusting link_idx;;
  mret (inr table_name_pos).

(** A field of [append_update_set]. *)
Definition append_set_field (t : TABLE) (r : row) (f : Field) : M buf_state Z :=
  if negb (write_set t (field_index f)) then mret 0%Z else
  n ← column_name_length (field_index f);
  match r (field_index f) with
  | None =>
      e ← reserve (uint32 (n + 2 + 3 + 4 + 1));
      if (e : bool) then mret HA_ERR_OUT_OF_MEM else
      append_column_name (field_index f);; q_append (bytes " = ");; q_append (bytes "null");;
      q_append (bytes ",");; mret 0%Z
  | Some v =>
      e ← reserve (uint32 (n + 2 + 3));
      if (e : bool) then mret HA_ERR_OUT_OF_MEM else
      append_column_name (field_index f);; q_append (bytes " = ");;
      e ← append_column_value f (fun _ => v) None false;
      if negb (e =? 0)%Z then mret HA_ERR_OUT_OF_MEM else
      e ← reserve 1;
      if (e : bool) then mret HA_ERR_OUT_OF_MEM else
      q_append (bytes ",");; mret 0%Z
  end.

Fixpoint append_set_fields (t : TABLE) (r : row) (fs : list Field) : M buf_state Z :=
  match fs with
  | [] => mret 0%Z
  | f :: fs => append_set_field t r f &&; append_set_fields t r fs
  end.

Definition append_update_set (t : TABLE) (r : row) : M buf_state Z :=
  e ← reserve 5;
  if (e : bool) then mret HA_ERR_OUT_OF_MEM else
  q_append (bytes " set ");;
  append_set_fields t r (fields t) &&; (drop_last 1;; mret 0%Z).

Definition field_is_primary_or_unique_key (t : TABLE) (f : Field) : bool :=
  let in_key k := existsb (Nat.eqb (field_index f)) (key_parts k) in
  from_option (fun i => from_option in_key false (keys t !! i)) false (primary_key t) ||
  existsb (fun k => nosame k && in_key k) (keys t).

(** Is the field compared? *)
Definition in_where (t : TABLE) (f : Field) : bool :=
  let table_has_unique_key := bool_decide (primary_key t <> None) || existsb nosame (keys t) in
  negb table_has_unique_key ||
  (update_with_primary_key_first U && field_is_primary_or_unique_key t f) ||
  (negb (update_with_primary_key_first U) && read_set t (field_index f)).

Definition is_real (f : Field) : bool := (type f =? MYSQL_TYPE_FLOAT) || (type f =? MYSQL_TYPE_DOUBLE).

(** A field of [append_update_where]; [old] is the row before the change. *)
Definition append_where_field (t : TABLE) (old : row) (f : Field) : M buf_state Z :=
  if negb (in_where t f) then mret 0%Z else
  n ← column_name_length (field_index f);
  match old (field_index f) with
  | None =>
      e ← reserve (uint32 (n + 2 + 8 + 5));
      if (e : bool) then mret HA_ERR_OUT_OF_MEM else
      append_column_name (field_index f);; q_append (bytes " is null");;
      q_append (bytes " and ");; mret 0%Z
  | Some v =>
      e ← reserve (uint32 (n + 2 + 3));
      if (e : bool) then mret HA_ERR_OUT_OF_MEM else
      append_column_name (field_index f);;
      (if is_real f then q_append (bytes " like ") else q_append (bytes " = "));;
      e ← append_column_value f (fun _ => v) None false;
      if negb (e =? 0)%Z then mret HA_ERR_OUT_OF_MEM else
      e ← reserve 5;
      if (e : bool) then mret HA_ERR_OUT_OF_MEM else
      q_append (bytes " and ");; mret 0%Z
  end.

Fixpoint append_where_fields (t : TABLE) (old : row) (fs : list Field) : M buf_state Z :=
  match fs with
  | [] => mret 0%Z
  | f :: fs => append_where_field t old f &&; append_where_fields t old fs
  end.

Definition append_update_where (t : TABLE) (old : row) : M buf_state Z :=
  e ← reserve 7;
  if (e : bool) then mret HA_ERR_OUT_OF_MEM else
  q_append (bytes " where ");;
  append_where_fields t old (fields t) &&;
  (drop_last 5;;
   e ← reserve 8;
   if (e : bool) then mret HA_ERR_OUT_OF_MEM else
   q_append (bytes " limit 1");; mret 0%Z).

(** [append_update (table, ptr_diff)]: the statement of a row after those that are
    there; the result is [table_name_pos]. *)
Definition append_update (t : TABLE) (r old : row) : M buf_state (Z + N) :=
  n ← get_buf str_length;
  e ← (if 0 <? n then e ← reserve 1; if (e : bool) then mret true else q_append (bytes ";");; mret false else mret false);
  if (e : bool) then mret (inl HA_ERR_OUT_OF_MEM) else
  p ← append_update_head 0%nat;
  match p with
  | inl e => mret (inl e)
  | inr table_name_pos =>
      e ← (append_update_set t r &&; append_update_where t old);
      mret (if (e =? 0)%Z then inr table_name_pos else inl e)
  end.

(** The part of [set_sql_for_exec] for UPDATE and DELETE: the text that is executed
    on a link, of [update_sql] and the string kept for the link. *)
Definition set_sql_for_exec (table_name_pos : N) (link_idx : nat) (update_sql : string_buf) : M buf_state (Z + string_buf) :=
  if same_db_table_name (names U) || (link_idx =? first_link_idx U)%nat then mret (inr update_sql) else
  e ← copy (contents update_sql);
  if (e : bool) then mret (inl HA_ERR_OUT_OF_MEM) else
  tmp_pos ← get_buf str_length;
  set_buf (fun s => s <| str_length := table_name_pos |>);;
  append_table_name_with_adjusting link_idx;;
  set_buf (fun s => s <| str_length := tmp_pos |>);;
  s ← get_buf id;
  mret (inr s).
End Update.
