(* ===== verification/KeyWhere.v ===== *)
(** * The condition of an index read

    spider_db_append_key_where_internal (spd_db_conn.cc) writes the WHERE clause of
    the SELECT for an index read: the two ends of a range of key values become
    conditions on the columns of the key.  Modelled for SQL statements; the HANDLER
    statements, which have their own text, and the conditions pushed down by the
    server, which are appended afterwards, are not.

    Which conditions are written does not depend on the text: the loop over the key
    parts is [key_conds], which finds them, followed by [append_conds], which writes
    them. *)

From Stdlib Require Import ZArith NArith Lia.
From stdpp Require Import base numbers list strings.
From S2P Require Import Prelude.
From S2P Require Import SqlString.
From S2P Require Import SqlEscape.
From S2P Require Import CString.
From S2P Require Import SqlNames.
From S2P Require Import SqlUpdate.
Local Open Scope spider_scope.
Local Open Scope N_scope.

Inductive ha_rkey_function :=
  | HA_READ_KEY_EXACT
  | HA_READ_KEY_OR_NEXT
  | HA_READ_KEY_OR_PREV
  | HA_READ_AFTER_KEY
  | HA_READ_BEFORE_KEY
  | HA_READ_PREFIX
  | HA_READ_PREFIX_LAST
  | HA_READ_PREFIX_LAST_OR_PREV
  | HA_READ_MBR_CONTAIN
  | HA_READ_MBR_INTERSECT
  | HA_READ_MBR_WITHIN
  | HA_READ_MBR_DISJOINT
  | HA_READ_MBR_EQUAL.

#[export] Instance rkey_eq : EqDecision ha_rkey_function.
Proof. solve_decision. Defined.

(** [key_seg]: the part covers only a prefix of the column. *)
Record key_part := mk_key_part {
  kp_field : Field;
  store_length : nat;
  null_bit : bool;
  key_seg : bool }.

(** One end of a range: the key image, which parts of the key it has, and what to
    read. *)
Record key_range := mk_key_range {
  kr_key : list N;
  keypart_map : N;
  kr_flag : ha_rkey_function }.

Inductive cmp_op := op_gt | op_ge | op_lt | op_le.

(** A condition on the column of a key part; [ptr] is the key image from the value
    on. *)
Inductive cond :=
  | is_null (kp : key_part)
  | is_not_null (kp : key_part)
  | equal_or_like (kp : key_part) (ptr : list N)
  | equal (kp : key_part) (ptr : list N)
  | compare (kp : key_part) (op : cmp_op) (ptr : list N)
  | mbr (kp : key_part) (function : string) (ptr : list N).

(** The variables of the loop, and the fields of the result list that it sets. *)
Record kw_state := mk_kw {
  start_key_part_map : N;
  end_key_part_map : N;
  set_order : bool;
  key_order : N;
  desc_flg : bool }.

#[export] Instance eta_kw : Eta kw_state := fun s =>
  mk_kw (start_key_part_map s) (end_key_part_map s) (set_order s) (key_order s) (desc_flg s).

(** [if (!set_order) { result_list->key_order = key_count; set_order = TRUE; }] *)
Definition order_from (key_count : N) (s : kw_state) : kw_state :=
  if set_order s then s else s <| key_order := key_count |> <| set_order := true |>.

(** [append_is_null]: the condition for a NULL in the key, if there is one, and the
    key image after the NULL byte. *)
Definition append_is_null (kp : key_part) (flag : ha_rkey_function) (ptr : list N) (key_eq : bool) : option (option cond * list N) :=
  if null_bit kp then
    match ptr with
    | [] => None
    | b :: ptr =>
        Some (if b =? 0 then None
              else Some (if key_eq || bool_decide (flag = HA_READ_KEY_EXACT) || bool_decide (flag = HA_READ_KEY_OR_NEXT) then is_null kp else is_not_null kp),
              ptr)
    end
  else Some (None, ptr).

(** The condition for the start of the range. *)
Definition start_cond (kp : key_part) (flag : ha_rkey_function) (ptr : list N) (use_both key_eq : bool) (key_count : N) (s : kw_state)
    : option (cond * kw_state) :=
  '(c, ptr) ← append_is_null kp flag ptr key_eq;
  let cut s := if use_both : bool then s <| start_key_part_map := 0 |> else s in
  Some match c with
  | Some c => (c, if bool_decide (flag = HA_READ_KEY_EXACT) then s else order_from key_count s)
  | None =>
      if key_eq then (equal_or_like kp ptr, s) else
      match flag with
      | HA_READ_PREFIX_LAST => (equal_or_like kp ptr, s <| desc_flg := true |>)
      | HA_READ_KEY_EXACT => (equal_or_like kp ptr, s)
      | HA_READ_AFTER_KEY => (compare kp op_gt ptr, order_from key_count (cut s))
      | HA_READ_BEFORE_KEY => (compare kp op_lt ptr, order_from key_count (cut (s <| desc_flg := true |>)))
      | HA_READ_KEY_OR_PREV | HA_READ_PREFIX_LAST_OR_PREV => (compare kp op_le ptr, order_from key_count (s <| desc_flg := true |>))
      | HA_READ_MBR_CONTAIN => (mbr kp "mbrcontains(" ptr, s)
      | HA_READ_MBR_INTERSECT => (mbr kp "mbrintersects(" ptr, s)
      | HA_READ_MBR_WITHIN => (mbr kp "mbrwithin(" ptr, s)
      | HA_READ_MBR_DISJOINT => (mbr kp "mbrdisjoint(" ptr, s)
      | HA_READ_MBR_EQUAL => (mbr kp "mbrequal(" ptr, s)
      | HA_READ_KEY_OR_NEXT | HA_READ_PREFIX => (compare kp op_ge ptr, order_from key_count s)
      end
  end.

(** The condition for the end of the range. *)
Definition end_cond (kp : key_part) (flag : ha_rkey_function) (ptr : list N) (use_both key_eq : bool) (key_count : N) (s : kw_state)
    : option (cond * kw_state) :=
  '(c, ptr) ← append_is_null kp flag ptr key_eq;
  Some match c with
  | Some c => (c, if bool_decide (flag = HA_READ_KEY_EXACT) then s else order_from key_count s)
  | None =>
      if key_eq then (equal kp ptr, s) else
      match flag with
      | HA_READ_BEFORE_KEY => (compare kp op_lt ptr, order_from key_count (if use_both : bool then s <| end_key_part_map := 0 |> else s))
      | _ => (compare kp op_le ptr, order_from key_count s)
      end
  end.

(** The conditions for one part of the key. *)
Definition part_conds (kp : key_part) (start_key end_key : option key_range) (use_start use_both : bool) (tgt_key_part_map : N) (length : nat)
    (key_count : N) (s : kw_state) : option (list cond * kw_state) :=
  key_eq ← (if use_both : bool then
              if negb (start_key_part_map s =? 0) && negb (end_key_part_map s =? 0) then
                k1 ← start_key; k2 ← end_key;
                b1 ← key_bytes (kr_key k1) length (store_length kp); b2 ← key_bytes (kr_key k2) length (store_length kp);
                Some (bool_decide (b1 = b2))
              else Some false
            else Some (1 <? tgt_key_part_map));
  '(cs1, s) ← (if (key_eq && use_start) || (negb key_eq && negb (start_key_part_map s =? 0)) then
                 k ← start_key; '(c, s) ← start_cond kp (kr_flag k) (drop length (kr_key k)) use_both key_eq key_count s; Some ([c], s)
               else Some ([], s));
  '(cs2, s) ← (if (key_eq && negb use_start) || (negb key_eq && negb (end_key_part_map s =? 0)) then
                 k ← end_key; '(c, s) ← end_cond kp (kr_flag k) (drop length (kr_key k)) use_both key_eq key_count s; Some ([c], s)
               else Some ([], s));
  Some (cs1 ++ cs2, s).

(** The loop over the parts of the key: the conditions, [key_count] and the state after
    it. *)
Fixpoint key_conds (parts : list key_part) (start_key end_key : option key_range) (use_start use_both : bool) (tgt_key_part_map : N) (length : nat)
    (key_count : N) (s : kw_state) : option (list cond * N * kw_state) :=
  if tgt_key_part_map =? 0 then Some ([], key_count, s) else
  match parts with
  | [] => None
  | kp :: parts =>
      '(cs, s) ← part_conds kp start_key end_key use_start use_both tgt_key_part_map length key_count s;
      if use_both && ((start_key_part_map s =? 0) || (end_key_part_map s =? 0)) then Some (cs, key_count, s) else
      '(cs', n, s) ← key_conds parts start_key end_key use_start use_both (N.shiftr tgt_key_part_map 1) (length + store_length kp) (key_count + 1)
                       (s <| start_key_part_map ::= fun m => N.shiftr m 1 |> <| end_key_part_map ::= fun m => N.shiftr m 1 |>);
      Some (cs ++ cs', n, s)
  end.

(** ** Writing *)

Definition op_text (op : cmp_op) : list N :=
  match op with op_gt => bytes " > " | op_ge => bytes " >= " | op_lt => bytes " < " | op_le => bytes " <= " end.

Section Where.
  Context {C : Charset} {H : Heap} (U : upd_env) (val_str : Field -> option (list N) -> list N) (string_key_equal_to_like : bool).

(** [append_key_equal_or_like]: is it LIKE? *)
Definition is_like (kp : key_part) : bool := string_result (kp_field kp) && string_key_equal_to_like && key_seg kp.

(** A column, an operator and a value, for which [room] bytes are reserved besides the
    name. *)
Definition append_compare (kp : key_part) (room : N) (op : M buf_state bool) (like : bool) (ptr : list N) : M buf_state Z :=
  let f := kp_field kp in
  n ← column_name_length U (field_index f);
  e ← reserve (uint32 (N.of_nat (store_length kp) + n + 2 + room));
  if (e : bool) then mret HA_ERR_OUT_OF_MEM else
  append_column_name U (field_index f);;
  e ← op;
  if (e : bool) then mret HA_ERR_OUT_OF_MEM else
  e ← append_column_value f (val_str f) (Some ptr) like;
  mret (if (e =? 0)%Z then 0%Z else HA_ERR_OUT_OF_MEM).

Definition append_cond (c : cond) : M buf_state Z :=
  match c with
  | is_null kp =>
      n ← column_name_length U (field_index (kp_field kp));
      e ← reserve (uint32 (8 + 2 + n));
      if (e : bool) then mret HA_ERR_OUT_OF_MEM else
      append_column_name U (field_index (kp_field kp));; q_append (bytes " is null");; mret 0%Z
  | is_not_null kp =>
      n ← column_name_length U (field_index (kp_field kp));
      e ← reserve (uint32 (12 + 2 + n));
      if (e : bool) then mret HA_ERR_OUT_OF_MEM else
      append_column_name U (field_index (kp_field kp));; q_append (bytes " is not null");; mret 0%Z
  | equal_or_like kp ptr => append_compare kp 0 (append (if is_like kp then bytes " like " else bytes " = ")) (is_like kp) ptr
  | equal kp ptr => append_compare kp 8 (q_append (bytes " = ");; mret false) false ptr
  | compare kp op ptr => append_compare kp (N.of_nat (length (op_text op))) (q_append (op_text op);; mret false) false ptr
  | mbr kp function ptr =>
      let f := kp_field kp in
      e ← reserve (N.of_nat (length (bytes function)));
      if (e : bool) then mret HA_ERR_OUT_OF_MEM else
      q_append (bytes function);;
      e ← append_column_value f (val_str f) (Some ptr) false;
      if negb (e =? 0)%Z then mret HA_ERR_OUT_OF_MEM else
      n ← column_name_length U (field_index f);
      e ← reserve (uint32 (1 + n + 2 + 1));
      if (e : bool) then mret HA_ERR_OUT_OF_MEM else
      q_append (bytes ",");; append_column_name U (field_index f);; q_append (bytes ")");; mret 0%Z
  end.

(** The conditions, with AND after each. *)
Fixpoint append_conds (cs : list cond) : M buf_state Z :=
  match cs with
  | [] => mret 0%Z
  | c :: cs =>
      append_cond c &&;
      (e ← reserve 5; if (e : bool) then mret HA_ERR_OUT_OF_MEM else q_append (bytes " and ");; mret 0%Z) &&;
      append_conds cs
  end.

(** [spider_db_append_key_where_internal] for SQL statements; [parts] are the parts of
    the key, none without a key.  The result is the error, or the fields of the result
    list, which were [key_ord], [desc] and [both]: [key_order], [desc_flg] and
    [use_both_key]. *)
Definition spider_db_append_key_where_internal (parts : list key_part) (start_key end_key : option key_range) (set_ord : bool)
    (key_ord : N) (desc both : bool) : M buf_state (Z + N * bool * bool) :=
  let full_key_part_map := N.ones (N.of_nat (length parts)) in
  let part_map k := from_option (fun k => N.land (keypart_map k) full_key_part_map) 0 k in
  let use_both := bool_decide (start_key <> None) && bool_decide (end_key <> None) in
  let start_map := part_map start_key in
  let end_map := part_map end_key in
  if ((start_map =? 0) && (end_map =? 0)) || (use_both && ((start_map =? 0) || (end_map =? 0))) then mret (inr (0, desc, both)) else
  let use_start := end_map <=? start_map in
  let both := both || (start_map =? end_map) in
  e ← reserve 7;
  if (e : bool) then mret (inl HA_ERR_OUT_OF_MEM) else
  q_append (bytes " where ");;
  r ← lift_opt (fun _ => key_conds parts start_key end_key use_start use_both (if use_start then start_map else end_map) 0 0
                           (mk_kw start_map end_map set_ord key_ord desc));
  let '(cs, key_count, s) := r in
  e ← append_conds cs;
  if negb (e =? 0)%Z then mret (inl e) else
  drop_last 5;;
  mret (inr (if set_order s then key_order s else key_count, desc_flg s, both)).
End Where.
