(* ===== verification/EscapeTheorems.v ===== *)
(** * Values in SQL text are read back

    The value that Spider writes into a statement is the value that the lexer of the
    data node takes out of it, for every value and every character set with the
    laws of [CharsetOk], of which utf8, utf8mb4, gbk and the 8-bit sets are
    instances; and what happens when the data node does not know backslashes. *)

From Stdlib Require Import ZArith NArith Lia.
From stdpp Require Import base numbers list.
From S2P Require Import Prelude.
From S2P Require Import SqlString.
From S2P Require Import SqlEscape.
Local Open Scope spider_scope.
Local Open Scope N_scope.

(** ** The character sets *)

Lemma continuation_high c : is_continuation_byte c = true -> 128 <= c.
Proof.
  unfold is_continuation_byte. rewrite N.ltb_lt. intros H. destruct (N.le_gt_cases 128 c) as [|Hc]; [done|].
  assert (E : N.testbit (N.lxor c 128) 7 = true).
  { rewrite N.lxor_spec. change (N.testbit 128 7) with true. replace (N.testbit c 7) with false; [done|].
    destruct (decide (c = 0)) as [->|Hz]; [done|]. symmetry. apply N.bits_above_log2.
    apply N.log2_lt_pow2; [lia|done]. }
  destruct (decide (N.lxor c 128 = 0)) as [E0|E0]; [by rewrite E0 in E|].
  rewrite N.bits_above_log2 in E; [done|]. apply N.log2_lt_pow2; [lia|]. change (2 ^ 7) with 128. lia.
Qed.

#[local] Arguments my_valid_mbcharlen_utf8mb3 : simpl never.

Lemma utf8mb3_multi s t : (1 < my_valid_mbcharlen_utf8mb3 s)%Z ->
  (Z.to_nat (my_valid_mbcharlen_utf8mb3 s) <= length s)%nat /\
  my_valid_mbcharlen_utf8mb3 (take (Z.to_nat (my_valid_mbcharlen_utf8mb3 s)) s ++ t) = my_valid_mbcharlen_utf8mb3 s /\
  Forall (fun b => 128 <= b) (take (Z.to_nat (my_valid_mbcharlen_utf8mb3 s)) s).
Proof.
  unfold my_valid_mbcharlen_utf8mb3, MY_CS_ILSEQ, MY_CS_TOOSMALLN. intros H. destruct s as [|c s]; [done|].
  destruct (c <? 128) eqn:E1; [done|]. destruct (c <? 194) eqn:E2; [done|]. apply N.ltb_ge in E1. destruct (c <? 224) eqn:E3.
  - destruct s as [|s1 s]; [done|]. destruct (is_continuation_byte s1) eqn:E4; [|done]. simpl. rewrite E2, E3, E4.
    apply N.ltb_ge in E1 as E1'. rewrite E1'. apply continuation_high in E4. rewrite take_0.
    split_and!; [lia|done|by repeat constructor].
  - destruct s as [|s1 [|s2 s]]; [done..|]. destruct (_ && _ && _) eqn:E4; [|done]. simpl. rewrite E2, E3, E4.
    apply N.ltb_ge in E1 as E1'. rewrite E1'. rewrite !andb_true_iff in E4. destruct E4 as [[E4 E5] _].
    apply continuation_high in E4, E5. rewrite take_0. split_and!; [lia|done|by repeat constructor].
Qed.

Lemma utf8mb3_single b s : my_valid_mbcharlen_utf8mb3 (b :: s) = 1%Z <-> b < 128.
Proof.
  unfold my_valid_mbcharlen_utf8mb3, MY_CS_ILSEQ, MY_CS_TOOSMALLN. destruct (N.ltb_spec b 128); [done|]. split; [|lia].
  destruct (b <? 194); [done|]. destruct (b <? 224).
  - destruct s as [|s1 s]; [done|]. by destruct (is_continuation_byte s1).
  - destruct s as [|s1 [|s2 s]]; [done..|]. by destruct (_ && _ && _).
Qed.

(** The characters of more than one byte of a character set like utf8. *)
Definition high_chars (C : Charset) : Prop :=
  forall s, (1 < charlen s)%Z -> Forall (fun b => 128 <= b) (take (Z.to_nat (charlen s)) s).

Lemma high_not C s b : high_chars C -> b < 128 -> (1 < charlen s)%Z -> b ∉ take (Z.to_nat (charlen s)) s.
Proof. intros Hh Hb Hs Hin. specialize (Hh s Hs). rewrite Forall_forall in Hh. specialize (Hh b Hin). simpl in Hh. lia. Qed.

Lemma utf8_high : high_chars utf8.
Proof. intros [|c s]; simpl; [done|]. destruct (c <? 240); [|done]. intros H. by destruct (utf8mb3_multi _ [] H) as (_ & _ & Hh). Qed.

#[export] Instance utf8_ok : CharsetOk utf8.
Proof.
  split; simpl.
  - intros b s Hb. destruct (N.ltb_spec b 240); [by apply utf8mb3_single|lia].
  - intros b s t. destruct (b <? 240); [|done]. by rewrite !utf8mb3_single.
  - intros [|c s] t; simpl; [done|]. destruct (c <? 240) eqn:E; [|done]. intros H. destruct (utf8mb3_multi _ t H) as (H1 & H2 & _).
    split; [done|]. destruct (Z.to_nat _) eqn:En; [lia|]. simpl in *. by rewrite E.
  - intros s H. by apply (high_not utf8); [apply utf8_high| |].
  - done.
Qed.

Lemma utf8mb4_multi s t : (1 < my_charlen_utf8mb4 s)%Z ->
  (Z.to_nat (my_charlen_utf8mb4 s) <= length s)%nat /\
  my_charlen_utf8mb4 (take (Z.to_nat (my_charlen_utf8mb4 s)) s ++ t) = my_charlen_utf8mb4 s /\
  Forall (fun b => 128 <= b) (take (Z.to_nat (my_charlen_utf8mb4 s)) s).
Proof.
  unfold my_charlen_utf8mb4, MY_CS_ILSEQ, MY_CS_TOOSMALLN. intros H. destruct s as [|c s]; [done|]. destruct (c <? 240) eqn:E1.
  - destruct (utf8mb3_multi _ t H) as (H1 & H2 & H3). split; [done|split; [|done]].
    destruct (Z.to_nat _) eqn:En; [lia|]. simpl in *. by rewrite E1.
  - destruct (c <? 245) eqn:E2; [|done]. destruct s as [|s1 [|s2 [|s3 s]]]; [done..|]. destruct (_ && _ && _ && _ && _) eqn:E3; [|done].
    simpl. rewrite E1, E2, E3, take_0. apply N.ltb_ge in E1. rewrite !andb_true_iff in E3. destruct E3 as [[[[E3 E4] E5] _] _].
    apply continuation_high in E3, E4, E5. split_and!; [lia|done|]. repeat constructor; (done || lia).
Qed.

Lemma utf8mb4_high : high_chars utf8mb4.
Proof. intros s H. by destruct (utf8mb4_multi _ [] H) as (_ & _ & Hh). Qed.

#[export] Instance utf8mb4_ok : CharsetOk utf8mb4.
Proof.
  split.
  - intros b s Hb. simpl. destruct (N.ltb_spec b 240); [by apply utf8mb3_single|lia].
  - intros b s t. simpl. destruct (b <? 240); [by rewrite !utf8mb3_single|]. destruct (b <? 245); [|done].
    destruct s as [|s1 [|s2 [|s3 s]]]; [done..|]. by destruct (_ && _ && _ && _ && _).
  - intros s t H. by destruct (utf8mb4_multi _ t H) as (H1 & H2 & _).
  - intros s H. by apply (high_not utf8mb4); [apply utf8mb4_high| |].
  - done.
Qed.

#[export] Instance gbk_ok : CharsetOk gbk.
Proof.
  split; simpl.
  - intros b s Hb. by destruct (N.ltb_spec b 128); [|lia].
  - intros b s t. destruct (b <? 128); [done|]. destruct s as [|b1 s]; [done|]. by destruct (isgbkcode b b1).
  - intros [|b s] t; simpl; [done|]. destruct (b <? 128) eqn:E; [done|]. destruct s as [|b1 s]; [done|].
    destruct (isgbkcode b b1) eqn:E1; [|done]. simpl. rewrite E, E1. intros _. split; [lia|done].
  - intros [|b s]; simpl; [done|]. destruct (N.ltb_spec b 128); [done|]. destruct s as [|b1 s]; [done|].
    destruct (isgbkcode b b1) eqn:E1; [|done]. simpl. rewrite take_0. intros _ Hin. unfold isgbkcode in E1.
    rewrite !elem_of_cons, elem_of_nil in Hin. destruct Hin as [<-|[<-|[]]]; [lia|]. by rewrite andb_false_r in E1.
  - done.
Qed.

#[export] Instance latin1_ok : CharsetOk latin1.
Proof. by split; simpl; intros []. Qed.

(** ** Escaped text *)

Section Escape.
  Context {C : Charset} {COk : CharsetOk C}.

(** [t] is [v] with its characters escaped one by one. *)
Inductive esc : list N -> list N -> Prop :=
  | esc_nil : esc [] []
  | esc_multi s t : use_mb = true -> (1 < charlen s)%Z -> esc (drop (Z.to_nat (charlen s)) s) t ->
      esc s (take (Z.to_nat (charlen s)) s ++ t)
  | esc_byte b e s t : escape_of b = Some e \/ (128 <= b /\ e = b) -> esc s t -> esc (b :: s) (92 :: e :: t)
  | esc_plain b s t : charlen (b :: s) = 1%Z -> escape_of b = None -> esc s t -> esc (b :: s) (b :: t).

(** The escaped text of a value. *)
Definition escaped (v : list N) : list N := (escape_loop (length v) (2 * length v) v).1.

(** There is always room, and the loop ends. *)
Lemma escape_loop_esc fuel room v : (length v <= fuel)%nat -> (2 * length v <= room)%nat ->
  esc v (escape_loop fuel room v).1 /\ (escape_loop fuel room v).2 = false /\ (length (escape_loop fuel room v).1 <= 2 * length v)%nat.
Proof.
  revert room v. induction fuel as [|fuel IH]; intros room v Hf Hr; (destruct v as [|b v]; [simpl; split; [constructor|done]|]); simpl in Hf; [lia|].
  cbn [escape_loop]. set (l := if use_mb then charlen (b :: v) else 1%Z).
  assert (Hl : l = charlen (b :: v)) by (unfold l; destruct use_mb eqn:E; [done|by rewrite no_mb]).
  destruct (Z.ltb_spec 1 l).
  - assert (Hmb : use_mb = true) by (unfold l in *; destruct use_mb; [done|lia]). destruct (multi_stable (b :: v) []) as [Hlen _]; [lia|].
    rewrite Hl in *. destruct (Nat.ltb_spec room (Z.to_nat (charlen (b :: v)))); [simpl in *; lia|].
    destruct (IH (room - Z.to_nat (charlen (b :: v)))%nat (drop (Z.to_nat (charlen (b :: v))) (b :: v))) as (H1 & H2 & H3);
      [rewrite length_drop; simpl in *; lia..|].
    cbn [fst snd]. split; [by apply esc_multi|split; [done|]].
    rewrite length_app, length_take. rewrite length_drop in H3. simpl in *. lia.
  - destruct (if (l <? 1)%Z then _ else _) as [e|] eqn:Ee.
    + destruct (Nat.ltb_spec room 2); [simpl in *; lia|]. destruct (IH (room - 2)%nat v) as (H1 & H2 & H3); [simpl in *; lia..|].
      cbn [fst snd]. split; [|split; [done|simpl in *; lia]]. apply esc_byte; [|done]. destruct (Z.ltb_spec l 1); [right|by left].
      destruct (N.eqb_spec b 0); [done|]. injection Ee as <-. split; [|done].
      destruct (N.le_gt_cases 128 b) as [|Hb]; [done|]. pose proof (ascii_single b v Hb). lia.
    + destruct (Nat.ltb_spec room 1); [simpl in *; lia|]. destruct (IH (room - 1)%nat v) as (H1 & H2 & H3); [simpl in *; lia..|].
      cbn [fst snd]. destruct (Z.ltb_spec l 1) as [Hl1|].
      { destruct (N.eqb_spec b 0) as [->|]; [|done]. rewrite Hl, ascii_single in Hl1; [lia|done]. }
      split; [apply esc_plain; [lia|done|done]|split; [done|simpl in *; lia]].
Qed.

Lemma escaped_esc v : esc v (escaped v).
Proof. by apply escape_loop_esc. Qed.

Lemma escape_string_eq v : escape_string_for_mysql v = (escaped v ++ [0], N.of_nat (length (escaped v))).
Proof. unfold escape_string_for_mysql, escaped. by destruct (escape_loop_esc (length v) (2 * length v) v) as (_ & -> & _). Qed.

Lemma escaped_length v : (length (escaped v) <= 2 * length v)%nat.
Proof. by apply escape_loop_esc. Qed.

(** The lexer sees no character of more than one byte at a single one. *)
Lemma not_mb b t : charlen (b :: t) = 1%Z -> (if use_mb then my_ismbchar (b :: t) else 0%nat) = 0%nat.
Proof. intros H. unfold my_ismbchar. rewrite H. by destruct use_mb. Qed.

Lemma is_mb s t : use_mb = true -> (1 < charlen s)%Z ->
  (if use_mb then my_ismbchar (take (Z.to_nat (charlen s)) s ++ t) else 0%nat) = Z.to_nat (charlen s) /\
  length (take (Z.to_nat (charlen s)) s) = Z.to_nat (charlen s) /\ (1 < Z.to_nat (charlen s))%nat.
Proof.
  intros -> H. destruct (multi_stable s t H) as [H1 H2]. unfold my_ismbchar. rewrite H2. destruct (Z.ltb_spec 1 (charlen s)); [|lia].
  rewrite length_take. lia.
Qed.

Lemma unescape_of_escape b e : escape_of b = Some e \/ (128 <= b /\ e = b) -> unescape_of e = [b].
Proof.
  intros [H|[H ->]].
  - unfold escape_of in H. repeat (case_match; try discriminate); by injection H as <-.
  - unfold unescape_of. repeat (case_match; try done; try (exfalso; lia)).
Qed.

(** [my_unescape] undoes the escaping. *)
Lemma unescape_esc v t : esc v t -> forall fuel, (length t <= fuel)%nat -> my_unescape fuel 39 true t = Some v.
Proof.
  induction 1 as [|s t Hmb Hl Ht IH|b e s t He Ht IH|b s t Hl He Ht IH]; intros fuel Hf; (destruct fuel as [|fuel]; [try done|]).
  - done.
  - rewrite length_app in Hf. destruct (is_mb s t Hmb Hl) as (_ & ? & ?). lia.
  - destruct (is_mb s t Hmb Hl) as (E & El & Hn). set (n := Z.to_nat (charlen s)) in *. rewrite length_app in Hf.
    destruct (take n s ++ t) as [|b0 t0] eqn:Et; [by apply app_nil in Et as [Et _]; rewrite Et in El; simpl in El; lia|].
    cbn [my_unescape]. rewrite E. destruct (Nat.eqb_spec n 0); [lia|]. cbn [negb]. rewrite <- Et, take_app_length', drop_app_length', IH by lia.
    simpl. by rewrite take_drop.
  - simpl in Hf; lia.
  - cbn [my_unescape]. rewrite not_mb by (by apply ascii_single). cbn. rewrite IH by (simpl in Hf; lia).
    by rewrite (unescape_of_escape b e He).
  - simpl in Hf; lia.
  - cbn [my_unescape]. rewrite not_mb by (by eapply single_stable). cbn [negb Nat.eqb].
    destruct (N.eqb_spec b 92) as [->|]; [done|]. cbn. destruct (N.eqb_spec b 39) as [->|]; [done|]. by rewrite IH by (simpl in Hf; lia).
Qed.

(** [get_text] finds the end of escaped text.  Where it has not seen an escape, the
    text is the value. *)
Lemma get_text_esc v t rest : esc v t -> default 0 (head rest) <> 39 -> forall fuel ptr fe e8, (length t < fuel)%nat ->
  exists fe' e8', get_text_loop fuel 39 false (t ++ 39 :: rest) ptr fe e8 = Some (S (ptr + length t), fe', e8') /\ (fe' = false -> fe = false /\ t = v).
Proof.
  intros He Hrest. induction He as [|s t Hmb Hl Ht IH|b e s t He Ht IH|b s t Hl He Ht IH]; intros fuel ptr fe e8 Hf; (destruct fuel as [|fuel]; [lia|]).
  - cbn [app get_text_loop]. rewrite not_mb by (by apply ascii_single). cbn -[default head]. destruct (N.eqb_spec (default 0 (head rest)) 39); [done|].
    eexists _, _. by rewrite Nat.add_0_r.
  - rewrite <- app_assoc. destruct (is_mb s (t ++ 39 :: rest) Hmb Hl) as (E & El & Hn). set (n := Z.to_nat (charlen s)) in *. rewrite length_app in Hf.
    destruct (take n s ++ t ++ 39 :: rest) as [|b0 t0] eqn:Et; [by apply app_nil in Et as [Et _]; rewrite Et in El; simpl in El; lia|].
    cbn [get_text_loop]. rewrite E. destruct (Nat.eqb_spec n 0); [lia|]. cbn [negb]. rewrite <- Et, drop_app_length' by done.
    destruct (IH fuel (ptr + n)%nat fe (e8 || (128 <=? b0)) ltac:(lia)) as (fe' & e8' & -> & Hfe). exists fe', e8'. split.
    + do 3 f_equal. rewrite length_app. lia.
    + intros E0. destruct (Hfe E0) as [? ->]. by rewrite take_drop.
  - cbn [app get_text_loop]. rewrite not_mb by (by apply ascii_single). cbn -[Nat.add].
    destruct (IH fuel (ptr + 2)%nat true (e8 || false) ltac:(simpl in Hf; lia)) as (fe' & e8' & E & Hfe). rewrite E. exists fe', e8'.
    split; [do 3 f_equal; simpl; lia|]. intros E0. by destruct (Hfe E0).
  - cbn [app get_text_loop]. rewrite not_mb by (by eapply single_stable). cbn [negb Nat.eqb].
    destruct (N.eqb_spec b 92) as [->|]; [done|]. cbn [andb]. destruct (N.eqb_spec b 39) as [->|]; [done|].
    destruct (IH fuel (S ptr) fe (e8 || (128 <=? b)) ltac:(simpl in Hf; lia)) as (fe' & e8' & E & Hfe). rewrite E. exists fe', e8'.
    split; [do 3 f_equal; simpl; lia|]. intros E0. by destruct (Hfe E0) as [? ->].
Qed.

(** The literal of a value is read as the value, and reading goes on after it. *)
Lemma get_text_escaped v rest : default 0 (head rest) <> 39 ->
  exists e8, get_text true false 39 (39 :: escaped v ++ 39 :: rest) = Some (lex_text v e8 rest).
Proof.
  intros Hrest. unfold get_text. change (drop 1 (39 :: escaped v ++ 39 :: rest)) with (escaped v ++ 39 :: rest). pose proof (escaped_esc v) as He.
  destruct (get_text_esc v (escaped v) rest He Hrest (length (39 :: escaped v ++ 39 :: rest)) 1 false false) as (fe & e8 & -> & Hfe).
  { simpl. rewrite length_app. lia. }
  exists e8. replace (S (1 + length (escaped v)) - 2)%nat with (length (escaped v)) by lia. rewrite take_app_length.
  assert (Ed : drop (S (1 + length (escaped v))) (39 :: escaped v ++ 39 :: rest) = rest).
  { change (39 :: escaped v ++ 39 :: rest) with ((39 :: escaped v) ++ 39 :: rest). rewrite drop_app_ge by (simpl; lia).
    replace (_ - _)%nat with 1%nat by (simpl; lia). done. }
  rewrite Ed. destruct fe.
  - by rewrite (unescape_esc v _ He) by done.
  - simpl. by destruct (Hfe eq_refl) as [_ ->].
Qed.

(** Escaped text is empty only for the empty value, and never starts with a quote. *)
Lemma escaped_head v t : esc v t -> v <> [] -> exists b t', t = b :: t' /\ b <> 39.
Proof.
  intros He Hv. destruct He as [|s t Hmb Hl Ht|b e s t He Ht|b s t Hl He Ht]; [done| | |].
  - destruct (is_mb s t Hmb Hl) as (_ & El & Hn). pose proof (multi_high s Hl) as Hq.
    destruct (take (Z.to_nat (charlen s)) s) as [|b t'] eqn:E; [simpl in El; lia|]. exists b, (t' ++ t). split; [done|].
    intros ->. apply Hq. by left.
  - by exists 92, (e :: t).
  - exists b, t. split; [done|]. by intros ->.
Qed.
End Escape.

(** ** Column values *)

(** The text of a value in a statement. *)
Definition value_text {C : Charset} (f : Field) (v : list N) (is_like : bool) : list N :=
  if string_result f then 39 :: (if escaped_type f then escaped (v ++ if is_like then [37] else []) else v) ++ [39]
  else if str_needs_quotes f then 39 :: escaped v ++ [39]
  else v.

(** The statement with the value fits into the 32 bits of a length. *)
Definition fits (out v : list N) : Prop := N.of_nat (length out) + 2 * N.of_nat (length v) + 8400 < 2 ^ 32.

Section Column.
  Context {C : Charset} {COk : CharsetOk C} {H : Heap}.

Lemma runs_on_buf {A} (s : string_buf) (m : M buf_state A) st (Q : A * string_buf -> buf_state -> Prop) :
  runs m (mk_buf_state s (buf_tick st)) (fun a st' => Q (a, buf st') (st <| buf_tick := buf_tick st' |>)) -> runs (on_buf s m) st Q.
Proof. intros (a & st' & E & HQ). eexists _, _. split; [|exact HQ]. unfold on_buf. by rewrite E. Qed.

Lemma runs_append_escape v out room st : ready out room (buf st) -> 2 * N.of_nat (length v) <= room ->
  runs (append_escape_string v) st (fun _ st' => ready (out ++ escaped v) (room - 2 * N.of_nat (length v)) (buf st')).
Proof.
  intros [Hw Hr] Hv. pose proof (written_length _ _ Hw) as El. destruct Hw as [[H1 H2 H3 H4 H5] Hc]. pose proof (escaped_length v) as Hl.
  unfold append_escape_string, get_buf. apply runs_bind, runs_gets. rewrite escape_string_eq. cbn [fst snd].
  apply runs_bind, runs_put_bytes; [rewrite length_app; simpl; lia|]. intros mem Hmem. apply runs_modify.
  pose proof (write_length _ _ _ _ Hmem) as Ew. apply write_at in Hmem. rewrite length_app, Nat.add_assoc in Hmem. simpl in Ew.
  rewrite uint32_small by lia. split; [split|]; cbn.
  - split; cbn; rewrite ?Ew; (done || lia).
  - rewrite <- Hc. unfold contents. cbn. rewrite N2Nat.inj_add, Nat2N.id.
    rewrite <- (Nat.min_l (N.to_nat (str_length (buf st)) + length (escaped v)) (N.to_nat (str_length (buf st)) + length (escaped v) + length [0])) by lia.
    rewrite <- take_take, Hmem, app_assoc, take_app_le by (rewrite length_app, length_take; lia).
    apply take_ge. rewrite length_app, length_take. lia.
  - rewrite Ew. lia.
Qed.

Lemma stack_ok n t : N.of_nat n < 2 ^ 32 -> buf_ok (mk_buf (junk t <$> seq 0 n) 0 (N.of_nat n) 0 false).
Proof. intros Hn. split; cbn; rewrite ?length_junk; (done || lia). Qed.

(** The copy of the value on the stack. *)
Lemma runs_like_text is_like v st : 2 * N.of_nat (length v) + 8390 < 2 ^ 32 ->
  runs (like_text is_like v) st (fun r st' => buf st' = buf st /\
    match r with Some w => w = v ++ (if is_like then [37] else []) | None => no_memory_left end).
Proof.
  intros Hv. unfold like_text, stack_buf. apply runs_bind, runs_bind, runs_gets, runs_ret. apply runs_bind, runs_on_buf. apply runs_bind.
  eapply runs_conseq; [apply (appends_cs v [])|].
  { split; [by apply stack_ok|done]. }
  { simpl. lia. }
  intros [] st' H'; [destruct H'; by apply runs_ret, runs_ret|]. destruct is_like.
  - eapply runs_conseq; [apply appends; [exact H'|]|]; [simpl; lia|].
    intros [] st'' H''; apply runs_ret; (split; [done|]); destruct H'' as [? E]; [done|exact E].
  - apply runs_ret, runs_ret. split; [done|]. destruct H' as [_ E]. rewrite app_nil_r. exact E.
Qed.

(** The value between its quotes. *)
Lemma runs_append_escaped is_like v out st : written out (buf st) -> N.of_nat (length out) + 2 * N.of_nat (length v) + 8390 < 2 ^ 32 ->
  runs (tmp ← like_text is_like v;
        match tmp with
        | None => mret true
        | Some tmp_str2 =>
            e ← reserve (uint32 (N.of_nat (length tmp_str2) * 2));
            if (e : bool) then mret true else append_escape_string tmp_str2;; mret false
        end) st
    (fun e st' => if (e : bool) then buf_ok (buf st') /\ no_memory_left
                  else written (out ++ escaped (v ++ if is_like then [37] else [])) (buf st')).
Proof.
  intros Hw Hf. apply runs_bind. eapply runs_conseq; [apply runs_like_text; lia|]. intros [w|] st1 [E1 Hm].
  - assert (Hl : (length w <= S (length v))%nat) by (rewrite Hm, length_app; destruct is_like; simpl; lia).
    rewrite uint32_small by lia. rewrite <- E1 in Hw. reserve_step; [lia|]. intros [] st2 H2; [apply runs_ret; by destruct H2 as [[? ?] ?]|].
    apply runs_bind. eapply runs_conseq; [eapply runs_append_escape; [exact H2|lia]|]. intros [] st3 [H3 _]. apply runs_ret. by rewrite <- Hm.
  - apply runs_ret. rewrite E1. by destruct Hw.
Qed.

Lemma runs_column_value f vs np is_like v out st : written out (buf st) -> column_text f vs np = Some v -> fits out v ->
  runs (append_column_value f vs np is_like) st (fun r st' => wrote out (value_text f v is_like) r (buf st')).
Proof.
  intros Hw Hv Hf. unfold append_column_value. apply runs_bind. eapply runs_lift; [exact Hv|]. cbv zeta. unfold fits in Hf.
  unfold value_text. destruct (string_result f); [|destruct (str_needs_quotes f)].
  - reserve_step; [lia|]. intros [] st1 H1; [apply runs_ret; right; by destruct H1 as [[? ?] ?]|].
    q_step; [done|]. intros [] st2 [H2 _]. apply runs_bind.
    eapply runs_conseq with (Q' := fun e st' => if (e : bool) then buf_ok (buf st') /\ no_memory_left
      else written ((out ++ [39]) ++ if escaped_type f then escaped (v ++ if is_like then [37] else []) else v) (buf st')).
    { destruct (escaped_type f).
      - apply runs_append_escaped; [done|]. rewrite length_app. simpl. lia.
      - apply appends; [done|]. rewrite length_app. simpl. lia. }
    intros [] st3 H3; [apply runs_ret; by right|].
    assert (Hl : N.of_nat (length (if escaped_type f then escaped (v ++ if is_like then [37] else []) else v)) <= 2 * N.of_nat (length v) + 2).
    { destruct (escaped_type f); [|lia]. pose proof (escaped_length (v ++ if is_like then [37] else [])) as Hl. rewrite length_app in Hl.
      destruct is_like; simpl in Hl; lia. }
    reserve_step; [rewrite !length_app; simpl; lia|]. intros [] st4 H4; [apply runs_ret; right; by destruct H4 as [[? ?] ?]|].
    q_step; [done|]. intros [] st5 [H5 _]. apply runs_ret. left. split; [done|]. by rewrite <- !app_assoc in H5.
  - rewrite uint32_small by lia. reserve_step; [lia|]. intros [] st1 H1; [apply runs_ret; right; by destruct H1 as [[? ?] ?]|].
    q_step; [simpl; lia|]. intros [] st2 H2. apply runs_bind.
    eapply runs_conseq; [eapply runs_append_escape; [exact H2|simpl; lia]|]. intros [] st3 H3.
    q_step; [simpl; lia|]. intros [] st4 [H4 _]. apply runs_ret. left. split; [done|]. by rewrite <- !app_assoc in H4.
  - apply runs_bind. eapply runs_conseq; [apply appends; [done|lia]|]. intros [] st1 H1; apply runs_ret; [by right|by left].
Qed.
End Column.

(** ** Reading back *)

(** The value is written as a literal with escapes. *)
Definition is_literal (f : Field) : bool := if string_result f then escaped_type f else str_needs_quotes f.

(** What the data node shall get. *)
Definition sent_value (f : Field) (v : list N) (is_like : bool) : list N :=
  if string_result f then v ++ (if is_like then [37] else []) else v.

Lemma literal_text {C : Charset} f v is_like : is_literal f = true ->
  value_text f v is_like = 39 :: escaped (sent_value f v is_like) ++ [39].
Proof. unfold is_literal, value_text, sent_value. destruct (string_result f); by intros ->. Qed.

(** C9. A column value that Spider appends to a statement is read back by the lexer of
    the data node as the same bytes: for every character set with the laws of
    [CharsetOk], every field that is written as a literal and every value, whatever
    its bytes are (quotes, backslashes, 0, broken characters), append_column_value
    stays inside the memory of the string and either reports that there is no memory
    or has appended a text that get_text takes for one literal with that value, and
    after which the rest of the statement is read. *)
Theorem column_value_read_back {C : Charset} {COk : CharsetOk C} {H : Heap} f val_str new_ptr is_like v out st :
  written out (buf st) -> column_text f val_str new_ptr = Some v -> fits out v -> is_literal f = true ->
  runs (append_column_value f val_str new_ptr is_like) st (fun r st' => buf_ok (buf st') /\
    ((r = HA_ERR_OUT_OF_MEM /\ no_memory_left) \/
     (r = 0%Z /\ exists lit, contents (buf st') = out ++ lit /\
        forall rest, default 0 (head rest) <> 39 ->
          exists is_8bit, get_text true false 39 (lit ++ rest) = Some (lex_text (sent_value f v is_like) is_8bit rest)))).
Proof.
  intros Hw Hv Hf Hl. eapply runs_conseq; [by apply runs_column_value|]. intros r st' [(-> & Hok & Hc)|(-> & Hok & Hm)]; (split; [done|]).
  - right. split; [done|]. exists (value_text f v is_like). split; [done|]. intros rest Hrest. rewrite literal_text by done.
    cbn [app]. rewrite <- app_assoc. by apply get_text_escaped.
  - by left.
Qed.

Definition ex_heap : Heap := mk_heap (fun _ => false) (fun _ _ => 170).
#[local] Existing Instance ex_heap.
Definition ex_varchar : Field := mk_field 0 MYSQL_TYPE_VARCHAR MYSQL_TYPE_VARCHAR true true.
Definition ex_buf : buf_state := mk_buf_state (mk_buf [] 0 0 0 false) 0.

(** A value with a quote, a backslash, a 0, a character of three bytes and a broken one. *)
Lemma column_value_read_back_witness :
  runs (append_column_value (C := utf8) ex_varchar (fun _ => [97; 39; 92; 0; 228; 184; 173; 191; 39]) None false) ex_buf (fun r st' => buf_ok (buf st') /\
    ((r = HA_ERR_OUT_OF_MEM /\ no_memory_left) \/
     (r = 0%Z /\ exists lit, contents (buf st') = [] ++ lit /\
        forall rest, default 0 (head rest) <> 39 ->
          exists is_8bit, get_text (C := utf8) true false 39 (lit ++ rest) =
            Some (lex_text (sent_value ex_varchar [97; 39; 92; 0; 228; 184; 173; 191; 39] false) is_8bit rest)))).
Proof.
  apply (column_value_read_back (C := utf8)); [split; [split; simpl; (done || lia)|done]|done| |done]. unfold fits. simpl. lia.
Defined.

(** C33. Spider always escapes with backslashes.  On a data node whose sql_mode has
    NO_BACKSLASH_ESCAPES a value that starts with a quote (and goes on) ends its own
    literal: the lexer takes a backslash for the value and reads what comes after the
    quote, which is data, as SQL. *)
Theorem quote_ends_literal {C : Charset} {COk : CharsetOk C} {H : Heap} f val_str w out st :
  written out (buf st) -> val_str None = 39 :: w -> w <> [] -> fits out (39 :: w) -> string_result f = true -> escaped_type f = true ->
  runs (append_column_value f val_str None false) st (fun r st' =>
    (r = HA_ERR_OUT_OF_MEM /\ no_memory_left) \/
    (r = 0%Z /\ exists lit, contents (buf st') = out ++ lit /\
       forall rest, get_text true true 39 (lit ++ rest) = Some (lex_text [92] false (escaped w ++ 39 :: rest)))).
Proof.
  intros Hw Hv Hne Hf Hs He. eapply runs_conseq; [eapply runs_column_value; [exact Hw|simpl; by rewrite Hv|done]|].
  intros r st' [(-> & Hok & Hc)|(-> & Hok & Hm)]; [right|by left]. split; [done|]. eexists. split; [exact Hc|]. intros rest.
  rewrite literal_text by (unfold is_literal; by rewrite Hs). unfold sent_value. rewrite Hs, app_nil_r.
  assert (Ee : escaped (39 :: w) = 92 :: 39 :: escaped w).
  { unfold escaped. simpl length. cbn [escape_loop]. rewrite ascii_single by done. replace (if use_mb then 1%Z else 1%Z) with 1%Z by (by destruct use_mb).
    cbn -[Nat.mul Nat.sub Nat.ltb]. destruct (Nat.ltb_spec (2 * S (length w)) 2); [lia|].
    by replace (2 * S (length w) - 2)%nat with (2 * length w)%nat by lia. }
  destruct (escaped_head w (escaped w) (escaped_esc w) Hne) as (b & t & Et & Hb). rewrite Ee. cbn [app]. rewrite <- app_assoc. unfold get_text.
  cbn [length get_text_loop drop app]. rewrite !not_mb by (by apply ascii_single). cbn -[Nat.sub app].
  rewrite Et. cbn -[Nat.sub]. destruct (N.eqb_spec b 39); [done|]. done.
Qed.

(** The value ['or 1=1 -- ]: a condition is added to the statement. *)
Lemma quote_ends_literal_witness :
  runs (append_column_value (C := utf8) ex_varchar (fun _ => [39; 32; 111; 114; 32; 49; 61; 49; 32; 45; 45; 32]) None false) ex_buf (fun r st' =>
    (r = HA_ERR_OUT_OF_MEM /\ no_memory_left) \/
    (r = 0%Z /\ exists lit, contents (buf st') = [] ++ lit /\
       forall rest, get_text (C := utf8) true true 39 (lit ++ rest) =
         Some (lex_text [92] false (escaped (C := utf8) [32; 111; 114; 32; 49; 61; 49; 32; 45; 45; 32] ++ 39 :: rest)))).
Proof.
  apply (quote_ends_literal (C := utf8)); [split; [split; simpl; (done || lia)|done]|done|done| |done|done]. unfold fits. simpl. lia.
Defined.
