(* ===== verification/NameTheorems.v ===== *)
(** * Names in SQL text are read back

    The names of the links of a share as spider_mysql_share::create_table_names_str
    keeps them: the text of every link is the one that its data node reads as the
    names of the link, and the flag and the lengths that the statements rely on are
    right. *)

From Stdlib Require Import ZArith NArith Lia.
From stdpp Require Import base numbers list strings.
From S2P Require Import Prelude.
From S2P Require Import SqlString.
From S2P Require Import SqlEscape.
From S2P Require Import CString.
From S2P Require Import SqlNames.
From S2P Require Import EscapeTheorems.
Local Open Scope spider_scope.
Local Open Scope N_scope.

(** ** Quoted names *)

(** The name with its quotes doubled. *)
Fixpoint doubled (name : list N) : list N :=
  match name with
  | [] => []
  | b :: name => if b =? 96 then 96 :: 96 :: doubled name else b :: doubled name
  end.

(** The name between quotes. *)
Definition quoted (name : list N) : list N := 96 :: doubled name ++ [96].

(** The name has only characters of utf8. *)
Inductive chars : list N -> Prop :=
  | chars_nil : chars []
  | chars_cons b s : (1 <= my_charlen_utf8 (b :: s))%Z -> chars (drop (Z.to_nat (my_charlen_utf8 (b :: s))) (b :: s)) -> chars (b :: s).

Lemma doubled_app s t : doubled (s ++ t) = doubled s ++ doubled t.
Proof. induction s as [|b s IH]; simpl; [done|]. rewrite IH. by destruct (b =? 96). Qed.

Lemma doubled_high s : Forall (fun b => 128 <= b) s -> doubled s = s.
Proof. induction 1 as [|b s Hb Hs IH]; simpl; [done|]. rewrite IH. destruct (N.eqb_spec b 96); [lia|done]. Qed.

Lemma doubled_length s : (length s <= length (doubled s) <= 2 * length s)%nat.
Proof. induction s as [|b s IH]; simpl; [lia|]. destruct (b =? 96); simpl; lia. Qed.

Lemma unescape_doubled name : quote_unescape (doubled name) 96 = name.
Proof. induction name as [|b s IH]; simpl; [done|]. destruct (N.eqb_spec b 96) as [->|Hb]; simpl; [by rewrite IH|]. destruct (N.eqb_spec b 96); [done|by rewrite IH]. Qed.

(** The first character of a name. *)
Lemma charlen_split b s : (1 < my_charlen_utf8 (b :: s))%Z ->
  let n := Z.to_nat (my_charlen_utf8 (b :: s)) in
  doubled (b :: s) = take n (b :: s) ++ doubled (drop n (b :: s)) /\ length (take n (b :: s)) = n /\ 128 <= b /\ (1 < n)%nat.
Proof.
  intros Hl n. pose proof (utf8_high (b :: s) Hl) as Hh. change (charlen (b :: s)) with (my_charlen_utf8 (b :: s)) in Hh. fold n in Hh.
  destruct (multi_stable (C := utf8) (b :: s) [] Hl) as [Hlen _]. change (charlen (b :: s)) with (my_charlen_utf8 (b :: s)) in Hlen. fold n in Hlen.
  assert (Hn : (1 < n)%nat) by (unfold n; lia). clearbody n.
  split; [|split; [rewrite length_take; lia|split; [|lia]]].
  - rewrite <- (take_drop n (b :: s)) at 1. by rewrite doubled_app, doubled_high.
  - destruct n as [|n']; [lia|]. simpl in Hh. by apply Forall_cons in Hh as [Hb _].
Qed.

(** The lexer finds the end of a quoted name. *)
Lemma scan_doubled name rest : chars name -> 0 ∉ name -> default 0 (head rest) <> 96 -> forall fuel ptr, (length (doubled name) < fuel)%nat ->
  scan_ident_loop (C := utf8) fuel 96 (doubled name ++ 96 :: rest) ptr = (S (ptr + length (doubled name)), 96).
Proof.
  intros Hc Hz Hrest. induction Hc as [|b s Hl Hs IH]; intros fuel ptr Hf; (destruct fuel as [|fuel]; [lia|]).
  - cbn -[default head]. destruct (N.eqb_spec (default 0 (head rest)) 96); [done|]. by rewrite Nat.add_0_r.
  - apply not_elem_of_cons in Hz as [Hb Hz]. destruct (Z.eqb_spec (my_charlen_utf8 (b :: s)) 1) as [E1|E1].
    + rewrite E1 in *. change (drop (Z.to_nat 1) (b :: s)) with s in *. specialize (IH Hz). simpl doubled in *.
      destruct (N.eqb_spec b 96) as [->|Hq].
      * cbn -[my_charlen_utf8 default head Nat.add]. cbn -[Nat.add]. rewrite IH by (simpl in Hf; lia). simpl. f_equal. lia.
      * cbn [app scan_ident_loop]. destruct (N.eqb_spec b 0); [lia|]. rewrite (single_stable (C := utf8) b s) by done. cbn -[Nat.add].
        destruct (N.eqb_spec b 96); [done|]. rewrite IH by (simpl in Hf; lia). simpl. f_equal. lia.
    + assert (Hl1 : (1 < my_charlen_utf8 (b :: s))%Z) by lia. pose proof (charlen_split b s Hl1) as Hsp. cbv zeta in Hsp.
      set (n := Z.to_nat (my_charlen_utf8 (b :: s))) in *. destruct Hsp as (Ed & El & Hb' & Hn). rewrite Ed in *. rewrite length_app in Hf.
      destruct (multi_stable (C := utf8) (b :: s) (doubled (drop n (b :: s)) ++ 96 :: rest) Hl1) as [_ Em].
      change (charlen (b :: s)) with (my_charlen_utf8 (b :: s)) in Em. fold n in Em. rewrite <- app_assoc.
      destruct (take n (b :: s) ++ doubled (drop n (b :: s)) ++ 96 :: rest) as [|b0 t0] eqn:Et.
      { apply app_nil in Et as [Et _]. rewrite Et in El. simpl in El. lia. }
      assert (Hb0 : b0 = b) by (destruct n; [lia|]; simpl in Et; congruence). subst b0.
      cbn [scan_ident_loop]. destruct (N.eqb_spec b 0); [lia|]. rewrite Em. destruct (Z.eqb_spec (my_charlen_utf8 (b :: s)) 1); [done|].
      destruct (Z.ltb_spec 1 (my_charlen_utf8 (b :: s))); [|lia]. fold n. rewrite <- Et, drop_app_length' by done.
      rewrite IH; [rewrite length_app; f_equal; lia| |lia]. intros Hin. apply subseteq_drop, elem_of_cons in Hin as [Hin|Hin]; [lia|done].
Qed.

(** The quoted name at the start of a text is read, and reading goes on after it. *)
Lemma scan_quoted name rest : chars name -> 0 ∉ name -> default 0 (head rest) <> 96 ->
  scan_ident_delimited (C := utf8) (quoted name ++ rest) = (doubled name, rest).
Proof.
  intros Hc Hz Hrest. unfold scan_ident_delimited, quoted.
  change ((96 :: doubled name ++ [96]) ++ rest) with (96 :: (doubled name ++ [96]) ++ rest). rewrite <- app_assoc.
  change (default 0 (head (96 :: doubled name ++ [96] ++ rest))) with 96. change (drop 1 (96 :: doubled name ++ [96] ++ rest)) with (doubled name ++ 96 :: rest).
  rewrite scan_doubled by (done || (simpl; rewrite length_app; lia)). cbn [fst snd]. rewrite N.eqb_refl.
  replace (S (1 + length (doubled name)) - 2)%nat with (length (doubled name)) by lia. rewrite take_app_length. f_equal.
  change (drop (S (length (doubled name))) (doubled name ++ 96 :: rest) = rest).
  rewrite drop_app_ge by lia. by replace (S (length (doubled name)) - length (doubled name))%nat with 1%nat by lia.
Qed.

(** ** Writing a name *)

Section Write.
  Context {H : Heap}.

(** What a function that appends a name of [name] reports. *)
Definition name_error (name : list N) (e : Z) : Prop :=
  (e = HA_ERR_OUT_OF_MEM /\ no_memory_left) \/ (e = ER_SPIDER_WRONG_CHARACTER_IN_NAME_NUM /\ ~ chars name).

Lemma runs_escaped_name_quote out st : written out (buf st) -> N.of_nat (length out) + 10 < 2 ^ 32 ->
  runs append_escaped_name_quote st (fun r st' => wrote out [96; 96] r (buf st')).
Proof.
  intros Hw Hl. unfold append_escaped_name_quote. reserve_step; [lia|]. intros [] st1 H1; [apply runs_ret; right; by destruct H1 as [[? ?] ?]|].
  q_step; [done|]. intros [] st2 H2. q_step; [done|]. intros [] st3 [H3 _]. apply runs_ret. left. by rewrite <- app_assoc in H3.
Qed.

(** One character. *)
Lemma runs_name_char b s out st : written out (buf st) -> fits out (b :: s) -> (1 <= my_charlen_utf8 (b :: s))%Z ->
  let n := Z.to_nat (my_charlen_utf8 (b :: s)) in
  runs (if (my_charlen_utf8 (b :: s) =? 1)%Z && is_name_quote b then append_escaped_name_quote
        else e ← append_cs (take n (b :: s)); mret (if (e : bool) then HA_ERR_OUT_OF_MEM else 0%Z)) st
    (fun r st' => wrote out (doubled (take n (b :: s))) r (buf st')) /\
  (0 < n <= length (b :: s))%nat /\ doubled (b :: s) = doubled (take n (b :: s)) ++ doubled (drop n (b :: s)).
Proof.
  intros Hw Hf Hl n. unfold fits in Hf. simpl in Hf. assert (Hn : (0 < n <= length (b :: s))%nat).
  { destruct (decide (my_charlen_utf8 (b :: s) = 1%Z)) as [E|E]; [unfold n; rewrite E; simpl; lia|].
    destruct (multi_stable (C := utf8) (b :: s) []) as [Hlen _]; simpl in *; [lia|]. unfold n. lia. }
  split; [|split; [done|by rewrite <- doubled_app, take_drop]].
  assert (Hlen : (length (take n (b :: s)) <= S (length s))%nat) by (rewrite length_take; simpl; lia).
  destruct (Z.eqb_spec (my_charlen_utf8 (b :: s)) 1) as [E|E]; cbn [andb].
  - assert (En : take n (b :: s) = [b]) by (unfold n; by rewrite E). rewrite En. unfold is_name_quote, name_quote. simpl doubled.
    destruct (N.eqb_spec b 96) as [->|]; [apply runs_escaped_name_quote; [done|lia]|].
    apply runs_bind. eapply runs_conseq; [apply appends_cs; [done|simpl; lia]|]. intros [] st' H'; apply runs_ret; [by right|by left].
  - destruct (charlen_split b s) as (Ed & El & _); [lia|]. fold n in Ed, El.
    assert (E2 : doubled (take n (b :: s)) = take n (b :: s)) by (apply doubled_high, (utf8_high (b :: s)); change (1 < my_charlen_utf8 (b :: s))%Z; lia).
    rewrite E2.
    apply runs_bind. eapply runs_conseq; [apply appends_cs; [done|lia]|]. intros [] st' H'; apply runs_ret; [by right|by left].
Qed.

Lemma runs_name_loop fuel name out st : (length name <= fuel)%nat -> written out (buf st) -> fits out name ->
  runs (append_name_loop fuel name) st (fun r st' => (r = 0%Z /\ written (out ++ doubled name) (buf st') /\ chars name) \/ name_error name r).
Proof.
  revert name out st. induction fuel as [|fuel IH]; intros name out st Hfu Hw Hf;
    (destruct name as [|b s]; [apply runs_ret; left; rewrite app_nil_r; split; [done|split; [done|constructor]]|]); simpl in Hfu; [lia|].
  cbn [append_name_loop]. destruct (Z.ltb_spec (my_charlen_utf8 (b :: s)) 1) as [Hl|Hl].
  { apply runs_ret. right. right. split; [done|]. intros Hc. inversion Hc; subst. lia. }
  destruct (runs_name_char b s out st Hw Hf Hl) as (Hr & Hn & Ed). set (n := Z.to_nat (my_charlen_utf8 (b :: s))) in *.
  apply runs_andthen. eapply runs_conseq; [exact Hr|]. intros r st1 [(-> & H1)|(-> & _ & Hm)]; [|right; by left].
  rewrite Z.eqb_refl. pose proof (doubled_length (take n (b :: s))) as Hd. rewrite length_take in Hd.
  eapply runs_conseq; [apply IH; [rewrite length_drop; simpl in *; lia|exact H1|]|].
  { unfold fits in *. rewrite length_app, length_drop. simpl in *. lia. }
  intros r st2 [(-> & H2 & Hc)|[[-> Hm]|[-> Hc]]].
  - left. split; [done|]. split; [by rewrite Ed, app_assoc|by apply chars_cons].
  - right. by left.
  - right. right. split; [done|]. intros Hc'. by inversion Hc'; subst.
Qed.

(** [`db`.`table`] *)
Definition table_text (db tbl : list N) : list N := quoted db ++ 46 :: quoted tbl.

Lemma runs_append_name name out room st : ready out room (buf st) -> N.of_nat (length name) + 2 <= room ->
  runs (append_name name) st (fun _ st' => ready (out ++ 96 :: name ++ [96]) (room - 2 - N.of_nat (length name)) (buf st')).
Proof.
  intros Hr Hl. unfold append_name, name_quote. q_step; [simpl; lia|]. intros [] st1 H1. q_step; [simpl; lia|]. intros [] st2 H2.
  eapply runs_conseq; [eapply q_appends; [exact H2|simpl; lia]|]. intros [] st3 H3. rewrite <- !app_assoc in H3. simpl in H3.
  by replace (room - 2 - N.of_nat (length name)) with (room - 1 - N.of_nat (length name) - 1) by lia.
Qed.

Lemma runs_append_table_name db tbl out st : written out (buf st) ->
  N.of_nat (length out) + N.of_nat (length db) + N.of_nat (length tbl) + 20 < 2 ^ 32 ->
  runs (append_table_name db tbl) st (fun r st' => wrote out (96 :: db ++ 96 :: 46 :: 96 :: tbl ++ [96]) r (buf st')).
Proof.
  intros Hw Hl. unfold append_table_name. rewrite uint32_small by lia. reserve_step; [lia|].
  intros [] st1 H1; [apply runs_ret; right; by destruct H1 as [[? ?] ?]|]. apply runs_bind.
  eapply runs_conseq; [eapply runs_append_name; [exact H1|lia]|]. intros [] st2 H2. q_step; [simpl; lia|]. intros [] st3 H3. apply runs_bind.
  eapply runs_conseq; [eapply runs_append_name; [exact H3|simpl; lia]|]. intros [] st4 [H4 _]. apply runs_ret. left. split; [done|].
  rewrite <- !app_assoc in H4. simpl in H4. by rewrite <- app_assoc in H4.
Qed.
End Write.

(** ** The names of the links *)

Section Links.
  Context {H : Heap} (dbton_id : N) (L : link_names).

(** The names of a link: the database and the table. *)
Definition link_name (i : nat) (db tbl : list N) : Prop :=
  sql_dbton_ids L !! i = Some dbton_id /\ tgt_dbs L !! i = Some db /\ tgt_table_names L !! i = Some tbl.

(** Every link has names, which are not too long for a statement. *)
Definition names_given : Prop :=
  length (tgt_dbs L) = length (sql_dbton_ids L) /\ length (tgt_table_names L) = length (sql_dbton_ids L) /\
  forall name, name ∈ tgt_dbs L ++ tgt_table_names L -> N.of_nat (length name) < 2 ^ 24.

(** What is kept for a link. *)
Definition kept (ns : name_strs) (i : nat) (db tbl : list N) : Prop :=
  (exists s, db_names_str ns !! i = Some s /\ written (doubled db) s /\ N.of_nat (length (doubled db)) <= db_nm_max_length ns) /\
  (exists s, table_names_str ns !! i = Some s /\ written (doubled tbl) s /\ N.of_nat (length (doubled tbl)) <= table_nm_max_length ns) /\
  (exists s, db_table_str ns !! i = Some s /\ written (table_text db tbl) s) /\ chars db /\ chars tbl.

(** The first [k] links are done. *)
Record names_inv (k : nat) (ns : name_strs) : Prop := mk_names_inv {
  ni_len : length (db_names_str ns) = length (sql_dbton_ids L) /\ length (table_names_str ns) = length (sql_dbton_ids L) /\
           length (db_table_str ns) = length (sql_dbton_ids L);
  ni_kept i db tbl : (i < k)%nat -> link_name i db tbl -> kept ns i db tbl;
  ni_same : same_db_table_name ns = true <->
    forall i db tbl db0 tbl0, (i < k)%nat -> link_name i db tbl -> link_name 0 db0 tbl0 -> db = db0 /\ tbl = tbl0 }.

(** An error for a name of the share. *)
Definition names_error (e : Z) : Prop :=
  (e = HA_ERR_OUT_OF_MEM /\ no_memory_left) \/
  (e = ER_SPIDER_WRONG_CHARACTER_IN_NAME_NUM /\ exists name, name ∈ tgt_dbs L ++ tgt_table_names L /\ ~ chars name).

Lemma empty_written : written [] empty_buf.
Proof. by split; [split|]. Qed.

Lemma runs_link_name_str copied first_str name st : N.of_nat (length name) < 2 ^ 24 ->
  (copied = true -> written (doubled name) first_str /\ chars name) ->
  runs (link_name_str copied first_str name) st (fun r _ =>
    match r with inl e => name_error name e | inr s => written (doubled name) s /\ chars name end).
Proof.
  intros Hl Hc. pose proof (doubled_length name). unfold link_name_str. destruct copied.
  - destruct (Hc eq_refl) as [[Hok Ec] Hch]. rewrite Ec. apply runs_bind, runs_on_buf.
    eapply runs_conseq; [apply runs_string_copy; [apply empty_written|lia]|]. intros [] st' H'; apply runs_ret; [by left|]. by destruct H'.
  - apply runs_bind, runs_on_buf. eapply runs_conseq; [apply (runs_name_loop _ _ []); [done|apply empty_written|unfold fits; simpl; lia]|].
    intros r st' [(-> & Hw & Hch)|Hr]; apply runs_ret; [done|]. cbn [fst snd]. destruct (Z.eqb_spec r 0) as [->|]; [|done].
    by destruct Hr as [[? _]|[? _]].
Qed.
(** The flag after a link. *)
Lemma same_flag i (same : bool) (db tbl db0 tbl0 : list N) :
  let c1 := negb (i =? 0)%nat && same && bool_decide (tbl = tbl0) in
  let s1 := same && (c1 || (i =? 0)%nat) in
  let c2 := negb (i =? 0)%nat && s1 && bool_decide (db = db0) in
  (s1 && (c2 || (i =? 0)%nat) = true <-> same = true /\ (i = 0%nat \/ (db = db0 /\ tbl = tbl0))) /\
  (c1 = true -> i <> 0%nat /\ tbl = tbl0) /\ (c2 = true -> i <> 0%nat /\ db = db0).
Proof. destruct (Nat.eqb_spec i 0), same; simpl; repeat case_bool_decide; naive_solver. Qed.

Lemma new_max_le i copied len m : (if (i =? 0)%nat then True else copied = true -> len <= m) -> (i = 0%nat -> copied = false) ->
  len <= new_max i copied len m /\ (i <> 0%nat -> m <= new_max i copied len m).
Proof.
  unfold new_max. destruct copied, (Nat.eqb_spec i 0); intros H1 H2; [by specialize (H2 e)|specialize (H1 eq_refl); lia|lia|].
  destruct (N.ltb_spec m len); lia.
Qed.

(** The state after a link whose names are written. *)
Lemma names_inv_step i ns ns' db tbl db0 tbl0 s ds dt c1 c2 :
  names_inv i ns -> link_name i db tbl -> link_name 0 db0 tbl0 -> chars db -> chars tbl ->
  written (doubled tbl) s -> written (doubled db) ds -> written (table_text db tbl) dt ->
  (c1 = true -> i <> 0%nat /\ tbl = tbl0) -> (c2 = true -> i <> 0%nat /\ db = db0) ->
  table_names_str ns' = <[i:=s]> (table_names_str ns) -> db_names_str ns' = <[i:=ds]> (db_names_str ns) ->
  db_table_str ns' = <[i:=dt]> (db_table_str ns) ->
  table_nm_max_length ns' = new_max i c1 (str_length s) (table_nm_max_length ns) ->
  db_nm_max_length ns' = new_max i c2 (str_length ds) (db_nm_max_length ns) ->
  (same_db_table_name ns' = true <-> same_db_table_name ns = true /\ (i = 0%nat \/ (db = db0 /\ tbl = tbl0))) ->
  names_inv (S i) ns'.
Proof.
  intros [(L1 & L2 & L3) Hk Hs] Hi H0 Hcd Hct Ws Wd Wt Hc1 Hc2 E1 E2 E3 E4 E5 E6.
  pose proof (lookup_lt_Some _ _ _ (proj1 Hi)) as Hlt. rewrite (written_length _ _ Ws) in E4. rewrite (written_length _ _ Wd) in E5.
  assert (K0 : (0 < i)%nat -> kept ns 0 db0 tbl0) by (intros; by apply Hk).
  assert (M1 : N.of_nat (length (doubled tbl)) <= table_nm_max_length ns' /\ (i <> 0%nat -> table_nm_max_length ns <= table_nm_max_length ns')).
  { rewrite E4. apply new_max_le; [|intros ->; by destruct c1; [destruct Hc1|]]. destruct (Nat.eqb_spec i 0); [done|]. intros Ec.
    destruct (Hc1 Ec) as [_ ->]. destruct (K0 ltac:(lia)) as (_ & (? & _ & _ & Hm) & _). done. }
  assert (M2 : N.of_nat (length (doubled db)) <= db_nm_max_length ns' /\ (i <> 0%nat -> db_nm_max_length ns <= db_nm_max_length ns')).
  { rewrite E5. apply new_max_le; [|intros ->; by destruct c2; [destruct Hc2|]]. destruct (Nat.eqb_spec i 0); [done|]. intros Ec.
    destruct (Hc2 Ec) as [_ ->]. destruct (K0 ltac:(lia)) as ((? & _ & _ & Hm) & _). done. }
  split.
  - rewrite E1, E2, E3, !length_insert. done.
  - intros j db' tbl' Hj Hn. unfold kept. rewrite E1, E2, E3. destruct (decide (j = i)) as [->|Hne].
    + assert (db' = db /\ tbl' = tbl) as [-> ->] by (destruct Hn as (_ & ? & ?), Hi as (_ & ? & ?); by simplify_eq).
      rewrite !list_lookup_insert_eq by lia. destruct M1 as [M1 _], M2 as [M2 _]. split; [by exists ds|split; [by exists s|split; [by exists dt|done]]].
    + destruct (Hk j db' tbl' ltac:(lia) Hn) as ((s1 & ? & ? & ?) & (s2 & ? & ? & ?) & (s3 & ? & ?) & ? & ?).
      rewrite !list_lookup_insert_ne by done. assert (Hi0 : i <> 0%nat) by lia. destruct M1 as [_ M1], M2 as [_ M2]. specialize (M1 Hi0). specialize (M2 Hi0).
      split; [exists s1; split; [done|split; [done|lia]]|]. split; [exists s2; split; [done|split; [done|lia]]|]. split; [by exists s3|done].
  - rewrite E6, Hs. split.
    + intros [Ha Hb] j db' tbl' db0' tbl0' Hj Hn Hn0. destruct (decide (j = i)) as [->|Hne]; [|apply (Ha j); [lia|done|done]].
      destruct Hn as (_ & ? & ?), Hn0 as (_ & ? & ?), Hi as (_ & ? & ?), H0 as (_ & ? & ?). by destruct Hb as [->|[-> ->]]; simplify_eq.
    + intros Ha. split; [intros j db' tbl' db0' tbl0' Hj; apply Ha; lia|]. right. apply (Ha i); [lia|done|done].
Qed.
Lemma name_error_names name e : name ∈ tgt_dbs L ++ tgt_table_names L -> name_error name e -> names_error e.
Proof. intros Hin [?|[-> ?]]; [by left|]. right. eauto. Qed.

(** The third text of a link. *)
Lemma runs_db_table_str (c : bool) first db tbl ds s st : N.of_nat (length db) < 2 ^ 24 -> N.of_nat (length tbl) < 2 ^ 24 ->
  written (doubled db) ds -> written (doubled tbl) s -> (c = true -> written (table_text db tbl) first) ->
  runs (if c then r ← on_buf empty_buf (copy (contents first)); mret (if (r.1 : bool) then HA_ERR_OUT_OF_MEM else 0%Z, r.2)
        else on_buf empty_buf (append_table_name (contents ds) (contents s))) st
    (fun r _ => if (r.1 =? 0)%Z then written (table_text db tbl) r.2 else r.1 = HA_ERR_OUT_OF_MEM /\ no_memory_left).
Proof.
  intros Hl1 Hl2 [_ Ed] [_ Es] Hc. pose proof (doubled_length db). pose proof (doubled_length tbl). destruct c.
  - destruct (Hc eq_refl) as [_ Ef]. rewrite Ef. apply runs_bind, runs_on_buf.
    eapply runs_conseq; [apply runs_string_copy; [apply empty_written|]|].
    { unfold table_text, quoted. rewrite !length_app. simpl. rewrite !length_app. simpl. lia. }
    intros [] st' H'; apply runs_ret; [done|by destruct H'].
  - rewrite Ed, Es. apply runs_on_buf. eapply runs_conseq; [apply (runs_append_table_name _ _ []); [apply empty_written|simpl; lia]|].
    intros r st' [(-> & Hw)|(-> & _ & Hm)]; [|done]. cbn. unfold table_text, quoted. simpl in *. by rewrite <- app_assoc.
Qed.

Lemma names_skip i ns : names_inv i ns -> sql_dbton_ids L !! i <> Some dbton_id -> names_inv (S i) ns.
Proof.
  intros [Hl Hk Hs] Hi. assert (Hne : forall j db tbl, (j < S i)%nat -> link_name j db tbl -> (j < i)%nat).
  { intros j db tbl Hj (Hn & _). destruct (decide (j = i)) as [->|]; [done|lia]. }
  split; [done|intros j db tbl Hj Hn; apply Hk; [by eapply Hne|done]|]. rewrite Hs.
  split; intros Ha j db tbl db0 tbl0 Hj Hn Hn0; (apply (Ha j); [|done|done]); [by eapply Hne|lia].
Qed.

Lemma name_at (l : list (list N)) i : length l = length (sql_dbton_ids L) -> (i < length (sql_dbton_ids L))%nat -> exists x, l !! i = Some x.
Proof. intros E Hi. apply lookup_lt_is_Some. lia. Qed.

Lemma names_inv_first i ns x : names_inv i ns -> names_inv i (ns <| first_all_link_idx := x |>).
Proof. by intros [Hl Hk Hs]; split. Qed.

Lemma runs_link_names i ns st db0 tbl0 : names_given -> names_inv i ns -> (i < length (sql_dbton_ids L))%nat -> link_name 0 db0 tbl0 ->
  runs (link_names_str dbton_id L i ns) st (fun r _ => match r with inl e => names_error e | inr ns' => names_inv (S i) ns' end).
Proof.
  intros (G1 & G2 & G3) Hinv Hi H0. destruct (lookup_lt_is_Some_2 _ _ Hi) as [id Eid]. unfold link_names_str.
  apply runs_bind. eapply runs_lift; [exact Eid|]. destruct (N.eqb_spec id dbton_id) as [->|Hid]; [|apply runs_ret, names_skip; congruence]. cbn [negb].
  destruct (name_at _ _ G1 Hi) as [db Edb], (name_at _ _ G2 Hi) as [tbl Etbl]. assert (Hn : link_name i db tbl) by done.
  assert (Hin1 : db ∈ tgt_dbs L ++ tgt_table_names L) by (apply elem_of_app; left; by eapply list_elem_of_lookup_2).
  assert (Hin2 : tbl ∈ tgt_dbs L ++ tgt_table_names L) by (apply elem_of_app; right; by eapply list_elem_of_lookup_2).
  set (ns1 := if (first_all_link_idx ns =? -1)%Z then _ else _).
  assert (Hinv1 : names_inv i ns1) by (unfold ns1; destruct (_ =? -1)%Z; [by apply names_inv_first|done]). clearbody ns1. clear ns Hinv.
  pose proof H0 as (I0 & D0 & T0). destruct (ni_len _ _ Hinv1) as (L1 & L2 & L3).
  assert (HK : i <> 0%nat -> kept ns1 0 db0 tbl0) by (intros; apply (ni_kept i ns1 Hinv1); [lia|done]).
  destruct (lookup_lt_is_Some_2 (table_names_str ns1) 0) as [ts0 Ets0]; [lia|]. destruct (lookup_lt_is_Some_2 (db_names_str ns1) 0) as [ds0 Eds0]; [lia|].
  destruct (lookup_lt_is_Some_2 (db_table_str ns1) 0) as [dts0 Edts0]; [lia|].
  destruct (same_flag i (same_db_table_name ns1) db tbl db0 tbl0) as (Hsame & Hc1 & Hc2). cbv zeta in Hsame, Hc1, Hc2 |- *.
  apply runs_bind. eapply runs_lift; [exact Etbl|]. apply runs_bind. eapply runs_lift; [exact T0|]. apply runs_bind. eapply runs_lift; [done|].
  set (c1 := negb (i =? 0)%nat && same_db_table_name ns1 && bool_decide (tbl = tbl0)) in *.
  apply runs_bind. eapply runs_conseq; [apply runs_link_name_str; [by apply G3|]|].
  { intros Ec. destruct (Hc1 Ec) as [Hi0 ->]. destruct (HK Hi0) as (_ & (s & Es & Ws & _) & _ & _ & Hch). by simplify_eq. }
  intros [e|s] st1 Hs; [by apply runs_ret, (name_error_names tbl)|]. destruct Hs as [Ws Hct].
  apply runs_bind. eapply runs_lift; [exact Edb|]. apply runs_bind. eapply runs_lift; [exact D0|]. apply runs_bind. apply (runs_lift _ _ ds0); [done|].
  cbn [same_db_table_name upd_field]. set (c2 := _ && bool_decide (db = db0)).
  change c2 with (negb (i =? 0)%nat && (same_db_table_name ns1 && (c1 || (i =? 0)%nat)) && bool_decide (db = db0)) in *. clear c2.
  set (c2 := negb (i =? 0)%nat && (same_db_table_name ns1 && (c1 || (i =? 0)%nat)) && bool_decide (db = db0)) in *.
  apply runs_bind. eapply runs_conseq; [apply runs_link_name_str; [by apply G3|]|].
  { intros Ec. destruct (Hc2 Ec) as [Hi0 ->]. destruct (HK Hi0) as ((ds & Es & Wd & _) & _ & _ & Hch & _). by simplify_eq. }
  intros [e|ds] st2 Hds; [by apply runs_ret, (name_error_names db)|]. destruct Hds as [Wd Hcd]. apply runs_bind. apply (runs_lift _ _ dts0); [done|].
  apply runs_bind. eapply runs_conseq; [apply (runs_db_table_str _ _ db tbl); [by apply G3|by apply G3|done|done|]|].
  { intros [Hi0 Ec]%andb_true_iff. apply negb_true_iff, Nat.eqb_neq in Hi0. apply Hsame in Ec as [_ [|[-> ->]]]; [done|].
    destruct (HK Hi0) as (_ & _ & (dt & Edt & Wt) & _). by simplify_eq. }
  intros [r dt] st3 Hdt. apply runs_ret. cbn [fst snd] in *. destruct (r =? 0)%Z; [|by left].
  by eapply names_inv_step with (c1 := c1) (c2 := c2).
Qed.
Lemma runs_link_rounds k n ns st db0 tbl0 : names_given -> names_inv k ns -> (k + n = length (sql_dbton_ids L))%nat -> link_name 0 db0 tbl0 ->
  runs (link_rounds dbton_id L (seq k n) ns) st (fun r _ => match r with inl e => names_error e | inr ns' => names_inv (k + n) ns' end).
Proof.
  intros HG. revert k ns st. induction n as [|n IH]; intros k ns st Hinv Hk H0; simpl; [apply runs_ret; by rewrite Nat.add_0_r|].
  apply runs_bind. eapply runs_conseq; [eapply runs_link_names; [done|done|lia|done]|]. intros [e|ns'] st' H'; [by apply runs_ret|].
  eapply runs_conseq; [apply (IH (S k)); [done|lia|done]|]. intros r st'' Hr. by replace (k + S n)%nat with (S k + n)%nat by lia.
Qed.

Lemma runs_create_names st db0 tbl0 : names_given -> link_name 0 db0 tbl0 ->
  runs (create_table_names_str dbton_id L) st (fun r _ =>
    match r with inl e => names_error e | inr ns => names_inv (length (sql_dbton_ids L)) ns end).
Proof.
  intros HG H0. unfold create_table_names_str, new_bytes. apply runs_bind. eexists _, _. split; [done|].
  destruct (heap_oom (buf_tick st)) eqn:E1; cbn.
  { apply runs_bind, runs_ret. apply runs_bind, runs_ret, runs_ret. left. split; [done|by eexists]. }
  apply runs_bind. eexists _, _. split; [done|]. cbn. destruct (heap_oom (S (buf_tick st))) eqn:E2; cbn.
  { apply runs_bind, runs_ret, runs_ret. left. split; [done|by eexists]. }
  apply runs_bind. eexists _, _. split; [done|]. cbn. destruct (heap_oom (S (S (buf_tick st)))) eqn:E3; cbn.
  { apply runs_ret. left. split; [done|by eexists]. }
  eapply (runs_link_rounds 0); [done| |done|done]. split; cbn; [by rewrite !length_replicate|lia|]. split; [|done]. intros _ j db tbl db' tbl'. lia.
Qed.
End Links.

(** The data node reads [text] as the quoted [name] followed by [rest]. *)
Definition reads_name (text name rest : list N) : Prop :=
  exists t, scan_ident_delimited (C := utf8) text = (t, rest) /\ quote_unescape t 96 = name.

Lemma reads_quoted name rest : chars name -> 0 ∉ name -> default 0 (head rest) <> 96 -> reads_name (quoted name ++ rest) name rest.
Proof. intros Hc Hz Hr. exists (doubled name). split; [by apply scan_quoted|apply unescape_doubled]. Qed.

(** C12. create_table_names_str: for the links of a share with names in utf8, the first
    of which is of the wrapper, the result is an error (no memory, or a byte sequence
    in a name that is not a character) or, for every link of the wrapper, a text that
    its data node reads as the name of the database of that link, a dot and the name
    of its table, whatever characters are in the names, backquotes included; and
    same_db_table_name is set exactly if all these links have the names of the
    first one. *)
Theorem table_names_read_back {H : Heap} (dbton_id : N) (L : link_names) (st : buf_state) (db0 tbl0 : list N) :
  names_given L -> link_name dbton_id L 0 db0 tbl0 -> (forall name, name ∈ tgt_dbs L ++ tgt_table_names L -> 0 ∉ name) ->
  runs (create_table_names_str dbton_id L) st (fun r _ =>
    match r with
    | inl e => names_error L e
    | inr ns =>
        (forall i db tbl, link_name dbton_id L i db tbl -> exists s, db_table_str ns !! i = Some s /\
           forall rest, default 0 (head rest) <> 96 -> exists mid, reads_name (contents s ++ rest) db (46 :: mid) /\ reads_name mid tbl rest) /\
        (same_db_table_name ns = true <-> forall i db tbl, link_name dbton_id L i db tbl -> db = db0 /\ tbl = tbl0)
    end).
Proof.
  intros HG H0 Hz. eapply runs_conseq; [by eapply runs_create_names|]. intros [e|ns] st' H'; [done|]. destruct H' as [_ Hk Hs].
  assert (Hlt : forall i db tbl, link_name dbton_id L i db tbl -> (i < length (sql_dbton_ids L))%nat) by (intros i db tbl (Hi & _); by eapply lookup_lt_Some).
  split.
  - intros i db tbl Hi. destruct (Hk i db tbl (Hlt _ _ _ Hi) Hi) as (_ & _ & (s & Es & _ & Ec) & Hcd & Hct). exists s. split; [done|].
    intros rest Hr. exists (quoted tbl ++ rest). rewrite Ec. unfold table_text. rewrite <- app_assoc. destruct Hi as (_ & Ed & Et).
    split; apply reads_quoted; try done; apply Hz, elem_of_app; [left|right]; by eapply list_elem_of_lookup_2.
  - rewrite Hs. split; [intros Ha i db tbl Hi; apply (Ha i); [by eapply Hlt|done|done]|]. intros Ha i db tbl db' tbl' _ Hi H0'.
    destruct (Ha _ _ _ Hi) as [-> ->], (Ha _ _ _ H0') as [-> ->]. done.
Qed.

#[local] Existing Instance ex_heap.

(** Two links: the table [t`1] of the database [db], and the table [t2] of [db]. *)
Definition ex_links : link_names := mk_link_names [bytes "t`1"; bytes "t2"] [bytes "db"; bytes "db"] [1; 1].

Lemma table_names_read_back_witness :
  runs (create_table_names_str 1 ex_links) (mk_buf_state empty_buf 0) (fun r _ =>
    match r with
    | inl e => names_error ex_links e
    | inr ns =>
        (forall i db tbl, link_name 1 ex_links i db tbl -> exists s, db_table_str ns !! i = Some s /\
           forall rest, default 0 (head rest) <> 96 -> exists mid, reads_name (contents s ++ rest) db (46 :: mid) /\ reads_name mid tbl rest) /\
        (same_db_table_name ns = true <-> forall i db tbl, link_name 1 ex_links i db tbl -> db = bytes "db" /\ tbl = bytes "t`1")
    end).
Proof.
  apply (table_names_read_back 1 ex_links _ (bytes "db") (bytes "t`1")); [|done|].
  - split; [done|split; [done|]]. intros name Hn. cbn in Hn. rewrite !elem_of_cons, elem_of_nil in Hn. destruct Hn as [->|[->|[->|[->|[]]]]]; cbn; lia.
  - intros name Hn. cbn in Hn. rewrite !elem_of_cons, elem_of_nil in Hn.
    destruct Hn as [->|[->|[->|[->|[]]]]]; rewrite !elem_of_cons, elem_of_nil; intros Hz; repeat (destruct Hz as [Hz|Hz]; [done|]); done.
Defined.
