(* ===== verification/UpdateTheorems.v ===== *)
(** * The UPDATE statement for one row: its text and its memory

    What append_update, append_update_set and append_update_where write, that they
    stay inside the memory of the string where no compared column is of a floating
    point type, that they leave it otherwise, and what set_sql_for_exec executes on
    each link. *)

From Stdlib Require Import ZArith NArith Lia.
From stdpp Require Import base numbers list strings.
From S2P Require Import Prelude.
From S2P Require Import SqlString.
From S2P Require Import SqlEscape.
From S2P Require Import CString.
From S2P Require Import SqlNames.
From S2P Require Import SqlUpdate.
From S2P Require Import EscapeTheorems.
From S2P Require Import NameTheorems.
Local Open Scope spider_scope.
Local Open Scope N_scope.

(** ** The texts *)

Section Texts.
  Context {C : Charset} (U : upd_env).

Definition column (f : Field) : list N := default [] (column_name_str U !! field_index f).

Definition column_ref (f : Field) : list N := 96 :: column f ++ [96].

(** [`c` = value,] *)
Definition set_item (t : TABLE) (r : row) (f : Field) : list N :=
  if write_set t (field_index f) then
    column_ref f ++ bytes " = " ++ match r (field_index f) with None => bytes "null" | Some v => value_text f v false end ++ bytes ","
  else [].

(** [`c` = value and ] or [`c` is null and ] *)
Definition where_item (t : TABLE) (old : row) (f : Field) : list N :=
  if in_where U t f then
    column_ref f ++ match old (field_index f) with None => bytes " is null" | Some v => bytes " = " ++ value_text f v false end ++ bytes " and "
  else [].

Definition without_last (n : nat) (l : list N) : list N := take (length l - n) l.

Definition set_text (t : TABLE) (r : row) : list N := without_last 1 (bytes " set " ++ concat (set_item t r <$> fields t)).

Definition where_text (t : TABLE) (old : row) : list N :=
  without_last 5 (bytes " where " ++ concat (where_item t old <$> fields t)) ++ bytes " limit 1".

Definition head_text : list N :=
  bytes "update " ++ (if low_priority U then bytes "low_priority " else []) ++
  (if ignore_dup_key U && negb (insert_with_update U) then bytes "ignore " else []).

(** The place taken by the fields of a row at most. *)
Definition weight (r : row) (f : Field) : N := N.of_nat (length (column f)) + 2 * N.of_nat (length (default [] (r (field_index f)))) + 40.

Definition budget (r : row) (fs : list Field) : N := foldr (fun f n => weight r f + n) 0 fs.

(** Every field has its column name. *)
Definition named (fs : list Field) : Prop := forall f, f ∈ fs -> is_Some (column_name_str U !! field_index f).
End Texts.

Section Update.
  Context {C : Charset} {COk : CharsetOk C} {H : Heap} (U : upd_env).

(** The name of a column is appended where there is room. *)
Lemma runs_column_name f out room st : is_Some (column_name_str U !! field_index f) -> ready out room (buf st) ->
  N.of_nat (length (column U f)) + 2 <= room ->
  runs (append_column_name U (field_index f)) st (fun _ st' => ready (out ++ column_ref U f) (room - 2 - N.of_nat (length (column U f))) (buf st')).
Proof.
  intros [name En] Hr Hl. unfold column_ref, column in *. rewrite En in *. unfold append_column_name. apply runs_bind. eapply runs_lift; [exact En|].
  by apply runs_append_name.
Qed.

Lemma runs_column_length f st (Q : N -> buf_state -> Prop) : is_Some (column_name_str U !! field_index f) ->
  Q (N.of_nat (length (column U f))) st -> runs (column_name_length U (field_index f)) st Q.
Proof.
  intros [name En] HQ. unfold column in HQ. rewrite En in HQ. unfold column_name_length. apply runs_bind. eapply runs_lift; [exact En|]. by apply runs_ret.
Qed.

Lemma value_text_length f v b : N.of_nat (length (value_text f v b)) <= 2 * N.of_nat (length v) + 4.
Proof.
  unfold value_text. pose proof (escaped_length v). pose proof (escaped_length (v ++ if b then [37] else [])) as Hl. rewrite length_app in Hl.
  destruct (string_result f); [destruct (escaped_type f)|destruct (str_needs_quotes f)]; simpl; rewrite ?length_app; destruct b; simpl in *; lia.
Qed.

Lemma wrote_oom out text st : written out (buf st) /\ no_memory_left -> wrote out text HA_ERR_OUT_OF_MEM (buf st).
Proof. intros [[? ?] ?]. by right. Qed.

(** A value and the text after it. *)
Lemma runs_value_then f v sep out text st : written out (buf st) -> fits out v -> N.of_nat (length sep) <= 8 -> text = value_text f v false ++ sep ->
  runs (e ← append_column_value f (fun _ => v) None false;
        if negb (e =? 0)%Z then mret HA_ERR_OUT_OF_MEM else
        e ← reserve (N.of_nat (length sep));
        if (e : bool) then mret HA_ERR_OUT_OF_MEM else q_append sep;; mret 0%Z) st (fun r st' => wrote out text r (buf st')).
Proof.
  intros Hw Hf Hs ->. pose proof (value_text_length f v false). unfold fits in Hf. apply runs_bind.
  eapply runs_conseq; [by eapply (runs_column_value f (fun _ => v) None)|]. intros r st1 [(-> & H1)|(-> & Hok & Hm)]; [|apply runs_ret; by right]. cbn [negb Z.eqb].
  reserve_step; [rewrite length_app; lia|]. intros [] st2 H2; [apply runs_ret; right; by destruct H2 as [[? ?] ?]|].
  q_step; [done|]. intros [] st3 [H3 _]. apply runs_ret. left. by rewrite <- app_assoc in H3.
Qed.

Lemma runs_set_field t r f out st : is_Some (column_name_str U !! field_index f) -> written out (buf st) ->
  N.of_nat (length out) + weight U r f + 8400 < 2 ^ 32 ->
  runs (append_set_field U t r f) st (fun e st' => wrote out (set_item U t r f) e (buf st')).
Proof.
  intros Hn Hw Hf. unfold append_set_field, set_item, weight in *. destruct (write_set t (field_index f)); cbn [negb]; [|apply runs_ret; left; by rewrite app_nil_r].
  apply runs_bind, runs_column_length; [done|]. destruct (r (field_index f)) as [v|]; simpl in Hf.
  - rewrite uint32_small by lia. reserve_step; [lia|]. intros [] st1 H1; [by apply runs_ret, wrote_oom|]. apply runs_bind.
    eapply runs_conseq; [eapply runs_column_name; [done|exact H1|lia]|]. intros [] st2 H2. q_step; [simpl; lia|]. intros [] st3 [H3 _].
    eapply runs_conseq; [eapply (runs_value_then f v (bytes ",") _ _ st3 H3); [|done|done]|].
    { unfold fits, column_ref. rewrite !length_app. simpl. rewrite length_app. simpl. lia. }
    intros e st4 [(-> & H4)|?]; [left; split; [done|]; by rewrite <- !app_assoc in H4|by right].
  - rewrite uint32_small by lia. reserve_step; [lia|]. intros [] st1 H1; [by apply runs_ret, wrote_oom|]. apply runs_bind.
    eapply runs_conseq; [eapply runs_column_name; [done|exact H1|lia]|]. intros [] st2 H2. do 2 (q_step; [simpl; lia|]; clear H2; intros [] ? H2).
    q_step; [simpl; lia|]. intros [] st3 [H3 _]. apply runs_ret. left. split; [done|]. by rewrite <- !app_assoc in H3.
Qed.
(** No column of a floating point type is compared with a value. *)
Definition no_real (t : TABLE) (old : row) : Prop := forall f, f ∈ fields t -> in_where U t f = true -> is_real f = true -> old (field_index f) = None.

Lemma runs_where_field t old f out st : is_Some (column_name_str U !! field_index f) -> written out (buf st) ->
  N.of_nat (length out) + weight U old f + 8400 < 2 ^ 32 -> (in_where U t f = true -> is_real f = true -> old (field_index f) = None) ->
  runs (append_where_field U t old f) st (fun e st' => wrote out (where_item U t old f) e (buf st')).
Proof.
  intros Hn Hw Hf Hnr. unfold append_where_field, where_item, weight in *. destruct (in_where U t f); cbn [negb]; [|apply runs_ret; left; by rewrite app_nil_r].
  apply runs_bind, runs_column_length; [done|]. destruct (old (field_index f)) as [v|]; simpl in Hf.
  - assert (Er : is_real f = false) by (destruct (is_real f); [by specialize (Hnr eq_refl eq_refl)|done]). rewrite Er.
    rewrite uint32_small by lia. reserve_step; [lia|]. intros [] st1 H1; [by apply runs_ret, wrote_oom|]. apply runs_bind.
    eapply runs_conseq; [eapply runs_column_name; [done|exact H1|lia]|]. intros [] st2 H2. q_step; [simpl; lia|]. intros [] st3 [H3 _].
    eapply runs_conseq; [eapply (runs_value_then f v (bytes " and ") _ _ st3 H3); [|done|done]|].
    { unfold fits, column_ref. rewrite !length_app. simpl. rewrite length_app. simpl. lia. }
    intros e st4 [(-> & H4)|?]; [left; split; [done|]; by rewrite <- !app_assoc in H4|by right].
  - rewrite uint32_small by lia. reserve_step; [lia|]. intros [] st1 H1; [by apply runs_ret, wrote_oom|]. apply runs_bind.
    eapply runs_conseq; [eapply runs_column_name; [done|exact H1|lia]|]. intros [] st2 H2. q_step; [simpl; lia|]. intros [] st3 H3.
    q_step; [simpl; lia|]. intros [] st4 [H4 _]. apply runs_ret. left. split; [done|]. by rewrite <- !app_assoc in H4.
Qed.

Lemma column_ref_length f : length (column_ref U f) = (length (column U f) + 2)%nat.
Proof. unfold column_ref. cbn [length]. rewrite length_app. simpl. lia. Qed.

Lemma set_item_length t r f : N.of_nat (length (set_item U t r f)) <= weight U r f.
Proof.
  unfold set_item, weight. destruct (write_set t (field_index f)); [|simpl; lia]. rewrite !length_app, column_ref_length.
  destruct (r (field_index f)) as [v|]; [pose proof (value_text_length f v false)|]; simpl; lia.
Qed.

Lemma where_item_length t old f : N.of_nat (length (where_item U t old f)) <= weight U old f.
Proof.
  unfold where_item, weight. destruct (in_where U t f); [|simpl; lia]. rewrite !length_app, column_ref_length.
  destruct (old (field_index f)) as [v|]; [pose proof (value_text_length f v false); rewrite length_app|]; simpl; lia.
Qed.

Lemma items_length (item : Field -> list N) r fs : (forall f, N.of_nat (length (item f)) <= weight U r f) ->
  N.of_nat (length (concat (item <$> fs))) <= budget U r fs.
Proof.
  intros Hi. induction fs as [|f fs IH]; [done|]. change (budget U r (f :: fs)) with (weight U r f + budget U r fs).
  rewrite fmap_cons, concat_cons, length_app. specialize (Hi f). lia.
Qed.

Lemma without_last_length n l : (length (without_last n l) <= length l)%nat.
Proof. unfold without_last. rewrite length_take. lia. Qed.

Lemma set_text_length t r : N.of_nat (length (set_text U t r)) <= budget U r (fields t) + 5.
Proof.
  pose proof (items_length _ r (fields t) (set_item_length t r)). pose proof (without_last_length 1 (bytes " set " ++ concat (set_item U t r <$> fields t))) as Hl.
  unfold set_text. rewrite length_app in Hl. change (length (bytes " set ")) with 5%nat in Hl. lia.
Qed.

Lemma where_text_length t old : N.of_nat (length (where_text U t old)) <= budget U old (fields t) + 15.
Proof.
  pose proof (items_length _ old (fields t) (where_item_length t old)). pose proof (without_last_length 5 (bytes " where " ++ concat (where_item U t old <$> fields t))) as Hl.
  unfold where_text. rewrite length_app in Hl |- *. change (length (bytes " where ")) with 7%nat in Hl. change (length (bytes " limit 1")) with 8%nat. lia.
Qed.

Lemma head_text_length : (length (head_text U) <= 30)%nat.
Proof. unfold head_text. destruct (low_priority U), (_ && _); simpl; lia. Qed.

(** The loops over the fields. *)
Lemma runs_set_fields t r fs out st : named U fs -> written out (buf st) -> N.of_nat (length out) + budget U r fs + 8400 < 2 ^ 32 ->
  runs (append_set_fields U t r fs) st (fun e st' => wrote out (concat (set_item U t r <$> fs)) e (buf st')).
Proof.
  revert out st. induction fs as [|f fs IH]; intros out st Hn Hw Hf; [apply runs_ret; left; by rewrite app_nil_r|]. simpl in Hf.
  cbn [append_set_fields]. apply runs_andthen. eapply runs_conseq; [apply (runs_set_field t r f); [apply Hn; by left|exact Hw|lia]|].
  intros e st1 [(-> & H1)|(-> & ? & ?)]; [|by right]. pose proof (set_item_length t r f).
  eapply runs_conseq; [apply IH; [intros f' Hf'; apply Hn; by right|exact H1|rewrite length_app; lia]|].
  intros e st2 [(-> & H2)|?]; [left; split; [done|]; by rewrite <- app_assoc in H2|by right].
Qed.

Lemma runs_where_fields t old fs out st : named U fs -> written out (buf st) -> N.of_nat (length out) + budget U old fs + 8400 < 2 ^ 32 ->
  (forall f, f ∈ fs -> in_where U t f = true -> is_real f = true -> old (field_index f) = None) ->
  runs (append_where_fields U t old fs) st (fun e st' => wrote out (concat (where_item U t old <$> fs)) e (buf st')).
Proof.
  revert out st. induction fs as [|f fs IH]; intros out st Hn Hw Hf Hnr; [apply runs_ret; left; by rewrite app_nil_r|]. simpl in Hf.
  cbn [append_where_fields]. apply runs_andthen. eapply runs_conseq; [apply (runs_where_field t old f); [apply Hn; by left|exact Hw|lia|apply Hnr; by left]|].
  intros e st1 [(-> & H1)|(-> & ? & ?)]; [|by right]. pose proof (where_item_length t old f).
  eapply runs_conseq; [apply IH; [intros f' Hf'; apply Hn; by right|exact H1|rewrite length_app; lia|intros f' Hf'; apply Hnr; by right]|].
  intros e st2 [(-> & H2)|?]; [left; split; [done|]; by rewrite <- app_assoc in H2|by right].
Qed.

(** Bytes are taken off the end of what was written last. *)
Lemma runs_drop_last n out text st : written (out ++ text) (buf st) -> (n <= length text)%nat ->
  runs (drop_last (N.of_nat n)) st (fun _ st' => written (out ++ without_last n text) (buf st')).
Proof.
  intros Hw Hn. pose proof (written_length _ _ Hw) as El. rewrite length_app in El. destruct Hw as [[H1 H2 H3 H4 H5] Hc]. apply runs_modify. unfold without_last. split.
  - split; cbn; (done || lia).
  - unfold contents in *. cbn. rewrite El. replace (N.to_nat (N.of_nat (length out + length text) - N.of_nat n)) with (length out + (length text - n))%nat by lia.
    rewrite El, Nat2N.id in Hc. rewrite <- (Nat.min_l (length out + (length text - n)) (length out + length text)), <- take_take, Hc by lia.
    apply take_app_add.
Qed.
Lemma runs_update_set t r out st : named U (fields t) -> written out (buf st) -> N.of_nat (length out) + budget U r (fields t) + 8500 < 2 ^ 32 ->
  runs (append_update_set U t r) st (fun e st' => wrote out (set_text U t r) e (buf st')).
Proof.
  intros Hn Hw Hf. unfold append_update_set, set_text. reserve_step; [lia|]. intros [] st1 H1; [by apply runs_ret, wrote_oom|].
  q_step; [done|]. intros [] st2 [H2 _]. apply runs_andthen.
  eapply runs_conseq; [apply (runs_set_fields t r _ _ _ Hn H2); rewrite length_app; simpl; lia|].
  intros e st3 [(-> & H3)|(-> & ? & ?)]; [|by right]. rewrite <- app_assoc in H3. apply runs_bind.
  eapply runs_conseq; [apply (runs_drop_last 1 _ _ _ H3); simpl; lia|]. intros [] st4 H4. apply runs_ret. by left.
Qed.

Lemma runs_update_where t old out st : named U (fields t) -> no_real t old -> written out (buf st) ->
  N.of_nat (length out) + budget U old (fields t) + 8500 < 2 ^ 32 ->
  runs (append_update_where U t old) st (fun e st' => wrote out (where_text U t old) e (buf st')).
Proof.
  intros Hn Hnr Hw Hf. unfold append_update_where, where_text. reserve_step; [lia|]. intros [] st1 H1; [by apply runs_ret, wrote_oom|].
  q_step; [done|]. intros [] st2 [H2 _]. apply runs_andthen.
  eapply runs_conseq; [apply (runs_where_fields t old _ _ _ Hn H2); [rewrite length_app; simpl; lia|done]|].
  intros e st3 [(-> & H3)|(-> & ? & ?)]; [|by right]. rewrite <- app_assoc in H3. apply runs_bind.
  eapply runs_conseq; [apply (runs_drop_last 5 _ _ _ H3); simpl; lia|]. intros [] st4 H4.
  pose proof (where_text_length t old) as Hl. unfold where_text in Hl. rewrite length_app in Hl.
  reserve_step; [rewrite length_app; lia|]. intros [] st5 H5; [apply runs_ret; right; by destruct H5 as [[? ?] ?]|].
  q_step; [done|]. intros [] st6 [H6 _]. apply runs_ret. left. split; [done|]. by rewrite <- app_assoc in H6.
Qed.
(** An optional word of the statement. *)
Lemma runs_word (b : bool) word out st : written out (buf st) -> N.of_nat (length out) + N.of_nat (length word) + 8 < 2 ^ 32 ->
  runs (if b then e ← reserve (N.of_nat (length word)); if (e : bool) then mret true else q_append word;; mret false else mret false) st
    (fun e st' => if (e : bool) then buf_ok (buf st') /\ no_memory_left else written (out ++ if b then word else []) (buf st')).
Proof.
  intros Hw Hl. destruct b; [|apply runs_ret; by rewrite app_nil_r]. reserve_step; [done|]. intros [] st1 H1; [apply runs_ret; by destruct H1 as [[? ?] ?]|].
  q_step; [done|]. intros [] st2 [H2 _]. by apply runs_ret.
Qed.

(** ** The names of the links in the statement *)

Section Links.
  Context (dbton_id : N) (L : link_names).
  Hypothesis Hinv : names_inv dbton_id L (length (sql_dbton_ids L)) (names U).
  Hypothesis Hmax : db_nm_max_length (names U) + table_nm_max_length (names U) < 2 ^ 26.

(** The name in a statement, with the blanks after it. *)
Definition blanks_after (db tbl : list N) : list N :=
  replicate (N.to_nat (db_nm_max_length (names U) + table_nm_max_length (names U)) - length (doubled db) - length (doubled tbl)) 32.

Definition link_text (db tbl : list N) : list N := table_text db tbl ++ blanks_after db tbl.

(** A link of the handler and its names. *)
Definition handler_link (link_idx : nat) (db tbl : list N) : Prop :=
  exists i, conn_link_idx U !! link_idx = Some i /\ link_name dbton_id L i db tbl.

Lemma handler_link_kept link_idx db tbl : handler_link link_idx db tbl ->
  exists i ds ts, conn_link_idx U !! link_idx = Some i /\ db_names_str (names U) !! i = Some ds /\ contents ds = doubled db /\
    table_names_str (names U) !! i = Some ts /\ contents ts = doubled tbl /\ chars db /\ chars tbl /\
    N.of_nat (length (doubled db)) <= db_nm_max_length (names U) /\ N.of_nat (length (doubled tbl)) <= table_nm_max_length (names U).
Proof.
  intros (i & Ei & Hi). assert (Hlt : (i < length (sql_dbton_ids L))%nat) by (destruct Hi as (Hi & _); by eapply lookup_lt_Some).
  destruct (ni_kept _ _ _ _ Hinv i db tbl Hlt Hi) as ((ds & ? & [_ ?] & ?) & (ts & ? & [_ ?] & ?) & _ & ? & ?). by exists i, ds, ts.
Qed.

(** All names take the same place. *)
Lemma link_text_length link_idx db tbl : handler_link link_idx db tbl ->
  N.of_nat (length (link_text db tbl)) = db_nm_max_length (names U) + table_nm_max_length (names U) + 5.
Proof.
  intros Hl. destruct (handler_link_kept _ _ _ Hl) as (i & ds & ts & _ & _ & _ & _ & _ & _ & _ & H1 & H2).
  unfold link_text, table_text, quoted, blanks_after. rewrite length_app, length_replicate, length_app. cbn [length]. rewrite !length_app. cbn [length]. lia.
Qed.

Lemma runs_append_name_holds name out rest st : holds out rest (buf st) -> (length name + 2 <= length rest)%nat ->
  runs (append_name name) st (fun _ st' => holds (out ++ 96 :: name ++ [96]) (drop (length name + 2) rest) (buf st')).
Proof.
  intros Hh Hl. unfold append_name, name_quote. apply runs_bind. eapply runs_conseq; [apply q_append_holds; [exact Hh|simpl; lia]|]. intros [] st1 H1.
  apply runs_bind. eapply runs_conseq; [apply q_append_holds; [exact H1|rewrite length_drop; simpl; lia]|]. intros [] st2 H2.
  eapply runs_conseq; [apply q_append_holds; [exact H2|rewrite !length_drop; simpl; lia]|]. intros [] st3 H3.
  rewrite !drop_drop, <- !app_assoc in H3. simpl in H3. by replace (length name + 2)%nat with (1 + (length name + 1))%nat by lia.
Qed.

Lemma runs_adjusting link_idx db tbl out rest st : handler_link link_idx db tbl -> holds out rest (buf st) ->
  db_nm_max_length (names U) + table_nm_max_length (names U) + 5 <= N.of_nat (length rest) ->
  runs (append_table_name_with_adjusting U link_idx) st
    (fun _ st' => holds (out ++ link_text db tbl) (drop (length (link_text db tbl)) rest) (buf st')).
Proof.
  intros Hl Hr Hroom. pose proof (link_text_length _ _ _ Hl) as Hlen. destruct (handler_link_kept _ _ _ Hl) as (i & ds & ts & Ei & Eds & Ed & Ets & Et & _ & _ & H1 & H2).
  unfold append_table_name_with_adjusting. apply runs_bind. eapply runs_lift; [exact Ei|]. apply runs_bind. eapply runs_lift; [by rewrite Eds; simpl; rewrite Ed|].
  apply runs_bind. eapply runs_lift; [by rewrite Ets; simpl; rewrite Et|]. cbv beta.
  apply runs_bind. eapply runs_conseq; [apply runs_append_name_holds; [exact Hr|lia]|]. intros [] st1 G1.
  apply runs_bind. eapply runs_conseq; [apply q_append_holds; [exact G1|rewrite length_drop; simpl; lia]|]. intros [] st2 G2.
  apply runs_bind. eapply runs_conseq; [apply runs_append_name_holds; [exact G2|rewrite !length_drop; simpl; lia]|]. intros [] st3 G3.
  rewrite Z.mod_small by lia.
  replace (N.to_nat (Z.to_N _)) with (N.to_nat (db_nm_max_length (names U) + table_nm_max_length (names U)) - length (doubled db) - length (doubled tbl))%nat by lia.
  eapply runs_conseq; [apply q_append_holds; [exact G3|rewrite !length_drop, length_replicate; simpl; lia]|]. intros [] st4 G4.
  rewrite !drop_drop, length_replicate in G4.
  match type of G4 with holds ?o (drop ?n _) _ => assert (Eo : o = out ++ link_text db tbl); [|assert (En : n = length (link_text db tbl)) by (change (length (bytes ".")) with 1%nat; lia)] end.
  { unfold link_text, table_text, quoted, blanks_after. rewrite <- !app_assoc. simpl. by rewrite <- !app_assoc. }
  by rewrite Eo, En in G4.
Qed.

(** ** The statement *)

Lemma runs_update_head link_idx db tbl out st : handler_link link_idx db tbl -> written out (buf st) ->
  N.of_nat (length out) + 2 ^ 26 + 100 < 2 ^ 32 ->
  runs (append_update_head U link_idx) st (fun r st' =>
    match r with
    | inl e => e = HA_ERR_OUT_OF_MEM /\ buf_ok (buf st') /\ no_memory_left
    | inr pos => pos = N.of_nat (length (out ++ head_text U)) /\ written (out ++ head_text U ++ link_text db tbl) (buf st')
    end).
Proof.
  intros Hl Hw Hf. unfold append_update_head, head_text. reserve_step; [lia|]. intros [] st1 H1; [apply runs_ret; by destruct H1 as [[? ?] ?]|].
  q_step; [done|]. intros [] st2 [H2 _]. apply runs_bind.
  eapply runs_conseq; [apply (runs_word _ (bytes "low_priority ") _ _ H2); rewrite length_app; simpl; lia|]. intros [] st3 H3; [by apply runs_ret|].
  apply runs_bind. eapply runs_conseq; [apply (runs_word _ (bytes "ignore ") _ _ H3); rewrite !length_app; destruct (low_priority U); simpl; lia|].
  intros [] st4 H4; [by apply runs_ret|]. rewrite uint32_small by lia.
  reserve_step; [rewrite !length_app; destruct (low_priority U), (_ && _); simpl; lia|].
  intros [] st5 H5; [apply runs_ret; by destruct H5 as [[? ?] ?]|]. apply runs_bind, runs_gets. apply ready_holds in H5 as (rest & H5 & Hrest).
  apply runs_bind. eapply runs_conseq; [apply (runs_adjusting _ _ _ _ _ _ Hl H5); lia|]. intros [] st6 H6. apply runs_ret.
  rewrite <- !app_assoc in *. destruct H5 as (_ & E5 & _). apply holds_written in H6. by split.
Qed.
(** The rows and the text before them leave room for the statement. *)
Definition room_for (t : TABLE) (r old : row) (out : list N) : Prop :=
  N.of_nat (length out) + budget U r (fields t) + budget U old (fields t) + 2 ^ 26 + 10000 < 2 ^ 32.

Lemma runs_append_update t r old out st db tbl : handler_link 0 db tbl -> named U (fields t) -> no_real t old -> room_for t r old out ->
  written out (buf st) ->
  runs (append_update U t r old) st (fun p st' =>
    match p with
    | inl e => e = HA_ERR_OUT_OF_MEM /\ buf_ok (buf st') /\ no_memory_left
    | inr pos => let before := out ++ (if 0 <? N.of_nat (length out) then bytes ";" else []) ++ head_text U in
        pos = N.of_nat (length before) /\ written (before ++ link_text db tbl ++ set_text U t r ++ where_text U t old) (buf st')
    end).
Proof.
  intros Hl Hn Hnr Hf Hw. unfold room_for in Hf. unfold append_update. apply runs_bind, runs_gets. rewrite (written_length _ _ Hw). apply runs_bind.
  eapply runs_conseq; [apply (runs_word _ (bytes ";") _ _ Hw); simpl; lia|]. intros [] st1 H1; [by apply runs_ret|].
  set (sep := if 0 <? N.of_nat (length out) then bytes ";" else []) in *. assert (Hsep : (length sep <= 1)%nat) by (unfold sep; destruct (0 <? _); simpl; lia).
  apply runs_bind. eapply runs_conseq; [apply (runs_update_head _ _ _ _ _ Hl H1); rewrite length_app; lia|]. intros [e|pos] st2 H2; [by apply runs_ret|].
  destruct H2 as [-> H2]. pose proof (link_text_length _ _ _ Hl) as Hll. pose proof head_text_length as Hh. pose proof (set_text_length t r) as Hs.
  apply runs_bind, runs_andthen. eapply runs_conseq; [apply (runs_update_set t r _ _ Hn H2); rewrite !length_app; lia|].
  intros e st3 [(-> & H3)|(-> & ? & ?)]; [|by apply runs_ret].
  eapply runs_conseq; [apply (runs_update_where t old _ _ Hn Hnr H3); rewrite !length_app; lia|].
  intros e st4 [(-> & H4)|(-> & ? & ?)]; apply runs_ret; [|done]. rewrite Z.eqb_refl. cbv zeta. rewrite <- !app_assoc in *. by split.
Qed.

Lemma handler_link_inj link_idx db tbl db' tbl' : handler_link link_idx db tbl -> handler_link link_idx db' tbl' -> db = db' /\ tbl = tbl'.
Proof. intros (i & Ei & _ & Ed & Et) (j & Ej & _ & Ed' & Et'). by simplify_eq. Qed.

(** The links have the names of the first one if the flag says so. *)
Lemma same_names link_idx db tbl dbA tblA : same_db_table_name (names U) = true -> link_name dbton_id L 0 dbA tblA -> handler_link link_idx db tbl ->
  db = dbA /\ tbl = tblA.
Proof.
  intros Hs H0 (i & _ & Hi). apply (ni_same _ _ _ _ Hinv) with (i := i); [done| |done|done]. destruct Hi as (Hi & _). by eapply lookup_lt_Some.
Qed.

Lemma runs_set_sql link_idx db0 tbl0 db tbl dbA tblA before after update_sql st :
  handler_link (first_link_idx U) db0 tbl0 -> handler_link link_idx db tbl -> link_name dbton_id L 0 dbA tblA ->
  contents update_sql = before ++ link_text db0 tbl0 ++ after -> buf_ok (buf st) -> N.of_nat (length (contents update_sql)) + 8 < 2 ^ 32 ->
  runs (set_sql_for_exec U (N.of_nat (length before)) link_idx update_sql) st (fun r st' =>
    match r with
    | inl e => e = HA_ERR_OUT_OF_MEM /\ no_memory_left
    | inr s => contents s = before ++ link_text db tbl ++ after
    end).
Proof.
  intros Hl0 Hl HA Hc Hok Hlen. unfold set_sql_for_exec. destruct (_ || _) eqn:E.
  { apply runs_ret. rewrite Hc. apply orb_true_iff in E as [E|E].
    - destruct (same_names _ _ _ _ _ E HA Hl0) as [-> ->], (same_names _ _ _ _ _ E HA Hl) as [-> ->]. done.
    - apply Nat.eqb_eq in E as ->. by destruct (handler_link_inj _ _ _ _ _ Hl Hl0) as [-> ->]. }
  apply runs_bind. eapply runs_conseq; [by apply runs_string_copy|]. intros [] st1 H1; [by apply runs_ret|]. rewrite Hc in H1. apply written_holds in H1.
  set (rest := drop _ _) in H1. clearbody rest. apply runs_bind, runs_gets. rewrite (proj1 (proj2 H1)). apply runs_bind, runs_modify.
  assert (Ell : length (link_text db tbl) = length (link_text db0 tbl0)) by (apply link_text_length in Hl, Hl0; lia).
  pose proof (link_text_length _ _ _ Hl0) as El0. apply runs_bind.
  eapply runs_conseq; [eapply runs_adjusting; [exact Hl|eapply (holds_length _ _ before (link_text db0 tbl0 ++ after ++ rest)); [exact H1|by rewrite <- !app_assoc]|]|].
  { rewrite length_app. lia. }
  intros [] st2 H2. rewrite Ell, drop_app_length in H2. apply runs_bind, runs_modify. apply runs_bind, runs_gets. apply runs_ret. cbv beta delta [id].
  replace (length (before ++ link_text db0 tbl0 ++ after)) with (length (before ++ link_text db tbl ++ after)) by (rewrite !length_app; lia).
  eapply (holds_length _ _ (before ++ link_text db tbl ++ after) rest) in H2; [|by rewrite <- !app_assoc]. apply holds_written in H2 as [_ H2]. exact H2.
Qed.
End Links.
End Update.

(** ** Memory that is too small *)

(** The memory of a string after [reserve k]. *)
Definition reserved (s : string_buf) (k : N) : N :=
  if Alloced_length s <=? str_length s + k then ALIGN_SIZE (str_length s + k + 1) else Alloced_length s.

Definition keeps_memory {A} (m : M buf_state A) : Prop :=
  forall st a st', m st = Some (a, st') -> length (Ptr (buf st')) = length (Ptr (buf st)).

Lemma bind_keeps_memory {A B} (m : M buf_state A) (f : A -> M buf_state B) :
  keeps_memory m -> (forall a, keeps_memory (f a)) -> keeps_memory (m ≫= f).
Proof.
  intros Hm Hf st b st' E. unfold mbind, M_bind in E. destruct (m st) as [[a st1]|] eqn:E1; [|done].
  apply Hm in E1. apply Hf in E. congruence.
Qed.

Lemma q_append_keeps_memory data : keeps_memory (q_append data).
Proof.
  intros st [] st' E. unfold q_append, put_bytes, get_buf, set_buf, mbind, M_bind, gets, lift_opt, modify in E.
  destruct (write _ _ _) as [mem|] eqn:Ew; [|done]. injection E as <-. exact (write_length _ _ _ _ Ew).
Qed.

Lemma column_name_keeps_memory U i : keeps_memory (append_column_name U i).
Proof.
  apply bind_keeps_memory.
  - intros st a st' E. unfold lift_opt in E. destruct (column_name_str U !! i); [|done]. by injection E as _ <-.
  - intros name. apply bind_keeps_memory; [apply q_append_keeps_memory|intros _].
    apply bind_keeps_memory; [apply q_append_keeps_memory|intros _]. apply q_append_keeps_memory.
Qed.

(** Bytes that do not fit are written outside of the memory. *)
Lemma q_append_outside data st : N.of_nat (length (Ptr (buf st))) < str_length (buf st) + N.of_nat (length data) -> q_append data st = None.
Proof.
  intros Hl. unfold q_append, put_bytes, get_buf, mbind, M_bind, gets, lift_opt, write. rewrite decide_False by lia. done.
Qed.

Lemma runs_reserve_memory {H : Heap} k st :
  buf_ok (buf st) -> alloced (buf st) = true -> heap_oom (buf_tick st) = false -> str_length (buf st) + k + 9 < 2 ^ 32 ->
  runs (reserve k) st (fun e st' => e = false /\ grown k (buf st) (buf st') /\ N.of_nat (length (Ptr (buf st'))) = reserved (buf st) k).
Proof.
  intros Hok Ha Ho Hk. pose proof (runs_reserve k st Hok ltac:(lia)) as (e & st' & E & HQ).
  enough (runs (reserve k) st (fun e st' => e = false /\ N.of_nat (length (Ptr (buf st'))) = reserved (buf st) k)) as (e' & st'' & E' & -> & Hm).
  { rewrite E in E'. injection E' as -> ->. by exists false, st''. }
  clear e st' E HQ. unfold reserve, get_buf. apply runs_bind, runs_gets. rewrite uint32_small by lia. unfold reserved, realloc.
  set (n := str_length (buf st) + k) in *. pose proof (ALIGN_SIZE_le (n + 1)) as [Hal Hau]. pose proof (buf_owned _ Hok Ha) as Hm.
  apply runs_bind. unfold realloc_raw, get_buf. apply runs_bind, runs_gets. cbv beta delta [id]. cbv zeta. rewrite (uint32_small (ALIGN_SIZE (n + 1))) by lia.
  destruct (N.leb_spec (Alloced_length (buf st)) n) as [Hle|Hlt].
  - rewrite (proj2 (N.leb_gt _ _)) by lia. apply runs_bind. unfold new_bytes, runs at 1. rewrite Ho. eexists _, _. split; [done|]. rewrite Ha.
    apply runs_bind, runs_modify, runs_ret. apply runs_bind.
    assert (El : length (take (N.to_nat (ALIGN_SIZE (n + 1))) (Ptr (buf st) ++ drop (length (Ptr (buf st))) (junk (buf_tick st) <$> seq 0 (N.to_nat (ALIGN_SIZE (n + 1)))))) =
      N.to_nat (ALIGN_SIZE (n + 1))) by (rewrite length_take, length_app, length_drop, length_junk; lia).
    apply runs_put_bytes; cbn -[take seq]; [rewrite El; simpl; lia|]. intros mem Hw. apply runs_ret. split; [done|]. cbn. rewrite (write_length _ _ _ _ Hw), El. lia.
  - apply runs_ret, runs_bind, runs_put_bytes; [simpl; lia|]. intros mem Hw. apply runs_ret. split; [done|]. cbn. rewrite (write_length _ _ _ _ Hw). lia.
Qed.

Lemma head_set {C : Charset} U t r l k : default 0 (head (replicate k 32 ++ set_text U t r ++ l)) <> 96.
Proof. destruct k; [|done]. unfold set_text, without_last. rewrite length_app. simpl. done. Qed.

(** C13. If no column of a floating point type is compared with a value,
    append_update writes the statement for a row after those that are in the string
    and never outside of its memory, whatever the names and the values are: the result is
    HA_ERR_OUT_OF_MEM, and then there was no memory, or the text is exactly that of
    the statement, in which NULLs are compared with IS NULL, values are escaped, the
    last comma and the last AND are taken off, and table_name_pos is the place of the
    table name. *)
Theorem update_statement_exact {C : Charset} {COk : CharsetOk C} {H : Heap} U dbton_id L t r old out st db tbl :
  names_inv dbton_id L (length (sql_dbton_ids L)) (names U) -> db_nm_max_length (names U) + table_nm_max_length (names U) < 2 ^ 26 ->
  handler_link U dbton_id L 0 db tbl -> named U (fields t) -> no_real U t old -> room_for U t r old out -> written out (buf st) ->
  runs (append_update U t r old) st (fun p st' =>
    match p with
    | inl e => e = HA_ERR_OUT_OF_MEM /\ buf_ok (buf st') /\ no_memory_left
    | inr pos => let before := out ++ (if 0 <? N.of_nat (length out) then bytes ";" else []) ++ head_text U in
        pos = N.of_nat (length before) /\ written (before ++ link_text U db tbl ++ set_text U t r ++ where_text U t old) (buf st')
    end).
Proof. intros Hinv Hmax Hl Hn Hnr Hf Hw. by eapply runs_append_update. Qed.

(** C10. The statement that is executed on a link differs from the one that was
    written only in the table name, and its data node reads there the names of the
    database and of the table of that link: for a statement that append_update wrote
    into an empty string with the name of the first link ([first_link_idx] is 0) and
    in which no column of a floating point type is compared with a value, and for
    every link whose names have no 0, set_sql_for_exec gives the statement with the
    name of the link and blanks up to the length of the longest name, and neither the
    text before the name nor the text after it has changed; or there was no memory
    and the result is HA_ERR_OUT_OF_MEM. *)
Theorem statement_names_its_link {C : Charset} {COk : CharsetOk C} {H : Heap} U dbton_id L t r old st link_str link_idx db0 tbl0 db tbl dbA tblA :
  names_inv dbton_id L (length (sql_dbton_ids L)) (names U) -> db_nm_max_length (names U) + table_nm_max_length (names U) < 2 ^ 26 ->
  first_link_idx U = 0%nat -> handler_link U dbton_id L 0 db0 tbl0 -> handler_link U dbton_id L link_idx db tbl -> link_name dbton_id L 0 dbA tblA ->
  0 ∉ db -> 0 ∉ tbl -> named U (fields t) -> no_real U t old -> room_for U t r old [] -> written [] (buf st) -> buf_ok link_str ->
  runs (p ← append_update U t r old;
        match p with
        | inl e => mret (inl e)
        | inr pos => s ← get_buf id; q ← on_buf link_str (set_sql_for_exec U pos link_idx s); mret q.1
        end) st (fun res _ =>
    match res with
    | inl e => e = HA_ERR_OUT_OF_MEM /\ no_memory_left
    | inr s => exists text mid, contents s = head_text U ++ text /\ reads_name text db (46 :: mid) /\
        reads_name mid tbl (blanks_after U db tbl ++ set_text U t r ++ where_text U t old)
    end).
Proof.
  intros Hinv Hmax Hfi Hl0 Hl HA Hz1 Hz2 Hn Hnr Hf Hw Hok. apply runs_bind. eapply runs_conseq; [by eapply (runs_append_update U dbton_id L)|].
  intros [e|pos] st1 H1; [apply runs_ret; by destruct H1 as (? & ? & ?)|]. destruct H1 as [-> H1]. cbn [length N.of_nat N.ltb N.compare app] in *.
  apply runs_bind, runs_gets. apply runs_bind, runs_on_buf. pose proof (written_length _ _ H1) as El1. destruct H1 as [Hok1 Hc1]. rewrite <- Hfi in Hl0.
  eapply runs_conseq; [eapply (runs_set_sql U dbton_id L Hinv Hmax link_idx db0 tbl0 db tbl); [done|done|done|exact Hc1|done|]|].
  { unfold id. rewrite Hc1, (length_app (head_text U)), (length_app (link_text U db0 tbl0)), (length_app (set_text U t r)). pose proof (head_text_length U). pose proof (set_text_length U t r). pose proof (where_text_length U t old).
    pose proof (link_text_length U dbton_id L Hinv Hmax _ _ _ Hl0). unfold room_for in Hf. simpl length in Hf. lia. }
  intros [e|s] st2 H2; apply runs_ret; [done|]. exists (link_text U db tbl ++ set_text U t r ++ where_text U t old), (quoted tbl ++ blanks_after U db tbl ++ set_text U t r ++ where_text U t old).
  destruct (handler_link_kept U dbton_id L Hinv _ _ _ Hl) as (_ & _ & _ & _ & _ & _ & _ & _ & Hcd & Hct & _). split; [exact H2|].
  split; [|apply reads_quoted; [done|done|apply head_set]]. unfold link_text, table_text. rewrite <- !app_assoc. cbn [app]. by apply reads_quoted.
Qed.

(** C35. append_update_where writes outside of the memory of its string: for a column of
    a floating point type it reserves the place for [ = ] and appends [ like ], three
    bytes more.  For every such column that is compared with a value, every text that
    is in the string and every memory of it: if the memory after the reservation has
    less than three bytes beyond what was reserved (it always has one), the
    reservation succeeds, the name of the column is written, and then the bytes of
    [ like ] do not fit and are written behind the memory. *)
Theorem like_outside_of_memory {C : Charset} {COk : CharsetOk C} {H : Heap} U t old f v st :
  is_real f = true -> in_where U t f = true -> old (field_index f) = Some v -> is_Some (column_name_str U !! field_index f) ->
  buf_ok (buf st) -> alloced (buf st) = true -> heap_oom (buf_tick st) = false ->
  let needed := N.of_nat (length (column U f)) + 2 + 3 in
  str_length (buf st) + needed + 9 < 2 ^ 32 -> reserved (buf st) needed < str_length (buf st) + needed + 3 ->
  runs (e ← reserve needed; append_column_name U (field_index f);; mret e) st (fun e st' => e = false /\
    written (contents (buf st) ++ column_ref U f) (buf st') /\ N.of_nat (length (Ptr (buf st'))) < str_length (buf st') + 6 /\
    q_append (bytes " like ") st' = None) /\
  append_where_field U t old f st = None.
Proof.
  intros Hr Hw Hv Hn Hok Ha Ho needed Hs Hm.
  assert (runs (e ← reserve needed; append_column_name U (field_index f);; mret e) st (fun e st' => e = false /\
    written (contents (buf st) ++ column_ref U f) (buf st') /\ N.of_nat (length (Ptr (buf st'))) < str_length (buf st') + 6)) as (e & st' & E & -> & Hst & Hl).
  { apply runs_bind. eapply runs_conseq; [by apply runs_reserve_memory|]. intros e st1 (-> & [G1 G2 G3 G4] & El).
    destruct (runs_column_name U f (contents (buf st)) needed st1 Hn) as ([] & st2 & E2 & [R1 R2]); [split; [by split|lia]|lia|].
    apply runs_bind. exists tt, st2. split; [exact E2|]. apply runs_ret. split_and!; [done|done|].
    rewrite (column_name_keeps_memory _ _ _ _ _ E2), (written_length _ _ R1), length_app, column_ref_length.
    pose proof (written_length _ _ (conj Hok eq_refl)). lia. }
  assert (q_append (bytes " like ") st' = None) as Hq by (apply q_append_outside; simpl; lia). split; [by exists false, st'|].
  destruct Hn as [name En]. assert (Ec : column_name_length U (field_index f) st = Some (N.of_nat (length (column U f)), st)).
  { unfold column_name_length, column, mbind, M_bind, lift_opt. by rewrite En. }
  unfold append_where_field. rewrite Hw. cbn [negb]. rewrite (bind_eq _ _ _ _ _ Ec), Hv, uint32_small by lia.
  unfold mbind at 1, M_bind at 1 in E. destruct (reserve needed st) as [[e1 st1]|] eqn:Er; [|done].
  unfold mbind at 1, M_bind at 1 in E. destruct (append_column_name U (field_index f) st1) as [[[] st2]|] eqn:En1; [|done]. injection E as -> ->.
  rewrite (bind_eq _ _ _ _ _ Er), (bind_eq _ _ _ _ _ En1), Hr. unfold mbind at 1, M_bind at 1. by rewrite Hq.
Qed.

(** ** A table with two links *)

#[local] Existing Instance ex_heap.

Definition ex_names : name_strs :=
  match create_table_names_str 1 ex_links (mk_buf_state empty_buf 0) with
  | Some (inr ns, _) => ns
  | _ => mk_name_strs [] [] [] false 0 0 0
  end.

Lemma ex_link_name : link_name 1 ex_links 0 (bytes "db") (bytes "t`1") /\ link_name 1 ex_links 1 (bytes "db") (bytes "t2").
Proof. done. Qed.

Lemma ex_names_inv : names_inv 1 ex_links 2 ex_names.
Proof.
  destruct (runs_create_names 1 ex_links (mk_buf_state empty_buf 0) (bytes "db") (bytes "t`1")) as (r & w & E & Hr); [|done|].
  - split; [done|split; [done|]]. intros name Hn. cbn in Hn. rewrite !elem_of_cons, elem_of_nil in Hn. destruct Hn as [->|[->|[->|[->|[]]]]]; cbn; lia.
  - unfold ex_names. rewrite E. destruct r as [e|ns]; [|done]. vm_compute in E. discriminate.
Qed.

Definition ex_env : upd_env := mk_upd_env [bytes "id"; bytes "c"] ex_names [0; 1]%nat 0 true false false false.

(** The key [id] is a number; [c] is a text. *)
Definition ex_table : TABLE :=
  mk_table [mk_field 0 3 3 false false; mk_field 1 MYSQL_TYPE_VARCHAR MYSQL_TYPE_VARCHAR true true] [mk_key_info true [0%nat]] (Some 0%nat)
    (fun _ => true) (fun i => (i =? 1)%nat).

Definition ex_old : row := fun i => if (i =? 0)%nat then Some (bytes "7") else None.
Definition ex_new : row := fun i => if (i =? 0)%nat then Some (bytes "7") else Some (bytes "it's").

Lemma ex_named : named ex_env (fields ex_table).
Proof. intros f Hf. cbn in Hf. rewrite !elem_of_cons, elem_of_nil in Hf. destruct Hf as [->|[->|[]]]; by eexists. Qed.

Lemma ex_no_real : no_real ex_env ex_table ex_old.
Proof. intros f Hf. cbn in Hf. rewrite !elem_of_cons, elem_of_nil in Hf. by destruct Hf as [->|[->|[]]]. Qed.

Lemma update_statement_exact_witness :
  runs (append_update (C := utf8) ex_env ex_table ex_new ex_old) (mk_buf_state empty_buf 0) (fun p st' =>
    match p with
    | inl e => e = HA_ERR_OUT_OF_MEM /\ buf_ok (buf st') /\ no_memory_left
    | inr pos => let before := [] ++ (if 0 <? N.of_nat (length (@nil N)) then bytes ";" else []) ++ head_text ex_env in
        pos = N.of_nat (length before) /\
        written (before ++ link_text ex_env (bytes "db") (bytes "t`1") ++ set_text (C := utf8) ex_env ex_table ex_new ++ where_text (C := utf8) ex_env ex_table ex_old) (buf st')
    end).
Proof.
  apply (update_statement_exact (C := utf8) ex_env 1 ex_links ex_table ex_new ex_old [] (mk_buf_state empty_buf 0) (bytes "db") (bytes "t`1")).
  - apply ex_names_inv.
  - vm_compute. done.
  - exists 0%nat. by split.
  - apply ex_named.
  - apply ex_no_real.
  - vm_compute. done.
  - apply empty_written.
Defined.

Lemma statement_names_its_link_witness :
  runs (p ← append_update (C := utf8) ex_env ex_table ex_new ex_old;
        match p with
        | inl e => mret (inl e)
        | inr pos => s ← get_buf id; q ← on_buf empty_buf (set_sql_for_exec ex_env pos 1 s); mret q.1
        end) (mk_buf_state empty_buf 0) (fun res _ =>
    match res with
    | inl e => e = HA_ERR_OUT_OF_MEM /\ no_memory_left
    | inr s => exists text mid, contents s = head_text ex_env ++ text /\ reads_name text (bytes "db") (46 :: mid) /\
        reads_name mid (bytes "t2") (blanks_after ex_env (bytes "db") (bytes "t2") ++ set_text (C := utf8) ex_env ex_table ex_new ++ where_text (C := utf8) ex_env ex_table ex_old)
    end).
Proof.
  apply (statement_names_its_link (C := utf8) ex_env 1 ex_links ex_table ex_new ex_old (mk_buf_state empty_buf 0) empty_buf 1
    (bytes "db") (bytes "t`1") (bytes "db") (bytes "t2") (bytes "db") (bytes "t`1")).
  - apply ex_names_inv.
  - vm_compute. done.
  - done.
  - exists 0%nat. by split.
  - exists 1%nat. by split.
  - done.
  - apply (bool_decide_eq_true_1 _). vm_compute. reflexivity.
  - apply (bool_decide_eq_true_1 _). vm_compute. reflexivity.
  - apply ex_named.
  - apply ex_no_real.
  - vm_compute. done.
  - apply empty_written.
  - apply empty_written.
Defined.

(** A table with a column [c] of type DOUBLE and no key. *)
Definition ex_double : TABLE := mk_table [mk_field 0 MYSQL_TYPE_DOUBLE MYSQL_TYPE_DOUBLE false false] [] None (fun _ => true) (fun _ => true).

Definition ex_double_env : upd_env := mk_upd_env [bytes "c"] ex_names [0%nat] 0 false false false false.

Lemma like_outside_of_memory_witness :
  let st := mk_buf_state (mk_buf (replicate 16 120) 9 16 0 true) 0 in
  append_where_field (C := utf8) ex_double_env ex_double (fun _ => Some (bytes "1.5")) (mk_field 0 MYSQL_TYPE_DOUBLE MYSQL_TYPE_DOUBLE false false) st = None.
Proof.
  apply (like_outside_of_memory (C := utf8) ex_double_env ex_double (fun _ => Some (bytes "1.5"))
    (mk_field 0 MYSQL_TYPE_DOUBLE MYSQL_TYPE_DOUBLE false false) (bytes "1.5")
    (mk_buf_state (mk_buf (replicate 16 120) 9 16 0 true) 0)); try reflexivity.
  - by eexists.
  - split; vm_compute; congruence.
Defined.
