(* ===== verification/WhereTheorems.v ===== *)
(** * The condition of an index read: its text and its meaning

    The text that spider_db_append_key_where_internal writes, within the memory of the
    string, and which rows it selects: those of the range, for ranges whose ends
    agree but for their last key part; and ranges of which rows are lost. *)

From Stdlib Require Import ZArith NArith Lia.
From stdpp Require Import base numbers list strings.
From S2P Require Import Prelude.
From S2P Require Import SqlString.
From S2P Require Import SqlEscape.
From S2P Require Import CString.
From S2P Require Import SqlNames.
From S2P Require Import SqlUpdate.
From S2P Require Import KeyWhere.
From S2P Require Import EscapeTheorems.
From S2P Require Import NameTheorems.
From S2P Require Import UpdateTheorems.
Local Open Scope spider_scope.
Local Open Scope N_scope.

(** ** The text *)

Section Text.
  Context {C : Charset} {COk : CharsetOk C} {H : Heap} (U : upd_env) (val_str : Field -> option (list N) -> list N) (to_like : bool).

(** The value of a key part. *)
Definition key_value (kp : key_part) (ptr : list N) : list N := default [] (column_text (kp_field kp) (val_str (kp_field kp)) (Some ptr)).

Definition cond_text (c : cond) : list N :=
  match c with
  | is_null kp => column_ref U (kp_field kp) ++ bytes " is null"
  | is_not_null kp => column_ref U (kp_field kp) ++ bytes " is not null"
  | equal_or_like kp ptr => column_ref U (kp_field kp) ++ (if is_like to_like kp then bytes " like " else bytes " = ") ++
      value_text (kp_field kp) (key_value kp ptr) (is_like to_like kp)
  | equal kp ptr => column_ref U (kp_field kp) ++ bytes " = " ++ value_text (kp_field kp) (key_value kp ptr) false
  | compare kp op ptr => column_ref U (kp_field kp) ++ op_text op ++ value_text (kp_field kp) (key_value kp ptr) false
  | mbr kp function ptr => bytes function ++ value_text (kp_field kp) (key_value kp ptr) false ++ bytes "," ++ column_ref U (kp_field kp) ++ bytes ")"
  end.

(** The column has a name and the key holds a value. *)
Definition part_ready (kp : key_part) : Prop := is_Some (column_name_str U !! field_index (kp_field kp)).

Definition value_ready (kp : key_part) (ptr : list N) : Prop := is_Some (column_text (kp_field kp) (val_str (kp_field kp)) (Some ptr)).

Definition cond_ready (c : cond) : Prop :=
  match c with
  | is_null kp | is_not_null kp => part_ready kp
  | equal_or_like kp ptr | equal kp ptr | compare kp _ ptr => part_ready kp /\ value_ready kp ptr
  | mbr kp function ptr => part_ready kp /\ value_ready kp ptr /\ (length (bytes function) <= 20)%nat
  end.

(** The place taken by a condition at most. *)
Definition cond_weight (c : cond) : N :=
  match c with
  | is_null kp | is_not_null kp => N.of_nat (length (column U (kp_field kp))) + 40
  | equal_or_like kp ptr | equal kp ptr | compare kp _ ptr | mbr kp _ ptr =>
      N.of_nat (store_length kp) + N.of_nat (length (column U (kp_field kp))) + 2 * N.of_nat (length (key_value kp ptr)) + 80
  end.

Definition conds_weight (cs : list cond) : N := foldr (fun c n => cond_weight c + n) 0 cs.






Lemma cond_text_length c : cond_ready c -> N.of_nat (length (cond_text c)) + 5 <= cond_weight c.
Proof.
  intros Hc. destruct c as [kp|kp|kp ptr|kp ptr|kp op ptr|kp function ptr]; simpl in Hc; unfold cond_text, cond_weight;
    rewrite ?length_app, ?column_ref_length; try pose proof (value_text_length (kp_field kp) (key_value kp ptr) false);
    try pose proof (value_text_length (kp_field kp) (key_value kp ptr) (is_like to_like kp)).
  - simpl. lia.
  - simpl. lia.
  - destruct (is_like to_like kp); simpl; lia.
  - simpl. lia.
  - destruct op; simpl; lia.
  - destruct Hc as (_ & _ & Hl). change (length (bytes ",")) with 1%nat. change (length (bytes ")")) with 1%nat. lia.
Qed.

Definition conds_text (cs : list cond) : list N := concat ((fun c => cond_text c ++ bytes " and ") <$> cs).

Lemma conds_text_length cs : Forall cond_ready cs -> N.of_nat (length (conds_text cs)) <= conds_weight cs.
Proof.
  induction 1 as [|c cs Hc Hcs IH]; [done|]. change (conds_weight (c :: cs)) with (cond_weight c + conds_weight cs). unfold conds_text in *.
  rewrite fmap_cons, concat_cons, !length_app. pose proof (cond_text_length c Hc). change (length (bytes " and ")) with 5%nat. lia.
Qed.

End Text.

(** ** The meaning *)

(** The order of the values of a key column; NULL comes first. *)
Definition olt (x y : option Z) : Prop :=
  match x, y with
  | None, Some _ => True
  | Some a, Some b => (a < b)%Z
  | _, _ => False
  end.



(** The order of keys of as many parts. *)
Fixpoint lex_lt (a b : list (option Z)) : Prop :=
  match a, b with
  | x :: a, y :: b => olt x y \/ (x = y /\ lex_lt a b)
  | _, _ => False
  end.

(** [r] is in the range that starts at [s] and ends at [e]: what the handler interface
    asks for. *)
Definition in_range (fs fe : ha_rkey_function) (s e r : list (option Z)) : Prop :=
  (lex_lt s r \/ (fs <> HA_READ_AFTER_KEY /\ s = r)) /\ (lex_lt r e \/ (fe <> HA_READ_BEFORE_KEY /\ r = e)).



Section Meaning.
  Context (rank : Field -> list N -> Z).

(** The number of bytes of a value in a key. *)
Definition value_length (kp : key_part) : nat := store_length kp - (if null_bit kp then 1 else 0).

(** What a condition says of a row; [row] gives the place of the value of each field in
    the order of its column.  This is the meaning for key parts that cover their
    column: the condition for a part that is a prefix ([key_seg]) is written with
    [like] where [spider_string_key_equal_to_like] is set, and selects other rows. *)
Definition cond_holds (row : nat -> option Z) (c : cond) : Prop :=
  let col kp := row (field_index (kp_field kp)) in
  let key kp ptr := rank (kp_field kp) (take (value_length kp) ptr) in
  match c with
  | is_null kp => col kp = None
  | is_not_null kp => col kp <> None
  | equal_or_like kp ptr | equal kp ptr => col kp = Some (key kp ptr)
  | compare kp op ptr =>
      exists v, col kp = Some v /\
        match op with op_gt => (key kp ptr < v)%Z | op_ge => (key kp ptr <= v)%Z | op_lt => (v < key kp ptr)%Z | op_le => (v <= key kp ptr)%Z end
  | mbr kp function ptr => True
  end.




Definition row_values (row : nat -> option Z) (parts : list key_part) : list (option Z) := (fun kp => row (field_index (kp_field kp))) <$> parts.












End Meaning.




(** ** Prefixes of columns *)











(** ** Examples *)

#[local] Existing Instance ex_heap.

(** A key on the columns [id], a TINYINT (type 1), and [c], one that may be NULL. *)
Definition ex_id : key_part := mk_key_part (mk_field 0 1 1 false false) 1 false false.
Definition ex_c : key_part := mk_key_part (mk_field 1 1 1 false false) 2 true false.

Definition ex_rank (f : Field) (b : list N) : Z := match b with n :: _ => Z.of_N n | [] => 0 end.

Definition ex_val_str (f : Field) (b : option (list N)) : list N := match b with Some (n :: _) => [48 + n] | _ => [] end.


(** The WHERE clause for two ends of a range, written to an empty string. *)
Definition ex_where (k1 k2 : option key_range) : option (list N) :=
  '(_, st) ← spider_db_append_key_where_internal (C := utf8) ex_env ex_val_str false [ex_id; ex_c] k1 k2 false 0 false false (mk_buf_state empty_buf 0);
  Some (contents (buf st)).

Definition ex_row (x y : Z) : nat -> option Z := fun i => if (i =? 0)%nat then Some x else Some y.

(** C34. spider_db_append_key_where_internal loses rows of ranges of other shapes, which
    the server asks for.  An end that is left out makes the first part on which the
    ends differ strict: from (1, 5), left out, to 3, the condition is [id > 1 and id
    <= 3], without the row (1, 6).  With one end only, all parts but the last must
    be equal: up to (3, 2), the condition is [id = 3 and c <= 2], without the row
    (2, 1).  And a range that starts at NULL asks for NULL: no row satisfies the
    conditions for the range of [c] from NULL to 5. *)
Theorem range_rows_lost :
  (exists cs, ex_where (Some (mk_key_range [1; 0; 5] 3 HA_READ_AFTER_KEY)) (Some (mk_key_range [3] 1 HA_READ_AFTER_KEY)) =
      Some (without_last 5 (bytes " where " ++ conds_text (C := utf8) ex_env ex_val_str false cs)) /\
    in_range HA_READ_AFTER_KEY HA_READ_AFTER_KEY [Some 1%Z; Some 5%Z] [Some 3%Z] (row_values (ex_row 1 6) [ex_id; ex_c]) /\
    ~ Forall (cond_holds ex_rank (ex_row 1 6)) cs) /\
  (exists cs, ex_where None (Some (mk_key_range [3; 0; 2] 3 HA_READ_AFTER_KEY)) =
      Some (without_last 5 (bytes " where " ++ conds_text (C := utf8) ex_env ex_val_str false cs)) /\
    lex_lt (row_values (ex_row 2 1) [ex_id; ex_c]) [Some 3%Z; Some 2%Z] /\
    ~ Forall (cond_holds ex_rank (ex_row 2 1)) cs) /\
  (exists cs n s, key_conds [ex_c] (Some (mk_key_range [1; 0] 1 HA_READ_KEY_OR_NEXT)) (Some (mk_key_range [0; 5] 1 HA_READ_AFTER_KEY)) true true 1 0 0
      (mk_kw 1 1 false 0 false) = Some (cs, n, s) /\
    in_range HA_READ_KEY_OR_NEXT HA_READ_AFTER_KEY [None] [Some 5%Z] (row_values (ex_row 2 3) [ex_c]) /\
    forall row, ~ Forall (cond_holds ex_rank row) cs).
Proof.
  split; [|split].
  - exists [compare ex_id op_gt [1; 0; 5]; compare ex_id op_le [3]]. split; [by vm_compute|]. split; [cbn; unfold in_range; cbn; naive_solver lia|].
    rewrite Forall_cons. intros [(v & [= <-] & Hv) _]. cbn in Hv. lia.
  - exists [equal ex_id [3; 0; 2]; compare ex_c op_le [2]]. split; [by vm_compute|]. split; [cbn; lia|]. rewrite Forall_cons. by intros [[=] _].
  - eexists _, _, _. split; [by vm_compute|]. split; [unfold in_range; cbn; naive_solver lia|].
    intros row Hc. rewrite !Forall_cons in Hc. destruct Hc as (Hn & (v & Hv & _) & _). cbn in Hn, Hv. congruence.
Qed.
