(* ===== verification/StrtollTheorems.v ===== *)
(** * The conversion of numbers

    [my_strtoll10] reads nine digits at a time and compares with the limits in
    three parts; it gives the value of the decimal digits. *)

From Stdlib Require Import NArith Lia.
From stdpp Require Import base numbers list.
From S2P Require Import Prelude CString.
From Stdlib Require Import ZArith.
Local Open Scope spider_scope.
Local Open Scope N_scope.

(** ** Values of digits *)

Definition value (acc : N) (ds : list N) : N := fold_left (fun a d => a * 10 + (d - 48)) ds acc.

(** The number a string of decimal digits stands for. *)
Definition decimal (ds : list N) : N := value 0 ds.

Definition digit (b : N) : Prop := is_digit b = true.

Lemma digit_range b : digit b -> 48 <= b /\ b <= 57.
Proof. unfold digit, is_digit. rewrite andb_true_iff, !N.leb_le. done. Qed.

Lemma value_app acc a b : value acc (a ++ b) = value (value acc a) b.
Proof. apply fold_left_app. Qed.

Lemma value_acc ds : forall acc, value acc ds = acc * 10 ^ N.of_nat (length ds) + decimal ds.
Proof.
  induction ds as [|d ds IH]; intros acc; [unfold decimal; simpl; lia|]. unfold decimal in *. cbn [value fold_left]. fold (value (acc * 10 + (d - 48)) ds).
  fold (value (0 * 10 + (d - 48)) ds). rewrite (IH (acc * 10 + _)), (IH (0 * 10 + _)). cbn [length]. rewrite Nat2N.inj_succ, N.pow_succ_r'. lia.
Qed.

Lemma decimal_app a b : decimal (a ++ b) = decimal a * 10 ^ N.of_nat (length b) + decimal b.
Proof. unfold decimal. rewrite value_app. apply value_acc. Qed.

Lemma decimal_cons d ds : decimal (d :: ds) = (d - 48) * 10 ^ N.of_nat (length ds) + decimal ds.
Proof. change (d :: ds) with ([d] ++ ds). rewrite decimal_app. unfold decimal. simpl. lia. Qed.

Lemma decimal_lt ds : Forall digit ds -> decimal ds < 10 ^ N.of_nat (length ds).
Proof.
  induction 1 as [|d ds Hd _ IH]; [done|]. rewrite decimal_cons. apply digit_range in Hd. cbn [length]. rewrite Nat2N.inj_succ, N.pow_succ_r'.
  nia.
Qed.

(** The first digit is not zero. *)
Definition no_zero (ds : list N) : Prop := head ds <> Some 48.

Lemma decimal_ge d ds : digit d -> d <> 48 -> 10 ^ N.of_nat (length ds) <= decimal (d :: ds).
Proof. intros Hd Hn. rewrite decimal_cons. apply digit_range in Hd. nia. Qed.

Lemma digits_short n : forall ds rest acc, Forall digit ds -> (length ds < n)%nat -> (exists c r, rest = c :: r /\ is_digit c = false) ->
  digits n (ds ++ rest) acc = Some (value acc ds, rest, (n - length ds)%nat).
Proof.
  induction n as [|n IH]; intros ds rest acc Hd Hl Hr; [lia|]. destruct Hd as [|d ds Hd Hds].
  - destruct Hr as (c & r & -> & Hc). simpl. by rewrite Hc.
  - simpl. unfold digit in Hd. rewrite Hd. rewrite IH by (done || simpl in Hl; lia). done.
Qed.

Lemma digits_full n : forall ds s acc, Forall digit ds -> length ds = n -> digits n (ds ++ s) acc = Some (value acc ds, s, O).
Proof.
  induction n as [|n IH]; intros ds s acc Hd Hl; [by destruct ds|]. destruct Hd as [|d ds Hd Hds]; [done|].
  simpl. unfold digit in Hd. rewrite Hd. by rewrite IH by (done || simpl in Hl; lia).
Qed.

(** ** The result *)

Definition strtoll10_spec (negative : bool) (v : N) : Z * Z :=
  if negative then if v <=? MAX_NEGATIVE_NUMBER then ((- Z.of_N v)%Z, (-1)%Z) else overflow true
  else if v <=? ULONGLONG_MAX then (to_int64 (Z.of_N v), 0%Z) else overflow false.

Definition sign_error (negative : bool) : Z := if negative then (-1)%Z else 0%Z.

Lemma signed_spec negative v : v < 10 ^ 18 -> (signed negative v, sign_error negative) = strtoll10_spec negative v.
Proof.
  intros Hv. change (10 ^ 18) with 1000000000000000000 in Hv. unfold strtoll10_spec, sign_error, signed, to_int64, MAX_NEGATIVE_NUMBER, ULONGLONG_MAX.
  destruct negative.
  - destruct (N.leb_spec v 0x8000000000000000); [|lia]. f_equal. rewrite (Z.mod_small (Z.of_N v + _)) by lia.
    rewrite Z.mod_small; lia.
  - destruct (N.leb_spec v (2 ^ 64 - 1)); [done|]. lia.
Qed.

Lemma signed_spec19 negative v : v < 10 ^ 19 -> (negative = true -> v <= MAX_NEGATIVE_NUMBER) ->
  (signed negative v, sign_error negative) = strtoll10_spec negative v.
Proof.
  intros Hv Hn. change (10 ^ 19) with 10000000000000000000 in Hv. unfold strtoll10_spec, sign_error, signed, to_int64, MAX_NEGATIVE_NUMBER, ULONGLONG_MAX in *.
  destruct negative.
  - specialize (Hn eq_refl). destruct (N.leb_spec v 0x8000000000000000); [|lia]. f_equal.
    destruct (decide (v = 0x8000000000000000)) as [->|Hne]; [reflexivity|]. rewrite (Z.mod_small (Z.of_N v + _)) by lia. rewrite Z.mod_small; lia.
  - destruct (N.leb_spec v (2 ^ 64 - 1)); [done|]. lia.
Qed.

(** ** The parts of the conversion *)

Definition stops (rest : list N) : Prop := exists c r, rest = c :: r /\ is_digit c = false.

Lemma lfactor_pow m : (m < 9)%nat -> lfactor m = Some (10 ^ N.of_nat m).
Proof. intros Hm. do 9 (destruct m as [|m]; [reflexivity|]). lia. Qed.

(** Comparing in three parts. *)
Lemma cutoff_spec max i j k : j < LFACTOR -> k < 100 ->
  (max / LFACTOR2 <? i) || ((i =? max / LFACTOR2) && ((max mod LFACTOR2 / 100 <? j) || ((j =? max mod LFACTOR2 / 100) && (max mod 100 <? k)))) =
  (max <? i * LFACTOR2 + j * 100 + k).
Proof.
  intros Hj Hk. pose proof (N.div_mod' max LFACTOR2) as E1. pose proof (N.div_mod' (max mod LFACTOR2) 100) as E2.
  assert (max mod LFACTOR2 mod 100 = max mod 100) as E3.
  { change LFACTOR2 with (100 * 1000000000). rewrite N.Div0.mod_mul_r, N.mul_comm, N.Div0.mod_add, N.Div0.mod_mod. done. }
  rewrite E3 in E2. pose proof (N.mod_lt max LFACTOR2 ltac:(done)) as L1. pose proof (N.mod_lt max 100 ltac:(done)) as L2.
  remember (max / LFACTOR2) as c. remember (max mod LFACTOR2) as m. remember (m / 100) as c2. remember (max mod 100) as c3. clear - E1 E2 L1 L2 Hj Hk.
  assert (max = c * LFACTOR2 + c2 * 100 + c3 /\ c2 < LFACTOR) as (E & H2) by (unfold LFACTOR, LFACTOR2 in *; lia).
  rewrite E. clear E1 E2 E L1. unfold LFACTOR, LFACTOR2 in *.
  destruct (N.ltb_spec c i); [symmetry; apply N.ltb_lt; lia|]. destruct (N.eqb_spec i c) as [->|]; [|symmetry; apply N.ltb_ge; lia].
  destruct (N.ltb_spec c2 j); [symmetry; apply N.ltb_lt; lia|]. destruct (N.eqb_spec j c2) as [->|]; [|symmetry; apply N.ltb_ge; lia].
  destruct (N.ltb_spec c3 k); symmetry; [apply N.ltb_lt|apply N.ltb_ge]; lia.
Qed.

Lemma spec_overflow negative v : 10 ^ 20 <= v -> strtoll10_spec negative v = overflow negative.
Proof.
  intros Hv. change (10 ^ 20) with 100000000000000000000 in Hv. unfold strtoll10_spec, MAX_NEGATIVE_NUMBER, ULONGLONG_MAX.
  destruct negative; [destruct (N.leb_spec v 0x8000000000000000)|destruct (N.leb_spec v (2 ^ 64 - 1))]; [lia|done|lia|done].
Qed.

(** Twenty digits: the check of the limit. *)
Lemma spec_twenty (negative : bool) i j k : j < LFACTOR -> k < 100 -> 10 ^ 8 <= i -> i < 10 ^ 9 ->
  let max := if negative then MAX_NEGATIVE_NUMBER else ULONGLONG_MAX in
  (if (max / LFACTOR2 <? i) || ((i =? max / LFACTOR2) && ((max mod LFACTOR2 / 100 <? j) || ((j =? max mod LFACTOR2 / 100) && (max mod 100 <? k))))
   then Some (overflow negative) else Some (to_int64 (Z.of_N (i * LFACTOR2 + j * 100 + k)), sign_error negative)) =
  Some (strtoll10_spec negative (i * LFACTOR2 + j * 100 + k)).
Proof.
  intros Hj Hk H8 H9 max. rewrite cutoff_spec by done. set (v := i * LFACTOR2 + j * 100 + k).
  assert (10 ^ 19 <= v) as Hv by (change (10 ^ 19) with 10000000000000000000; change (10 ^ 8) with 100000000 in H8; unfold v, LFACTOR2; lia).
  change (10 ^ 19) with 10000000000000000000 in Hv. unfold max, strtoll10_spec, MAX_NEGATIVE_NUMBER, ULONGLONG_MAX. destruct negative.
  - destruct (N.ltb_spec 0x8000000000000000 v); [|lia]. destruct (N.leb_spec v 0x8000000000000000); [lia|done].
  - destruct (N.ltb_spec (2 ^ 64 - 1) v); (destruct (N.leb_spec v (2 ^ 64 - 1)); [|]); try lia; done.
Qed.

(** After eighteen digits: at most two more. *)
Lemma after_eighteen (negative : bool) i j b rest lim : 10 ^ 8 <= i -> i < 10 ^ 9 -> j < LFACTOR -> Forall digit b -> stops rest ->
  (length b < lim)%nat ->
  (let max := if negative then MAX_NEGATIVE_NUMBER else ULONGLONG_MAX in
   c ← head (b ++ rest);
   if negb (is_digit c) then Some (signed negative (i * LFACTOR + j), sign_error negative)
   else
     c0 ← (if Nat.eqb (pred lim) 0 then Some 0 else head (tail (b ++ rest)));
     if Nat.eqb (pred lim) 0 || negb (is_digit c0) then
       if negative && (MAX_NEGATIVE_NUMBER <? i * LFACTOR1 + j * 10 + (c - 48)) then Some (overflow negative)
       else Some (signed negative (i * LFACTOR1 + j * 10 + (c - 48)), sign_error negative)
     else
       c1 ← (if Nat.eqb (pred (pred lim)) 0 then Some 0 else head (tail (tail (b ++ rest))));
       if negb (Nat.eqb (pred (pred lim)) 0) && is_digit c1 then Some (overflow negative)
       else if (max / LFACTOR2 <? i) || ((i =? max / LFACTOR2) && ((max mod LFACTOR2 / 100 <? j) ||
               ((j =? max mod LFACTOR2 / 100) && (max mod 100 <? (c - 48) * 10 + (c0 - 48)))))
       then Some (overflow negative)
       else Some (to_int64 (Z.of_N (i * LFACTOR2 + j * 100 + ((c - 48) * 10 + (c0 - 48)))), sign_error negative)) =
  Some (strtoll10_spec negative (i * 10 ^ N.of_nat (9 + length b) + (j * 10 ^ N.of_nat (length b) + decimal b))).
Proof.
  intros H8 H9 Hj Hb (x & r & -> & Hx) Hl. destruct Hb as [|d b Hd Hb]; [|destruct Hb as [|e b He Hb]; [|destruct Hb as [|g b Hg Hb]]]; simpl app; cbn [head tail mbind option_bind].
  - rewrite Hx. cbn [negb length]. f_equal. unfold LFACTOR in *. change (10 ^ N.of_nat (9 + 0)) with 1000000000. change (10 ^ N.of_nat 0) with 1. change (decimal []) with 0.
    rewrite N.mul_1_r, N.add_0_r. apply signed_spec. change (10 ^ 9) with 1000000000 in H9. change (10 ^ 18) with 1000000000000000000. lia.
  - pose proof (digit_range _ Hd) as Rd. unfold digit in Hd. rewrite Hd. cbn [negb]. destruct (Nat.eqb_spec (pred lim) 0) as [E|_]; [simpl in Hl; lia|].
    cbn [mbind option_bind]. rewrite Hx. cbn [negb orb length]. change (10 ^ N.of_nat (9 + 1)) with LFACTOR1. change (10 ^ N.of_nat 1) with 10.
    replace (decimal [d]) with (d - 48) by (unfold decimal; simpl; lia). rewrite N.add_assoc. set (v := i * LFACTOR1 + j * 10 + (d - 48)).
    assert (v < 10 ^ 19) as Hv by (change (10 ^ 19) with 10000000000000000000; change (10 ^ 9) with 1000000000 in H9; unfold v, LFACTOR, LFACTOR1 in *; lia).
    destruct negative; cbn [andb].
    + destruct (N.ltb_spec MAX_NEGATIVE_NUMBER v); [unfold strtoll10_spec; destruct (N.leb_spec v MAX_NEGATIVE_NUMBER); [lia|done]|].
      f_equal. by apply signed_spec19.
    + f_equal. by apply signed_spec19.
  - pose proof (digit_range _ Hd) as Rd. pose proof (digit_range _ He) as Re. unfold digit in Hd, He. rewrite Hd. cbn [negb].
    destruct (Nat.eqb_spec (pred lim) 0) as [E|_]; [simpl in Hl; lia|]. cbn [mbind option_bind]. rewrite He. cbn [negb orb].
    destruct (Nat.eqb_spec (pred (pred lim)) 0) as [E|_]; [simpl in Hl; lia|]. cbn [mbind option_bind]. rewrite Hx. cbn [negb andb length].
    change (10 ^ N.of_nat (9 + 2)) with LFACTOR2. change (10 ^ N.of_nat 2) with 100.
    replace (decimal [d; e]) with ((d - 48) * 10 + (e - 48)) by (unfold decimal; simpl; lia).
    rewrite (N.add_assoc (i * LFACTOR2) (j * 100)). apply spec_twenty; [done|lia|done|done].
  - unfold digit in Hd, He, Hg. rewrite Hd. cbn [negb].
    destruct (Nat.eqb_spec (pred lim) 0) as [E|_]; [simpl in Hl; lia|]. cbn [mbind option_bind]. rewrite He. cbn [negb orb].
    destruct (Nat.eqb_spec (pred (pred lim)) 0) as [E|_]; [simpl in Hl; lia|]. cbn [mbind option_bind]. rewrite Hg. cbn [negb andb].
    rewrite spec_overflow; [done|]. assert (10 ^ 12 <= 10 ^ N.of_nat (9 + length (d :: e :: g :: b))) as Hp by (apply N.pow_le_mono_r; [done|simpl; lia]).
    change (10 ^ 20) with (10 ^ 8 * 10 ^ 12). nia.
Qed.

Lemma rest_spec negative a b rest lim : Forall digit a -> Forall digit b -> length a = 9%nat -> no_zero a -> stops rest ->
  (length b < lim)%nat ->
  strtoll10_rest negative (sign_error negative) (decimal a) (b ++ rest) lim = Some (strtoll10_spec negative (decimal (a ++ b))).
Proof.
  intros Ha Hb La Na Hr Hl. unfold strtoll10_rest.
  assert (decimal a < 10 ^ 9) as H9 by (change 9 with (N.of_nat 9); rewrite <- La; by apply decimal_lt).
  assert (10 ^ 8 <= decimal a) as H8.
  { destruct a as [|d a]; [done|]. apply Forall_cons in Ha as [Hd _]. change 8 with (N.of_nat 8). replace 8%nat with (length a) by (simpl in La; lia).
    apply decimal_ge; [done|]. intros ->. by apply Na. }
  rewrite decimal_app. pose proof (decimal_lt b Hb) as Hj.
  destruct (decide (length b < 9)%nat) as [Hs|Hs].
  - rewrite digits_short by (done || unfold INIT_CNT; lia). cbn [mbind option_bind].
    destruct (Nat.eqb_spec (Nat.min INIT_CNT lim - length b) 0) as [E|_]; [unfold INIT_CNT in E; lia|]. cbn [negb].
    replace (Nat.min INIT_CNT lim - (Nat.min INIT_CNT lim - length b))%nat with (length b) by (unfold INIT_CNT; lia).
    rewrite lfactor_pow by done. cbn [mbind option_bind]. f_equal. apply signed_spec. fold (decimal b).
    assert (10 ^ N.of_nat (length b) <= 10 ^ 8) by (apply N.pow_le_mono_r; lia). change (10 ^ 18) with (10 ^ 9 * 10 ^ 9). change (10 ^ 9) with (10 * 10 ^ 8) in *. nia.
  - replace (Nat.min INIT_CNT lim) with INIT_CNT by (unfold INIT_CNT; lia).
    assert (exists b1 b2, b = b1 ++ b2 /\ length b1 = 9%nat) as (b1 & b2 & -> & L1).
    { exists (take 9 b), (drop 9 b). rewrite take_drop, length_take. split; [done|lia]. }
    apply Forall_app in Hb as [Hb1 Hb2]. rewrite <- (assoc_L (++)), digits_full by done. cbn [mbind option_bind]. fold (decimal b1).
    rewrite length_app in Hl. rewrite Nat.sub_0_r. cbn [negb Nat.eqb].
    destruct (Nat.eqb_spec (lim - INIT_CNT) 0) as [E|_]; [unfold INIT_CNT in E; lia|].
    rewrite decimal_app, length_app, L1. apply after_eighteen; try done; [|unfold INIT_CNT; lia].
    change LFACTOR with (10 ^ N.of_nat 9). rewrite <- L1. by apply decimal_lt.
Qed.

(** The first nine digits, from the first one that is not zero. *)
Lemma first_nine negative ds rest lim : Forall digit ds -> no_zero ds -> stops rest -> (length ds < lim)%nat ->
  (r ← digits (Nat.min INIT_CNT lim) (ds ++ rest) 0;
   let '(i, s, miss) := r in
   let lim := (lim - (Nat.min INIT_CNT lim - miss))%nat in
   if negb (Nat.eqb miss 0) || Nat.eqb lim 0 then Some (signed negative i, sign_error negative)
   else strtoll10_rest negative (sign_error negative) i s lim) = Some (strtoll10_spec negative (decimal ds)).
Proof.
  intros Hd Hn Hr Hl. destruct (decide (length ds < 9)%nat) as [Hs|Hs].
  - rewrite digits_short by (done || unfold INIT_CNT; lia). cbn [mbind option_bind].
    destruct (Nat.eqb_spec (Nat.min INIT_CNT lim - length ds) 0) as [E|_]; [unfold INIT_CNT in E; lia|]. cbn [negb orb].
    f_equal. fold (decimal ds). apply signed_spec. eapply N.lt_le_trans; [by apply decimal_lt|]. apply N.pow_le_mono_r; lia.
  - replace (Nat.min INIT_CNT lim) with INIT_CNT by (unfold INIT_CNT; lia).
    assert (exists a b, ds = a ++ b /\ length a = 9%nat) as (a & b & -> & La).
    { exists (take 9 ds), (drop 9 ds). rewrite take_drop, length_take. split; [done|lia]. }
    apply Forall_app in Hd as [Ha Hb]. rewrite <- (assoc_L (++)), digits_full by done. cbn [mbind option_bind]. fold (decimal a).
    rewrite length_app in Hl. rewrite Nat.sub_0_r. destruct (Nat.eqb_spec (lim - INIT_CNT) 0) as [E|_]; [unfold INIT_CNT in E; lia|]. cbn [negb orb Nat.eqb].
    apply rest_spec; try done; [by destruct a|unfold INIT_CNT; lia].
Qed.

Lemma pre_zeros_spec n : forall lim s, (n < lim)%nat -> head s <> Some 48 -> s <> [] ->
  pre_zeros lim (replicate n 48 ++ s) = Some (s, (lim - n)%nat).
Proof.
  induction n as [|n IH]; intros lim s Hl Hs Hne; (destruct lim as [|lim]; [lia|]); simpl.
  - destruct s as [|c s]; [done|]. cbn [head mbind option_bind]. destruct (N.eqb_spec c 48) as [->|]; [by destruct Hs|done].
  - cbn [mbind option_bind]. apply IH; [lia|done|done].
Qed.

Lemma decimal_zeros n ds : decimal (replicate n 48 ++ ds) = decimal ds.
Proof. induction n as [|n IH]; [done|]. simpl. rewrite decimal_cons, IH. lia. Qed.

Lemma split_zeros ds : exists n ds', ds = replicate n 48 ++ ds' /\ no_zero ds'.
Proof.
  induction ds as [|d ds (n & ds' & -> & Hn)]; [by exists O, []|]. destruct (decide (d = 48)) as [->|Hd]; [by exists (S n), ds'|].
  exists O, (d :: replicate n 48 ++ ds'). split; [done|]. unfold no_zero. simpl. congruence.
Qed.

(** From the sign on. *)
Lemma unsigned_spec negative ds rest lim c s : Forall digit ds -> ds <> [] -> stops rest -> (length ds < lim)%nat ->
  ds ++ rest = c :: s ->
  (if c =? 48 then
     z ← pre_zeros (pred lim) s;
     let '(s, lim) := z in
     if Nat.eqb lim 0 then Some (signed negative 0, sign_error negative) else
     r ← digits (Nat.min INIT_CNT lim) s 0;
     let '(i, s, miss) := r in
     let lim := (lim - (Nat.min INIT_CNT lim - miss))%nat in
     if negb (Nat.eqb miss 0) || Nat.eqb lim 0 then Some (signed negative i, sign_error negative)
     else strtoll10_rest negative (sign_error negative) i s lim
   else if negb (is_digit c) then Some (0%Z, MY_ERRNO_EDOM)
   else
     r ← digits (pred INIT_CNT) s (c - 48);
     let '(i, s, miss) := r in
     let lim := (lim - 1 - (pred INIT_CNT - miss))%nat in
     if negb (Nat.eqb miss 0) then Some (signed negative i, sign_error negative)
     else strtoll10_rest negative (sign_error negative) i s lim) = Some (strtoll10_spec negative (decimal ds)).
Proof.
  intros Hd Hne Hr Hl E. destruct (split_zeros ds) as (n & ds' & -> & Hn). apply Forall_app in Hd as [_ Hd].
  assert (head (ds' ++ rest) <> Some 48) as Hh.
  { destruct ds' as [|d ds']; [|done]. destruct Hr as (x & r & -> & Hx). simpl. intros [= ->]. done. }
  rewrite length_app, length_replicate in Hl. rewrite decimal_zeros. destruct n as [|n].
  - simpl in E, Hl, Hne. destruct ds' as [|d ds']; [done|]. simpl in E. injection E as <- <-. destruct (N.eqb_spec d 48) as [->|_]; [by destruct Hn|].
    pose proof Hd as Hall. apply Forall_cons in Hd as [Hd Hds]. unfold digit in Hd. rewrite Hd. cbn [negb].
    assert (Hv : forall l, value (d - 48) l = decimal (d :: l)) by (intros l; unfold decimal; simpl; done).
    simpl in Hl. destruct (decide (length ds' < 8)%nat) as [Hs|Hs].
    + rewrite digits_short by (done || unfold INIT_CNT; simpl; lia). cbn [mbind option_bind].
      destruct (Nat.eqb_spec (pred INIT_CNT - length ds') 0) as [E|_]; [unfold INIT_CNT in E; simpl in E; lia|]. cbn [negb]. f_equal. rewrite Hv.
      apply signed_spec. eapply N.lt_le_trans; [by apply decimal_lt|]. apply N.pow_le_mono_r; simpl; lia.
    + assert (exists a b, ds' = a ++ b /\ length a = 8%nat) as (a & b & -> & La).
      { exists (take 8 ds'), (drop 8 ds'). rewrite take_drop, length_take. split; [done|lia]. }
      apply Forall_app in Hds as [Ha Hb]. rewrite <- (assoc_L (++)), digits_full by done. cbn [mbind option_bind negb Nat.eqb]. rewrite Hv.
      change (d :: a ++ b) with ((d :: a) ++ b). rewrite length_app in Hl.
      apply rest_spec; [by constructor|done|simpl; lia|done|done|unfold INIT_CNT; simpl; lia].
  - simpl in E. injection E as <- <-. rewrite N.eqb_refl, <- (assoc_L (++)), pre_zeros_spec; [|lia|done|by destruct ds', Hr as (? & ? & -> & _)].
    cbn [mbind option_bind]. destruct (Nat.eqb_spec (pred lim - n) 0); [lia|]. apply first_nine; [done..|lia].
Qed.

(** The bytes of a sign. *)
Definition sign_bytes (sign : option bool) : list N :=
  match sign with Some true => [45] | Some false => [43] | None => [] end.

Lemma skip_blank_spec bl s : Forall (fun b => b = 32 \/ b = 9) bl -> (exists c r, s = c :: r /\ c <> 32 /\ c <> 9) -> skip_blank (bl ++ s) = Some s.
Proof.
  intros Hb (c & r & -> & H1 & H2). induction Hb as [|b bl [->| ->] _ IH]; simpl; [|done..].
  apply N.eqb_neq in H1, H2. by rewrite H1, H2.
Qed.

(** C28. [my_strtoll10], which reads nine digits at a time and compares with the
    limits in three parts, gives for blanks, a sign and decimal digits exactly the
    number they stand for: negative ones down to -2^63 with the error -1, other
    ones up to 2^64-1 as a signed number of 64 bits, and ERANGE with the limit
    beyond. *)
Theorem strtoll10_decimal blanks sign ds rest :
  Forall (fun b => b = 32 \/ b = 9) blanks -> Forall digit ds -> ds <> [] -> stops rest -> N.of_nat (length ds) < 65534 ->
  my_strtoll10 (blanks ++ sign_bytes sign ++ ds ++ rest) =
    Some (strtoll10_spec (match sign with Some negative => negative | None => false end) (decimal ds)).
Proof.
  intros Hb Hd Hne Hr Hl. unfold my_strtoll10. destruct ds as [|d ds]; [done|]. pose proof Hd as Hall. apply Forall_cons in Hd as [Hd _].
  pose proof (digit_range _ Hd) as Rd. rewrite skip_blank_spec; [|done|destruct sign as [[]|]; simpl; eexists _, _; (split; [reflexivity|lia])].
  cbn [mbind option_bind]. assert (Hlim : (length (d :: ds) < pred (N.to_nat 65535))%nat) by lia.
  set (lim := N.to_nat 65535) in *. clearbody lim.
  destruct sign as [[]|]; simpl app; cbn [head tail mbind option_bind].
  - change (45 =? 0) with false. change (45 =? 45) with true. cbn [orb fst snd]. cbn [head tail mbind option_bind].
    apply (unsigned_spec true (d :: ds) rest); [done..|lia|done].
  - change (43 =? 0) with false. change (43 =? 45) with false. change (43 =? 43) with true. cbn [orb fst snd]. cbn [head tail mbind option_bind].
    apply (unsigned_spec false (d :: ds) rest); [done..|lia|done].
  - destruct (N.eqb_spec d 0); [lia|]. destruct (N.eqb_spec d 45); [lia|]. destruct (N.eqb_spec d 43); [lia|]. cbn [orb]. cbn [head tail mbind option_bind].
    apply (unsigned_spec false (d :: ds) rest); [done..|lia|done].
Qed.

(** " -0012345678901234" *)
Lemma strtoll10_decimal_witness :
  my_strtoll10 ([32] ++ sign_bytes (Some true) ++ [48; 48; 49; 50; 51; 52; 53; 54; 55; 56; 57; 48; 49; 50; 51; 52] ++ [0]) =
    Some (strtoll10_spec true (decimal [48; 48; 49; 50; 51; 52; 53; 54; 55; 56; 57; 48; 49; 50; 51; 52])) /\
  strtoll10_spec true (decimal [48; 48; 49; 50; 51; 52; 53; 54; 55; 56; 57; 48; 49; 50; 51; 52]) = ((-12345678901234)%Z, (-1)%Z).
Proof.
  split; [|reflexivity]. refine (strtoll10_decimal [32] (Some true) [48; 48; 49; 50; 51; 52; 53; 54; 55; 56; 57; 48; 49; 50; 51; 52] [0] _ _ _ _ _).
  - constructor; [by left|constructor].
  - repeat constructor.
  - done.
  - by exists 0, [].
  - by vm_compute.
Defined.
