(* ===== verification/Collation.v ===== *)
(** * The collation of the keys

    The character set utf8_bin that the engine's hash tables compare and hash
    their keys with: strings/ctype-utf8.c and strings/strcoll.ic (the functions
    [my_scan_weight_utf8_bin], [my_strnncoll_utf8_bin] and
    [my_strnncollsp_utf8_bin]), strings/ctype-mb.c ([my_hash_sort_mb_bin]),
    strings/strings_def.h ([skip_trailing_space]) and [my_hash_sort] of
    mysys/hash.c.

    A string is the list of its bytes, numbers below 256.  Weights are [int]s;
    the hash numbers are [ulong]s of 64 bits.  [skip_trailing_space] reads aligned
    words of four bytes, so it has the address of the string as an argument; a
    read outside the string is [None]. *)

From Stdlib Require Import NArith Lia.
From stdpp Require Import base numbers list strings.
From S2P Require Import Prelude HashTable CString.
From Stdlib Require Import ZArith.
Local Open Scope spider_scope.
Local Open Scope N_scope.

(** ** Characters *)

Definition IS_CONTINUATION_BYTE (c : N) : bool := N.lxor c 0x80 <? 0x40.

Definition IS_UTF8MB2_STEP2 (b0 b1 : N) : bool := (b0 <? 0xE0) && IS_CONTINUATION_BYTE b1.

Definition IS_UTF8MB3_STEP2 (b0 b1 b2 : N) : bool :=
  IS_CONTINUATION_BYTE b1 && IS_CONTINUATION_BYTE b2 && ((0xe1 <=? b0) || (0xa0 <=? b1)).

Definition IS_UTF8MB3_STEP3 (b0 b1 b2 : N) : bool := (b0 <? 0xF0) && IS_UTF8MB3_STEP2 b0 b1 b2.

Definition UTF8MB2_CODE (b0 b1 : N) : N := N.lor (N.shiftl (N.land b0 0x1f) 6) (N.lxor b1 0x80).

Definition UTF8MB3_CODE (b0 b1 b2 : N) : N :=
  N.lor (N.lor (N.shiftl (N.land b0 0x0f) 12) (N.shiftl (N.lxor b1 0x80) 6)) (N.lxor b2 0x80).

Definition WEIGHT_PAD_SPACE : N := 0x20.
Definition WEIGHT_ILSEQ (x : N) : N := 0xFF0000 + x.

(** [my_scan_weight_utf8_bin]: the number of bytes scanned and the weight. *)
Definition scan_weight (str : list N) : nat * N :=
  match str with
  | [] => (0%nat, WEIGHT_PAD_SPACE)
  | b0 :: rest =>
      let bad := (1%nat, WEIGHT_ILSEQ b0) in
      if b0 <? 0x80 then (1%nat, b0)
      else if b0 <? 0xC2 then bad
      else match rest with
           | [] => bad
           | b1 :: rest =>
               if IS_UTF8MB2_STEP2 b0 b1 then (2%nat, UTF8MB2_CODE b0 b1)
               else match rest with
                    | [] => bad
                    | b2 :: _ => if IS_UTF8MB3_STEP3 b0 b1 b2 then (3%nat, UTF8MB3_CODE b0 b1 b2) else bad
                    end
           end
  end.

(** ** Comparison *)

(** [my_strnncoll_utf8_bin], and [None] without enough fuel. *)
Fixpoint strnncoll (fuel : nat) (a b : list N) (b_is_prefix : bool) : option Z :=
  match fuel with
  | O => None
  | S fuel =>
      let (a_wlen, a_weight) := scan_weight a in
      let (b_wlen, b_weight) := scan_weight b in
      if Nat.eqb a_wlen 0 then Some (if Nat.eqb b_wlen 0 then 0%Z else (- Z.of_N b_weight)%Z)
      else if Nat.eqb b_wlen 0 then Some (if b_is_prefix then 0%Z else Z.of_N a_weight)
      else
        let res := (Z.of_N a_weight - Z.of_N b_weight)%Z in
        if negb (Z.eqb res 0) then Some res else strnncoll fuel (drop a_wlen a) (drop b_wlen b) b_is_prefix
  end.

(** Each round takes a byte of [a]. *)
Definition my_strnncoll_utf8_bin (a b : list N) (b_is_prefix : bool) : option Z :=
  strnncoll (S (length a)) a b b_is_prefix.

(** [my_strnncollsp_utf8_bin]: the shorter string is padded with spaces. *)
Fixpoint strnncollsp (fuel : nat) (a b : list N) : option Z :=
  match fuel with
  | O => None
  | S fuel =>
      let (a_wlen, a_weight) := scan_weight a in
      let (b_wlen, b_weight) := scan_weight b in
      let res := (Z.of_N a_weight - Z.of_N b_weight)%Z in
      if negb (Z.eqb res 0) then Some res
      else if Nat.eqb a_wlen 0 && Nat.eqb b_wlen 0 then Some 0%Z
      else strnncollsp fuel (drop a_wlen a) (drop b_wlen b)
  end.

Definition my_strnncollsp_utf8_bin (a b : list N) : option Z := strnncollsp (S (length a + length b)) a b.

(** ** Hashing *)

Section Memory.
  Context (ptr : N) (str : list N).

(** [p[-1]], and the [unsigned] before [p]. *)
Definition byte_before (p : N) : option N :=
  if p <=? ptr then None else str !! N.to_nat (p - ptr - 1).

Definition word_before (p : N) : option N :=
  b0 ← byte_before (p - 3); b1 ← byte_before (p - 2); b2 ← byte_before (p - 1); b3 ← byte_before p;
  Some (b0 + 256 * b1 + 65536 * b2 + 16777216 * b3).

Definition SPACE_INT : N := 0x20202020.

(** [while (end > lo && end[-1] == 0x20) end--], and with words. *)
Fixpoint skip_bytes (fuel : nat) (lo e : N) : option N :=
  match fuel with
  | O => None
  | S fuel =>
      if lo <? e then
        b ← byte_before e;
        if b =? 0x20 then skip_bytes fuel lo (e - 1) else Some e
      else Some e
  end.

Fixpoint skip_words (fuel : nat) (lo e : N) : option N :=
  match fuel with
  | O => None
  | S fuel =>
      if lo <? e then
        w ← word_before e;
        if w =? SPACE_INT then skip_words fuel lo (e - 4) else Some e
      else Some e
  end.

(** The end of the string without its trailing spaces. *)
Definition skip_trailing_space : option N :=
  let len := N.of_nat (length str) in
  let fuel := S (length str) in
  let e := ptr + len in
  e ← (if 20 <? len then
         let end_words := e / 4 * 4 in
         let start_words := (ptr + 3) / 4 * 4 in
         if ptr <? end_words then
           e ← skip_bytes fuel end_words e;
           b ← byte_before e;
           if (b =? 0x20) && (start_words <? end_words) then skip_words fuel start_words e else Some e
         else Some e
       else Some e);
  skip_bytes fuel ptr e.
End Memory.

(** [MY_HASH_ADD], on [ulong]s. *)
Definition MY_HASH_ADD (nr : N * N) (value : N) : N * N :=
  let '(A, B) := nr in
  (N.lxor A ((((N.land A 63 + B) * value) + N.shiftl A 8) mod 2 ^ 64), (B + 3) mod 2 ^ 64).

Definition my_hash_sort_mb_nopad_bin (key : list N) (nr : N * N) : N * N := fold_left MY_HASH_ADD key nr.

Definition my_hash_sort_mb_bin (ptr : N) (key : list N) (nr : N * N) : option (N * N) :=
  e ← skip_trailing_space ptr key;
  Some (my_hash_sort_mb_nopad_bin (take (N.to_nat (e - ptr)) key) nr).

(** [my_hash_value_type] is [uint32]. *)
Definition my_hash_sort (ptr : N) (key : list N) : option N :=
  nr ← my_hash_sort_mb_bin ptr key (1, 4);
  Some (to_uint nr.1).

(** ** The keys of a table *)

(** The keys of a hash table with this character set: [hashcmp] compares keys of
    the same length.  The hash number does not depend on the address of the key
    ([hash_sort_total]); the table's keys are at some aligned address. *)
#[export] Instance utf8_bin_key : HashKey string := {
  hash_function k := default 0 (my_hash_sort 4096 (bytes k));
  key_same k k' :=
    Nat.eqb (length (bytes k)) (length (bytes k')) &&
    bool_decide (my_strnncoll_utf8_bin (bytes k) (bytes k') false = Some 0%Z)
}.
