(* ===== verification/CollationTheorems.v ===== *)
(** * The collation of the keys is sound for a hash table

    The comparison of weights is the equality of bytes, the hash number is the
    same for strings that compare equal with padding, and the scan by words in
    [skip_trailing_space] finds what a scan by bytes finds. *)

From Stdlib Require Import NArith Lia.
From stdpp Require Import base numbers list strings.
From S2P Require Import Prelude HashTable HashOps CString Collation.
From Stdlib Require Import ZArith.
Local Open Scope spider_scope.
Local Open Scope N_scope.

(** ** Trailing spaces *)

(** The string without its trailing spaces. *)
Fixpoint trim (s : list N) : list N :=
  match s with
  | [] => []
  | b :: s => match trim s with
              | [] => if b =? 0x20 then [] else [b]
              | t => b :: t
              end
  end.

(** From [n] on there are only spaces, and before it is another character. *)
Definition spaces_from (s : list N) (n : nat) : Prop := forall i b, (n <= i)%nat -> s !! i = Some b -> b = 0x20.
Definition trims_to (s : list N) (n : nat) : Prop :=
  spaces_from s n /\ (n <= length s)%nat /\ forall b, (0 < n)%nat -> s !! pred n = Some b -> b <> 0x20.

Lemma trims_cons b s n : trims_to s n -> trims_to (b :: s) (match n with O => if b =? 0x20 then O else 1%nat | _ => S n end).
Proof.
  intros (Hs & Hl & Hb). destruct n as [|n].
  - destruct (N.eqb_spec b 0x20) as [->|Hne].
    + split_and!; [|simpl; lia|lia]. intros [|i] c _ Hc; [by injection Hc as <-|]. apply (Hs i c); [lia|done].
    + split_and!; [|simpl; lia|]; [|by intros c _ [= <-]]. intros [|i] c Hi Hc; [lia|]. apply (Hs i c); [lia|done].
  - split_and!; [|simpl in *; lia|]. 
    + intros [|i] c Hi Hc; [lia|]. apply (Hs i c); [lia|done].
    + intros c _ Hc. apply Hb; [lia|done].
Qed.

Lemma trim_length s : trims_to s (length (trim s)).
Proof.
  induction s as [|b s IH]; simpl; [split_and!; [intros i c _ Hc; by rewrite lookup_nil in Hc|simpl; lia|lia]|].
  apply (trims_cons b) in IH. destruct (trim s) as [|c t]; simpl in *; [by destruct (b =? 0x20)|done].
Qed.

Lemma trim_take s : trim s = take (length (trim s)) s.
Proof.
  induction s as [|b s IH]; [done|]. simpl. destruct (trim s) as [|c t] eqn:E; [by destruct (b =? 0x20)|].
  simpl. f_equal. simpl in IH. done.
Qed.

Lemma trims_to_unique s n m : trims_to s n -> trims_to s m -> n = m.
Proof.
  assert (Hle : forall n m, trims_to s n -> trims_to s m -> (n <= m)%nat).
  { clear. intros n m (_ & Hl & Hb) (Hs & _ & _). destruct (decide (n <= m)%nat) as [|Hn]; [done|]. exfalso.
    destruct (lookup_lt_is_Some_2 s (pred n)) as [b Hb']; [lia|]. apply (Hb b); [lia|done|]. apply (Hs (pred n) b); [lia|done]. }
  intros Hn Hm. pose proof (Hle _ _ Hn Hm). pose proof (Hle _ _ Hm Hn). lia.
Qed.

Lemma aligned_down e : e / 4 * 4 <= e /\ e - e / 4 * 4 < 4.
Proof. pose proof (N.div_mod' e 4) as Hd. pose proof (N.mod_lt e 4 ltac:(done)) as Hm. pose proof (N.Div0.mul_div_le e 4). lia. Qed.

Section Skip.
  Context (ptr : N) (str : list N).
  Local Notation len := (N.of_nat (length str)).

Lemma byte_before_ok p : ptr < p -> p <= ptr + len -> byte_before ptr str p = str !! N.to_nat (p - ptr - 1).
Proof. intros H1 H2. unfold byte_before. destruct (N.leb_spec p ptr); [lia|done]. Qed.

(** The address [p] is in the string and only spaces follow. *)
Definition blank_from (p : N) : Prop := ptr <= p /\ p <= ptr + len /\ spaces_from str (N.to_nat (p - ptr)).

Lemma blank_step p b : ptr < p -> blank_from p -> byte_before ptr str p = Some b -> b = 0x20 -> blank_from (p - 1).
Proof.
  intros Hp (H1 & H2 & H3) Hb ->. rewrite byte_before_ok in Hb by lia. split_and!; [lia..|]. intros i c Hi Hc.
  destruct (decide (i = N.to_nat (p - ptr - 1))) as [->|Hne]; [congruence|]. apply (H3 i c); [lia|done].
Qed.

Lemma byte_before_some p : ptr < p -> p <= ptr + len -> exists b, byte_before ptr str p = Some b.
Proof. intros H1 H2. rewrite byte_before_ok by done. apply lookup_lt_is_Some_2. lia. Qed.

Lemma skip_bytes_ok lo : ptr <= lo -> forall fuel e, blank_from e -> lo <= e -> (N.to_nat (e - lo) < fuel)%nat ->
  exists p, skip_bytes ptr str fuel lo e = Some p /\ blank_from p /\ lo <= p /\ p <= e /\
    (lo < p -> exists b, byte_before ptr str p = Some b /\ b <> 0x20).
Proof.
  intros Hlo. induction fuel as [|fuel IH]; intros e He Hle Hf; [lia|]. simpl. destruct (N.ltb_spec lo e) as [Hlt|Hge].
  - destruct (byte_before_some e) as [b Hb]; [lia|apply He|]. rewrite Hb. cbn [mbind option_bind].
    destruct (N.eqb_spec b 0x20) as [Hs|Hs].
    + destruct (IH (e - 1)) as (p & Hp & Hbl & Hlp & Hpe & Hn); [by eapply blank_step; [lia|..]|lia|lia|].
      exists p. split_and!; [done|done|done|lia|done].
    + exists e. split_and!; [done|done|lia|lia|]. by exists b.
  - exists e. split_and!; [done|done|lia|lia|lia].
Qed.

(** A word of spaces is four spaces. *)
Lemma word_spaces b0 b1 b2 b3 : b0 < 256 -> b1 < 256 -> b2 < 256 -> b3 < 256 ->
  b0 + 256 * b1 + 65536 * b2 + 16777216 * b3 = SPACE_INT -> b0 = 0x20 /\ b1 = 0x20 /\ b2 = 0x20 /\ b3 = 0x20.
Proof. unfold SPACE_INT. lia. Qed.

Context (str_bytes : Forall (fun b => b < 256) str).

Lemma byte_before_lt p b : byte_before ptr str p = Some b -> b < 256.
Proof.
  unfold byte_before. destruct (p <=? ptr); [done|]. intros Hb. rewrite Forall_lookup in str_bytes. by eapply str_bytes.
Qed.

Lemma skip_words_ok lo : ptr <= lo -> forall fuel e, blank_from e -> lo <= e -> (e - lo) mod 4 = 0 ->
  (N.to_nat (e - lo) < fuel)%nat ->
  exists p, skip_words ptr str fuel lo e = Some p /\ blank_from p.
Proof.
  intros Hlo. induction fuel as [|fuel IH]; intros e He Hle Hal Hf; [lia|]. simpl. destruct (N.ltb_spec lo e) as [Hlt|Hge]; [|by exists e].
  assert (lo + 4 <= e) as H4 by (pose proof (N.div_mod' (e - lo) 4); lia). pose proof He as (_ & Hend & _).
  destruct (byte_before_some (e - 3)) as [b0 H0]; [lia..|]. destruct (byte_before_some (e - 2)) as [b1 H1]; [lia..|].
  destruct (byte_before_some (e - 1)) as [b2 H2]; [lia..|]. destruct (byte_before_some e) as [b3 H3]; [lia..|].
  unfold word_before. rewrite H0, H1, H2, H3. cbn [mbind option_bind].
  destruct (N.eqb_spec (b0 + 256 * b1 + 65536 * b2 + 16777216 * b3) SPACE_INT) as [Hs|_]; [|by exists e].
  apply word_spaces in Hs as (E0 & E1 & E2 & E3); [|by eapply byte_before_lt..].
  apply IH; [|lia| |lia].
  - pose proof (blank_step e _ ltac:(lia) He H3 E3) as Ha. pose proof (blank_step (e - 1) _ ltac:(lia) Ha H2 E2) as Hb.
    replace (e - 1 - 1) with (e - 2) in Hb by lia. pose proof (blank_step (e - 2) _ ltac:(lia) Hb H1 E1) as Hc.
    replace (e - 2 - 1) with (e - 3) in Hc by lia. pose proof (blank_step (e - 3) _ ltac:(lia) Hc H0 E0) as Hd.
    by replace (e - 3 - 1) with (e - 4) in Hd by lia.
  - replace (e - lo) with ((e - 4 - lo) + 1 * 4) in Hal by lia. by rewrite N.Div0.mod_add in Hal.
Qed.

(** The last loop. *)
Lemma skip_bytes_trims e : blank_from e -> skip_bytes ptr str (S (length str)) ptr e = Some (ptr + N.of_nat (length (trim str))).
Proof.
  intros He. pose proof He as (H1 & H2 & _).
  destruct (skip_bytes_ok ptr (N.le_refl _) (S (length str)) e He H1) as (p & -> & Hbl & Hlp & Hpe & Hn); [lia|]. f_equal.
  pose proof Hbl as (_ & Hend & Hsp). rewrite (trims_to_unique str (length (trim str)) (N.to_nat (p - ptr))); [lia|apply trim_length|].
  split_and!; [done|lia|]. intros b Hpos Hb. destruct Hn as (c & Hc & Hne); [lia|]. rewrite byte_before_ok in Hc by lia.
  replace (N.to_nat (p - ptr - 1)) with (pred (N.to_nat (p - ptr))) in Hc by lia. congruence.
Qed.

Lemma blank_end : blank_from (ptr + len).
Proof.
  split_and!; [lia..|]. intros i b Hi Hb. apply lookup_lt_Some in Hb. lia.
Qed.

(** The part for long strings. *)
Lemma skip_words_blank e : blank_from e -> ptr < e -> e = (ptr + len) / 4 * 4 -> 20 < len ->
  (ptr + 3) / 4 * 4 < e -> exists p, skip_words ptr str (S (length str)) ((ptr + 3) / 4 * 4) e = Some p /\ blank_from p.
Proof.
  intros He Hpe Ee Hlen Hs. apply skip_words_ok; [|done|lia| |].
  - pose proof (N.div_mod' (ptr + 3) 4). pose proof (N.mod_lt (ptr + 3) 4 ltac:(done)). lia.
  - rewrite Ee, <- N.mul_sub_distr_r. by rewrite N.Div0.mod_mul.
  - pose proof (N.div_mod' (ptr + 3) 4). pose proof (N.mod_lt (ptr + 3) 4 ltac:(done)). destruct He as (_ & He & _). lia.
Qed.
End Skip.

Lemma skip_trailing_ok ptr str :
  Forall (fun b => b < 256) str -> skip_trailing_space ptr str = Some (ptr + N.of_nat (length (trim str))).
Proof.
  intros Hb. unfold skip_trailing_space. set (e := ptr + N.of_nat (length str)). pose proof (blank_end ptr str) as Hend. fold e in Hend.
  enough (exists e', (if 20 <? N.of_nat (length str) then _ else Some e) = Some e' /\ blank_from ptr str e') as (e' & -> & He').
  { cbn [mbind option_bind]. by apply skip_bytes_trims. }
  destruct (N.ltb_spec 20 (N.of_nat (length str))) as [Hlen|_]; [|by exists e]. cbv zeta.
  destruct (aligned_down e) as [Hwe Hwl]. set (w := e / 4 * 4) in *.
  destruct (N.ltb_spec ptr w) as [Hw|_]; [|by exists e].
  destruct (skip_bytes_ok ptr str w ltac:(lia) (S (length str)) e Hend) as (p & -> & Hbl & Hlp & Hpe & Hn); [lia|lia|]. cbn [mbind option_bind].
  destruct (byte_before_some ptr str p) as [b Hb']; [lia|lia|]. rewrite Hb'. cbn [mbind option_bind].
  destruct (N.eqb_spec b 0x20) as [->|]; [|by exists p]. destruct (N.ltb_spec ((ptr + 3) / 4 * 4) w) as [Hsw|]; [|by exists p].
  assert (p = w) as -> by (destruct (decide (w < p)) as [Hwp|]; [destruct (Hn Hwp) as (c & Hc & Hne); congruence|lia]).
  by apply skip_words_blank.
Qed.

(** C17. The scan of trailing spaces by aligned words of four bytes, used for
    strings longer than 20 bytes, never reads outside the string and ends where a
    scan byte by byte ends, whatever the address of the string. *)
Theorem skip_trailing_space_trims ptr str :
  Forall (fun b => b < 256) str -> skip_trailing_space ptr str = Some (ptr + N.of_nat (length (trim str))).
Proof. apply skip_trailing_ok. Qed.

(** ** Weights *)

(** The bytes of a weight. *)
Definition unscan (w : N) : list N :=
  if w <? 0x80 then [w]
  else if w <? 0x800 then [0xC0 + w / 64; 0x80 + w mod 64]
  else if w <? 0x10000 then [0xE0 + w / 4096; 0x80 + w / 64 mod 64; 0x80 + w mod 64]
  else [w - 0xFF0000].

(** Checking a range of bytes. *)
Definition all_in (lo : N) (n : nat) (P : N -> bool) : bool := forallb (fun i => P (lo + N.of_nat i)) (seq 0 n).

Lemma all_in_spec lo n P b : all_in lo n P = true -> lo <= b -> b < lo + N.of_nat n -> P b = true.
Proof.
  unfold all_in. rewrite forallb_forall. intros H H1 H2. replace b with (lo + N.of_nat (N.to_nat (b - lo))) by lia. apply H, in_seq. lia.
Qed.

Lemma continuation b : b < 256 -> IS_CONTINUATION_BYTE b = true -> 0x80 <= b /\ b < 0xC0.
Proof.
  intros Hb Hc. assert (all_in 0 256 (fun b => implb (IS_CONTINUATION_BYTE b) ((0x80 <=? b) && (b <? 0xC0))) = true) as H by (vm_compute; reflexivity).
  apply (all_in_spec _ _ _ b) in H; [|lia..]. cbv beta in H. rewrite Hc in H. simpl in H. apply andb_true_iff in H as [H1%N.leb_le H2%N.ltb_lt]. done.
Qed.

Lemma unscan_mb2 b0 b1 : 0xC2 <= b0 -> b0 < 0xE0 -> 0x80 <= b1 -> b1 < 0xC0 -> unscan (UTF8MB2_CODE b0 b1) = [b0; b1].
Proof.
  intros H1 H2 H3 H4. set (P := fun b0 b1 => bool_decide (unscan (UTF8MB2_CODE b0 b1) = [b0; b1])).
  assert (all_in 0xC2 30 (fun b0 => all_in 0x80 64 (P b0)) = true) as H by (vm_compute; reflexivity).
  apply (all_in_spec _ _ _ b0) in H; [|lia..]. apply (all_in_spec _ _ _ b1) in H; [by apply bool_decide_eq_true_1 in H|lia..].
Qed.

Lemma unscan_mb3 b0 b1 b2 : 0xE0 <= b0 -> b0 < 0xF0 -> 0x80 <= b1 -> b1 < 0xC0 -> 0x80 <= b2 -> b2 < 0xC0 ->
  0xE1 <= b0 \/ 0xA0 <= b1 -> unscan (UTF8MB3_CODE b0 b1 b2) = [b0; b1; b2].
Proof.
  intros H1 H2 H3 H4 H5 H6 H7.
  set (P := fun b0 b1 b2 => bool_decide (unscan (UTF8MB3_CODE b0 b1 b2) = [b0; b1; b2])).
  destruct (decide (0xE1 <= b0)) as [Hb|Hb].
  - assert (all_in 0xE1 15 (fun b0 => all_in 0x80 64 (fun b1 => all_in 0x80 64 (P b0 b1))) = true) as H by (vm_compute; reflexivity).
    apply (all_in_spec _ _ _ b0) in H; [|lia..]. apply (all_in_spec _ _ _ b1) in H; [|lia..]. apply (all_in_spec _ _ _ b2) in H; [by apply bool_decide_eq_true_1 in H|lia..].
  - assert (b0 = 0xE0) as -> by lia. destruct H7 as [?|H7]; [done|].
    assert (all_in 0xA0 32 (fun b1 => all_in 0x80 64 (P 0xE0 b1)) = true) as H by (vm_compute; reflexivity).
    apply (all_in_spec _ _ _ b1) in H; [|lia..]. apply (all_in_spec _ _ _ b2) in H; [by apply bool_decide_eq_true_1 in H|lia..].
Qed.

(** The weight of a character or bad byte determines its bytes. *)
Lemma scan_unscan b a : Forall (fun b => b < 256) (b :: a) ->
  exists rest, b :: a = unscan (scan_weight (b :: a)).2 ++ rest /\ (scan_weight (b :: a)).1 = length (unscan (scan_weight (b :: a)).2).
Proof.
  intros Hf. apply Forall_cons in Hf as [Hb Ha].
  assert (Hbad : exists rest, b :: a = unscan (1%nat, WEIGHT_ILSEQ b).2 ++ rest /\ (1%nat, WEIGHT_ILSEQ b).1 = length (unscan (1%nat, WEIGHT_ILSEQ b).2)).
  { assert (unscan (WEIGHT_ILSEQ b) = [b]) as E; [|exists a; simpl; by rewrite E]. unfold unscan, WEIGHT_ILSEQ.
    destruct (N.ltb_spec (0xFF0000 + b) 0x80); [lia|]. destruct (N.ltb_spec (0xFF0000 + b) 0x800); [lia|].
    destruct (N.ltb_spec (0xFF0000 + b) 0x10000); [lia|]. f_equal. lia. }
  unfold scan_weight. destruct (N.ltb_spec b 0x80) as [H1|H1].
  { exists a. unfold unscan. simpl. apply N.ltb_lt in H1. by rewrite H1. }
  destruct (N.ltb_spec b 0xC2) as [H2|H2]; [done|]. destruct a as [|b1 a]; [done|]. apply Forall_cons in Ha as [Hb1 Ha].
  destruct (IS_UTF8MB2_STEP2 b b1) eqn:E2.
  { apply andb_true_iff in E2 as [E2%N.ltb_lt [E3 E4]%continuation]; [|done]. simpl. rewrite unscan_mb2 by done. by exists a. }
  destruct a as [|b2 a]; [done|]. apply Forall_cons in Ha as [Hb2 Ha]. destruct (IS_UTF8MB3_STEP3 b b1 b2) eqn:E3; [|done].
  apply andb_true_iff in E3 as [E3%N.ltb_lt E4]. apply andb_true_iff in E4 as [[C1 C2]%andb_true_iff E5].
  apply orb_true_iff in E5. rewrite !N.leb_le in E5. pose proof C1 as C1'. apply continuation in C1 as [? ?], C2 as [? ?]; [|done..].
  unfold IS_UTF8MB2_STEP2 in E2. rewrite C1', andb_true_r in E2. apply N.ltb_ge in E2.
  simpl. rewrite unscan_mb3 by done. by exists a.
Qed.

Lemma scan_same a b : Forall (fun b => b < 256) a -> Forall (fun b => b < 256) b -> a <> [] -> b <> [] ->
  (scan_weight a).2 = (scan_weight b).2 ->
  exists u ra rb, a = u ++ ra /\ b = u ++ rb /\ (scan_weight a).1 = length u /\ (scan_weight b).1 = length u /\ (0 < length u)%nat.
Proof.
  intros Ha Hb Na Nb E. destruct a as [|x a]; [done|]. destruct b as [|y b]; [done|].
  destruct (scan_unscan x a Ha) as (ra & Ea & La). destruct (scan_unscan y b Hb) as (rb & Eb & Lb). rewrite <- E in Eb, Lb.
  exists (unscan (scan_weight (x :: a)).2), ra, rb. split_and!; try done. unfold unscan.
  destruct (_ <? 0x80); [simpl; lia|]. destruct (_ <? 0x800); [simpl; lia|]. destruct (_ <? 0x10000); simpl; lia.
Qed.

Lemma scan_length a : ((scan_weight a).1 = 0)%nat <-> a = [].
Proof.
  destruct a as [|b0 a]; [done|]. split; [|done]. unfold scan_weight. destruct (b0 <? 0x80); [done|]. destruct (b0 <? 0xC2); [done|].
  destruct a as [|b1 a]; [done|]. destruct (IS_UTF8MB2_STEP2 b0 b1); [done|]. destruct a as [|b2 a]; [done|]. by destruct (IS_UTF8MB3_STEP3 b0 b1 b2).
Qed.

(** Only the byte itself has the weight of a single byte. *)
Lemma scan_byte b a w : Forall (fun b => b < 256) (b :: a) -> w < 0x80 -> (scan_weight (b :: a)).2 = w <-> b = w.
Proof.
  intros Hf Hw. destruct (scan_unscan b a Hf) as (r & E & _). split.
  - intros Ew. rewrite Ew in E. unfold unscan in E. apply N.ltb_lt in Hw. rewrite Hw in E. by injection E.
  - intros ->. unfold scan_weight. apply N.ltb_lt in Hw. by rewrite Hw.
Qed.

(** A byte that continues no character does not change the one before it. *)
Lemma scan_app a x s : a <> [] -> IS_CONTINUATION_BYTE x = false -> scan_weight (a ++ x :: s) = scan_weight a.
Proof.
  intros Na Hx. destruct a as [|b0 a]; [done|]. simpl. destruct (b0 <? 0x80); [done|]. destruct (b0 <? 0xC2); [done|].
  destruct a as [|b1 a]; simpl.
  - unfold IS_UTF8MB2_STEP2, IS_UTF8MB3_STEP3, IS_UTF8MB3_STEP2. rewrite Hx, andb_false_r. destruct s; [done|]. by rewrite andb_false_r.
  - destruct (IS_UTF8MB2_STEP2 b0 b1); [done|]. destruct a as [|b2 a]; [|done]. simpl.
    unfold IS_UTF8MB3_STEP3, IS_UTF8MB3_STEP2. rewrite Hx. rewrite andb_false_r. simpl. by rewrite andb_false_r.
Qed.

(** ** Comparison *)

Lemma drop_same (u r : list N) n : n = length u -> drop n (u ++ r) = r.
Proof. intros ->. apply drop_app_length. Qed.

Lemma strnncoll_spec fuel : forall a b, Forall (fun b => b < 256) a -> Forall (fun b => b < 256) b -> (length a < fuel)%nat ->
  exists r, strnncoll fuel a b false = Some r /\ (r = 0%Z <-> a = b \/ (exists c, b = a ++ 0 :: c) \/ (exists c, a = b ++ 0 :: c)).
Proof.
  induction fuel as [|fuel IH]; intros a b Ha Hb Hf; [lia|]. cbn [strnncoll].
  destruct (scan_weight a) as [la wa] eqn:Ea. destruct (scan_weight b) as [lb wb] eqn:Eb.
  pose proof (scan_length a) as Sa. pose proof (scan_length b) as Sb. rewrite Ea in Sa. rewrite Eb in Sb. simpl in Sa, Sb.
  destruct (Nat.eqb_spec la 0) as [Hla|Hla]; [|destruct (Nat.eqb_spec lb 0) as [Hlb|Hlb]].
  - apply Sa in Hla as ->. eexists. split; [done|]. destruct b as [|y b].
    + rewrite (proj2 (Nat.eqb_eq _ _)) by (by apply Sb). split; [by left|done].
    + destruct (Nat.eqb_spec lb 0) as [Hlb|_]; [by apply Sb in Hlb|]. pose proof (scan_byte y b 0 Hb ltac:(done)) as Hy. rewrite Eb in Hy. simpl in Hy.
      split; [|intros [?|[[c [= -> ->]]|[c ?]]]; [done| |done]; by rewrite (proj2 Hy)]. intros Hw. right. left. exists b. simpl. f_equal. apply Hy. lia.
  - apply Sb in Hlb as ->. eexists. split; [done|]. destruct a as [|x a]; [by destruct Hla; apply Sa|].
    pose proof (scan_byte x a 0 Ha ltac:(done)) as Hx. rewrite Ea in Hx. simpl in Hx.
    split; [|intros [?|[[c ?]|[c [= -> ->]]]]; [done|done|]; by rewrite (proj2 Hx)]. intros Hw. right. right. exists a. simpl. f_equal. apply Hx. lia.
  - assert (a <> []) as Na by (by intros E; apply Hla, Sa). assert (b <> []) as Nb by (by intros E; apply Hlb, Sb).
    destruct (Z.eqb_spec (Z.of_N wa - Z.of_N wb) 0) as [Hw|Hw]; simpl.
    + assert (wa = wb) as -> by lia. destruct (scan_same a b Ha Hb Na Nb) as (u & ra & rb & -> & -> & Lu & Lu' & Hu); [by rewrite Ea, Eb|].
      rewrite Ea in Lu. rewrite Eb in Lu'. simpl in Lu, Lu'. rewrite !drop_same by done. apply Forall_app in Ha as [_ Ha], Hb as [_ Hb].
      destruct (IH ra rb Ha Hb) as (r & Hr & Hz); [rewrite length_app in Hf; lia|]. exists r. split; [done|]. rewrite Hz.
      setoid_rewrite <- (assoc_L (++)). split; (intros [E|[[c E]|[c E]]]; [left|right; left; exists c|right; right; exists c]); simplify_list_eq; done.
    + exists (Z.of_N wa - Z.of_N wb)%Z. split; [done|]. split; [done|]. intros H. exfalso. apply Hw.
      enough (scan_weight a = scan_weight b) as E by (rewrite Ea, Eb in E; injection E; lia).
      destruct H as [->|[[c ->]|[c ->]]]; [done| |]; by rewrite scan_app.
Qed.

(** The comparison of keys by the weights of their characters ends, and two
    byte strings compare equal exactly if they are the same or one is the other
    followed by a NUL and more bytes. *)
Theorem strnncoll_equal_bytes a b :
  Forall (fun b => b < 256) a -> Forall (fun b => b < 256) b ->
  exists r, my_strnncoll_utf8_bin a b false = Some r /\
    (r = 0%Z <-> a = b \/ (exists c, b = a ++ 0 :: c) \/ (exists c, a = b ++ 0 :: c)).
Proof. intros Ha Hb. apply strnncoll_spec; [done|done|lia]. Qed.

(** ** Comparison with padding *)

Lemma trim_nil s : trim s = [] <-> Forall (fun b => b = 0x20) s.
Proof.
  induction s as [|b s IH]; simpl; [by split|]. rewrite Forall_cons, <- IH. destruct (trim s) as [|c t]; [|by split; [|intros [_ ?]]].
  destruct (N.eqb_spec b 0x20); naive_solver.
Qed.

Lemma trim_app u r : trim (u ++ r) = match trim r with [] => trim u | t => u ++ t end.
Proof.
  induction u as [|b u IH]; simpl; [by destruct (trim r)|]. rewrite IH. destruct (trim r) as [|c t] eqn:E; [done|].
  destruct u; done.
Qed.

Lemma trim_app_eq u r r' : trim (u ++ r) = trim (u ++ r') <-> trim r = trim r'.
Proof.
  rewrite !trim_app. assert (Hl : (length (trim u) <= length u)%nat) by apply trim_length.
  assert (Hne : forall c t, trim u <> u ++ c :: t) by (intros c t E; apply (f_equal length) in E; rewrite length_app in E; simpl in E; lia).
  destruct (trim r) as [|c t], (trim r') as [|c' t']; split; try done.
  - intros E. by apply Hne in E.
  - intros E. symmetry in E. by apply Hne in E.
  - intros E. by simplify_list_eq.
  - intros E. by rewrite E.
Qed.

Lemma trim_spaces s : exists k, s = trim s ++ replicate k 0x20.
Proof.
  induction s as [|b s [k IH]]; [by exists 0%nat|]. simpl. destruct (trim s) as [|c t] eqn:E.
  - simpl in IH. destruct (N.eqb_spec b 0x20) as [->|]; [exists (S k)|exists k]; simpl; by rewrite IH at 1.
  - exists k. simpl. by rewrite IH at 1.
Qed.

(** Spaces at the end change the first weight only if there is nothing else. *)
Lemma scan_trim s : (scan_weight s).2 = (scan_weight (trim s)).2.
Proof.
  destruct (trim_spaces s) as [k E]. destruct (decide (trim s = [])) as [Ht|Ht].
  - rewrite Ht in E |- *. rewrite E. by destruct k.
  - rewrite E at 1. destruct k as [|k]; simpl; [by rewrite app_nil_r|]. by rewrite scan_app.
Qed.

Lemma strnncollsp_spec fuel : forall a b, Forall (fun b => b < 256) a -> Forall (fun b => b < 256) b ->
  (length a + length b < fuel)%nat -> exists r, strnncollsp fuel a b = Some r /\ (r = 0%Z <-> trim a = trim b).
Proof.
  induction fuel as [|fuel IH]; intros a b Ha Hb Hf; [lia|]. cbn [strnncollsp].
  pose proof (scan_length a) as Sa. pose proof (scan_length b) as Sb. pose proof (scan_trim a) as Ta. pose proof (scan_trim b) as Tb.
  destruct (scan_weight a) as [la wa] eqn:Ea. destruct (scan_weight b) as [lb wb] eqn:Eb. simpl in Sa, Sb, Ta, Tb.
  destruct (Z.eqb_spec (Z.of_N wa - Z.of_N wb) 0) as [Hw|Hw]; simpl.
  2: { exists (Z.of_N wa - Z.of_N wb)%Z. split; [done|]. split; [done|]. intros E. rewrite E in Ta. rewrite <- Tb in Ta. lia. }
  assert (wa = wb) as E by lia. clear Ta Tb Hw. subst wb.
  assert (Hpad : forall s l, Forall (fun b => b < 256) s -> s <> [] -> scan_weight s = (l, WEIGHT_PAD_SPACE) -> exists s', s = 0x20 :: s' /\ l = 1%nat).
  { intros s l Hs Ns Es. destruct s as [|y s]; [done|]. pose proof (scan_byte y s 0x20 Hs ltac:(done)) as Hy. rewrite Es in Hy.
    assert (y = 0x20) as -> by (by apply Hy). exists s. split; [done|]. simpl in Es. by injection Es as <-. }
  destruct (decide (a = [])) as [->|Na]; [|destruct (decide (b = [])) as [->|Nb]].
  - injection Ea as <- <-. simpl. destruct (decide (b = [])) as [->|Nb]; [injection Eb as <-; by exists 0%Z|].
    destruct (Hpad b lb Hb Nb Eb) as (b' & -> & ->). simpl in *. apply Forall_cons in Hb as [_ Hb].
    destruct (IH [] b' Ha Hb) as (r & Hr & Hz); [simpl; lia|]. exists r. split; [done|]. rewrite Hz. simpl. by destruct (trim b').
  - injection Eb as <- <-. destruct (Hpad a la Ha Na Ea) as (a' & -> & ->). simpl in *. apply Forall_cons in Ha as [_ Ha].
    destruct (IH a' [] Ha Hb) as (r & Hr & Hz); [simpl; lia|]. exists r. split; [done|]. rewrite Hz. simpl. by destruct (trim a').
  - destruct (scan_same a b Ha Hb Na Nb) as (u & ra & rb & -> & -> & Lu & Lu' & Hu); [by rewrite Ea, Eb|].
    rewrite Ea in Lu. rewrite Eb in Lu'. simpl in Lu, Lu'. rewrite (proj2 (Nat.eqb_neq la 0)) by lia. simpl. rewrite !drop_same by done.
    apply Forall_app in Ha as [_ Ha], Hb as [_ Hb]. rewrite !length_app in Hf.
    destruct (IH ra rb Ha Hb) as (r & Hr & Hz); [lia|]. exists r. split; [done|]. by rewrite Hz, trim_app_eq.
Qed.

(** The hash number is the one of the string without trailing spaces, whatever
    its address. *)
Lemma hash_sort_total ptr key : Forall (fun b => b < 256) key ->
  my_hash_sort ptr key = Some (to_uint (my_hash_sort_mb_nopad_bin (trim key) (1, 4)).1).
Proof.
  intros Hk. unfold my_hash_sort, my_hash_sort_mb_bin. pose proof (trim_take key) as E.
  assert (skip_trailing_space ptr key = Some (ptr + N.of_nat (length (trim key)))) as -> by (by apply skip_trailing_ok). cbn [mbind option_bind fst].
  replace (N.to_nat (ptr + N.of_nat (length (trim key)) - ptr)) with (length (trim key)) by lia. by rewrite <- E.
Qed.

(** C27. Two strings compare equal with padding exactly if they differ only in
    trailing spaces, and then they have the same hash number, at whatever
    addresses they are: the comparison and the hash function of the character set
    fit together. *)
Theorem strnncollsp_hash_consistent a b :
  Forall (fun b => b < 256) a -> Forall (fun b => b < 256) b ->
  exists r, my_strnncollsp_utf8_bin a b = Some r /\ (r = 0%Z <-> trim a = trim b) /\
    (r = 0%Z -> forall p q, my_hash_sort p a = my_hash_sort q b).
Proof.
  intros Ha Hb. destruct (strnncollsp_spec (S (length a + length b)) a b Ha Hb) as (r & Hr & Hz); [lia|].
  exists r. split_and!; [done|done|]. intros E%Hz p q. by rewrite !hash_sort_total, E.
Qed.

(** ** The keys of a table *)

Lemma bytes_lt s : Forall (fun b => b < 256) (bytes s).
Proof.
  unfold bytes. apply Forall_fmap, Forall_forall. intros c _. simpl. pose proof (Ascii.N_ascii_bounded c). lia.
Qed.

Lemma bytes_inj s s' : bytes s = bytes s' -> s = s'.
Proof.
  unfold bytes. intros E. apply (f_equal (fmap Ascii.ascii_of_N)) in E. rewrite <- !list_fmap_compose in E.
  assert (Hid : forall l : list Ascii.ascii, (Ascii.ascii_of_N ∘ Ascii.N_of_ascii) <$> l = l).
  { intros l. induction l as [|c l IH]; [done|]. csimpl. by rewrite Ascii.ascii_N_embedding, IH. }
  rewrite !Hid in E. rewrite <- (String.string_of_list_ascii_of_string s), E. apply String.string_of_list_ascii_of_string.
Qed.

(** Keys are the same if their bytes are. *)
Lemma utf8_bin_same k k' : key_same k k' = true <-> k = k'.
Proof.
  simpl. rewrite andb_true_iff, Nat.eqb_eq, bool_decide_eq_true.
  destruct (strnncoll_spec (S (length (bytes k))) (bytes k) (bytes k') (bytes_lt k) (bytes_lt k')) as (r & Hr & Hz); [lia|].
  unfold my_strnncoll_utf8_bin. rewrite Hr. split; [|intros ->; split; [done|]; f_equal; apply Hz; by left].
  intros [Hl [= Hr0]]. apply bytes_inj. apply Hz in Hr0 as [?|[[c E]|[c E]]]; [done|..]; rewrite E, length_app in Hl; simpl in Hl; lia.
Qed.

#[export] Instance utf8_bin_laws : HashKeyLaws string.
Proof.
  split; setoid_rewrite utf8_bin_same; [done|done|congruence|congruence].
Qed.

(** ** Examples *)

(** "ab" and 24 spaces, at an address that is not aligned. *)
Lemma skip_trailing_space_trims_witness :
  Forall (fun b => b < 256) ([97; 98] ++ replicate 24 0x20) /\
  skip_trailing_space 4097 ([97; 98] ++ replicate 24 0x20) = Some (4097 + N.of_nat (length (trim ([97; 98] ++ replicate 24 0x20)))).
Proof.
  assert (Forall (fun b => b < 256) ([97; 98] ++ replicate 24 0x20)) as H by (repeat constructor).
  split; [exact H|]. exact (skip_trailing_space_trims 4097 _ H).
Defined.

(** "a", and "a" followed by NUL and "b", compare equal. *)
Lemma strnncoll_equal_bytes_witness :
  my_strnncoll_utf8_bin [97] [97; 0; 98] false = Some 0%Z /\
  exists r, my_strnncoll_utf8_bin [97] [97; 0; 98] false = Some r /\
    (r = 0%Z <-> [97] = [97; 0; 98] \/ (exists c, [97; 0; 98] = [97] ++ 0 :: c) \/ (exists c, [97] = [97; 0; 98] ++ 0 :: c)).
Proof.
  split; [reflexivity|]. refine (strnncoll_equal_bytes [97] [97; 0; 98] _ _); repeat constructor.
Defined.

(** A character of two bytes, with and without a space after it. *)
Lemma strnncollsp_hash_consistent_witness :
  my_strnncollsp_utf8_bin [0xC3; 0xA9] [0xC3; 0xA9; 0x20] = Some 0%Z /\
  exists r, my_strnncollsp_utf8_bin [0xC3; 0xA9] [0xC3; 0xA9; 0x20] = Some r /\
    (r = 0%Z <-> trim [0xC3; 0xA9] = trim [0xC3; 0xA9; 0x20]) /\
    (r = 0%Z -> forall p q, my_hash_sort p [0xC3; 0xA9] = my_hash_sort q [0xC3; 0xA9; 0x20]).
Proof.
  split; [reflexivity|]. refine (strnncollsp_hash_consistent [0xC3; 0xA9] [0xC3; 0xA9; 0x20] _ _); repeat constructor.
Defined.
