(* ===== verification/AutoInc.v ===== *)
(** * Auto-increment values of a partitioned Spider table

    Every TSpider node hands out the auto-increment values of a table itself:
    the values of a node are [mode_value] plus a multiple of [step], the nodes
    have different mode values.  The counter is the one of the partition engine
    (sql/ha_partition.cc, sql/ha_partition.h), values are taken from it in
    intervals by the handlers of the statements (sql/handler.cc), and it is
    initialised from the backends through the partitions' Spider handlers
    (storage/spider/ha_spider.cc). *)

From stdpp Require Import base list.
From Stdlib Require Import ZArith Lia.
From S2P Require Import Prelude.
Local Open Scope spider_scope.
Local Open Scope Z_scope.

(** ** Data *)

Definition ULONGLONG_MAX : Z := 2 ^ 64 - 1.

(** Arithmetic on [ulonglong]. *)
Definition to_ull (z : Z) : Z := z mod 2 ^ 64.

(** The values of the [uint] options, of the statement's variables and of the
    table definition. *)
Class AutoVars := {
  opt_spider_auto_increment_mode_switch : bool;
  opt_spider_auto_increment_step : Z;
  opt_auto_increment_mode_value : Z;
  is_spider_storage_engine : bool;
  auto_increment_increment : Z;
  auto_increment_offset : Z;
  spider_param_auto_increment_mode : Z;
  next_number_keypart : Z;
  field_unsigned : bool;
  (** the largest value the column can store *)
  field_max : Z }.

(** [Discrete_interval]; the upper bound is excluded. *)
Record Discrete_interval := mk_interval { interval_min : Z; interval_values : Z; interval_max : Z }.

Definition interval_replace (start val incr : Z) : Discrete_interval :=
  mk_interval start val (if Z.eqb val ULONGLONG_MAX then val else to_ull (start + to_ull (val * incr))).

(** The counter of the table, shared by all handlers of the node. *)
Record Partition_share := mk_partition_share {
  auto_inc_initialized : bool;
  last_insert_failed : bool;
  next_auto_inc_val : Z }.

(** The auto-increment fields of the share of a partition's Spider handler. *)
Record share_auto := mk_share_auto {
  auto_increment_init : bool;
  auto_increment_lclval : Z;
  auto_increment_value : Z }.

(** The fields of the handler of a statement, with what [THD] says of the
    statement: the forced intervals (SET INSERT_ID), the kind of statement and
    its estimated number of rows. *)
Record handler := mk_handler {
  next_insert_id : Z;
  insert_id_for_cur_row : Z;
  auto_inc_interval_for_cur_row : Discrete_interval;
  auto_inc_intervals_count : Z;
  m_need_info_for_auto_inc : bool;
  info_auto_called : list bool;
  stats_auto_increment_value : Z;
  auto_inc_intervals_forced : list Discrete_interval;
  forced_maximum : Z;
  estimation_rows_to_insert : Z;
  many_values_elements : Z }.

(** The statements that the code tells apart. *)
Inductive sql_command :=
| SQLCOM_INSERT_OR_REPLACE
| SQLCOM_DROP_ALTER_SHOW_CREATE
| SQLCOM_SHOW_TABLE_STATUS
| SQLCOM_OTHER.

#[export] Instance sql_command_eq_dec : EqDecision sql_command.
Proof. solve_decision. Defined.

(** What a backend answers to the read of the greatest value of the index:
    [index_init] fails, the read fails (an empty table or any error), or the
    value. *)
Inductive remote_answer := RInitError | RError | RLast (v : Z).

(** A row to be written: the value of the auto-increment column, whether it was
    given and whether 0 counts as given, and what the outside answers. *)
Record row := mk_row {
  field_val : Z;
  auto_increment_field_not_null : bool;
  no_auto_value_on_zero : bool;
  row_command : sql_command;
  row_remote : list remote_answer;
  row_version_err : Z -> Z;
  row_partition : Z + nat;
  (** the error of the partition's [write_row], on the left if it was found before
      the column was looked at *)
  row_write_err : Z + Z }.

(** The variables of [write_record] (sql/sql_insert.cc) for the row that a statement
    is at: [next_insert_id] before the row, the local [insert_id_for_cur_row], and the
    value that was generated for the row. *)
Record row_ids := mk_row_ids {
  prev_insert_id : Z;
  saved_insert_id : Z;
  row_value : option Z }.

(** The state an operation works on: the counter, the shares of the partitions
    and the handler of the statement. *)
Record auto := mk_auto {
  a_share : Partition_share;
  a_files : list share_auto;
  a_handler : handler }.

#[export] Instance partition_share_eta : Eta Partition_share := fun r =>
  mk_partition_share (auto_inc_initialized r) (last_insert_failed r) (next_auto_inc_val r).
#[export] Instance share_auto_eta : Eta share_auto := fun r =>
  mk_share_auto (auto_increment_init r) (auto_increment_lclval r) (auto_increment_value r).
#[export] Instance handler_eta : Eta handler := fun r =>
  mk_handler (next_insert_id r) (insert_id_for_cur_row r) (auto_inc_interval_for_cur_row r)
    (auto_inc_intervals_count r) (m_need_info_for_auto_inc r) (info_auto_called r)
    (stats_auto_increment_value r) (auto_inc_intervals_forced r) (forced_maximum r)
    (estimation_rows_to_insert r) (many_values_elements r).
#[export] Instance row_eta : Eta row := fun r =>
  mk_row (field_val r) (auto_increment_field_not_null r) (no_auto_value_on_zero r) (row_command r)
    (row_remote r) (row_version_err r) (row_partition r) (row_write_err r).
#[export] Instance row_ids_eta : Eta row_ids := fun r => mk_row_ids (prev_insert_id r) (saved_insert_id r) (row_value r).
#[export] Instance auto_eta : Eta auto := fun r => mk_auto (a_share r) (a_files r) (a_handler r).

Definition HA_ERR_AUTOINC_READ_FAILED : Z := 166.
Definition HA_ERR_AUTOINC_ERANGE : Z := 167.

(** The column keeps its value: it was given. *)
Definition value_given (r : row) : bool :=
  negb (Z.eqb (field_val r) 0) || auto_increment_field_not_null r && no_auto_value_on_zero r.

Section AutoInc.
  Context `{av : AutoVars}.

(** The values of the nodes are kept apart. *)
Definition spider_mode : bool := opt_spider_auto_increment_mode_switch && is_spider_storage_engine.

(** ** sql/handler.cc *)

Definition compute_next_insert_id (nr : Z) : Z :=
  let save_nr := nr in
  let nr :=
    if spider_mode then
      to_ull (to_ull (nr + opt_spider_auto_increment_step - opt_auto_increment_mode_value)
                / opt_spider_auto_increment_step * opt_spider_auto_increment_step
              + opt_auto_increment_mode_value)
    else if Z.eqb auto_increment_increment 1 then to_ull (nr + 1)
    else
      to_ull (to_ull (nr + auto_increment_increment - auto_increment_offset)
                / auto_increment_increment * auto_increment_increment
              + auto_increment_offset) in
  if Z.leb nr save_nr then ULONGLONG_MAX else nr.

Definition adjust_next_insert_id_after_explicit_value (nr : Z) (h : handler) : handler :=
  if Z.ltb 0 (next_insert_id h) && Z.leb (next_insert_id h) nr
  then h <| next_insert_id := compute_next_insert_id nr |>
  else h.

(** How many values the statement asks for. *)
Definition nb_desired_values (h : handler) : Z :=
  if Z.eqb (auto_inc_intervals_count h) 0 && Z.ltb 0 (estimation_rows_to_insert h)
  then estimation_rows_to_insert h
  else if Z.eqb (auto_inc_intervals_count h) 0 && Z.ltb 0 (many_values_elements h)
  then many_values_elements h
  else if Z.leb (auto_inc_intervals_count h) 16
  then Z.min (Z.shiftl 1 (auto_inc_intervals_count h)) 65535
  else 65535.

(** ** sql/ha_partition.cc *)

(** The first value at or above the counter of the form of this node. *)
Definition round_up_for_node (next : Z) : Z :=
  to_ull (to_ull (next + opt_spider_auto_increment_step - opt_auto_increment_mode_value - 1)
            / opt_spider_auto_increment_step * opt_spider_auto_increment_step
          + opt_auto_increment_mode_value).

(** The greatest of the partitions' values; the first [ULONGLONG_MAX] is an
    error. *)
Fixpoint max_first_value (parts : list Z) (m : Z) : Z :=
  match parts with
  | [] => m
  | p :: parts => if Z.eqb p ULONGLONG_MAX then p else max_first_value parts (Z.max m p)
  end.

(** [ha_partition::get_auto_increment]; [parts] are the answers of the
    partitions, asked when the column is not the first of its key. *)
Definition ha_partition_get_auto_increment (increment nb_desired : Z) (parts : list Z)
    (s : Partition_share) : Z * Z * Partition_share :=
  if negb (Z.eqb next_number_keypart 0) then (max_first_value parts 0, 1, s)
  else
    let first_value := if spider_mode then round_up_for_node (next_auto_inc_val s)
                       else next_auto_inc_val s in
    let inc := if spider_mode then opt_spider_auto_increment_step else increment in
    (first_value, nb_desired,
     s <| next_auto_inc_val := to_ull (first_value + to_ull (nb_desired * inc)) |>).

(** ** [handler::update_auto_increment]

    Without its branch for ALTER TABLE of a versioned table and without the
    binary log. *)

(** A new interval: from the forced ones, or from the engine. *)
Definition reserve (parts : list Z) (s : Partition_share) (h : handler) :
    option (Z * Z) * Partition_share * handler :=
  match auto_inc_intervals_forced h with
  | f :: fs => (Some (interval_min f, interval_values f), s, h <| auto_inc_intervals_forced := fs |>)
  | [] =>
      let '(nr, n, s) := ha_partition_get_auto_increment auto_increment_increment
                           (nb_desired_values h) parts s in
      if Z.eqb nr ULONGLONG_MAX then (None, s, h)
      else (Some (if spider_mode then nr else compute_next_insert_id (to_ull (nr - 1)), n), s, h)
  end.

(** The rest of the function, once the value is known: [append] carries the
    number of reserved values of a new interval.  The result is the error and
    the value of the column. *)
Definition store_auto_increment (nr : Z) (append : option Z) (h : handler) : Z * Z * handler :=
  if Z.eqb nr ULONGLONG_MAX then (HA_ERR_AUTOINC_ERANGE, 0, h)
  else
    let result := if Z.ltb field_max nr then HA_ERR_AUTOINC_ERANGE else 0 in
    let h := match append with
             | Some n =>
                 h <| auto_inc_interval_for_cur_row := interval_replace nr n
                        (if spider_mode then opt_spider_auto_increment_step
                         else auto_increment_increment) |>
                   <| auto_inc_intervals_count := auto_inc_intervals_count h + 1 |>
             | None => h
             end in
    let h := h <| insert_id_for_cur_row := nr |> in
    if Z.eqb result 0
    then (0, nr, h <| next_insert_id := compute_next_insert_id nr |>)
    else (result, Z.min nr field_max, h).

Definition update_auto_increment (r : row) (parts : list Z) (s : Partition_share) (h : handler) :
    Z * Z * Partition_share * handler :=
  if value_given r then
    let h := if Z.ltb 0 (field_val r) || field_unsigned
             then adjust_next_insert_id_after_explicit_value (to_ull (field_val r)) h else h in
    (0, field_val r, s, h <| insert_id_for_cur_row := 0 |>)
  else if Z.leb (interval_max (auto_inc_interval_for_cur_row h)) (next_insert_id h) then
    let '(res, s, h) := reserve parts s h in
    match res with
    | None => (HA_ERR_AUTOINC_READ_FAILED, field_val r, s, h)
    | Some (nr, n) =>
        let '(e, v, h) := store_auto_increment nr
                            (if Z.eqb next_number_keypart 0 then Some n else None) h in
        (e, v, s, h)
    end
  else
    let '(e, v, h) := store_auto_increment (next_insert_id h) None h in (e, v, s, h).

(** [ha_partition::release_auto_increment]; the Spider handlers have nothing to
    release. *)
Definition release_auto_increment (s : Partition_share) (h : handler) : Partition_share :=
  if negb (Z.eqb next_number_keypart 0) || Z.eqb (next_insert_id h) 0 then s
  else if Z.ltb (next_insert_id h) (next_auto_inc_val s) &&
          Z.leb (next_auto_inc_val s) (interval_max (auto_inc_interval_for_cur_row h)) &&
          Z.ltb (forced_maximum h) (next_insert_id h)
  then s <| next_auto_inc_val := next_insert_id h |>
  else s.

(** [handler::ha_release_auto_increment] *)
Definition ha_release_auto_increment (s : Partition_share) (h : handler) : Partition_share * handler :=
  let s := release_auto_increment s h in
  let h := h <| insert_id_for_cur_row := 0 |>
             <| auto_inc_interval_for_cur_row := interval_replace 0 0 0 |>
             <| auto_inc_intervals_count := 0 |> in
  (s, if Z.ltb 0 (next_insert_id h)
      then h <| next_insert_id := 0 |> <| auto_inc_intervals_forced := [] |> <| forced_maximum := 0 |>
      else h).

(** [handler::restore_auto_increment], after a row that was not inserted. *)
Definition restore_auto_increment (prev_insert_id : Z) (h : handler) : handler :=
  h <| next_insert_id := if Z.ltb 0 prev_insert_id then prev_insert_id else insert_id_for_cur_row h |>.

(** ** [write_record] of sql/sql_insert.cc *)

(** The start of [write_record]. *)
Definition write_record_start (h : handler) : row_ids := mk_row_ids (next_insert_id h) 0 None.

(** After each [ha_write_row] of a row: a value generated for it is kept, for the
    next attempts find it in the column. *)
Definition keep_insert_id (ids : row_ids) (h : handler) : row_ids * handler :=
  if Z.ltb 0 (insert_id_for_cur_row h) then (ids <| saved_insert_id := insert_id_for_cur_row h |>, h)
  else (ids, h <| insert_id_for_cur_row := saved_insert_id ids |>).

(** A row that was not inserted, because of an error. *)
Definition row_failed (ids : row_ids) (h : handler) : handler := restore_auto_increment (prev_insert_id ids) h.

(** ON DUPLICATE KEY UPDATE changed another row instead, setting its column to
    [explicit] if that was asked for. *)
Definition row_updated_instead (ids : row_ids) (explicit : option Z) (h : handler) : handler :=
  let h := restore_auto_increment (prev_insert_id ids) h in
  let prev_insert_id_for_cur_row := insert_id_for_cur_row h in
  let h := h <| insert_id_for_cur_row := 0 |> in
  match explicit with
  | Some v => adjust_next_insert_id_after_explicit_value (to_ull v) h
  | None => if Z.eqb prev_insert_id_for_cur_row 0 then h else restore_auto_increment prev_insert_id_for_cur_row h
  end.

(** [set_auto_increment_if_higher] of ha_partition.h *)
Definition set_auto_increment_if_higher (v error : Z) (s : Partition_share) : Partition_share :=
  let nr := if field_unsigned || Z.ltb 0 v then to_ull v else 0 in
  let s :=
    if Z.leb (next_auto_inc_val s) nr then
      s <| next_auto_inc_val :=
             if spider_mode then
               to_ull (to_ull (nr + opt_spider_auto_increment_step - opt_auto_increment_mode_value)
                         / opt_spider_auto_increment_step * opt_spider_auto_increment_step
                       + opt_auto_increment_mode_value)
             else to_ull (nr + 1) |>
    else s in
  if spider_mode && negb (Z.eqb error 0)
  then s <| last_insert_failed := true |> <| auto_inc_initialized := false |>
  else s.

(** The end of [ha_partition::end_bulk_insert] after an error of a partition. *)
Definition end_bulk_insert_failed (error : Z) (s : Partition_share) : Partition_share :=
  if negb (Z.eqb error 0) && spider_mode
  then s <| auto_inc_initialized := false |> <| last_insert_failed := true |>
  else s.

(** The counter in [truncate], [truncate_partition] and [reset_auto_increment]. *)
Definition reset_counter (s : Partition_share) : Partition_share :=
  mk_partition_share false false 0.

(** ** storage/spider/ha_spider.cc *)

(** [ha_spider::get_auto_increment]: the value after the greatest stored one, or
    the next local one. *)
Definition ha_spider_get_auto_increment (increment nb_desired : Z) (ans : remote_answer)
    (f : share_auto) : Z * share_auto :=
  if Z.eqb spider_param_auto_increment_mode 0 then
    (match ans with
     | RInitError => ULONGLONG_MAX
     | RError => 1
     | RLast v => to_ull (to_ull v + 1)
     end, f)
  else (auto_increment_lclval f,
        f <| auto_increment_lclval := to_ull (auto_increment_lclval f + to_ull (nb_desired * increment)) |>).

(** [ha_spider::info] with [HA_STATUS_AUTO], the table statistics apart. *)
Definition ha_spider_info_auto (r : row) (ans : remote_answer) (f : share_auto) : Z * share_auto :=
  match row_command r with
  | SQLCOM_DROP_ALTER_SHOW_CREATE | SQLCOM_SHOW_TABLE_STATUS => (0, f)
  | _ =>
      if Z.eqb spider_param_auto_increment_mode 0 && negb (value_given r) then
        let '(v, f) := ha_spider_get_auto_increment 0 0 ans f in
        (v, mk_share_auto true v v)
      else if Z.eqb spider_param_auto_increment_mode 1 && negb (auto_increment_init f) then
        (auto_increment_value f,
         mk_share_auto true (auto_increment_value f) (auto_increment_value f))
      else (auto_increment_value f, f)
  end.

Definition ha_spider_need_info_for_auto_inc (f : share_auto) (called : bool) : bool :=
  negb (auto_increment_init f) || Z.eqb spider_param_auto_increment_mode 0 && negb called.

(** [ha_spider::reset_auto_increment], and the fields in [truncate] and
    [delete_all_rows] of a TRUNCATE. *)
Definition ha_spider_reset_auto_increment (value : Z) (f : share_auto) : share_auto :=
  f <| auto_increment_lclval := value |> <| auto_increment_init := true |>.

Definition ha_spider_truncate (f : share_auto) : share_auto := mk_share_auto false 1 1.

(** The auto-increment part of [ha_spider::update_row], for the value of the
    column. *)
Definition ha_spider_update_row (r : row) (ans : remote_answer) (v : Z) (f : share_auto) : share_auto :=
  let f := if auto_increment_init f then f
           else let '(st, f) := ha_spider_info_auto r ans f in
                f <| auto_increment_lclval := st |> <| auto_increment_init := true |> in
  let nr := if field_unsigned then to_ull v else if Z.ltb 0 v then v else 0 in
  if Z.leb (auto_increment_lclval f) nr
  then f <| auto_increment_lclval := to_ull (nr + 1) |> <| auto_increment_value := to_ull (nr + 1) |>
  else f.

(** ** [ha_partition::info] with [HA_STATUS_AUTO] *)

(** The loop over the partitions: the greatest of their values, their shares and
    which of them were asked. *)
Fixpoint info_loop (r : row) (s : Partition_share) (answers : list remote_answer)
    (files : list share_auto) (called : list bool) (acc : Z) : Z * list share_auto * list bool :=
  match files with
  | [] => (acc, [], [])
  | f :: files =>
      let ans := default RError (head answers) in
      let ask := negb spider_mode || Z.eqb (next_auto_inc_val s) 0 || last_insert_failed s ||
                 negb (auto_inc_initialized s) in
      let '(v, f) := if ask then ha_spider_info_auto r ans f else (0, f) in
      let acc := if ask then Z.max acc v else next_auto_inc_val s in
      let '(acc, files, cs) := info_loop r s (tail answers) files (tail called) acc in
      let asked := ask && bool_decide (row_command r <> SQLCOM_DROP_ALTER_SHOW_CREATE) in
      (acc, f :: files, (asked || default false (head called)) :: cs)
  end.

Definition ha_partition_info_auto (r : row) (a : auto) : auto :=
  let s := a_share a in
  let h := a_handler a in
  if negb (m_need_info_for_auto_inc h) && auto_inc_initialized s
  then a <| a_handler := h <| stats_auto_increment_value := next_auto_inc_val s |> |>
  else
    let '(v, files, called) := info_loop r s (row_remote r) (a_files a) (info_auto_called h) 0 in
    let h := h <| stats_auto_increment_value := v |> <| info_auto_called := called |>
               <| m_need_info_for_auto_inc := false |> in
    let s :=
      if Z.eqb next_number_keypart 0 then
        mk_partition_share (negb (spider_mode && negb (Z.eqb (field_val r) 0)))
          (if decide (row_command r = SQLCOM_INSERT_OR_REPLACE) then false else last_insert_failed s)
          (Z.max (next_auto_inc_val s) v)
      else s in
    mk_auto s files h.

(** [ha_partition::need_info_for_auto_inc]: the first partition that needs it. *)
Fixpoint files_need_info (files : list share_auto) (called : list bool) : bool :=
  match files with
  | [] => false
  | f :: files =>
      ha_spider_need_info_for_auto_inc f (default false (head called)) || files_need_info files (tail called)
  end.

Definition ha_partition_need_info_for_auto_inc (a : auto) : bool * auto :=
  let h := a_handler a in
  let b := files_need_info (a_files a) (info_auto_called h) in
  (b, a <| a_handler := h <| m_need_info_for_auto_inc := b |> |>).

Definition update_next_auto_inc_val (r : row) (a : auto) : auto :=
  if negb (auto_inc_initialized (a_share a)) then ha_partition_info_auto r a
  else let '(b, a) := ha_partition_need_info_for_auto_inc a in
       if b then ha_partition_info_auto r a else a.

(** ** Writing a row *)

(** The auto-increment part of [ha_spider::write_row], below the partition
    engine: the column has its value [v], which the modes 2 and 3 leave to the
    backend. *)
Definition ha_spider_write_row (r : row) (ans : remote_answer) (v : Z) (f : share_auto) : Z * share_auto :=
  let not_null := Z.eqb v 0 || auto_increment_field_not_null r in
  if Z.eqb spider_param_auto_increment_mode 3 then (if not_null then v else 0, f)
  else if Z.eqb spider_param_auto_increment_mode 2 then (0, f)
  else if auto_increment_init f then (v, f)
  else let '(st, f) := ha_spider_info_auto (r <| field_val := v |> <| auto_increment_field_not_null := true |>
                                              <| no_auto_value_on_zero := true |>) ans f in
       (v, f <| auto_increment_lclval := st |> <| auto_increment_init := true |>).

(** [ha_partition::write_row] of a table with an auto-increment column that is
    the first of its key: the error and the value of the column. *)
Definition ha_partition_write_row (r : row) (a : auto) : Z * Z * auto :=
  let a := update_next_auto_inc_val r a in
  let '(e, v, s, h) := update_auto_increment r [] (a_share a) (a_handler a) in
  let a := a <| a_share := s |> <| a_handler := h |> in
  let e := row_version_err r e in
  if negb (Z.eqb e 0) then (e, v, a)
  else match row_partition r, row_write_err r with
       | inl e, _ => (e, v, a)
       | _, inl e => (e, v, a <| a_share := set_auto_increment_if_higher v e (a_share a) |>)
       | inr p, inr e =>
           match a_files a !! p with
           | None => (e, v, a)
           | Some f =>
               let '(v, f) := ha_spider_write_row r (default RError (row_remote r !! p)) v f in
               (e, v, a <| a_files := <[p := f]> (a_files a) |>
                        <| a_share := set_auto_increment_if_higher v e (a_share a) |>)
           end
       end.

(** The auto-increment part of [ha_partition::update_row], for the new value of
    the column. *)
Definition ha_partition_update_row (r : row) (v error : Z) (a : auto) : auto :=
  let a := update_next_auto_inc_val r a in
  a <| a_share := set_auto_increment_if_higher v error (a_share a) |>.
End AutoInc.
