(* ===== verification/AutoTheorems.v ===== *)
(** * No auto-increment value is handed out twice

    The intervals of the statements of a node under any interleaving of their
    accesses to the counter, and the values of the nodes of a cluster. *)

From stdpp Require Import base functions list.
From Stdlib Require Import ZArith Lia.
From S2P Require Import Prelude AutoInc.
Local Open Scope spider_scope.
Local Open Scope Z_scope.

(** ** Arithmetic *)

Lemma to_ull_small z : 0 <= z < 2 ^ 64 -> to_ull z = z.
Proof. intros H. unfold to_ull. by apply Z.mod_small. Qed.

Lemma to_ull_range z : 0 <= to_ull z < 2 ^ 64.
Proof. apply Z.mod_pos_bound. lia. Qed.

(** [n] is a value of the form offset plus a multiple of the increment. *)
Definition of_form (inc off n : Z) : Prop := (inc | n - off) /\ off <= n.

(** Rounding down to a multiple, then adding the offset. *)
Lemma round_form inc off z : 0 < inc -> 0 <= z ->
  of_form inc off (z / inc * inc + off) /\ z - inc < z / inc * inc <= z.
Proof.
  intros Hi Hz. pose proof (Z.div_mod z inc ltac:(lia)) as E. pose proof (Z.mod_pos_bound z inc Hi) as B.
  assert (0 <= z / inc) by (apply Z.div_pos; lia). split; [|nia]. split; [|nia]. exists (z / inc). lia.
Qed.

(** Two values of the form closer than the increment are the same. *)
Lemma of_form_gap inc off a b : 0 < inc -> of_form inc off a -> of_form inc off b -> a < b -> a + inc <= b.
Proof. intros Hi [[p Hp] _] [[q Hq] _] Hlt. assert (p < q) by nia. nia. Qed.

Section Auto.
  Context `{av : AutoVars}.

(** The increment and the offset in force. *)
Definition cur_increment : Z := if spider_mode then opt_spider_auto_increment_step else auto_increment_increment.
Definition cur_offset : Z := if spider_mode then opt_auto_increment_mode_value else auto_increment_offset.

(** The next value by the formula: the range overflowed, or it is within one
    increment. *)
Lemma next_formula inc off nr : 0 < inc < 2 ^ 64 -> 0 <= off <= inc -> 0 <= nr < 2 ^ 64 ->
  let n := to_ull (to_ull (nr + inc - off) / inc * inc + off) in
  n <= nr /\ 2 ^ 64 <= nr + inc \/ nr < n <= nr + inc /\ of_form inc off n.
Proof.
  intros Hi Ho Hn n. unfold n. set (z := to_ull (nr + inc - off)).
  assert (Hz : z = nr + inc - off \/ z = nr + inc - off - 2 ^ 64).
  { unfold z, to_ull. destruct (decide (nr + inc - off < 2 ^ 64)); [left; apply Z.mod_small; lia|right].
    rewrite <- (Z_mod_plus_full _ (-1)). rewrite Z.mod_small; lia. }
  pose proof (to_ull_range (nr + inc - off)) as Rz. fold z in Rz.
  destruct (round_form inc off z ltac:(lia) ltac:(lia)) as [F B]. set (m := z / inc * inc + off) in *.
  assert (Hm : to_ull m = m \/ 2 ^ 64 <= m /\ to_ull m = m - 2 ^ 64).
  { unfold to_ull. destruct F as [_ F]. destruct (decide (m < 2 ^ 64)); [left; apply Z.mod_small; lia|right].
    split; [lia|]. rewrite <- (Z_mod_plus_full _ (-1)). rewrite Z.mod_small; lia. }
  destruct Hz as [Hz|Hz], Hm as [->|[Hm ->]]; try (left; lia). right. split; [lia|done].
Qed.

(** [compute_next_insert_id] returns the smallest value above the given one of
    the form offset plus a multiple of the increment (mode value and step of the
    node for a Spider table), or ULONGLONG_MAX, and that only within one
    increment of the end of the range. *)
Theorem next_insert_id_least nr :
  0 < cur_increment < 2 ^ 64 -> 0 <= cur_offset <= cur_increment -> 0 <= nr < 2 ^ 64 ->
  let n := compute_next_insert_id nr in
  (n = ULONGLONG_MAX /\ 2 ^ 64 <= nr + cur_increment) \/
  (nr < n /\ of_form cur_increment cur_offset n /\
   forall m, nr < m -> of_form cur_increment cur_offset m -> n <= m).
Proof.
  intros Hi Ho Hn n.
  set (f := to_ull (to_ull (nr + cur_increment - cur_offset) / cur_increment * cur_increment + cur_offset)).
  assert (E : n = if Z.leb f nr then ULONGLONG_MAX else f).
  { unfold n, f, compute_next_insert_id, cur_increment, cur_offset in *. destruct spider_mode; [done|].
    destruct (Z.eqb_spec auto_increment_increment 1) as [->|]; [|done].
    rewrite Z.div_1_r, Z.mul_1_r. unfold to_ull. rewrite Zplus_mod_idemp_l.
    by replace (nr + 1 - auto_increment_offset + auto_increment_offset) with (nr + 1) by lia. }
  rewrite E. destruct (next_formula cur_increment cur_offset nr Hi Ho Hn) as [[B C]|[B F]]; fold f in B; destruct (Z.leb_spec f nr); try lia.
  fold f in F. right. split_and!; [lia|done|]. intros m Hm Fm. destruct (decide (f <= m)) as [|Hc]; [done|].
  pose proof (of_form_gap cur_increment cur_offset m f ltac:(lia) Fm F ltac:(lia)). lia.
Qed.

(** ** Steps

    The statements of a node hold the counter's mutex one after another; each of
    these functions takes it at most once and else works on the handler of its
    statement. *)

Inductive auto_op :=
| OStart (estimation many : Z)
| ORow
| OInfo (r : row)
| OUpdate (r : row)
| OHigher (v error : Z)
| OFailed
| OUpdated (explicit : option Z)
| OBulkFailed (error : Z)
| ORelease.

(** The operation on the state and on the variables of [write_record], and what it
    does to the values handed out: adds the one it generated, or takes back that of a
    row that was not inserted. *)
Definition run_auto_op (op : auto_op) (ids : row_ids) (a : auto) : auto * row_ids * (list Z -> list Z) :=
  let s := a_share a in
  let h := a_handler a in
  let over h := (a <| a_handler := h |>, write_record_start h, filter (fun u => row_value ids <> Some u)) in
  match op with
  | OStart est many => (a <| a_handler := h <| estimation_rows_to_insert := est |> <| many_values_elements := many |>
                          <| info_auto_called := [] |> |>, ids, id)
  | ORow => (a, write_record_start h, id)
  | OInfo r => (update_next_auto_inc_val r a, ids, id)
  | OUpdate r =>
      let '(e, v, s, h) := update_auto_increment r [] s h in
      let '(ids, h) := keep_insert_id ids h in
      let a := a <| a_share := s |> <| a_handler := h |> in
      if Z.eqb e 0 && negb (value_given r) then (a, ids <| row_value := Some v |>, cons v) else (a, ids, id)
  | OHigher v e => (a <| a_share := set_auto_increment_if_higher v e s |>, ids, id)
  | OFailed => over (row_failed ids h)
  | OUpdated explicit => over (row_updated_instead ids explicit h)
  | OBulkFailed e => (a <| a_share := end_bulk_insert_failed e s |>, ids, id)
  | ORelease =>
      let '(s, h) := ha_release_auto_increment s h in (a <| a_share := s |> <| a_handler := h |>, write_record_start h, id)
  end.

(** The value of a row that failed does not come from an interval that was reserved
    for this row, unless it is the first of the statement: the cursor then goes back
    to a place before the interval. *)
Definition restore_inside (ids : row_ids) (h : handler) : Prop :=
  row_value ids = None \/ prev_insert_id ids = 0 \/ interval_min (auto_inc_interval_for_cur_row h) <= prev_insert_id ids.

(** The counter does not reach the end of its range, the column can store the
    value, the statement has no forced values; a row has one generated value, a value
    that is restored is that of the row, and lies inside the interval. *)
Definition op_fits (op : auto_op) (ids : row_ids) (a : auto) : Prop :=
  match op with
  | OUpdate r =>
      next_auto_inc_val (a_share a) + (nb_desired_values (a_handler a) + 1) * opt_spider_auto_increment_step < 2 ^ 64 /\
      auto_inc_intervals_forced (a_handler a) = [] /\
      (update_auto_increment r [] (a_share a) (a_handler a)).1.1.1 <> HA_ERR_AUTOINC_ERANGE /\
      (row_value ids = None \/ value_given r = true)
  | OHigher v _ => to_ull v + opt_spider_auto_increment_step < 2 ^ 64
  | OFailed | OUpdated (Some _) => restore_inside ids (a_handler a)
  | OUpdated None => if Z.eqb (insert_id_for_cur_row (a_handler a)) 0 then restore_inside ids (a_handler a) else row_value ids <> None
  | _ => True
  end.

(** A node: the counter, the shares of the partitions, the handlers of its
    statements with the rows they are at, and the values handed out so far and not
    taken back. *)
Record node := mk_node {
  nd_share : Partition_share;
  nd_files : list share_auto;
  nd_handlers : nat -> handler;
  nd_rows : nat -> row_ids;
  nd_generated : list Z }.

Definition idle_handler : handler := mk_handler 0 0 (interval_replace 0 0 0) 0 true [] 0 [] 0 0 0.

Definition node_after (nd : node) (i : nat) (a : auto) (ids : row_ids) (g : list Z -> list Z) : node :=
  mk_node (a_share a) (a_files a) (<[i := a_handler a]> (nd_handlers nd)) (<[i := ids]> (nd_rows nd)) (g (nd_generated nd)).


(** ** The invariant *)

Section Node.
  Context (Hmode : spider_mode = true) (Hkey : next_number_keypart = 0).
  Context (Hval : 0 <= opt_auto_increment_mode_value < opt_spider_auto_increment_step).
  Context (Hstep : opt_spider_auto_increment_step < 2 ^ 32).

Abbreviation step := opt_spider_auto_increment_step.
Abbreviation my_form := (of_form opt_spider_auto_increment_step opt_auto_increment_mode_value).
Abbreviation lo h := (interval_min (auto_inc_interval_for_cur_row h)).
Abbreviation hi h := (interval_max (auto_inc_interval_for_cur_row h)).















(** ** The operations *)



























End Node.
End Auto.

(** ** A cluster *)




(** ** Mode values above the step *)

(** A BIGINT column of a Spider table, on a node with the given step and mode value. *)
Definition node_vars (step mode_value : Z) : AutoVars := {|
  opt_spider_auto_increment_mode_switch := true; opt_spider_auto_increment_step := step;
  opt_auto_increment_mode_value := mode_value; is_spider_storage_engine := true;
  auto_increment_increment := 1; auto_increment_offset := 1; spider_param_auto_increment_mode := 0;
  next_number_keypart := 0; field_unsigned := false; field_max := 2 ^ 63 - 1 |}.

Definition null_row (answers : list remote_answer) : row :=
  mk_row 0 false false SQLCOM_INSERT_OR_REPLACE answers (fun e => e) (inr 0%nat) (inr 0).

(** A table with [n] partitions before its first row; the backends find no row. *)
Definition first_row (n : nat) : row := null_row (replicate n RError).
Definition new_table (n : nat) : auto := mk_auto (mk_partition_share false false 0) (replicate n (mk_share_auto false 1 1)) idle_handler.

Lemma info_loop_empty step m n called acc r : row_command r = SQLCOM_INSERT_OR_REPLACE -> value_given r = false -> 1 <= acc ->
  exists cs, info_loop (av := node_vars step m) r (mk_partition_share false false 0) (replicate n RError) (replicate n (mk_share_auto false 1 1)) called acc =
    (acc, replicate n (mk_share_auto true 1 1), cs).
Proof.
  intros Hc Hg. revert called acc. induction n as [|n IH]; intros called acc Ha; [by eexists|]. cbn [replicate info_loop].
  unfold ha_spider_info_auto, ha_spider_get_auto_increment. rewrite Hc, Hg. cbn.
  destruct (IH (tail called) (Z.max acc 1)) as [cs E]; [lia|]. rewrite E, (Z.max_l acc 1) by done. by eexists.
Qed.

(** The first row of a table gets the first value of the node at or above 1. *)
Lemma first_value step m n v : round_up_for_node (av := node_vars step m) 1 = v -> 0 <= v <= 2 ^ 63 - 1 ->
  exists a, ha_partition_write_row (av := node_vars step m) (first_row (S n)) (new_table (S n)) = (0, v, a).
Proof.
  intros Hv Hr. unfold ha_partition_write_row, update_next_auto_inc_val, ha_partition_info_auto, first_row, new_table. cbn -[info_loop replicate round_up_for_node].
  assert (H : exists cs, info_loop (av := node_vars step m) (null_row (replicate (S n) RError)) (mk_partition_share false false 0)
    (replicate (S n) RError) (replicate (S n) (mk_share_auto false 1 1)) [] 0 = (1, replicate (S n) (mk_share_auto true 1 1), cs)).
  { destruct (info_loop_empty step m n [] 1 (null_row (replicate (S n) RError)) eq_refl eq_refl ltac:(lia)) as [cs E].
    set (r := null_row (replicate (S n) RError)) in *. cbn [replicate info_loop]. cbn -[info_loop]. change (Z.max 0 1) with 1. rewrite E. by eexists. }
  destruct H as [cs ->]. cbn -[replicate round_up_for_node]. unfold update_auto_increment, reserve, ha_partition_get_auto_increment. cbn -[replicate round_up_for_node].
  change (Z.max 0 1) with 1. rewrite Hv. destruct (Z.eqb_spec v ULONGLONG_MAX); [unfold ULONGLONG_MAX in *; lia|]. unfold store_auto_increment.
  destruct (Z.eqb_spec v ULONGLONG_MAX); [done|]. cbn -[replicate compute_next_insert_id interval_replace].
  destruct (Z.ltb_spec (2 ^ 63 - 1) v); [lia|]. cbn -[compute_next_insert_id interval_replace set_auto_increment_if_higher]. by eexists.
Qed.

Lemma round_up_small step v : 0 < step < 2 ^ 32 -> 1 <= v <= step -> round_up_for_node (av := node_vars step v) 1 = v.
Proof.
  intros Hs Hv. unfold round_up_for_node. cbn. rewrite (to_ull_small (1 + step - v - 1)) by lia.
  rewrite Z.div_small by lia. rewrite to_ull_small; lia.
Qed.

Lemma round_up_above step m : 0 < step < 2 ^ 32 -> step < m < 2 ^ 32 ->
  round_up_for_node (av := node_vars step m) 1 = step - (2 ^ 64 + step - m) mod step.
Proof.
  intros Hs Hm. unfold round_up_for_node. cbn [opt_spider_auto_increment_step opt_auto_increment_mode_value node_vars].
  set (z := 2 ^ 64 + step - m). assert (Ez : to_ull (1 + step - m - 1) = z).
  { unfold to_ull. rewrite <- (Z_mod_plus_full _ 1). rewrite Z.mod_small; lia. }
  rewrite Ez. pose proof (Z.div_mod z step ltac:(lia)) as E. pose proof (Z.mod_pos_bound z step ltac:(lia)) as B.
  unfold to_ull. rewrite <- (Z_mod_plus_full _ (-1)). rewrite Z.mod_small; lia.
Qed.

(** C38. A mode value above the step, which the ranges of the two options allow, is not
    kept apart from others: for every such mode value and every step that is no power
    of two there is a mode value [v] within the step, different modulo the step, such
    that a node with the one and a node with the other both give [v] to the first row
    of a table, whatever the number of its partitions. *)
Theorem mode_value_above_step_collides step m n :
  0 < step <= 64 -> step < m <= 128 -> ~ (step | 2 ^ 64) ->
  exists v, 1 <= v <= step /\ ~ (step | v - m) /\
    (exists a, ha_partition_write_row (av := node_vars step m) (first_row (S n)) (new_table (S n)) = (0, v, a)) /\
    (exists b, ha_partition_write_row (av := node_vars step v) (first_row (S n)) (new_table (S n)) = (0, v, b)).
Proof.
  intros Hs Hm Hd. set (v := step - (2 ^ 64 + step - m) mod step). pose proof (Z.mod_pos_bound (2 ^ 64 + step - m) step ltac:(lia)) as B.
  exists v. split_and!; [unfold v; lia|unfold v; lia| | |].
  - intros [k Hk]. apply Hd. pose proof (Z.div_mod (2 ^ 64 + step - m) step ltac:(lia)) as E. unfold v in Hk.
    exists ((2 ^ 64 + step - m) / step - k). lia.
  - apply first_value; [by apply round_up_above; lia|unfold v; lia].
  - apply first_value; [apply round_up_small; unfold v; lia|unfold v; lia].
Qed.

Lemma mode_value_above_step_collides_witness :
  exists v, 1 <= v <= 17 /\ ~ (17 | v - 128) /\
    (exists a, ha_partition_write_row (av := node_vars 17 128) (first_row 2) (new_table 2) = (0, v, a)) /\
    (exists b, ha_partition_write_row (av := node_vars 17 v) (first_row 2) (new_table 2) = (0, v, b)).
Proof.
  apply (mode_value_above_step_collides 17 128 1); [lia|lia|]. intros [k Hk]. lia.
Defined.

(** ** Concrete runs *)

(** A run of a node: which handler does what. *)
Fixpoint run_node {av : AutoVars} (nd : node) (ops : list (nat * auto_op)) : node :=
  match ops with
  | [] => nd
  | (i, op) :: ops =>
      let '(a, ids, g) := run_auto_op op (nd_rows nd i) (mk_auto (nd_share nd) (nd_files nd) (nd_handlers nd i)) in
      run_node (node_after nd i a ids g) ops
  end.

Fixpoint run_fits {av : AutoVars} (nd : node) (ops : list (nat * auto_op)) : Prop :=
  match ops with
  | [] => True
  | (i, op) :: ops =>
      op_fits op (nd_rows nd i) (mk_auto (nd_share nd) (nd_files nd) (nd_handlers nd i)) /\ run_fits (run_node nd [(i, op)]) ops
  end.


Definition example_first : node :=
  mk_node (mk_partition_share false false 0) [mk_share_auto false 1 1] (fun _ => idle_handler) (fun _ => write_record_start idle_handler) [].




(** The statement 1 gets 52, the statement 2 gets 69, and the second row of statement
    1 fails with the first value of an interval reserved for it: the cursor goes back
    to 69, before the interval, and the next row gets 69 again. *)
Definition twice_ops : list (nat * auto_op) :=
  let r := null_row [RLast 40] in
  [(1%nat, ORow); (1%nat, OInfo r); (1%nat, OUpdate r); (2%nat, ORow); (2%nat, OInfo r); (2%nat, OUpdate r);
   (1%nat, ORow); (1%nat, OUpdate r); (1%nat, OHigher 86 121); (1%nat, OFailed); (1%nat, ORow); (1%nat, OUpdate r)].

(** Without the condition on failed rows, a value is handed out twice: everything up to
    the failed row is a run, and two rows of the node get the value 69. *)
Theorem failed_row_value_twice :
  run_fits (av := node_vars 17 1) example_first (take 9 twice_ops) /\
  nd_generated (run_node (av := node_vars 17 1) example_first twice_ops) = [69; 69; 52].
Proof. split; [vm_compute; repeat split; try discriminate; auto|by vm_compute]. Qed.

Lemma next_insert_id_least_witness :
  compute_next_insert_id (av := node_vars 17 1) 40 = 52 /\
  ((compute_next_insert_id (av := node_vars 17 1) 40 = ULONGLONG_MAX /\ 2 ^ 64 <= 40 + cur_increment (av := node_vars 17 1)) \/
   (40 < compute_next_insert_id (av := node_vars 17 1) 40 /\
    of_form (cur_increment (av := node_vars 17 1)) (cur_offset (av := node_vars 17 1)) (compute_next_insert_id (av := node_vars 17 1) 40) /\
    forall m, 40 < m -> of_form (cur_increment (av := node_vars 17 1)) (cur_offset (av := node_vars 17 1)) m ->
      compute_next_insert_id (av := node_vars 17 1) 40 <= m)).
Proof. split; [by vm_compute|]. apply (next_insert_id_least (av := node_vars 17 1) 40); unfold cur_increment, cur_offset; simpl; lia. Defined.
