(* ===== verification/ConnTree.v ===== *)
(** * The tree of connections that joined a transaction

    [SPIDER_CONN] carries four link fields ([p_small], [p_big], [c_small],
    [c_big]) and a [priority].  The connections of a transaction form a binary
    search tree threaded through these fields; the two-phase commit walks it in
    order with [spider_tree_first] and [spider_tree_next]
    (storage/spider/spd_conn.cc:1155-1280).

    The link fields of all connections are one heap [gmap cid tnode] keyed by
    the connection's address.  [repr] says that the heap holds a given
    functional tree at a root; every pointer operation is shown to implement a
    function on such trees, and the walk to enumerate the in-order list. *)

From stdpp Require Import base gmap list.
From Stdlib Require Import ZArith Lia Sorting.Sorted.
From S2P Require Import Prelude.
Local Open Scope spider_scope.

(** The address of a [SPIDER_CONN]; NULL is [None]. *)
Abbreviation cid := positive.

(** The tree links of a connection. *)
Record tnode := mk_tnode {
  p_small : option cid;
  p_big : option cid;
  c_small : option cid;
  c_big : option cid;
  priority : Z
}.

#[export] Instance eta_tnode : Eta tnode := fun n =>
  mk_tnode (p_small n) (p_big n) (c_small n) (c_big n) (priority n).

(** ** The operations *)

(** The links of a connection that has no neighbours. *)
Definition unlinked (n : tnode) : tnode :=
  n <| p_small := None |> <| p_big := None |> <| c_small := None |> <| c_big := None |>.

(** The [while (TRUE)] of [spider_tree_insert]. *)
Fixpoint spider_tree_insert_loop (fuel : nat) (h : gmap cid tnode)
    (current conn : cid) (prio : Z) : option (gmap cid tnode) :=
  match fuel with
  | O => None
  | S fuel' =>
      cur ← h !! current;
      if (prio <? priority cur)%Z then
        match c_small cur with
        | None =>
            Some (alter (fun n => n <| c_small := Some conn |>) current
                    (alter (fun n => (unlinked n) <| p_big := Some current |>) conn h))
        | Some s => spider_tree_insert_loop fuel' h s conn prio
        end
      else
        match c_big cur with
        | None =>
            Some (alter (fun n => n <| c_big := Some conn |>) current
                    (alter (fun n => (unlinked n) <| p_small := Some current |>) conn h))
        | Some b => spider_tree_insert_loop fuel' h b conn prio
        end
  end.

Definition spider_tree_insert (h : gmap cid tnode) (top conn : cid) :
    option (gmap cid tnode) :=
  n ← h !! conn;
  spider_tree_insert_loop (S (size h)) h top conn (priority n).

(** [while (current)] following [c_small]. *)
Fixpoint spider_tree_first_loop (fuel : nat) (h : gmap cid tnode)
    (current : option cid) : option (option cid) :=
  match current, fuel with
  | None, _ => Some None
  | Some _, O => None
  | Some c, S fuel' =>
      n ← h !! c;
      match c_small n with
      | None => Some (Some c)
      | Some s => spider_tree_first_loop fuel' h (Some s)
      end
  end.

Definition spider_tree_first (h : gmap cid tnode) (top : option cid) :
    option (option cid) :=
  spider_tree_first_loop (size h) h top.

(** [while (TRUE)] following [c_big]; [top] is dereferenced at once. *)
Fixpoint spider_tree_last_loop (fuel : nat) (h : gmap cid tnode) (current : cid) :
    option cid :=
  match fuel with
  | O => None
  | S fuel' =>
      n ← h !! current;
      match c_big n with
      | None => Some current
      | Some b => spider_tree_last_loop fuel' h b
      end
  end.

Definition spider_tree_last (h : gmap cid tnode) (top : cid) : option cid :=
  spider_tree_last_loop (size h) h top.

(** The climb of [spider_tree_next]. *)
Fixpoint spider_tree_next_loop (fuel : nat) (h : gmap cid tnode) (current : cid) :
    option (option cid) :=
  match fuel with
  | O => None
  | S fuel' =>
      n ← h !! current;
      match p_big n with
      | Some b => Some (Some b)
      | None =>
          match p_small n with
          | None => Some None
          | Some s => spider_tree_next_loop fuel' h s
          end
      end
  end.

Definition spider_tree_next (h : gmap cid tnode) (current : cid) :
    option (option cid) :=
  n ← h !! current;
  match c_big n with
  | Some b => spider_tree_first h (Some b)
  | None => spider_tree_next_loop (size h) h current
  end.

(** [while (conn)] counting with [spider_tree_next]; [num] is a C [uint]. *)
Fixpoint spider_tree_num_loop (fuel : nat) (h : gmap cid tnode)
    (conn : option cid) (num : Z) : option Z :=
  match conn, fuel with
  | None, _ => Some num
  | Some _, O => None
  | Some c, S fuel' =>
      nx ← spider_tree_next h c;
      spider_tree_num_loop fuel' h nx ((num + 1) mod 2 ^ 32)%Z
  end.

Definition spider_tree_num (h : gmap cid tnode) (top : option cid) : option Z :=
  conn ← spider_tree_first h top;
  spider_tree_num_loop (size h) h conn 0.

(** Hangs [conn->c_big] under the last node of [conn->c_small]: the three
    copies of the same block in [spider_tree_delete]. *)
Definition tree_delete_relink (h : gmap cid tnode) (cs : cid) (cb : option cid) :
    option (gmap cid tnode) :=
  match cb with
  | None => Some h
  | Some b =>
      last ← spider_tree_last h cs;
      Some (alter (fun n => n <| c_big := Some b |>) last
              (alter (fun n => n <| p_small := Some last |>) b h))
  end.

(** Returns the new top and the heap.  No write below goes to [conn] itself, so
    its fields are read once.  A write through a dangling link would leave the
    heap unchanged here; in a join tree there is none ([delete_sub]). *)
Definition spider_tree_delete (h : gmap cid tnode) (conn : cid) (top : option cid) :
    option (option cid * gmap cid tnode) :=
  n ← h !! conn;
  match p_small n, p_big n with
  | Some ps, _ =>
      h' ← match c_small n, c_big n with
           | Some cs, cb =>
               tree_delete_relink
                 (alter (fun m => m <| c_big := Some cs |>) ps
                    (alter (fun m => m <| p_big := None |> <| p_small := Some ps |>) cs h))
                 cs cb
           | None, Some cb =>
               Some (alter (fun m => m <| c_big := Some cb |>) ps
                       (alter (fun m => m <| p_small := Some ps |>) cb h))
           | None, None => Some (alter (fun m => m <| c_big := None |>) ps h)
           end;
      Some (top, h')
  | None, Some pb =>
      h' ← match c_small n, c_big n with
           | Some cs, cb =>
               tree_delete_relink
                 (alter (fun m => m <| c_small := Some cs |>) pb
                    (alter (fun m => m <| p_big := Some pb |>) cs h))
                 cs cb
           | None, Some cb =>
               Some (alter (fun m => m <| c_small := Some cb |>) pb
                       (alter (fun m => m <| p_big := Some pb |> <| p_small := None |>) cb h))
           | None, None => Some (alter (fun m => m <| c_small := None |>) pb h)
           end;
      Some (top, h')
  | None, None =>
      match c_small n, c_big n with
      | Some cs, cb =>
          h' ← tree_delete_relink
                 (alter (fun m => m <| p_big := None |> <| p_small := None |>) cs h) cs cb;
          Some (Some cs, h')
      | None, Some cb =>
          Some (Some cb, alter (fun m => m <| p_small := None |>) cb h)
      | None, None => Some (None, h)
      end
  end.

(** The connection joins the tree of the transaction
    ([spider_internal_start_trx]). *)
Definition tree_join (h : gmap cid tnode) (top : option cid) (conn : cid) :
    option (option cid * gmap cid tnode) :=
  match top with
  | Some t => h' ← spider_tree_insert h t conn; Some (top, h')
  | None => Some (Some conn, alter unlinked conn h)
  end.

(** The walk of the commit and rollback loops: the connections that
    [conn = spider_tree_first(top); while (conn) { ...; conn = spider_tree_next(conn); }]
    visits, in order. *)
Fixpoint tree_walk_loop (fuel : nat) (h : gmap cid tnode) (conn : option cid) :
    option (list cid) :=
  match conn, fuel with
  | None, _ => Some []
  | Some _, O => None
  | Some c, S fuel' =>
      nx ← spider_tree_next h c;
      l ← tree_walk_loop fuel' h nx;
      Some (c :: l)
  end.

Definition tree_walk (h : gmap cid tnode) (top : option cid) : option (list cid) :=
  conn ← spider_tree_first h top;
  tree_walk_loop (size h) h conn.

(** ** The functional tree *)

Inductive tree :=
| Leaf
| Node (l : tree) (c : cid) (r : tree).

Fixpoint inorder (t : tree) : list cid :=
  match t with
  | Leaf => []
  | Node l c r => inorder l ++ c :: inorder r
  end.

(** Insertion: to the left of the first node of greater priority met. *)
Fixpoint tinsert (prio : cid -> Z) (x : cid) (t : tree) : tree :=
  match t with
  | Leaf => Node Leaf x Leaf
  | Node l c r =>
      if (prio x <? prio c)%Z then Node (tinsert prio x l) c r
      else Node l c (tinsert prio x r)
  end.

(** [r] hung under the last node of [l]. *)
Fixpoint tjoin (l r : tree) : tree :=
  match l with
  | Leaf => r
  | Node l1 c r1 => Node l1 c (tjoin r1 r)
  end.

Fixpoint tdelete (x : cid) (t : tree) : tree :=
  match t with
  | Leaf => Leaf
  | Node l c r =>
      if decide (x = c) then tjoin l r else Node (tdelete x l) c (tdelete x r)
  end.

Definition troot (t : tree) : option cid :=
  match t with Leaf => None | Node _ c _ => Some c end.

Lemma inorder_tjoin l r : inorder (tjoin l r) = inorder l ++ inorder r.
Proof. induction l as [|l1 _ c r1 IH]; simpl; [done|]. by rewrite IH, <- (assoc_L (++)). Qed.

Lemma inorder_tinsert_perm prio x t : inorder (tinsert prio x t) ≡ₚ x :: inorder t.
Proof.
  induction t as [|l IHl c r IHr]; simpl; [done|].
  destruct (_ <? _)%Z; simpl; rewrite ?IHl, ?IHr; [done|].
  by rewrite (Permutation_swap x), (Permutation_middle (inorder l)).
Qed.

Lemma tdelete_notin x t : x ∉ inorder t -> tdelete x t = t.
Proof.
  induction t as [|l IHl c r IHr]; simpl; [done|]. intros Hx.
  rewrite decide_False by set_solver. f_equal; [apply IHl|apply IHr]; set_solver.
Qed.

Lemma filter_notin x (l : list cid) : x ∉ l -> filter (.≠ x) l = l.
Proof.
  intros Hx. induction l as [|y l IH]; [done|].
  rewrite filter_cons_True by set_solver. f_equal. apply IH. set_solver.
Qed.

Lemma inorder_tdelete x t :
  NoDup (inorder t) -> inorder (tdelete x t) = filter (.≠ x) (inorder t).
Proof.
  induction t as [|l IHl c r IHr]; simpl; [done|]. intros Hnd.
  apply NoDup_app in Hnd as (Hl & Hlr & Hnd). apply NoDup_cons in Hnd as (Hc & Hr).
  rewrite filter_app. case_decide as Hx; subst.
  - rewrite inorder_tjoin, filter_cons_False by (intros H; by apply H).
    rewrite !filter_notin; [done| done |]. intros H. apply (Hlr c H). set_solver.
  - rewrite filter_cons_True by done. simpl. by rewrite IHl, IHr.
Qed.

(** ** Representation *)

(** The heap [h] holds [t] under the pointer [root]; its root node has the
    parents [ps] (the node it is the big child of) and [pb] (the node it is the
    small child of). *)
Fixpoint repr (h : gmap cid tnode) (t : tree) (ps pb root : option cid) : Prop :=
  match t with
  | Leaf => root = None
  | Node l c r =>
      root = Some c /\
      exists n, h !! c = Some n /\ p_small n = ps /\ p_big n = pb /\
        repr h l None (Some c) (c_small n) /\ repr h r (Some c) None (c_big n)
  end.

(** A join tree of a transaction: its nodes are distinct. *)
Definition join_tree (h : gmap cid tnode) (t : tree) (top : option cid) : Prop :=
  repr h t None None top /\ NoDup (inorder t).

Lemma repr_root h t ps pb root : repr h t ps pb root -> root = troot t.
Proof. destruct t; simpl; [done|]. by intros [-> _]. Qed.

Lemma repr_frame h h' t ps pb root :
  (forall c, c ∈ inorder t -> h' !! c = h !! c) ->
  repr h t ps pb root -> repr h' t ps pb root.
Proof.
  revert ps pb root. induction t as [|l IHl c r IHr]; simpl; [done|].
  intros ps pb root Hf (-> & n & Hc & Hps & Hpb & Hl & Hr). split; [done|].
  exists n. rewrite Hf by set_solver. repeat split; auto.
  - apply IHl; [|done]. intros; apply Hf; set_solver.
  - apply IHr; [|done]. intros; apply Hf; set_solver.
Qed.

Lemma repr_dom h t ps pb root :
  repr h t ps pb root -> forall c, c ∈ inorder t -> is_Some (h !! c).
Proof.
  revert ps pb root. induction t as [|l IHl c r IHr]; simpl; [set_solver|].
  intros ps pb root (_ & n & Hc & _ & _ & Hl & Hr) x Hx.
  rewrite elem_of_app, elem_of_cons in Hx. naive_solver.
Qed.

Lemma repr_size h t ps pb root :
  repr h t ps pb root -> NoDup (inorder t) -> length (inorder t) <= size h.
Proof.
  intros Hr Hnd. rewrite <- (size_list_to_set (C := gset cid)) by done.
  rewrite <- size_dom. apply subseteq_size. intros x Hx.
  apply elem_of_list_to_set in Hx. apply elem_of_dom. by eapply repr_dom.
Qed.

(** An update of the root node that changes its parent links only. *)
Lemma repr_reparent (f : tnode -> tnode) h t ps pb ps' pb' c :
  repr h t ps pb (Some c) -> NoDup (inorder t) ->
  (forall n, p_small n = ps -> p_big n = pb ->
     p_small (f n) = ps' /\ p_big (f n) = pb' /\ c_small (f n) = c_small n /\ c_big (f n) = c_big n) ->
  repr (alter f c h) t ps' pb' (Some c).
Proof.
  destruct t as [|l c' r]; simpl; [done|]. intros ([= <-] & n & Hc & Hps & Hpb & Hl & Hr) Hnd Hf.
  destruct (Hf n Hps Hpb) as (? & ? & Hs & Hb).
  split; [done|]. exists (f n). rewrite lookup_alter_eq, Hc, Hs, Hb.
  apply NoDup_app in Hnd as (_ & Hlr & Hnd). apply NoDup_cons in Hnd as (Hcr & _).
  repeat split; try done; eapply repr_frame; try eassumption; intros x Hx;
    apply lookup_alter_ne; set_solver.
Qed.

(** ** Walking the tree *)

Lemma first_loop_repr h t ps pb root fuel :
  repr h t ps pb root -> length (inorder t) <= fuel ->
  spider_tree_first_loop fuel h root = Some (head (inorder t)).
Proof.
  revert ps pb root fuel. induction t as [|l IHl c r _]; simpl; [by intros ???? -> _; destruct fuel|].
  intros ps pb root fuel (-> & n & Hc & _ & _ & Hl & _) Hlen.
  rewrite length_app in Hlen. simpl in Hlen.
  destruct fuel as [|fuel]; [lia|]. simpl. rewrite Hc. simpl.
  pose proof (repr_root _ _ _ _ _ Hl) as Hroot.
  destruct l as [|l1 c1 r1]; simpl in Hroot; rewrite Hroot in *; [done|].
  rewrite (IHl _ _ _ fuel Hl) by lia. simpl. by destruct (inorder l1).
Qed.

Lemma last_loop_repr h l c r ps pb fuel :
  repr h (Node l c r) ps pb (Some c) -> length (inorder (Node l c r)) <= fuel ->
  spider_tree_last_loop fuel h c = last (inorder (Node l c r)).
Proof.
  revert l c ps pb fuel. induction r as [|l1 _ c1 r1 IH]; intros l c ps pb fuel H Hlen.
  all: simpl in Hlen; rewrite length_app in Hlen; simpl in Hlen.
  all: destruct fuel as [|fuel]; [lia|]; simpl.
  all: destruct H as (_ & n & -> & _ & _ & _ & Hr); simpl.
  - simpl in Hr. rewrite Hr. by rewrite last_snoc.
  - pose proof (repr_root _ _ _ _ _ Hr) as Hroot. simpl in Hroot. rewrite Hroot in *.
    rewrite (IH _ _ _ _ fuel Hr) by (simpl; rewrite length_app in *; simpl in *; lia).
    cbn [inorder]. by rewrite (last_app_cons (inorder l)), app_comm_cons, !last_app_cons.
Qed.

(** The climb from [c] reaches [k] after [d] steps. *)
Inductive climbs (h : gmap cid tnode) : nat -> cid -> option cid -> Prop :=
| climbs_big c n b : h !! c = Some n -> p_big n = Some b -> climbs h 0 c (Some b)
| climbs_end c n : h !! c = Some n -> p_big n = None -> p_small n = None -> climbs h 0 c None
| climbs_up c n s d k : h !! c = Some n -> p_big n = None -> p_small n = Some s ->
    climbs h d s k -> climbs h (S d) c k.

Lemma climbs_next_loop h d c k fuel :
  climbs h d c k -> d < fuel -> spider_tree_next_loop fuel h c = Some k.
Proof.
  intros H. revert fuel. induction H as [c n b Hc Hb|c n Hc Hb Hs|c n s d k Hc Hb Hs _ IH];
    intros fuel Hd; (destruct fuel as [|fuel]; [lia|]); simpl; rewrite Hc; simpl; rewrite Hb;
    [done|by rewrite Hs|]. rewrite Hs. apply IH. lia.
Qed.

(** A list without duplicates has one position for an element. *)
Lemma NoDup_pivot {A} (x : A) xs ys xs' ys' :
  NoDup (xs ++ x :: ys) -> xs ++ x :: ys = xs' ++ x :: ys' -> xs = xs' /\ ys = ys'.
Proof.
  revert xs'. induction xs as [|a xs IH]; intros [|a' xs']; simpl; intros Hnd Heq; simplify_eq.
  - done.
  - apply NoDup_cons in Hnd as [[] _]. set_solver.
  - apply NoDup_cons in Hnd as [[] _]. set_solver.
  - apply NoDup_cons in Hnd as [_ Hnd]. edestruct IH as [-> ->]; [exact Hnd|eassumption|done].
Qed.

(** In the subtree [t], the node after [x] is the next one of its in-order list;
    after the last one, the node [k] that the climb out of [t] reaches. *)
Lemma next_repr h t ps pb root d k xs x ys :
  repr h t ps pb root -> inorder t = xs ++ x :: ys -> NoDup (inorder t) ->
  (forall c, root = Some c -> climbs h d c k) -> d + length (inorder t) <= size h ->
  spider_tree_next h x = Some (match ys with [] => k | y :: _ => Some y end).
Proof.
  revert ps pb root d k xs ys. induction t as [|l IHl c r IHr]; simpl.
  { intros ??????? _ Heq. by destruct xs. }
  intros ps pb root d k xs ys (-> & n & Hc & Hps & Hpb & Hl & Hr) Heq Hnd Hk Hsz.
  specialize (Hk c eq_refl). rewrite length_app in Hsz. simpl in Hsz.
  pose proof (repr_root _ _ _ _ _ Hl) as Hrl. pose proof (repr_root _ _ _ _ _ Hr) as Hrr.
  pose proof Hnd as (Hndl & Hlr & Hnd')%NoDup_app. apply NoDup_cons in Hnd' as (Hcr & Hndr).
  destruct (decide (x = c)) as [->|Hxc].
  { destruct (NoDup_pivot _ _ _ _ _ Hnd Heq) as [<- <-].
    unfold spider_tree_next. rewrite Hc. simpl.
    destruct r as [|l1 c1 r1]; simpl in Hrr; rewrite Hrr.
    + apply (climbs_next_loop _ _ _ _ _ Hk). lia.
    + unfold spider_tree_first. rewrite Hrr in Hr.
      rewrite (first_loop_repr _ _ _ _ _ _ Hr) by lia. simpl. by destruct (inorder l1). }
  assert (Hx : x ∈ inorder l ++ c :: inorder r) by (rewrite Heq; set_solver).
  assert (x ∈ inorder l \/ x ∈ inorder r) as [(l1 & l2 & Hl12)%list_elem_of_split
    |(l1 & l2 & Hl12)%list_elem_of_split] by set_solver; rewrite Hl12 in Hnd, Heq.
  - rewrite <- app_assoc in Hnd, Heq. simpl in Hnd, Heq.
    destruct (NoDup_pivot _ _ _ _ _ Hnd Heq) as [<- <-].
    rewrite (IHl None (Some c) (c_small n) 0 (Some c) l1 l2 Hl Hl12 Hndl); [by destruct l2| |lia].
    intros c1 Hc1. destruct l as [|l' cl r']; [congruence|].
    destruct Hl as (Hrt & n1 & Hn1 & _ & Hb1 & _). simplify_eq. by econstructor.
  - rewrite app_comm_cons, app_assoc in Hnd, Heq.
    destruct (NoDup_pivot _ _ _ _ _ Hnd Heq) as [<- <-].
    apply (IHr (Some c) None (c_big n) (S d) k l1 l2 Hr Hl12 Hndr); [|lia].
    intros c1 Hc1. destruct r as [|l' cr r']; [congruence|].
    destruct Hr as (Hrt & n1 & Hn1 & Hs1 & Hb1 & _). simplify_eq. by econstructor.
Qed.

Lemma join_tree_first h t top :
  join_tree h t top -> spider_tree_first h top = Some (head (inorder t)).
Proof. intros [Hr Hnd]. eapply first_loop_repr; [done|]. by eapply repr_size. Qed.

Lemma join_tree_next h t top xs x ys :
  join_tree h t top -> inorder t = xs ++ x :: ys -> spider_tree_next h x = Some (head ys).
Proof.
  intros [Hr Hnd] Heq. pose proof (repr_size _ _ _ _ _ Hr Hnd).
  rewrite (next_repr h t None None top 0 None xs x ys Hr Heq Hnd); [by destruct ys| |lia].
  intros c ->. destruct t as [|l c' r]; [done|]. destruct Hr as ([= <-] & n & ? & ? & ? & _).
  by econstructor.
Qed.

Lemma num_loop_walk h t top xs ys num fuel :
  join_tree h t top -> inorder t = xs ++ ys -> length ys <= fuel -> (0 <= num < 2 ^ 32)%Z ->
  spider_tree_num_loop fuel h (head ys) num = Some ((num + Z.of_nat (length ys)) mod 2 ^ 32)%Z.
Proof.
  intros Ht. revert xs num fuel. induction ys as [|y ys IH]; intros xs num fuel Heq Hlen Hnum.
  - destruct fuel; simpl; rewrite Z.add_0_r, Z.mod_small; done.
  - destruct fuel as [|fuel]; simpl in *; [lia|]. rewrite (join_tree_next _ _ _ _ _ _ Ht Heq). simpl.
    rewrite (IH (xs ++ [y])).
    + f_equal. rewrite Zplus_mod_idemp_l. f_equal. lia.
    + by rewrite Heq, <- app_assoc.
    + lia.
    + apply Z.mod_pos_bound. lia.
Qed.

(** ** Insertion *)

Definition heap_prio (h : gmap cid tnode) (c : cid) : Z := from_option priority 0%Z (h !! c).

(** [conn] becomes a leaf, then a child link of [c] is changed. *)
Lemma repr_new_leaf h (f g : tnode -> tnode) c conn nc ps pb :
  h !! conn = Some nc -> conn <> c ->
  f nc = mk_tnode ps pb None None (priority nc) ->
  repr (alter g c (alter f conn h)) (Node Leaf conn Leaf) ps pb (Some conn).
Proof.
  intros Hnc Hne Hf. split; [done|]. exists (f nc).
  rewrite lookup_alter_ne, lookup_alter_eq, Hnc by done. split; [done|]. rewrite Hf. by repeat split.
Qed.

Lemma alter2_prio (h : gmap cid tnode) (f g : tnode -> tnode) c conn x :
  (forall n, priority (f n) = priority n) -> (forall n, priority (g n) = priority n) ->
  priority <$> alter g c (alter f conn h) !! x = priority <$> h !! x.
Proof.
  intros Hf Hg. rewrite !lookup_alter. repeat case_decide; subst; destruct (h !! x); simpl; congruence.
Qed.

Lemma insert_loop_repr h t ps pb c conn nc fuel :
  repr h t ps pb (Some c) -> NoDup (inorder t) -> conn ∉ inorder t -> h !! conn = Some nc ->
  length (inorder t) <= fuel ->
  exists h', spider_tree_insert_loop fuel h c conn (priority nc) = Some h' /\
    repr h' (tinsert (heap_prio h) conn t) ps pb (Some c) /\
    (forall x, x ∉ inorder t -> x <> conn -> h' !! x = h !! x) /\
    (forall x, priority <$> h' !! x = priority <$> h !! x).
Proof.
  intros Hrep Hnd Hconn Hnc. revert ps pb c fuel Hrep Hnd Hconn.
  induction t as [|l IHl c' r IHr]; intros ps pb c fuel Hrep Hnd Hconn Hlen; [done|].
  destruct Hrep as ([= <-] & n & Hc & Hps & Hpb & Hl & Hr).
  simpl in Hlen. rewrite length_app in Hlen. simpl in Hlen.
  apply NoDup_app in Hnd as (Hndl & Hlr & Hnd). apply NoDup_cons in Hnd as (Hcr & Hndr).
  destruct fuel as [|fuel]; [lia|]. simpl in Hconn. simpl. rewrite Hc. simpl.
  replace (heap_prio h conn) with (priority nc) by (unfold heap_prio; by rewrite Hnc).
  replace (heap_prio h c) with (priority n) by (unfold heap_prio; by rewrite Hc).
  pose proof (repr_root _ _ _ _ _ Hl) as Hrl. pose proof (repr_root _ _ _ _ _ Hr) as Hrr.
  assert (conn <> c) by set_solver.
  destruct (priority nc <? priority n)%Z.
  - destruct l as [|l1 c1 r1]; simpl in Hrl; rewrite Hrl.
    + eexists. split; [done|]. split; [|split].
      * split; [done|]. eexists. rewrite lookup_alter_eq, lookup_alter_ne, Hc by done.
        do 3 (split; [done|]). split.
        -- eapply (repr_new_leaf h _ _ c conn nc); [done..|reflexivity].
        -- eapply repr_frame; [|done]. intros x Hx. rewrite !lookup_alter_ne; set_solver.
      * intros x Hx Hxc. rewrite !lookup_alter_ne; set_solver.
      * intros x. by apply alter2_prio.
    + rewrite Hrl in Hl.
      destruct (IHl None (Some c) c1 fuel Hl Hndl) as (h' & Hins & Hrep' & Hfr & Hpr); [set_solver|lia|].
      exists h'. split; [done|]. split; [|split; [intros; apply Hfr; set_solver|done]].
      split; [done|]. exists n. rewrite Hfr; [|intros Hin; apply (Hlr c Hin); set_solver|done].
      rewrite Hrl. repeat split; try done. eapply repr_frame; [|done].
      intros x Hx. apply Hfr; [|set_solver]. intros Hin. apply (Hlr x Hin). set_solver.
  - destruct r as [|l1 c1 r1]; simpl in Hrr; rewrite Hrr.
    + eexists. split; [done|]. split; [|split].
      * split; [done|]. eexists. rewrite lookup_alter_eq, lookup_alter_ne, Hc by done.
        do 3 (split; [done|]). split.
        -- eapply repr_frame; [|done]. intros x Hx. rewrite !lookup_alter_ne; set_solver.
        -- eapply (repr_new_leaf h _ _ c conn nc); [done..|reflexivity].
      * intros x Hx Hxc. rewrite !lookup_alter_ne; set_solver.
      * intros x. by apply alter2_prio.
    + rewrite Hrr in Hr.
      destruct (IHr (Some c) None c1 fuel Hr Hndr) as (h' & Hins & Hrep' & Hfr & Hpr); [set_solver|lia|].
      exists h'. split; [done|]. split; [|split; [intros; apply Hfr; set_solver|done]].
      split; [done|]. exists n. rewrite Hfr by done. rewrite Hrr. repeat split; try done.
      eapply repr_frame; [|done].
      intros x Hx. apply Hfr; [|set_solver]. intros Hin. apply (Hlr x Hx). set_solver.
Qed.

(** ** Deletion *)

Lemma inorder_last l c r :
  exists z, last (inorder (Node l c r)) = Some z /\ z ∈ inorder (Node l c r).
Proof.
  simpl. destruct (inorder r) as [|y ys] eqn:Hr using rev_ind.
  - exists c. rewrite last_snoc. split; [done|set_solver].
  - exists y. rewrite app_comm_cons, app_assoc, last_snoc. split; [done|set_solver].
Qed.

(** The last node of [l] gets [r], whose root already points back to it. *)
Lemma tjoin_repr h l r ps pb root rt z :
  repr h l ps pb root -> repr h r (Some z) None rt -> last (inorder l) = Some z ->
  NoDup (inorder l ++ inorder r) ->
  repr (alter (fun n => n <| c_big := rt |>) z h) (tjoin l r) ps pb root.
Proof.
  intros Hl Hr. revert ps pb root Hl. induction l as [|l1 _ c r1 IH]; [done|].
  intros ps pb root (-> & n & Hc & Hps & Hpb & Hl1 & Hr1) Hlast Hnd. simpl in *.
  rewrite <- app_assoc in Hnd. apply NoDup_app in Hnd as (_ & Hl1x & Hnd).
  simpl in Hnd. apply NoDup_cons in Hnd as (Hcx & Hnd).
  rewrite last_app_cons in Hlast. split; [done|].
  destruct r1 as [|l2 c2 r2].
  - simpl in Hlast. injection Hlast as <-. exists (n <| c_big := rt |>).
    rewrite lookup_alter_eq, Hc. do 3 (split; [done|]). split.
    + eapply repr_frame; [|done]. intros x Hx. apply lookup_alter_ne. set_solver.
    + eapply repr_frame; [|done]. intros x Hx. apply lookup_alter_ne. set_solver.
  - rewrite last_cons in Hlast.
    destruct (inorder_last l2 c2 r2) as (z' & Hz & Hin). rewrite Hz in Hlast. injection Hlast as ->.
    exists n. rewrite lookup_alter_ne by set_solver. do 3 (split; [done|]). split; [|by apply IH].
    eapply repr_frame; [|done]. intros x Hx. apply lookup_alter_ne. set_solver.
Qed.

Lemma relink_repr h l r ps pb cs ps' cb :
  repr h l ps pb (Some cs) -> repr h r ps' None cb -> NoDup (inorder l ++ inorder r) ->
  exists h', tree_delete_relink h cs cb = Some h' /\ repr h' (tjoin l r) ps pb (Some cs) /\
    (forall x, x ∉ inorder l ++ inorder r -> h' !! x = h !! x).
Proof.
  intros Hl Hr Hnd. destruct l as [|l1 c1 r1]; [done|]. pose proof Hl as ([= <-] & _).
  pose proof (repr_root _ _ _ _ _ Hr) as Hrt.
  destruct r as [|l2 c2 r2]; simpl in Hrt; subst cb.
  - exists h. split; [done|]. split; [|done]. revert Hl. generalize (Node l1 cs r1).
    intros t. replace (tjoin t Leaf) with t; [done|]. induction t as [|?? ???]; simpl; congruence.
  - apply NoDup_app in Hnd as Hnd'. destruct Hnd' as (Hndl & Hlr & Hndr).
    destruct (inorder_last l1 cs r1) as (z & Hz & Hzin).
    unfold tree_delete_relink, spider_tree_last.
    rewrite (last_loop_repr _ _ _ _ _ _ _ Hl) by (by eapply repr_size). rewrite Hz. simpl.
    eexists. split; [done|]. split.
    + apply (tjoin_repr _ (Node l1 cs r1) (Node l2 c2 r2)); [| |done..].
      * eapply repr_frame; [|exact Hl]. intros x Hx. apply lookup_alter_ne. intros ->.
        apply (Hlr x Hx). simpl. set_solver.
      * by eapply repr_reparent.
    + intros x Hx. rewrite !lookup_alter_ne; [done| |]; intros ->; simpl in *; set_solver.
Qed.

(** The child link of the parent of a subtree, and its update. *)
Definition linked (h : gmap cid tnode) (ps pb root : option cid) : Prop :=
  (forall p, ps = Some p -> c_big <$> h !! p = Some root) /\
  (forall p, pb = Some p -> c_small <$> h !! p = Some root).

Definition relinked (h : gmap cid tnode) (ps pb root : option cid) (y : cid) : option tnode :=
  if decide (ps = Some y) then (fun n => n <| c_big := root |>) <$> h !! y
  else if decide (pb = Some y) then (fun n => n <| c_small := root |>) <$> h !! y
  else h !! y.

Lemma relinked_same h ps pb root y : linked h ps pb root -> relinked h ps pb root y = h !! y.
Proof.
  intros [Hs Hb]. unfold relinked. repeat case_decide; [| |done].
  - specialize (Hs y H). destruct (h !! y) as [[]|]; [|done]. simpl in *. by simplify_eq.
  - specialize (Hb y H0). destruct (h !! y) as [[]|]; [|done]. simpl in *. by simplify_eq.
Qed.

(** The parent's child link is written, then the root's own parent links, as
    every branch of [spider_tree_delete] does before relinking. *)
Definition set_child (ps pb v : option cid) (h : gmap cid tnode) : gmap cid tnode :=
  match ps, pb with
  | Some p, _ => alter (fun m => m <| c_big := v |>) p h
  | None, Some p => alter (fun m => m <| c_small := v |>) p h
  | None, None => h
  end.

Lemma set_child_lookup ps pb v h y :
  (ps = None \/ pb = None) -> set_child ps pb v h !! y = relinked h ps pb v y.
Proof.
  unfold relinked. destruct ps as [p|], pb as [p'|]; simpl; intros [Hp|Hp]; try done;
    rewrite ?lookup_alter; repeat case_decide; congruence.
Qed.

Lemma set_child_frame ps pb v h y :
  ps <> Some y -> pb <> Some y -> set_child ps pb v h !! y = h !! y.
Proof.
  intros Hs Hb. destruct ps as [p|], pb as [p'|]; simpl; rewrite ?lookup_alter_ne; congruence.
Qed.

(** The child [c] that takes the place of a deleted node: [f] fixes its parent
    links, and the parent's child link points to it. *)
Lemma promote_repr f h t x ps pb ps0 pb0 c :
  repr h t ps0 pb0 (Some c) -> NoDup (inorder t) -> x ∉ inorder t ->
  (forall p, ps = Some p \/ pb = Some p -> p ∉ inorder t) -> (ps = None \/ pb = None) ->
  (forall n, p_small n = ps0 -> p_big n = pb0 ->
     p_small (f n) = ps /\ p_big (f n) = pb /\ c_small (f n) = c_small n /\ c_big (f n) = c_big n) ->
  repr (set_child ps pb (Some c) (alter f c h)) t ps pb (Some c) /\
  (forall y, y ∉ inorder t -> set_child ps pb (Some c) (alter f c h) !! y = relinked h ps pb (Some c) y).
Proof.
  intros Ht Hnd Hx Hout Hone Hf. split.
  - apply (repr_frame (alter f c h)); [|by eapply repr_reparent].
    intros y Hy. apply set_child_frame; intros Hp; eapply Hout; eauto.
  - intros y Hy. rewrite set_child_lookup by done. unfold relinked.
    rewrite lookup_alter_ne; [done|]. intros ->. apply Hy.
    destruct t; [done|]. destruct Ht as ([= ->] & _). simpl. set_solver.
Qed.

(** The update of the parent links in each branch of [spider_tree_delete]. *)
Definition promote_big (ps pb : option cid) (m : tnode) : tnode :=
  match ps, pb with
  | Some p, _ => m <| p_small := Some p |>
  | None, Some p => m <| p_big := Some p |> <| p_small := None |>
  | None, None => m <| p_small := None |>
  end.

Definition promote_small (ps pb : option cid) (m : tnode) : tnode :=
  match ps, pb with
  | Some p, _ => m <| p_big := None |> <| p_small := Some p |>
  | None, Some p => m <| p_big := Some p |>
  | None, None => m <| p_big := None |> <| p_small := None |>
  end.

(** [spider_tree_delete] as one promotion followed by the relinking. *)
Lemma delete_unfold h x n top :
  h !! x = Some n ->
  spider_tree_delete h x top =
    match c_small n, c_big n with
    | Some cs, cb =>
        h' ← tree_delete_relink
               (set_child (p_small n) (p_big n) (Some cs)
                  (alter (promote_small (p_small n) (p_big n)) cs h)) cs cb;
        Some (match p_small n, p_big n with None, None => Some cs | _, _ => top end, h')
    | None, Some cb =>
        Some (match p_small n, p_big n with None, None => Some cb | _, _ => top end,
              set_child (p_small n) (p_big n) (Some cb)
                (alter (promote_big (p_small n) (p_big n)) cb h))
    | None, None =>
        Some (match p_small n, p_big n with None, None => None | _, _ => top end,
              set_child (p_small n) (p_big n) None h)
    end.
Proof.
  intros Hx. unfold spider_tree_delete. rewrite Hx. simpl.
  by destruct (p_small n), (p_big n), (c_small n), (c_big n).
Qed.

(** Deleting the root of a subtree whose parents are outside it. *)
Lemma delete_root h l x r ps pb top :
  repr h (Node l x r) ps pb (Some x) -> NoDup (inorder (Node l x r)) ->
  (forall p, ps = Some p \/ pb = Some p -> p ∉ inorder (Node l x r)) ->
  (ps = None \/ pb = None) ->
  exists h', spider_tree_delete h x top =
      Some (match ps, pb with None, None => troot (tjoin l r) | _, _ => top end, h') /\
    repr h' (tjoin l r) ps pb (troot (tjoin l r)) /\
    (forall y, y ∉ inorder (Node l x r) -> h' !! y = relinked h ps pb (troot (tjoin l r)) y).
Proof.
  intros (_ & n & Hx & Hps & Hpb & Hl & Hr) Hnd Hout Hone.
  rewrite (delete_unfold _ _ _ _ Hx), Hps, Hpb. cbn [inorder] in *.
  apply NoDup_app in Hnd as (Hndl & Hlr & Hnd). apply NoDup_cons in Hnd as (Hxr & Hndr).
  pose proof (repr_root _ _ _ _ _ Hl) as Hrl. pose proof (repr_root _ _ _ _ _ Hr) as Hrr.
  rewrite Hrl, Hrr in *. destruct l as [|l1 cs r1].
  - destruct r as [|l2 cb r2]; cbn [troot tjoin] in *.
    + eexists. split; [done|]. split; [done|]. intros y _. by apply set_child_lookup.
    + destruct (promote_repr (promote_big ps pb) h (Node l2 cb r2) x ps pb (Some x) None cb)
        as [Hrep Hfr]; try done.
      { intros p Hp Hin. apply (Hout p Hp). set_solver. }
      { intros m Hm1 Hm2. destruct Hone as [->| ->]; [destruct pb|destruct ps]; by simpl. }
      eexists. split; [done|]. split; [done|]. intros y Hy. apply Hfr. set_solver.
  - cbn [troot] in *. set (t := Node l1 cs r1) in *.
    destruct (promote_repr (promote_small ps pb) h t x ps pb None (Some x) cs)
      as [Hrep Hfr]; try done.
    { intros Hin. apply (Hlr x Hin). set_solver. }
    { intros p Hp Hin. apply (Hout p Hp). set_solver. }
    { intros m Hm1 Hm2. destruct Hone as [->| ->]; [destruct pb|destruct ps]; by simpl. }
    destruct (relink_repr _ t r ps pb cs (Some x) (troot r) Hrep) as (h' & Heq & Hrep' & Hfr').
    { eapply repr_frame; [|exact Hr]. intros y Hy. rewrite Hfr.
      - unfold relinked. rewrite !decide_False; [done| |]; intros Hp; apply (Hout y); eauto; set_solver.
      - intros Hin. apply (Hlr y Hin). set_solver. }
    { apply NoDup_app. split_and!; [done| |done]. set_solver. }
    rewrite Heq. cbn. eexists. split; [done|]. split; [done|].
    intros y Hy. rewrite Hfr' by set_solver. apply Hfr. set_solver.
Qed.

Lemma delete_sub h t x ps pb root top :
  repr h t ps pb root -> NoDup (inorder t) -> x ∈ inorder t ->
  (forall p, ps = Some p \/ pb = Some p -> p ∉ inorder t) -> (ps = None \/ pb = None) ->
  linked h ps pb root -> (ps = None -> pb = None -> top = root) ->
  exists root' h', spider_tree_delete h x top =
      Some (match ps, pb with None, None => root' | _, _ => top end, h') /\
    repr h' (tdelete x t) ps pb root' /\
    (forall y, y ∉ inorder t -> h' !! y = relinked h ps pb root' y).
Proof.
  revert ps pb root top. induction t as [|l IHl c r IHr]; simpl; [set_solver|].
  intros ps pb root top Hrep Hnd Hx Hout Hone Hlk Htop. case_decide as Hxc; [subst c|].
  { pose proof Hrep as (-> & _). destruct (delete_root h l x r ps pb top) as (h' & ? & ? & ?); eauto. }
  destruct Hrep as (-> & n & Hc & Hps & Hpb & Hl & Hr).
  apply NoDup_app in Hnd as (Hndl & Hlr & Hnd). apply NoDup_cons in Hnd as (Hcr & Hndr).
  assert (Hcl : c ∉ inorder l) by (intros Hin; apply (Hlr c Hin); set_solver).
  assert (Htop' : match ps, pb with None, None => Some c | _, _ => top end = top).
  { destruct ps, pb; try done. by rewrite Htop. }
  assert (x ∈ inorder l \/ x ∈ inorder r) as [Hin|Hin] by set_solver.
  - destruct (IHl None (Some c) (c_small n) top) as (rl & h' & Hdel & Hrep' & Hfr); try done; auto.
    { by intros p [|[= <-]]. }
    { split; [done|]. intros p [= <-]. by rewrite Hc. }
    exists (Some c), h'. rewrite Htop'. split; [done|]. rewrite (tdelete_notin x r) by set_solver.
    unfold relinked in Hfr. simpl in Hfr. split.
    + split; [done|]. exists (n <| c_small := rl |>). rewrite Hfr by done.
      rewrite decide_True, Hc by done. do 4 (split; [done|]).
      eapply repr_frame; [|exact Hr]. intros y Hy. rewrite Hfr by set_solver.
      rewrite decide_False; [done|congruence].
    + intros y Hy. rewrite relinked_same by done. rewrite Hfr by set_solver.
      rewrite decide_False; [done|set_solver].
  - destruct (IHr (Some c) None (c_big n) top) as (rr & h' & Hdel & Hrep' & Hfr); try done; auto.
    { by intros p [[= <-]|]. }
    { split; [|done]. intros p [= <-]. by rewrite Hc. }
    exists (Some c), h'. rewrite Htop'. split; [done|]. rewrite (tdelete_notin x l) by set_solver.
    unfold relinked in Hfr. simpl in Hfr. split.
    + split; [done|]. exists (n <| c_big := rr |>). rewrite Hfr by done.
      rewrite decide_True, Hc by done. do 3 (split; [done|]). split; [|done].
      eapply repr_frame; [|exact Hl]. intros y Hy. rewrite Hfr by set_solver.
      rewrite decide_False; [done|congruence].
    + intros y Hy. rewrite relinked_same by done. rewrite Hfr by set_solver.
      rewrite decide_False; [done|set_solver].
Qed.

(** ** Sortedness *)

(** Stable insertion: [x] goes after the elements of its own priority. *)
Fixpoint sorted_insert (prio : cid -> Z) (x : cid) (l : list cid) : list cid :=
  match l with
  | [] => [x]
  | y :: l' => if (prio x <? prio y)%Z then x :: y :: l' else y :: sorted_insert prio x l'
  end.

Abbreviation prio_sorted prio := (StronglySorted (fun a b : cid => (prio a <= prio b)%Z)).

Lemma sorted_insert_app prio x l1 c l2 :
  prio_sorted prio (l1 ++ c :: l2) ->
  sorted_insert prio x (l1 ++ c :: l2) =
    if (prio x <? prio c)%Z then sorted_insert prio x l1 ++ c :: l2
    else l1 ++ c :: sorted_insert prio x l2.
Proof.
  induction l1 as [|y l1 IH]; simpl; [by destruct (_ <? _)%Z|]. intros Hs.
  apply StronglySorted_inv in Hs as [Hs Hall]. rewrite Forall_forall in Hall.
  specialize (Hall c ltac:(set_solver)). rewrite (IH Hs).
  destruct (Z.ltb_spec (prio x) (prio c)), (Z.ltb_spec (prio x) (prio y)); [done|done|lia|done].
Qed.

Lemma StronglySorted_app_inv {A} (R : A -> A -> Prop) l1 l2 :
  StronglySorted R (l1 ++ l2) -> StronglySorted R l1 /\ StronglySorted R l2.
Proof.
  induction l1 as [|x l1 IH]; simpl; [by split; [constructor|]|].
  intros [Hs Hf]%StronglySorted_inv. destruct (IH Hs). split; [|done].
  constructor; [done|]. by apply Forall_app in Hf as [??].
Qed.

Lemma inorder_tinsert prio x t :
  prio_sorted prio (inorder t) ->
  inorder (tinsert prio x t) = sorted_insert prio x (inorder t).
Proof.
  induction t as [|l IHl c r IHr]; simpl; [done|]. intros Hs. rewrite sorted_insert_app by done.
  apply StronglySorted_app_inv in Hs as [Hl Hr]. apply StronglySorted_inv in Hr as [Hr _].
  destruct (_ <? _)%Z; simpl; by rewrite ?IHl, ?IHr.
Qed.

Lemma sorted_insert_perm prio x l : sorted_insert prio x l ≡ₚ x :: l.
Proof. induction l as [|y l IH]; simpl; [done|]. destruct (_ <? _)%Z; [done|]. rewrite IH. constructor. Qed.

Lemma sorted_insert_sorted prio x l :
  prio_sorted prio l -> prio_sorted prio (sorted_insert prio x l).
Proof.
  induction 1 as [|y l Hs IH Hall]; simpl; [repeat constructor|].
  destruct (Z.ltb_spec (prio x) (prio y)) as [Hlt|Hge].
  - constructor; [by constructor|]. constructor; [lia|].
    eapply Forall_impl; [exact Hall|]. intros z. simpl. lia.
  - constructor; [done|]. rewrite sorted_insert_perm. constructor; [lia|done].
Qed.

(** ** Walks and operations on whole trees *)

Lemma walk_loop_suffix h t top xs ys fuel :
  join_tree h t top -> inorder t = xs ++ ys -> length ys <= fuel ->
  tree_walk_loop fuel h (head ys) = Some ys.
Proof.
  intros Ht. revert xs fuel. induction ys as [|y ys IH]; intros xs fuel Heq Hlen; [by destruct fuel|].
  destruct fuel as [|fuel]; simpl in *; [lia|]. rewrite (join_tree_next _ _ _ _ _ _ Ht Heq). simpl.
  rewrite (IH (xs ++ [y])); [done| |lia]. by rewrite Heq, <- app_assoc.
Qed.

Lemma tree_walk_inorder h t top : join_tree h t top -> tree_walk h top = Some (inorder t).
Proof.
  intros Ht. unfold tree_walk. rewrite (join_tree_first _ _ _ Ht). simpl.
  apply (walk_loop_suffix h t top []); [done|done|]. destruct Ht. by eapply repr_size.
Qed.

Lemma tree_num_inorder h t top :
  join_tree h t top -> spider_tree_num h top = Some (Z.of_nat (length (inorder t)) mod 2 ^ 32)%Z.
Proof.
  intros Ht. unfold spider_tree_num. rewrite (join_tree_first _ _ _ Ht). simpl.
  apply (num_loop_walk h t top []); [done|done| |lia]. destruct Ht. by eapply repr_size.
Qed.

(** Joining keeps the tree, adds the connection and leaves priorities alone. *)
Lemma join_tree_join h t top conn :
  join_tree h t top -> conn ∉ inorder t -> is_Some (h !! conn) ->
  exists top' h', tree_join h top conn = Some (top', h') /\
    join_tree h' (tinsert (heap_prio h) conn t) top' /\
    (forall x, x ∉ inorder t -> x <> conn -> h' !! x = h !! x) /\
    (forall x, priority <$> h' !! x = priority <$> h !! x).
Proof.
  intros [Hr Hnd] Hin [n Hn]. pose proof (repr_root _ _ _ _ _ Hr) as Hroot.
  pose proof (repr_size _ _ _ _ _ Hr Hnd) as Hsz.
  assert (Hnd' : NoDup (inorder (tinsert (heap_prio h) conn t))).
  { rewrite inorder_tinsert_perm. by constructor. }
  destruct t as [|l c r]; simpl in Hroot; subst top; unfold tree_join.
  - do 2 eexists. split; [done|]. split_and!.
    + split; [|done]. split; [done|]. exists (unlinked n). by rewrite lookup_alter_eq, Hn.
    + intros x _ Hx. by apply lookup_alter_ne.
    + intros x. rewrite lookup_alter. case_decide; [subst|done]. by rewrite Hn.
  - unfold spider_tree_insert. rewrite Hn. simpl.
    destruct (insert_loop_repr h (Node l c r) None None c conn n (S (size h))) as (h' & Hi & Hr' & Hf & Hp);
      [done|done|done|done|simpl in *; lia|].
    simpl in Hi. rewrite Hi. simpl. do 2 eexists. split; [done|]. by split_and!.
Qed.

(** Leaving keeps the tree and the order of the others. *)
Lemma join_tree_delete h t top x :
  join_tree h t top -> x ∈ inorder t ->
  exists top' h', spider_tree_delete h x top = Some (top', h') /\
    join_tree h' (tdelete x t) top' /\
    (forall y, y ∉ inorder t -> h' !! y = h !! y).
Proof.
  intros [Hr Hnd] Hx.
  destruct (delete_sub h t x None None top top) as (top' & h' & Hd & Hr' & Hf); auto.
  - by intros p [|].
  - by split.
  - exists top', h'. split; [done|]. split; [|intros y Hy; by rewrite Hf].
    split; [done|]. rewrite inorder_tdelete by done. by apply NoDup_filter.
Qed.

(** Connections joining one after the other. *)
Fixpoint tree_join_all (h : gmap cid tnode) (top : option cid) (l : list cid) :
    option (option cid * gmap cid tnode) :=
  match l with
  | [] => Some (top, h)
  | c :: l' => '(top', h') ← tree_join h top c; tree_join_all h' top' l'
  end.

(** Stable sorting by priority. *)
Definition sort_by_priority (prio : cid -> Z) (l : list cid) : list cid :=
  foldl (fun acc c => sorted_insert prio c acc) [] l.

Lemma prio_ext_heap h h' :
  (forall x, priority <$> h' !! x = priority <$> h !! x) ->
  forall x, heap_prio h' x = heap_prio h x.
Proof.
  intros H x. specialize (H x). unfold heap_prio.
  destruct (h' !! x), (h !! x); simpl in *; congruence.
Qed.

Lemma sorted_insert_ext p p' x l :
  (forall y, p y = p' y) -> sorted_insert p x l = sorted_insert p' x l.
Proof. intros H. induction l as [|y l IH]; simpl; [done|]. by rewrite !H, IH. Qed.

Lemma tree_join_all_walk h t top l :
  join_tree h t top -> prio_sorted (heap_prio h) (inorder t) ->
  NoDup (inorder t ++ l) -> Forall (fun c => is_Some (h !! c)) l ->
  exists top' h' t', tree_join_all h top l = Some (top', h') /\ join_tree h' t' top' /\
    inorder t' = foldl (fun acc c => sorted_insert (heap_prio h) c acc) (inorder t) l.
Proof.
  revert h t top. induction l as [|c l IH]; intros h t top Ht Hs Hnd Hall; [by exists top, h, t|].
  apply Forall_cons in Hall as [Hc Hall]. apply NoDup_app in Hnd as (Hnd1 & Hd & Hnd2).
  apply NoDup_cons in Hnd2 as [Hcl Hl].
  destruct (join_tree_join h t top c Ht) as (top1 & h1 & Hj & Ht1 & Hf & Hp);
    [intros Hin; apply (Hd c Hin); set_solver|done|].
  pose proof (inorder_tinsert (heap_prio h) c t Hs) as Hin.
  pose proof (prio_ext_heap _ _ Hp) as Hpe.
  destruct (IH h1 _ top1 Ht1) as (top' & h' & t' & Hja & Ht' & Heq).
  - rewrite Hin. apply (sorted_insert_sorted _ c) in Hs. revert Hs. clear -Hpe.
    induction 1 as [|y k Hk IHk Hy]; constructor; [done|].
    eapply Forall_impl; [exact Hy|]. intros z. simpl. by rewrite !Hpe.
  - rewrite inorder_tinsert_perm. simpl. apply NoDup_cons. split; [set_solver|].
    apply NoDup_app. split_and!; [done| |done]. set_solver.
  - eapply Forall_impl; [exact Hall|]. intros x Hx. specialize (Hp x).
    destruct (h1 !! x); [done|]. by destruct Hx as [? Hx]; rewrite Hx in Hp.
  - exists top', h', t'. split; [simpl; by rewrite Hj|]. split; [done|]. simpl.
    rewrite Heq, Hin. clear -Hpe. generalize (sorted_insert (heap_prio h) c (inorder t)).
    induction l as [|x l IHl]; intros k; simpl; [done|]. by rewrite (sorted_insert_ext _ _ _ _ Hpe).
Qed.

Lemma join_tree_length h t top : join_tree h t top -> length (inorder t) <= size h.
Proof. intros [Hr Hnd]. by eapply repr_size. Qed.

Lemma sort_by_priority_perm prio l : sort_by_priority prio l ≡ₚ l.
Proof.
  unfold sort_by_priority. rewrite <- (app_nil_r l) at 2. generalize (@nil cid) as acc.
  induction l as [|c l IH]; intros acc; simpl; [done|]. rewrite IH, sorted_insert_perm.
  by rewrite <- Permutation_middle.
Qed.

Lemma sort_by_priority_sorted prio l : prio_sorted prio (sort_by_priority prio l).
Proof.
  unfold sort_by_priority. assert (prio_sorted prio []) as H by constructor. revert H.
  generalize (@nil cid) as acc. induction l as [|c l IH]; intros acc Hacc; simpl; [done|].
  apply IH. by apply sorted_insert_sorted.
Qed.

(** The root passed to [spider_tree_delete] only matters for its result. *)
Lemma delete_top_irrelevant h c t1 t2 :
  snd <$> spider_tree_delete h c t1 = snd <$> spider_tree_delete h c t2.
Proof.
  unfold spider_tree_delete. destruct (h !! c) as [n|]; [simpl|done].
  destruct (p_small n), (p_big n), (c_small n), (c_big n); try reflexivity;
    cbn [mbind option_bind]; match goal with |- context [tree_delete_relink ?a ?b ?d] =>
      by destruct (tree_delete_relink a b d) end.
Qed.

(** ** What the transaction code relies on *)

(** The link fields as an ordered collection: [walks h top cs] says that the tree
    at [top] holds the connections [cs] in this order. *)
Class JoinOrder (walks : gmap cid tnode -> option cid -> list cid -> Prop) := {
  walks_nodup h top cs : walks h top cs -> NoDup cs;
  walks_size h top cs : walks h top cs -> length cs <= size h;
  walks_nil h : walks h None [];
  walks_top h top : walks h top [] -> top = None;
  walks_first h top cs : walks h top cs -> spider_tree_first h top = Some (head cs);
  walks_next h top xs x ys :
    walks h top (xs ++ x :: ys) -> spider_tree_next h x = Some (head ys);
  walks_num h top cs :
    walks h top cs -> spider_tree_num h top = Some (Z.of_nat (length cs) mod 2 ^ 32)%Z;
  walks_frame h h' top cs :
    (forall c, c ∈ cs -> h' !! c = h !! c) -> walks h top cs -> walks h' top cs;
  walks_join h top cs c : walks h top cs -> c ∉ cs -> is_Some (h !! c) ->
    exists top' h' cs', tree_join h top c = Some (top', h') /\ walks h' top' cs' /\ cs' ≡ₚ c :: cs /\
      dom h' = dom h;
  walks_delete h top cs c arg : walks h top cs -> c ∈ cs ->
    exists top' r h', spider_tree_delete h c arg = Some (r, h') /\ (arg = top -> r = top') /\
      walks h' top' (filter (.≠ c) cs) /\ (forall x, x ∉ cs -> h' !! x = h !! x)
}.

Definition tree_walks (h : gmap cid tnode) (top : option cid) (cs : list cid) : Prop :=
  exists t, join_tree h t top /\ inorder t = cs.

(** The threaded tree is one. *)
#[export] Instance tree_walks_order : JoinOrder tree_walks.
Proof.
  split.
  - intros h top cs (t & [_ Hnd] & <-). done.
  - intros h top cs (t & Ht & <-). by eapply join_tree_length.
  - intros h. exists Leaf. split; [|done]. split; [done|constructor].
  - intros h top ([|l c r] & [Ht _] & Hi); [exact Ht|]. simpl in Hi. by destruct (inorder l).
  - intros h top cs (t & Ht & <-). by apply join_tree_first.
  - intros h top xs x ys (t & Ht & Heq). by eapply join_tree_next.
  - intros h top cs (t & Ht & <-). by apply tree_num_inorder.
  - intros h h' top cs Hf (t & [Hr Hnd] & <-). exists t. split; [|done]. split; [|done].
    by eapply repr_frame.
  - intros h top cs c (t & Ht & <-) Hc Hal.
    destruct (join_tree_join h t top c Ht Hc Hal) as (top' & h' & Hj & Ht' & Hf & Hp).
    exists top', h', (inorder (tinsert (heap_prio h) c t)). split_and!; [done|by exists (tinsert (heap_prio h) c t)| |].
    + apply inorder_tinsert_perm.
    + apply set_eq. intros x. rewrite !elem_of_dom. specialize (Hp x).
      destruct (h' !! x), (h !! x); try done; split; by intros [? ?].
  - intros h top cs c arg (t & Ht & <-) Hc.
    destruct (join_tree_delete h t top c Ht Hc) as (top' & h' & Hd & Ht' & Hf).
    pose proof (delete_top_irrelevant h c arg top) as Ha. rewrite Hd in Ha. simpl in Ha.
    destruct (spider_tree_delete h c arg) as [[r h1]|] eqn:Hd1; [|done]. injection Ha as ->.
    exists top', r, h'. split_and!; [done|by intros ->; congruence| |done]. exists (tdelete c t). split; [done|].
    apply inorder_tdelete. by destruct Ht.
Qed.

(** ** Theorems *)

(** C29. Connections that join a transaction one after the other are visited by
    the walk of the two-phase commit ([spider_tree_first], then
    [spider_tree_next]) each exactly once, in the order of their priorities and,
    among equal priorities, of their joining; [spider_tree_num] is their number
    modulo the width of [uint].  Every loop ends within the size of the heap. *)
Theorem join_then_walk (h : gmap cid tnode) (l : list cid) :
  NoDup l -> Forall (fun c => is_Some (h !! c)) l ->
  exists top h', tree_join_all h None l = Some (top, h') /\
    tree_walk h' top = Some (sort_by_priority (heap_prio h) l) /\
    spider_tree_num h' top = Some (Z.of_nat (length l) mod 2 ^ 32)%Z /\
    sort_by_priority (heap_prio h) l ≡ₚ l /\
    prio_sorted (heap_prio h) (sort_by_priority (heap_prio h) l).
Proof.
  intros Hnd Hal.
  destruct (tree_join_all_walk h Leaf None l) as (top & h' & t & Hj & Ht & Heq); try done.
  { split; [done|constructor]. }
  { constructor. }
  exists top, h'. pose proof (sort_by_priority_perm (heap_prio h) l) as Hp.
  split_and!; [done| | |done|apply sort_by_priority_sorted].
  - by rewrite (tree_walk_inorder _ _ _ Ht), Heq.
  - rewrite (tree_num_inorder _ _ _ Ht), Heq.
    apply Permutation_length in Hp. unfold sort_by_priority in Hp. simpl. by rewrite Hp.
Qed.

Definition five_nodes : gmap cid tnode :=
  list_to_map [(1, mk_tnode None None None None 5); (2, mk_tnode None None None None 3);
               (3, mk_tnode None None None None 5); (4, mk_tnode None None None None 9);
               (5, mk_tnode None None None None 3)]%positive.

Lemma join_then_walk_witness :
  (tree_join_all five_nodes None [1; 2; 3; 4; 5]%positive ≫= fun r => tree_walk r.2 r.1)
    = Some [2; 5; 1; 3; 4]%positive.
Proof.
  destruct (join_then_walk five_nodes [1; 2; 3; 4; 5]%positive) as (top & h' & Hj & Hw & _).
  - apply (bool_decide_unpack _). vm_compute. exact I.
  - repeat constructor; vm_compute; eauto.
  - rewrite Hj. simpl. rewrite Hw. vm_compute. reflexivity.
Defined.

(** [spider_tree_delete] takes a connection out of the tree: the walk then
    gives the other connections in the same order as before, and no link of a
    connection outside the tree is written. *)
Theorem delete_then_walk (h : gmap cid tnode) (t : tree) (top : option cid) (c : cid) :
  join_tree h t top -> c ∈ inorder t ->
  tree_walk h top = Some (inorder t) /\
  exists top' h', spider_tree_delete h c top = Some (top', h') /\
    tree_walk h' top' = Some (filter (.≠ c) (inorder t)) /\
    (forall x, x ∉ inorder t -> h' !! x = h !! x).
Proof.
  intros Ht Hc. split; [by apply tree_walk_inorder|].
  destruct (join_tree_delete h t top c Ht Hc) as (top' & h' & Hd & Ht' & Hf).
  exists top', h'. split_and!; [done| |done]. rewrite (tree_walk_inorder _ _ _ Ht').
  f_equal. apply inorder_tdelete. by destruct Ht.
Qed.

(** The nodes after 2, 1, 3 with priorities 3, 1, 5 joined. *)
Definition three_nodes : gmap cid tnode :=
  list_to_map [(1, mk_tnode None (Some 2) None None 1);
               (2, mk_tnode None None (Some 1) (Some 3) 3);
               (3, mk_tnode (Some 2) None None None 5)]%positive.

Lemma delete_then_walk_witness :
  (spider_tree_delete three_nodes 2%positive (Some 2%positive) ≫= fun r => tree_walk r.2 r.1)
    = Some [1; 3]%positive.
Proof.
  destruct (delete_then_walk three_nodes
              (Node (Node Leaf 1 Leaf) 2 (Node Leaf 3 Leaf))%positive (Some 2%positive) 2%positive)
    as (_ & top' & h' & Hd & Hw & _).
  - split; [|apply (bool_decide_unpack _); vm_compute; exact I].
    repeat split; eexists; (repeat split; try reflexivity); eexists; repeat split; reflexivity.
  - set_solver.
  - rewrite Hd. simpl. rewrite Hw. vm_compute. reflexivity.
Defined.
