(* ===== verification/World.v ===== *)
(** * The program state

    The C structures the transaction code works on ([SPIDER_CONN],
    [SPIDER_TRX], [XID], the rows of the XA log tables), the statements Spider
    sends to the backend servers, and the [world] they live in.

    What the world outside the storage engine answers (the MySQL client library
    and the backend servers behind it, the clock, the memory allocator, the
    engine of the log tables) is a parameter: the class [Env] holds one answer
    for every call, indexed by the number of outside calls made before it.
    Theorems quantify over every [Env], so over every behaviour of the outside.
    The class [Vars] holds the system variables. *)

From stdpp Require Import base gmap list strings.
From Stdlib Require Import ZArith Lia.
From S2P Require Import Prelude ConnTree.
Local Open Scope spider_scope.
Local Open Scope Z_scope.

(** ** Error numbers (spd_err.h, my_base.h, errmsg.h, errmsg-utf8.txt) *)

Definition HA_ERR_KEY_NOT_FOUND : Z := 120.
Definition HA_ERR_FOUND_DUPP_KEY : Z := 121.
Definition HA_ERR_END_OF_FILE : Z := 137.
Definition HA_ERR_UNSUPPORTED : Z := 138.
Definition HA_ERR_RECORD_IS_THE_SAME : Z := 169.
Definition ER_DUP_KEY : Z := 1022.
Definition ER_CON_COUNT_ERROR : Z := 1040.
Definition ER_DUP_ENTRY : Z := 1062.
Definition ER_UNKNOWN_CHARACTER_SET : Z := 1115.
Definition ER_XAER_NOTA : Z := 1397.
Definition ER_CONNECT_TO_FOREIGN_DATA_SOURCE : Z := 1429.
Definition ER_FOREIGN_SERVER_DOESNT_EXIST : Z := 1477.
Definition ER_XA_RBTIMEOUT : Z := 1613.
Definition ER_XA_RBDEADLOCK : Z := 1614.
Definition ER_XAER_RMFAIL : Z := 1399.
Definition CR_CONNECTION_ERROR : Z := 2002.
Definition CR_CONN_HOST_ERROR : Z := 2003.
Definition CR_SERVER_GONE_ERROR : Z := 2006.
Definition CR_SERVER_LOST : Z := 2013.
Definition ER_SPIDER_INVALID_CONNECT_INFO_NUM : Z := 12501.
Definition ER_SPIDER_INVALID_CONNECT_INFO_TOO_LONG_NUM : Z := 12502.
Definition ER_SPIDER_DIFFERENT_LINK_COUNT_NUM : Z := 12504.
Definition ER_SPIDER_INVALID_CONNECT_INFO_START_WITH_NUM_NUM : Z := 12526.
Definition ER_SPIDER_INVALID_CONNECT_INFO_SAME_NUM : Z := 12527.
Definition ER_SPIDER_UNKNOWN_NUM : Z := 12500.
Definition ER_SPIDER_CANT_OPEN_SYS_TABLE_NUM : Z := 12524.
Definition ER_SPIDER_LINK_IS_FAILOVER_NUM : Z := 12519.
Definition ER_SPIDER_CANT_USE_BOTH_INNER_XA_AND_SNAPSHOT_NUM : Z := 12601.
Definition ER_SPIDER_XA_NOT_PREPARED_NUM : Z := 12603.
Definition ER_SPIDER_XA_PREPARED_NUM : Z := 12604.
Definition ER_SPIDER_XA_EXISTS_NUM : Z := 12605.
Definition ER_SPIDER_XA_NOT_EXISTS_NUM : Z := 12607.
Definition ER_SPIDER_XA_MEMBER_NOT_EXISTS_NUM : Z := 12608.
Definition ER_SPIDER_SYS_TABLE_VERSION_NUM : Z := 12609.
Definition ER_SPIDER_REMOTE_SERVER_GONE_AWAY_NUM : Z := 12701.
Definition ER_SPIDER_CON_COUNT_ERROR : Z := 12723.
Definition ER_SPIDER_XA_TIMEOUT_NUM : Z := 12728.
Definition ER_SPIDER_XA_FAILED_NUM : Z := 12729.
Definition ER_SPIDER_COND_SKIP_NUM : Z := 12801.

(** ** Data *)

(** [XID]: [data] holds the global transaction id followed by the branch
    qualifier. *)
Record XID := mk_XID {
  formatID : Z;
  gtrid_length : Z;
  bqual_length : Z;
  xid_data : list Z
}.

#[export] Instance eta_XID : Eta XID := fun x =>
  mk_XID (formatID x) (gtrid_length x) (bqual_length x) (xid_data x).

#[export] Instance XID_eq_dec : EqDecision XID.
Proof. solve_decision. Defined.

(** The statements the transaction code sends to a backend. *)
Inductive stmt :=
| SetIsolation (level : Z)
| SetAutocommit (on : bool)
| SetSqlLogOff (on : bool)
| SetTimeZone (tz : Z)
| StartTransaction
| StartConsistentSnapshot
| Commit
| Rollback
| XaStart (xid : XID)
| XaEnd (xid : XID)
| XaPrepare (xid : XID)
| XaCommit (xid : XID)
| XaCommitOnePhase (xid : XID)
| XaRollback (xid : XID)
| UnlockTables
| Kill (connection : bool) (thread : Z).

#[export] Instance stmt_eq_dec : EqDecision stmt.
Proof. solve_decision. Defined.

(** Where [conn->need_mon] points: a local variable of the caller, the entry of
    [ha_spider::need_mons] for a link, the one of the transaction's own
    [tmp_spider], or the connection's own [conn_need_mon]. *)
Inductive mon_ref :=
| MonLocal
| MonLink (idx : Z)
| MonTrx
| MonConn (c : cid).

#[export] Instance mon_ref_eq_dec : EqDecision mon_ref.
Proof. solve_decision. Defined.

(** What a [SPIDER_SHARE] says of one of its links, and the parts of the share
    itself that the connection code reads. *)
Record link_target := mk_link_target {
  lt_server_name : option string;
  lt_conn_key : string;
  lt_host : string;
  lt_port : Z;
  lt_connect_timeout : Z;
  lt_net_read_timeout : Z;
  lt_net_write_timeout : Z
}.

Record SPIDER_SHARE := mk_share {
  share_links : list link_target;
  share_priority : Z;
  conn_key_version : Z;
  modify_server_version : Z
}.

(** [SPIDER_CONN] without its tree links and priority, which are in [w_links].
    [conn_thd] and [connect_error_thd] say whether the pointer is the current
    THD; [queued_xa_start_xid] whether it points to [trx->xid] of the session's
    transaction, the only address it is given; [mta_file_pos] whether the position that
    [spider_mta_conn_mutex_lock] records is set.  [db_conn] and the three
    fields after it are those of [spider_db_mysql] and its [MYSQL] handle: the
    handle exists, its last error, and the statements of the last query whose
    results were not read. *)
Record SPIDER_CONN := mk_conn {
  tgt_host : string;
  tgt_port : Z;
  conn_key : string;
  link_idx : Z;
  conn_id : Z;
  conn_share : option SPIDER_SHARE;
  ip_port_conn : option string;
  current_key_version : Z;
  join_trx : Z;
  trx_isolation : Z;
  semi_trx_isolation : Z;
  semi_trx : bool;
  trx_start : bool;
  table_lock : Z;
  table_locked : bool;
  disable_xa : bool;
  disable_reconnect : bool;
  autocommit : Z;
  sql_log_off : Z;
  conn_thd : bool;
  server_lost : bool;
  ignore_dup_key : bool;
  ping_time : Z;
  time_zone : option Z;
  connect_timeout : Z;
  net_read_timeout : Z;
  net_write_timeout : Z;
  error_mode : Z;
  opened_handlers : Z;
  connection_id : Z;
  is_xa_commit_one_phase : bool;
  use_for_active_standby : bool;
  disable_connect_retry : bool;
  in_before_query : bool;
  mta_file_pos : bool;
  mta_conn_mutex_lock_already : bool;
  mta_conn_mutex_unlock_later : bool;
  need_mon : option mon_ref;
  queued_connect : bool;
  queued_ping : bool;
  queued_trx_isolation : bool;
  queued_semi_trx_isolation : bool;
  queued_autocommit : bool;
  queued_sql_log_off : bool;
  queued_time_zone : bool;
  queued_trx_start : bool;
  queued_xa_start : bool;
  queued_net_timeout : bool;
  queued_connect_share : option SPIDER_SHARE;
  queued_connect_link_idx : Z;
  queued_trx_isolation_val : Z;
  queued_semi_trx_isolation_val : Z;
  queued_autocommit_val : bool;
  queued_sql_log_off_val : bool;
  queued_time_zone_val : option Z;
  queued_xa_start_xid : bool;
  connect_error : Z;
  connect_error_with_message : bool;
  connect_error_thd : bool;
  connect_error_query_id : Z;
  connect_error_time : Z;
  last_visited : Z;
  db_conn : bool;
  last_errno : Z;
  pending : list stmt
}.

#[export] Instance eta_conn : Eta SPIDER_CONN := fun c =>
  mk_conn (tgt_host c) (tgt_port c) (conn_key c) (link_idx c) (conn_id c) (conn_share c)
    (ip_port_conn c) (current_key_version c) (join_trx c) (trx_isolation c)
    (semi_trx_isolation c) (semi_trx c) (trx_start c) (table_lock c) (table_locked c)
    (disable_xa c) (disable_reconnect c) (autocommit c) (sql_log_off c) (conn_thd c)
    (server_lost c) (ignore_dup_key c) (ping_time c) (time_zone c) (connect_timeout c)
    (net_read_timeout c) (net_write_timeout c) (error_mode c) (opened_handlers c)
    (connection_id c) (is_xa_commit_one_phase c) (use_for_active_standby c)
    (disable_connect_retry c) (in_before_query c) (mta_file_pos c)
    (mta_conn_mutex_lock_already c) (mta_conn_mutex_unlock_later c) (need_mon c)
    (queued_connect c) (queued_ping c) (queued_trx_isolation c)
    (queued_semi_trx_isolation c) (queued_autocommit c) (queued_sql_log_off c)
    (queued_time_zone c) (queued_trx_start c) (queued_xa_start c) (queued_net_timeout c)
    (queued_connect_share c) (queued_connect_link_idx c) (queued_trx_isolation_val c)
    (queued_semi_trx_isolation_val c) (queued_autocommit_val c)
    (queued_sql_log_off_val c) (queued_time_zone_val c) (queued_xa_start_xid c)
    (connect_error c) (connect_error_with_message c) (connect_error_thd c)
    (connect_error_query_id c) (connect_error_time c) (last_visited c) (db_conn c)
    (last_errno c) (pending c).

(** The zero-filled structures of [spider_malloc] with [MY_ZEROFILL]. *)
Definition null_xid : XID := mk_XID 0 0 0 [].

Definition conn_zero : SPIDER_CONN :=
  mk_conn EmptyString 0 EmptyString 0 0 None None 0 0 0 0 false false 0 false false false 0 0 false false false
    0 None 0 0 0 0 0 0 false false false false false false false None false false false
    false false false false false false false None 0 0 0 false false None false 0
    false false 0 0 0 false 0 [].

Definition tnode_zero : tnode := mk_tnode None None None None 0.

(** [enum xa_states] *)
Inductive xa_states :=
| XA_NOTR
| XA_ACTIVE
| XA_IDLE
| XA_PREPARED
| XA_ROLLBACK_ONLY.

(** [SPIDER_TRX]; [trx_started] is its [trx_start], [internal_xa_state] is
    [internal_xid_state.xa_state], [trx_conn_hash] the connections of the hash
    of that name. *)
Record SPIDER_TRX := mk_trx {
  trx_started : bool;
  trx_xa : bool;
  trx_consistent_snapshot : bool;
  trx_xa_prepared : bool;
  use_consistent_snapshot : bool;
  internal_xa : bool;
  internal_xa_snapshot : Z;
  updated_in_this_trx : bool;
  xid : XID;
  internal_xa_state : xa_states;
  trx_conn_hash : gset cid;
  locked_connections : Z;
  trx_conn_adjustment : Z;
  join_trx_top : option cid
}.

#[export] Instance eta_trx : Eta SPIDER_TRX := fun t =>
  mk_trx (trx_started t) (trx_xa t) (trx_consistent_snapshot t) (trx_xa_prepared t)
    (use_consistent_snapshot t) (internal_xa t) (internal_xa_snapshot t)
    (updated_in_this_trx t) (xid t) (internal_xa_state t) (trx_conn_hash t)
    (locked_connections t) (trx_conn_adjustment t) (join_trx_top t).

(** The fields of [THD] the engine reads and the ones it changes. *)
Record THD := mk_thd {
  is_error : bool;
  query_id : Z;
  option_not_autocommit : bool;
  option_begin : bool;
  xa_state_active : bool;
  thd_xid : XID;
  thd_tx_isolation : Z;
  thd_time_zone : option Z;
  sql_use_partition_count : Z;
  thread_id : Z;
  server_id : Z;
  registered_stmt : bool;
  registered_all : bool;
  last_killed : Z;
  current_global_server_version : Z;
  marked_rollback : bool
}.

#[export] Instance eta_thd : Eta THD := fun t =>
  mk_thd (is_error t) (query_id t) (option_not_autocommit t) (option_begin t)
    (xa_state_active t) (thd_xid t) (thd_tx_isolation t) (thd_time_zone t)
    (sql_use_partition_count t) (thread_id t) (server_id t) (registered_stmt t)
    (registered_all t) (last_killed t)
    (current_global_server_version t) (marked_rollback t).

(** ** The XA log tables *)

(** The status column of [mysql.spider_xa]. *)
Inductive xa_status :=
| NOT_YET
| PREPARED
| COMMIT
| ROLLBACK.

#[export] Instance xa_status_eq_dec : EqDecision xa_status.
Proof. solve_decision. Defined.

(** The primary key of [mysql.spider_xa]: [data], [format_id], [gtrid_length];
    [data] is [binary(128)], so the stored bytes are padded with zeros. *)
Record xa_key := mk_xa_key {
  k_data : list Z;
  k_format_id : Z;
  k_gtrid_length : Z
}.

#[export] Instance xa_key_eq_dec : EqDecision xa_key.
Proof. solve_decision. Defined.

Record xa_row := mk_xa_row {
  xr_key : xa_key;
  xr_bqual_length : Z;
  xr_status : xa_status
}.

(** A row of [mysql.spider_xa_member]; the columns that only repeat how to
    connect (socket, user, password, SSL files) are left out. *)
Record xa_member_row := mk_xa_member_row {
  xm_key : xa_key;
  xm_bqual_length : Z;
  xm_host : string;
  xm_port : Z;
  xm_status : xa_status
}.

(** ** The world *)

(** What a run did to the outside, in order. *)
Inductive event :=
| EvConnect (c : cid) (e : Z)
| EvDisconnect (c : cid)
| EvStmt (c : cid) (s : stmt) (e : Z)
| EvLogInsert (k : xa_key) (st : xa_status)
| EvLogUpdate (k : xa_key) (st : xa_status)
| EvLogDelete (k : xa_key)
| EvMemberInsert (k : xa_key) (host : string)
| EvMemberDelete (k : xa_key)
| EvLogFailed (k : xa_key).

#[export] Instance event_eq_dec : EqDecision event.
Proof. solve_decision. Defined.

Record world := mk_world {
  w_conns : gmap cid SPIDER_CONN;
  w_links : gmap cid tnode;
  w_trx : SPIDER_TRX;
  w_thd : THD;
  w_mons : list (mon_ref * Z);
  w_xa : list xa_row;
  w_xa_member : list xa_member_row;
  w_gtrid : Z;
  w_pool : gmap string (list cid);
  w_ip_port : gmap string Z;
  w_meta : gset string;
  w_conn_id : Z;
  w_trace : list event;
  w_tick : nat
}.

#[export] Instance eta_world : Eta world := fun w =>
  mk_world (w_conns w) (w_links w) (w_trx w) (w_thd w) (w_mons w) (w_xa w)
    (w_xa_member w) (w_gtrid w) (w_pool w) (w_ip_port w) (w_meta w)
    (w_conn_id w) (w_trace w) (w_tick w).

(** ** The outside *)

Class Env := {
  (** the error number a backend answers to a statement, 0 for success *)
  env_stmt : nat -> Z;
  (** the error number of [mysql_real_connect] *)
  env_connect : nat -> Z;
  (** [thd->killed || abort_loop] *)
  env_killed : nat -> bool;
  (** [get_server_by_name] finds the server *)
  env_server_found : nat -> bool;
  (** [my_tz_find] and [get_charset_by_csname] *)
  env_tz : nat -> option Z;
  env_charset_found : nat -> bool;
  (** an allocation fails *)
  env_oom : nat -> bool;
  (** the error number of the log tables' engine, 0 for success *)
  env_engine : nat -> Z;
  (** [time(NULL)] and [my_interval_timer()] *)
  env_time : nat -> Z;
  (** the thread id of a backend connection *)
  env_thread_id : nat -> Z;
  (** [get_modify_server_version] and [get_server_version_by_name] *)
  env_modify_version : nat -> Z;
  env_server_version : nat -> Z;
  env_timer : nat -> Z
}.

(** The system variables (spd_param.cc). *)
Class Vars := {
  spider_param_dry_access : bool;
  spider_param_ignore_autocommit : bool;
  spider_param_with_begin_commit : bool;
  spider_param_sync_autocommit : bool;
  spider_param_sync_time_zone : bool;
  spider_param_semi_trx : bool;
  spider_param_support_xa : bool;
  spider_param_use_consistent_snapshot : bool;
  spider_param_internal_xa_snapshot : Z;
  spider_param_internal_xa_id_type : Z;
  spider_param_internal_sql_log_off : Z;
  spider_param_ping_interval_at_trx_start : Z;
  spider_param_force_commit : Z;
  spider_param_ignore_xa_log : bool;
  spider_param_xa_register_mode : Z;
  spider_param_conn_recycle_mode : Z;
  spider_param_conn_recycle_strict : bool;
  spider_param_remote_autocommit : Z;
  spider_param_remote_sql_log_off : Z;
  spider_param_remote_trx_isolation : Z;
  spider_param_remote_time_zone : bool;
  spider_param_remote_access_charset : bool;
  spider_param_connect_error_interval : Z;
  spider_param_connect_timeout : Z -> Z;
  spider_param_net_read_timeout : Z -> Z;
  spider_param_net_write_timeout : Z -> Z;
  spider_param_connect_retry_count : nat;
  spider_param_max_connections : Z;
  spider_param_trans_rollback : bool;
  spider_param_error_when_flush_server : bool;
  spider_param_idle_conn_recycle_interval : Z;
  (** the timeouts of the share of [trx->tmp_spider] *)
  tmp_net_read_timeout : Z;
  tmp_net_write_timeout : Z;
  (** [table->s->fields] of the log tables, as they were created *)
  sys_xa_fields : Z;
  sys_xa_member_fields : Z;
  opt_spider_internal_xa : bool;
  opt_spider_auto_increment_mode_value : Z
}.
