(* ===== verification/OptionText.v ===== *)
(** * The text of a table's options

    storage/spider/spd_table.cc and spd_table.h: reading a quoted string with
    escapes, and splitting it into a list of strings or numbers
    ([spider_get_string_between_quote], [spider_create_string_list],
    [spider_create_long_list], [spider_create_longlong_list]), stretching a list to
    the number of links ([spider_increase_string_list] and its kin), and the record
    of where the current parameter is ([SPIDER_PARAM_STRING_PARSE]).

    The functions work in the memory of the string: quotes and separators are
    overwritten by 0.  The state is that memory, the record and the number of
    allocations so far, whose outcome is the outside's ([oom]); [None] is an access
    outside the memory.  [strcpy] is used by the code on overlapping strings; the
    model copies from the front. *)

From Stdlib Require Import NArith Lia.
From stdpp Require Import base numbers list.
From S2P Require Import Prelude CString ConnTree World.
From Stdlib Require Import ZArith.
Local Open Scope spider_scope.
Local Open Scope N_scope.

(** ** Where the parser is *)

(** Pointers into the parameter string, which starts at index 0; the value
    pointers are [None] for [NULL]. *)
Record SPIDER_PARAM_STRING_PARSE := mk_parse {
  end_ptr : nat;
  title_ptrs : option (nat * nat);
  value_ptrs : option (nat * nat);
  parse_error_num : Z;
  delim_title_len : nat;
  delim_value_len : nat;
  delim_title : N;
  delim_value : N }.

#[export] Instance eta_parse : Eta SPIDER_PARAM_STRING_PARSE := fun p =>
  mk_parse (end_ptr p) (title_ptrs p) (value_ptrs p) (parse_error_num p) (delim_title_len p)
    (delim_value_len p) (delim_title p) (delim_value p).

Record text_state := mk_text {
  ts_buf : list N;
  ts_parse : SPIDER_PARAM_STRING_PARSE;
  ts_tick : nat }.

#[export] Instance eta_text : Eta text_state := fun s => mk_text (ts_buf s) (ts_parse s) (ts_tick s).

Definition init_param_value (p : SPIDER_PARAM_STRING_PARSE) : SPIDER_PARAM_STRING_PARSE :=
  p <| value_ptrs := None |> <| delim_value_len := 0%nat |> <| delim_value := 0 |>.

Definition init_param_title (p : SPIDER_PARAM_STRING_PARSE) : SPIDER_PARAM_STRING_PARSE :=
  p <| title_ptrs := None |> <| delim_title_len := 0%nat |> <| delim_title := 0 |>.

Definition is_quote (c : N) : bool := (c =? 34) || (c =? 39).

(** [p[-1]] *)
Definition before (buf : list N) (p : nat) : option N :=
  match p with O => None | S p => buf !! p end.

Definition set_param_value (buf : list N) (p : SPIDER_PARAM_STRING_PARSE) (start_value end_value : nat) :
    option SPIDER_PARAM_STRING_PARSE :=
  let p := p <| value_ptrs := Some (start_value, end_value) |> in
  c ← before buf start_value;
  if is_quote c then
    c' ← before buf (pred start_value);
    Some (p <| delim_value := c |> <| delim_value_len := if c' =? 92 then 2%nat else 1%nat |>)
  else Some p.

Definition set_param_title (buf : list N) (p : SPIDER_PARAM_STRING_PARSE) (start_title end_title : nat) :
    option SPIDER_PARAM_STRING_PARSE :=
  let p := p <| title_ptrs := Some (start_title, end_title) |> in
  c ← buf !! start_title;
  if is_quote c then
    c' ← before buf start_title;
    Some (p <| delim_title := c |> <| delim_title_len := if c' =? 92 then 2%nat else 1%nat |>)
  else Some p.

Definition is_blank (c : N) : bool := (c =? 32) || (c =? 13) || (c =? 10) || (c =? 9).

(** Overwriting the end of a parameter with its delimiter again. *)
Definition restore_delim (buf : list N) (len : nat) (delim : N) (e : nat) : option (list N) :=
  match len with
  | O => Some buf
  | 1%nat => match e with O => None | S e => store buf e delim end
  | _ => match e with O => None | S e => buf ← store buf e 92; store buf (S e) delim end
  end.

Definition restore_delims (buf : list N) (p : SPIDER_PARAM_STRING_PARSE) : option (list N) :=
  buf ← restore_delim buf (delim_title_len p) (delim_title p) (match title_ptrs p with Some (_, e) => e | None => O end);
  restore_delim buf (delim_value_len p) (delim_value p) (match value_ptrs p with Some (_, e) => e | None => O end).

(** The number of the error; the message shows the string from the title on. *)
Definition print_param_error : M text_state Z := fun s =>
  match title_ptrs (ts_parse s) with
  | None => Some (0%Z, s)
  | Some (t, _) =>
      buf ← restore_delims (ts_buf s) (ts_parse s);
      _ ← c_string (drop t buf);
      Some (parse_error_num (ts_parse s), s <| ts_buf := buf |>)
  end.

Fixpoint skip_blanks (fuel : nat) (buf : list N) (p lim : nat) : option nat :=
  if Nat.ltb p lim then
    match fuel with
    | O => None
    | S fuel => c ← buf !! p; if is_blank c then skip_blanks fuel buf (S p) lim else Some p
    end
  else Some p.

Definition has_extra_parameter_values : M text_state Z := fun s =>
  match value_ptrs (ts_parse s) with
  | None => Some (0%Z, s)
  | Some (_, v) =>
      p ← skip_blanks (length (ts_buf s)) (ts_buf s) v (end_ptr (ts_parse s));
      if Nat.ltb p (end_ptr (ts_parse s)) then
        c ← ts_buf s !! p;
        if negb (c =? 0) then print_param_error s else Some (0%Z, s)
      else Some (0%Z, s)
  end.

(** ** Quoted strings *)

(** The loop over the backslashes from [esc] on, up to the quote or space at [lim]:
    whether the character at [lim] is not escaped, and [esc_flg]. *)
Fixpoint esc_scan (fuel : nat) (buf : list N) (esc lim : nat) (esc_flg : bool) : option (bool * bool) :=
  match fuel with
  | O => None
  | S fuel =>
      e ← strchr buf esc 92;
      match e with
      | None => Some (true, esc_flg)
      | Some e =>
          if Nat.ltb lim e then Some (true, esc_flg)
          else if Nat.eqb (S e) lim then Some (false, true)
          else esc_scan fuel buf (S (S e)) lim true
      end
  end.

(** The closing quote [q]: its index and [esc_flg]. *)
Fixpoint quote_end (fuel : nat) (buf : list N) (q : N) (tmp : nat) (esc_flg : bool) : option (option (nat * bool)) :=
  match fuel with
  | O => None
  | S fuel =>
      e ← strchr buf tmp q;
      match e with
      | None => Some None
      | Some e =>
          r ← esc_scan (S (length buf)) buf tmp e esc_flg;
          if (r.1 : bool) then Some (Some (e, r.2)) else quote_end fuel buf q (S e) r.2
      end
  end.

Definition unescaped (c : N) : N :=
  if c =? 98 then 8 else if c =? 110 then 10 else if c =? 114 then 13 else if c =? 116 then 9 else c.

(** Removing the backslashes, in place.  The code moves the rest of the string
    with [strcpy] onto itself, one byte to the left; C leaves the result undefined for
    strings that overlap, and the model has that of a copy from the front. *)
Fixpoint unescape (fuel : nat) (buf : list N) (esc : nat) : option (list N) :=
  match fuel with
  | O => None
  | S fuel =>
      e ← strchr buf esc 92;
      match e with
      | None => Some buf
      | Some e =>
          c ← buf !! S e;
          buf ← store buf e (unescaped c);
          buf ← strcpy buf (S e) (S (S e));
          unescape fuel buf (S e)
      end
  end.

(** [spider_get_string_between_quote]: the start of the string, if there is one. *)
Definition between_quote (buf : list N) (ptr : nat) : option (option nat * list N) :=
  s ← strchr buf ptr 39;
  d ← strchr buf ptr 34;
  let opening := match s, d with
                 | Some s, Some d => if Nat.ltb s d then Some (s, 39) else Some (d, 34)
                 | Some s, None => Some (s, 39)
                 | None, Some d => Some (d, 34)
                 | None, None => None
                 end in
  match opening with
  | None => Some (None, buf)
  | Some (start, q) =>
      e ← quote_end (S (length buf)) buf q (S start) false;
      match e with
      | None => Some (None, buf)
      | Some (e, esc_flg) =>
          buf ← store buf e 0;
          buf ← (if (esc_flg : bool) then unescape (S (length buf)) buf (S start) else Some buf);
          Some (Some (S start), buf)
      end
  end.

(** ** Lists *)

Fixpoint spaces (s : list N) : option nat :=
  match s with
  | [] => None
  | b :: s => if b =? 32 then S <$> spaces s else Some O
  end.

(** [while ( *p == ' ') p++], and with [*p = 0]. *)
Definition skip_spaces (buf : list N) (p : nat) : option nat := Nat.add p <$> spaces (drop p buf).

Definition blank_spaces (buf : list N) (p : nat) : option (list N * nat) :=
  n ← spaces (drop p buf);
  Some (take p buf ++ replicate n 0 ++ drop (p + n) buf, (p + n)%nat).

(** The number of strings; the flag [find_flg] is not reset. *)
Fixpoint count_strings (fuel : nat) (buf : list N) (tmp : nat) (find_flg : bool) (n : nat) : option (nat * bool) :=
  match fuel with
  | O => None
  | S fuel =>
      t ← strchr buf tmp 32;
      match t with
      | None => Some (n, find_flg)
      | Some t =>
          r ← (if find_flg then Some (true, false) else esc_scan (S (length buf)) buf tmp t false);
          if (r.1 : bool) then
            tmp ← skip_spaces buf (S t);
            count_strings fuel buf tmp true (S n)
          else count_strings fuel buf (S t) false n
      end
  end.

(** The space after a string. *)
Fixpoint string_end (fuel : nat) (buf : list N) (tmp : nat) (find_flg : bool) : option (nat * bool) :=
  match fuel with
  | O => None
  | S fuel =>
      t ← strchr buf tmp 32;
      match t with
      | None => None
      | Some t =>
          r ← (if find_flg then Some (true, false) else esc_scan (S (length buf)) buf tmp t false);
          if (r.1 : bool) then Some (t, true) else string_end fuel buf (S t) false
      end
  end.

Section Alloc.
  Context (oom : nat -> bool).

(** An allocation: FALSE if it failed. *)
Definition alloc : M text_state bool := fun s =>
  Some (negb (oom (ts_tick s)), s <| ts_tick := S (ts_tick s) |>).

Definition in_buf {A} (f : list N -> option (A * list N)) : M text_state A := fun s =>
  match f (ts_buf s) with Some (a, buf) => Some (a, s <| ts_buf := buf |>) | None => None end.

Definition in_parse (f : list N -> SPIDER_PARAM_STRING_PARSE -> option SPIDER_PARAM_STRING_PARSE) : M text_state unit := fun s =>
  match f (ts_buf s) (ts_parse s) with Some p => Some (tt, s <| ts_parse := p |>) | None => None end.

(** A copy of the string at [p]. *)
Definition spider_create_string (p : nat) : M text_state (option (list N)) :=
  v ← lift_opt (fun s => c_string (drop p (ts_buf s)));
  ok ← alloc;
  mret (if (ok : bool) then Some v else None).

(** [set_param_value (p, p + strlen (p) + 1)] *)
Definition note_value (p : nat) : M text_state unit :=
  n ← lift_opt (fun s => strlen (ts_buf s) p);
  in_parse (fun buf parse => set_param_value buf parse p (p + n + 1)).

(** The strings but the last one: from [tmp3] on, with the scan at [tmp]. *)
Fixpoint split_strings (k : nat) (tmp tmp3 : nat) (find_flg : bool) : M text_state (Z + list (list N) * nat) :=
  match k with
  | O => mret (inr ([], tmp3))
  | S k =>
      t ← lift_opt (fun s => string_end (S (length (ts_buf s))) (ts_buf s) tmp find_flg);
      tmp ← in_buf (fun buf => '(buf, p) ← blank_spaces buf t.1; Some (p, buf));
      v ← spider_create_string tmp3;
      match v with
      | None => mret (inl HA_ERR_OUT_OF_MEM)
      | Some v =>
          r ← split_strings k tmp tmp t.2;
          mret (match r with inl e => inl e | inr (vs, p) => inr (v :: vs, p) end)
      end
  end.

(** [spider_create_string_list]; [None]: no list. *)
Definition spider_create_string_list (str : nat) : M text_state (Z + option (list (list N))) :=
  in_parse (fun _ p => Some (init_param_value p));;
  start ← lift_opt (fun s => skip_spaces (ts_buf s) str);
  c ← lift_opt (fun s => ts_buf s !! start);
  if c =? 0 then mret (inr None) else
  n ← lift_opt (fun s => count_strings (S (length (ts_buf s))) (ts_buf s) start false 1);
  ok ← alloc;
  if negb ok then mret (inl HA_ERR_OUT_OF_MEM) else
  tmp ← in_buf (fun buf => '(buf, p) ← blank_spaces buf str; Some (p, buf));
  r ← split_strings (pred n.1) tmp tmp n.2;
  match r with
  | inl e => mret (inl e)
  | inr (vs, tmp3) =>
      v ← spider_create_string tmp3;
      match v with
      | None => mret (inl HA_ERR_OUT_OF_MEM)
      | Some v => note_value tmp3;; mret (inr (Some (vs ++ [v])))
      end
  end.

(** The number of numbers. *)
Fixpoint count_numbers (fuel : nat) (buf : list N) (tmp n : nat) : option nat :=
  match fuel with
  | O => None
  | S fuel =>
      t ← strchr buf tmp 32;
      match t with
      | None => Some n
      | Some t => tmp ← skip_spaces buf (S t); count_numbers fuel buf tmp (S n)
      end
  end.

(** [k] numbers, the first of which starts at or after [tmp]; the place of the
    last one. *)
Fixpoint split_numbers (conv : list N -> option Z) (lo hi : Z) (first : bool) (k tmp : nat) : M text_state (list Z * nat) :=
  match k with
  | O => mret ([], tmp)
  | S k =>
      t ← (if first then mret tmp
           else lift_opt (fun s => t ← strchr (ts_buf s) tmp 32; t));
      tmp ← in_buf (fun buf => '(buf, p) ← blank_spaces buf t; Some (p, buf));
      v ← lift_opt (fun s => conv (drop tmp (ts_buf s)));
      r ← split_numbers conv lo hi false k tmp;
      mret (clamp lo hi v :: r.1, r.2)
  end.

(** [spider_create_long_list] and [spider_create_longlong_list]. *)
Definition create_number_list (conv : list N -> option Z) (str : nat) (lo hi : Z) : M text_state (Z + option (list Z)) :=
  in_parse (fun _ p => Some (init_param_value p));;
  start ← lift_opt (fun s => skip_spaces (ts_buf s) str);
  c ← lift_opt (fun s => ts_buf s !! start);
  if c =? 0 then mret (inr None) else
  n ← lift_opt (fun s => count_numbers (S (length (ts_buf s))) (ts_buf s) start 1);
  ok ← alloc;
  if negb ok then mret (inl HA_ERR_OUT_OF_MEM) else
  r ← split_numbers conv lo hi true n str;
  note_value r.2;;
  mret (inr (Some r.1)).

Definition spider_create_long_list (str : nat) (lo hi : Z) : M text_state (Z + option (list Z)) :=
  create_number_list atol str lo hi.

Definition spider_create_longlong_list (str : nat) (lo hi : Z) : M text_state (Z + option (list Z)) :=
  create_number_list (fun s => fst <$> my_strtoll10 s) str lo hi.

(** ** Stretching lists *)

(** Copies of [x]: FALSE if memory ran out. *)
Fixpoint alloc_copies (n : nat) : M text_state bool :=
  match n with
  | O => mret true
  | S n => ok ← alloc; if (ok : bool) then alloc_copies n else mret false
  end.

(** [spider_increase_string_list]: [None] is no list, a string of it may be
    [NULL]. *)
Definition spider_increase_string_list (l : option (list (option (list N)))) (link_count : nat) :
    M text_state (Z + option (list (option (list N)))) :=
  let list_length := match l with Some l => length l | None => O end in
  if Nat.eqb list_length link_count then mret (inr l)
  else if Nat.ltb 1 list_length then mret (inl ER_SPIDER_DIFFERENT_LINK_COUNT_NUM)
  else
    let tmp_str := l ← l; x ← head l; x in
    ok ← alloc;
    if negb ok then mret (inl HA_ERR_OUT_OF_MEM) else
    ok ← (match tmp_str with Some _ => alloc_copies link_count | None => mret true end);
    mret (if (ok : bool) then inr (Some (replicate link_count tmp_str)) else inl HA_ERR_OUT_OF_MEM).

(** [spider_increase_null_string_list]: a longer list is written past the end. *)
Definition spider_increase_null_string_list (l : option (list (option (list N)))) (link_count : nat) :
    M text_state (Z + option (list (option (list N)))) :=
  let old := default [] l in
  if Nat.eqb (length old) link_count then mret (inr l)
  else
    ok ← alloc;
    if negb ok then mret (inl HA_ERR_OUT_OF_MEM) else
    if Nat.ltb link_count (length old) then ub
    else mret (inr (Some (old ++ replicate (link_count - length old) None))).

(** [spider_increase_long_list], [spider_increase_longlong_list] *)
Definition spider_increase_long_list (l : option (list Z)) (link_count : nat) : M text_state (Z + option (list Z)) :=
  let list_length := match l with Some l => length l | None => O end in
  if Nat.eqb list_length link_count then mret (inr l)
  else if Nat.ltb 1 list_length then mret (inl ER_SPIDER_DIFFERENT_LINK_COUNT_NUM)
  else
    let tmp_long := default (-1)%Z (l ← l; head l) in
    ok ← alloc;
    mret (if (ok : bool) then inr (Some (replicate link_count tmp_long)) else inl HA_ERR_OUT_OF_MEM).
End Alloc.
