(* ===== verification/OptionTable.v ===== *)
(** * The options of a table

    The option table of [spider_parse_connect_info] (storage/spider/spd_table.cc):
    one list for each [case] of the switch on the length of the title, with the
    macros of the case in their order.  An entry has the title, the field of
    [SPIDER_SHARE] it sets and what the macro does with the value.  The entries are
    those of a build with partitions and without the bulk access interface. *)

From Stdlib Require Import NArith.
From stdpp Require Import base numbers list strings.
From S2P Require Import Prelude.
From Stdlib Require Import ZArith.
Local Open Scope Z_scope.
Local Open Scope string_scope.

(** The macros, with their bounds; for the two kinds of hints, the number of
    characters of the title that are compared. *)
Inductive option_kind :=
  | P_STR
  | P_STR_LIST
  | P_HINT (check_length : nat)
  | P_NUMHINT (check_length : nat)
  | P_LONG_LIST (min_val max_val : Z)
  | P_LONGLONG_LIST (min_val max_val : Z)
  | P_INT_WITH_MAX (min_val max_val : Z)
  | P_INT (min_val : Z)
  | P_DOUBLE (min_val : Z)
  | P_LONGLONG (min_val : Z)
  | P_IGNORE.

Record option_entry := entry {
  opt_title : string;
  opt_param : string;
  opt_kind : option_kind }.

Definition options_3 : list option_entry := [
  entry "srv" "server_names" P_STR_LIST;
  entry "abl" "access_balances" (P_LONG_LIST 0 2147483647);
  entry "aim" "auto_increment_mode" (P_INT_WITH_MAX 0 3);
  entry "alc" "active_link_count" (P_INT 1);
  entry "bfr" "bgs_first_read" (P_LONGLONG 0);
  entry "bmd" "bgs_mode" (P_INT 0);
  entry "bsr" "bgs_second_read" (P_LONGLONG 0);
  entry "bke" "bka_engine" P_STR;
  entry "bkm" "bka_mode" (P_INT_WITH_MAX 0 2);
  entry "bsz" "bulk_size" (P_INT 0);
  entry "btt" "bka_table_name_types" (P_LONG_LIST 0 1);
  entry "bum" "bulk_update_mode" (P_INT_WITH_MAX 0 2);
  entry "bus" "bulk_update_size" (P_INT 0);
  entry "cbm" "crd_bg_mode" (P_INT_WITH_MAX 0 2);
  entry "civ" "crd_interval" (P_DOUBLE 0);
  entry "cmd" "crd_mode" (P_INT_WITH_MAX 0 3);
  entry "csr" "casual_read" (P_INT_WITH_MAX 0 63);
  entry "csy" "crd_sync" (P_INT_WITH_MAX 0 2);
  entry "cto" "connect_timeouts" (P_LONG_LIST 0 2147483647);
  entry "ctp" "crd_type" (P_INT_WITH_MAX 0 2);
  entry "cwg" "crd_weight" (P_DOUBLE 1);
  entry "dat" "delete_all_rows_type" (P_INT_WITH_MAX 0 1);
  entry "ddi" "direct_dup_insert" (P_INT_WITH_MAX 0 1);
  entry "dff" "tgt_default_files" P_STR_LIST;
  entry "dfg" "tgt_default_groups" P_STR_LIST;
  entry "dol" "direct_order_limit" (P_LONGLONG 0);
  entry "erm" "error_read_mode" (P_INT_WITH_MAX 0 1);
  entry "ewm" "error_write_mode" (P_INT_WITH_MAX 0 1);
  entry "fbd" "force_bulk_delete" (P_INT_WITH_MAX 0 1);
  entry "fbu" "force_bulk_update" (P_INT_WITH_MAX 0 1);
  entry "frd" "first_read" (P_LONGLONG 0);
  entry "isa" "init_sql_alloc_size" (P_INT 0);
  entry "idl" "internal_delayed" (P_INT_WITH_MAX 0 1);
  entry "ilm" "internal_limit" (P_LONGLONG 0);
  entry "ios" "internal_offset" (P_LONGLONG 0);
  entry "iom" "internal_optimize" (P_INT_WITH_MAX 0 1);
  entry "iol" "internal_optimize_local" (P_INT_WITH_MAX 0 1);
  entry "lmr" "low_mem_read" (P_INT_WITH_MAX 0 1);
  entry "lcs" "load_crd_at_startup" (P_INT_WITH_MAX 0 1);
  entry "lss" "load_sts_at_startup" (P_INT_WITH_MAX 0 1);
  entry "lst" "link_statuses" (P_LONG_LIST 0 3);
  entry "mbf" "monitoring_bg_flag" (P_LONG_LIST 0 1);
  entry "mbi" "monitoring_bg_interval" (P_LONGLONG_LIST 0 4294967295);
  entry "mbk" "monitoring_bg_kind" (P_LONG_LIST 0 3);
  entry "mbp" "monitoring_binlog_pos_at_failing" (P_LONG_LIST 0 2);
  entry "mfg" "monitoring_flag" (P_LONG_LIST 0 1);
  entry "mkd" "monitoring_kind" (P_LONG_LIST 0 3);
  entry "mlt" "monitoring_limit" (P_LONGLONG_LIST 0 9223372036854775807);
  entry "mod" "max_order" (P_INT 0);
  entry "msi" "monitoring_sid" (P_LONGLONG_LIST 0 4294967295);
  entry "msr" "multi_split_read" (P_INT_WITH_MAX 0 2147483647);
  entry "nrt" "net_read_timeouts" (P_LONG_LIST 0 2147483647);
  entry "nwt" "net_write_timeouts" (P_LONG_LIST 0 2147483647);
  entry "pkn" "tgt_pk_names" P_STR_LIST;
  entry "prt" "priority" (P_LONGLONG 0);
  entry "qch" "query_cache" (P_INT_WITH_MAX 0 2);
  entry "qcs" "query_cache_sync" (P_INT_WITH_MAX 0 3);
  entry "qmd" "quick_mode" (P_INT_WITH_MAX 0 3);
  entry "qps" "quick_page_size" (P_LONGLONG 0);
  entry "rom" "read_only_mode" (P_INT_WITH_MAX 0 1);
  entry "rrt" "read_rate" (P_DOUBLE 0);
  entry "rsa" "reset_sql_alloc" (P_INT_WITH_MAX 0 1);
  entry "sbm" "sts_bg_mode" (P_INT_WITH_MAX 0 2);
  entry "sca" "tgt_ssl_cas" P_STR_LIST;
  entry "sch" "tgt_ssl_ciphers" P_STR_LIST;
  entry "scm" "select_column_mode" (P_INT_WITH_MAX 0 1);
  entry "scp" "tgt_ssl_capaths" P_STR_LIST;
  entry "scr" "tgt_ssl_certs" P_STR_LIST;
  entry "sdc" "skip_default_condition" (P_INT_WITH_MAX 0 1);
  entry "siv" "sts_interval" (P_DOUBLE 0);
  entry "sky" "tgt_ssl_keys" P_STR_LIST;
  entry "sli" "static_link_ids" P_STR_LIST;
  entry "slc" "store_last_crd" (P_INT_WITH_MAX 0 1);
  entry "slm" "selupd_lock_mode" (P_INT_WITH_MAX 0 2);
  entry "sls" "store_last_sts" (P_INT_WITH_MAX 0 1);
  entry "smd" "sts_mode" (P_INT_WITH_MAX 1 2);
  entry "smr" "static_mean_rec_length" (P_LONGLONG 0);
  entry "spr" "split_read" (P_LONGLONG 0);
  entry "sps" "skip_parallel_search" (P_INT_WITH_MAX 0 3);
  entry "sqn" "tgt_sequence_names" P_STR_LIST;
  entry "srd" "second_read" (P_LONGLONG 0);
  entry "srt" "scan_rate" (P_DOUBLE 0);
  entry "ssr" "semi_split_read" (P_DOUBLE 0);
  entry "ssl" "semi_split_read_limit" (P_LONGLONG 0);
  entry "ssy" "sts_sync" (P_INT_WITH_MAX 0 2);
  entry "stc" "semi_table_lock_conn" (P_INT_WITH_MAX 0 1);
  entry "stl" "semi_table_lock" (P_INT_WITH_MAX 0 1);
  entry "srs" "static_records_for_status" (P_LONGLONG 0);
  entry "svc" "tgt_ssl_vscs" (P_LONG_LIST 0 1);
  entry "tbl" "tgt_table_names" P_STR_LIST;
  entry "tcm" "table_count_mode" (P_INT_WITH_MAX 0 3);
  entry "uhd" "use_handlers" (P_LONG_LIST 0 3);
  entry "upu" "use_pushdown_udf" (P_INT_WITH_MAX 0 1);
  entry "utc" "use_table_charset" (P_INT_WITH_MAX 0 1)].

(** The entries for titles of 5 to 16 characters. *)
Definition short_options (n : nat) : list option_entry :=
  match n with
  | 5%nat => [
      entry "table" "tgt_table_names" P_STR_LIST]
  | 6%nat => [
      entry "server" "server_names" P_STR_LIST;
      entry "socket" "tgt_sockets" P_STR_LIST;
      entry "idx" "key_hint" (P_HINT 3%nat);
      entry "ssl_ca" "tgt_ssl_cas" P_STR_LIST;
      entry "skc" "static_key_cardinality" (P_NUMHINT 3%nat)]
  | 7%nat => [
      entry "wrapper" "tgt_wrappers" P_STR_LIST;
      entry "ssl_key" "tgt_ssl_keys" P_STR_LIST;
      entry "pk_name" "tgt_pk_names" P_STR_LIST]
  | 8%nat => [
      entry "database" "tgt_dbs" P_STR_LIST;
      entry "sts_mode" "sts_mode" (P_INT_WITH_MAX 1 2);
      entry "sts_sync" "sts_sync" (P_INT_WITH_MAX 0 2);
      entry "crd_mode" "crd_mode" (P_INT_WITH_MAX 0 3);
      entry "crd_sync" "crd_sync" (P_INT_WITH_MAX 0 2);
      entry "crd_type" "crd_type" (P_INT_WITH_MAX 0 2);
      entry "priority" "priority" (P_LONGLONG 0);
      entry "bgs_mode" "bgs_mode" (P_INT 0);
      entry "ssl_cert" "tgt_ssl_certs" P_STR_LIST;
      entry "bka_mode" "bka_mode" (P_INT_WITH_MAX 0 2)]
  | 9%nat => [
      entry "shard_key" "tgt_shard_keys" P_STR_LIST;
      entry "max_order" "max_order" (P_INT 0);
      entry "bulk_size" "bulk_size" (P_INT 0);
      entry "scan_rate" "scan_rate" (P_DOUBLE 0);
      entry "read_rate" "read_rate" (P_DOUBLE 0)]
  | 10%nat => [
      entry "crd_weight" "crd_weight" (P_DOUBLE 1);
      entry "split_read" "split_read" (P_LONGLONG 0);
      entry "quick_mode" "quick_mode" (P_INT_WITH_MAX 0 3);
      entry "ssl_cipher" "tgt_ssl_ciphers" P_STR_LIST;
      entry "ssl_capath" "tgt_ssl_capaths" P_STR_LIST;
      entry "bka_engine" "bka_engine" P_STR;
      entry "first_read" "first_read" (P_LONGLONG 0);
      entry "shard_func" "-" P_IGNORE;
      entry "shard_type" "-" P_IGNORE]
  | 11%nat => [
      entry "query_cache" "query_cache" (P_INT_WITH_MAX 0 2);
      entry "crd_bg_mode" "crd_bg_mode" (P_INT_WITH_MAX 0 2);
      entry "sts_bg_mode" "sts_bg_mode" (P_INT_WITH_MAX 0 2);
      entry "link_status" "link_statuses" (P_LONG_LIST 0 3);
      entry "use_handler" "use_handlers" (P_LONG_LIST 0 3);
      entry "casual_read" "casual_read" (P_INT_WITH_MAX 0 63);
      entry "shard_count" "-" P_IGNORE]
  | 12%nat => [
      entry "sts_interval" "sts_interval" (P_DOUBLE 0);
      entry "crd_interval" "crd_interval" (P_DOUBLE 0);
      entry "low_mem_read" "low_mem_read" (P_INT_WITH_MAX 0 1);
      entry "default_file" "tgt_default_files" P_STR_LIST;
      entry "config_table" "tgt_config_table" P_STR_LIST]
  | 13%nat => [
      entry "default_group" "tgt_default_groups" P_STR_LIST;
      entry "sequence_name" "tgt_sequence_names" P_STR_LIST]
  | 14%nat => [
      entry "internal_limit" "internal_limit" (P_LONGLONG 0);
      entry "bgs_first_read" "bgs_first_read" (P_LONGLONG 0);
      entry "read_only_mode" "read_only_mode" (P_INT_WITH_MAX 0 1);
      entry "access_balance" "access_balances" (P_LONG_LIST 0 2147483647);
      entry "static_link_id" "static_link_ids" P_STR_LIST;
      entry "store_last_crd" "store_last_crd" (P_INT_WITH_MAX 0 1);
      entry "store_last_sts" "store_last_sts" (P_INT_WITH_MAX 0 1)]
  | 15%nat => [
      entry "internal_offset" "internal_offset" (P_LONGLONG 0);
      entry "reset_sql_alloc" "reset_sql_alloc" (P_INT_WITH_MAX 0 1);
      entry "semi_table_lock" "semi_table_lock" (P_INT_WITH_MAX 0 1);
      entry "quick_page_size" "quick_page_size" (P_LONGLONG 0);
      entry "bgs_second_read" "bgs_second_read" (P_LONGLONG 0);
      entry "monitoring_flag" "monitoring_flag" (P_LONG_LIST 0 1);
      entry "monitoring_kind" "monitoring_kind" (P_LONG_LIST 0 3);
      entry "semi_split_read" "semi_split_read" (P_DOUBLE 0);
      entry "connect_timeout" "connect_timeouts" (P_LONG_LIST 0 2147483647);
      entry "error_read_mode" "error_read_mode" (P_INT_WITH_MAX 0 1)]
  | 16%nat => [
      entry "multi_split_read" "multi_split_read" (P_INT_WITH_MAX 0 2147483647);
      entry "selupd_lock_mode" "selupd_lock_mode" (P_INT_WITH_MAX 0 2);
      entry "internal_delayed" "internal_delayed" (P_INT_WITH_MAX 0 1);
      entry "table_count_mode" "table_count_mode" (P_INT_WITH_MAX 0 3);
      entry "use_pushdown_udf" "use_pushdown_udf" (P_INT_WITH_MAX 0 1);
      entry "monitoring_limit" "monitoring_limit" (P_LONGLONG_LIST 0 9223372036854775807);
      entry "bulk_update_mode" "bulk_update_mode" (P_INT_WITH_MAX 0 2);
      entry "bulk_update_size" "bulk_update_size" (P_INT 0);
      entry "net_read_timeout" "net_read_timeouts" (P_LONG_LIST 0 2147483647);
      entry "error_write_mode" "error_write_mode" (P_INT_WITH_MAX 0 1);
      entry "query_cache_sync" "query_cache_sync" (P_INT_WITH_MAX 0 3)]
  | _ => []
  end.

(** The entries for longer titles. *)
Definition long_options (n : nat) : list option_entry :=
  match n with
  | 17%nat => [
      entry "internal_optimize" "internal_optimize" (P_INT_WITH_MAX 0 1);
      entry "use_table_charset" "use_table_charset" (P_INT_WITH_MAX 0 1);
      entry "direct_dup_insert" "direct_dup_insert" (P_INT_WITH_MAX 0 1);
      entry "active_link_count" "active_link_count" (P_INT 1);
      entry "net_write_timeout" "net_write_timeouts" (P_LONG_LIST 0 2147483647);
      entry "force_bulk_delete" "force_bulk_delete" (P_INT_WITH_MAX 0 1);
      entry "force_bulk_update" "force_bulk_update" (P_INT_WITH_MAX 0 1)]
  | 18%nat => [
      entry "select_column_mode" "select_column_mode" (P_INT_WITH_MAX 0 1);
      entry "monitoring_bg_flag" "monitoring_bg_flag" (P_LONG_LIST 0 1);
      entry "monitoring_bg_kind" "monitoring_bg_kind" (P_LONG_LIST 0 3);
      entry "direct_order_limit" "direct_order_limit" (P_LONGLONG 0)]
  | 19%nat => [
      entry "init_sql_alloc_size" "init_sql_alloc_size" (P_INT 0);
      entry "auto_increment_mode" "auto_increment_mode" (P_INT_WITH_MAX 0 3);
      entry "bka_table_name_type" "bka_table_name_types" (P_LONG_LIST 0 1);
      entry "load_crd_at_startup" "load_crd_at_startup" (P_INT_WITH_MAX 0 1);
      entry "load_sts_at_startup" "load_sts_at_startup" (P_INT_WITH_MAX 0 1)]
  | 20%nat => [
      entry "monitoring_server_id" "monitoring_sid" (P_LONGLONG_LIST 0 4294967295);
      entry "delete_all_rows_type" "delete_all_rows_type" (P_INT_WITH_MAX 0 1);
      entry "skip_parallel_search" "skip_parallel_search" (P_INT_WITH_MAX 0 3)]
  | 21%nat => [
      entry "semi_split_read_limit" "semi_split_read_limit" (P_LONGLONG 0)]
  | 22%nat => [
      entry "ssl_verify_server_cert" "tgt_ssl_vscs" (P_LONG_LIST 0 1);
      entry "monitoring_bg_interval" "monitoring_bg_interval" (P_LONGLONG_LIST 0 4294967295);
      entry "skip_default_condition" "skip_default_condition" (P_INT_WITH_MAX 0 1);
      entry "static_mean_rec_length" "static_mean_rec_length" (P_LONGLONG 0)]
  | 23%nat => [
      entry "internal_optimize_local" "internal_optimize_local" (P_INT_WITH_MAX 0 1)]
  | 25%nat => [
      entry "static_records_for_status" "static_records_for_status" (P_LONGLONG 0);
      entry "static_key_cardinality" "static_key_cardinality" (P_NUMHINT 3%nat)]
  | 26%nat => [
      entry "semi_table_lock_connection" "semi_table_lock_conn" (P_INT_WITH_MAX 0 1)]
  | 32%nat => [
      entry "monitoring_binlog_pos_at_failing" "monitoring_binlog_pos_at_failing" (P_LONG_LIST 0 2)]
  | _ => []
  end.

(** The entries for a title of [n] characters; there are none for the other lengths. *)
Definition options (n : nat) : list option_entry :=
  if (n =? 3)%nat then options_3 else if (n <=? 16)%nat then short_options n else long_options n.
