(* ===== verification/TextTheorems.v ===== *)
(** * Reading quoted strings and lists

    [spider_get_string_between_quote] reads back every string that was written
    between quotes with its quotes and backslashes escaped, and
    [spider_create_string_list] splits a text of words into these words, for any
    number of blanks between them. *)

From Stdlib Require Import NArith Lia.
From stdpp Require Import base numbers list strings.
From S2P Require Import Prelude CString ConnTree World OptionText.
From Stdlib Require Import ZArith.
Local Open Scope spider_scope.
Local Open Scope N_scope.

(** ** Searching *)

Lemma find_char_skip c l1 l2 : c ∉ l1 -> 0 ∉ l1 ->
  find_char c (l1 ++ l2) = option_map (Nat.add (length l1)) <$> find_char c l2.
Proof.
  induction l1 as [|b l1 IH]; intros Hc H0; simpl.
  - by destruct (find_char c l2) as [[]|].
  - apply not_elem_of_cons in Hc as [Hc1 Hc2], H0 as [H01 H02]. destruct (N.eqb_spec b c); [congruence|].
    destruct (N.eqb_spec b 0); [congruence|]. rewrite IH by done. by destruct (find_char c l2) as [[]|].
Qed.

Lemma find_char_here c l : find_char c (c :: l) = Some (Some O).
Proof. simpl. by rewrite N.eqb_refl. Qed.

Lemma find_char_nul c l : c <> 0 -> find_char c (0 :: l) = Some None.
Proof. intros Hc. cbn [find_char]. by destruct (N.eqb_spec 0 c) as [<-|]. Qed.


Lemma strchr_app A l c : strchr (A ++ l) (length A) c = option_map (Nat.add (length A)) <$> find_char c l.
Proof. unfold strchr. by rewrite drop_app_length. Qed.



Lemma c_string_app s l : 0 ∉ s -> c_string (s ++ 0 :: l) = Some s.
Proof.
  induction s as [|b s IH]; intros H; [done|]. apply not_elem_of_cons in H as [H1 H2]. simpl.
  destruct (N.eqb_spec b 0); [congruence|]. by rewrite IH.
Qed.

(** ** Quoting *)






Section Quote.
  Context (q : N).
  Hypothesis q_quote : is_quote q = true.















End Quote.


(** ** Lists of words *)

Definition word (w : list N) : Prop := w <> [] /\ 32 ∉ w /\ 0 ∉ w /\ 92 ∉ w.

(** Words, each after one blank or more. *)
Definition blank_words (l : list (nat * list N)) : list N := l ≫= fun x => replicate (S x.1) 32 ++ x.2.

Lemma spaces_over k b l : b <> 32 -> spaces (replicate k 32 ++ b :: l) = Some k.
Proof.
  intros Hb. induction k as [|k IH]; simpl; [by destruct (N.eqb_spec b 32)|]. by rewrite IH.
Qed.

Lemma skip_spaces_over A k b l : b <> 32 -> skip_spaces (A ++ replicate k 32 ++ b :: l) (length A) = Some (length A + k)%nat.
Proof. intros Hb. unfold skip_spaces. by rewrite drop_app_length, spaces_over. Qed.

Lemma blank_spaces_over A k b l : b <> 32 ->
  blank_spaces (A ++ replicate k 32 ++ b :: l) (length A) = Some (A ++ replicate k 0 ++ b :: l, (length A + k)%nat).
Proof.
  intros Hb. unfold blank_spaces. rewrite drop_app_length, spaces_over by done. cbn [mbind option_bind].
  rewrite take_app_length, <- drop_drop, drop_app_length.
  replace (drop k (replicate k 32 ++ b :: l)) with (b :: l); [done|].
  rewrite <- (length_replicate k 32) at 1. by rewrite drop_app_length.
Qed.

Lemma word_head w : word w -> exists b w', w = b :: w' /\ b <> 32 /\ b <> 0.
Proof.
  intros (H1 & H2 & H3 & _). destruct w as [|b w]; [done|]. exists b, w. apply not_elem_of_cons in H2 as [? _], H3 as [? _].
  split_and!; congruence.
Qed.

Lemma blank_words_no c l : c <> 32 -> Forall (fun x => c ∉ x.2) l -> c ∉ blank_words l.
Proof.
  intros Hc Hl. induction Hl as [|[g w] l Hw Hl IH]; [apply not_elem_of_nil|]. cbn [blank_words mbind list_bind].
  fold (blank_words l). rewrite !not_elem_of_app. split_and!; [|done|done]. intros H. apply elem_of_replicate in H as [-> _]. done.
Qed.

Lemma words_no c l : (c = 0 \/ c = 92) -> Forall (fun x => word x.2) l -> c ∉ blank_words l.
Proof.
  intros Hc Hl. apply blank_words_no; [destruct Hc; lia|]. eapply Forall_impl; [exact Hl|]. intros x (_ & _ & H0 & H92).
  by destruct Hc as [->| ->].
Qed.

(** The blank after the first word. *)
Lemma first_blank A w g w' l rest : word w -> word w' ->
  strchr (A ++ w ++ blank_words ((g, w') :: l) ++ rest) (length A) 32 = Some (Some (length A + length w)%nat).
Proof.
  intros (_ & H32 & H0 & _) Hw'. rewrite strchr_app, find_char_skip by done. cbn [blank_words mbind list_bind replicate app fst].
  rewrite find_char_here. simpl. by rewrite Nat.add_0_r.
Qed.

Lemma no_blank A w rest : word w -> strchr (A ++ w ++ 0 :: rest) (length A) 32 = Some None.
Proof. intros (_ & H32 & H0 & _). by rewrite strchr_app, find_char_skip, find_char_nul. Qed.

(** There is no backslash, so nothing is escaped. *)
Lemma no_escape fuel A w l rest lim flg : (0 < fuel)%nat -> word w -> Forall (fun x => word x.2) l ->
  esc_scan fuel (A ++ w ++ blank_words l ++ 0 :: rest) (length A) lim flg = Some (true, flg).
Proof.
  intros Hf (_ & _ & H0 & H92) Hl. destruct fuel as [|fuel]; [lia|]. cbn [esc_scan].
  rewrite strchr_app, find_char_skip, find_char_skip, find_char_nul by (done || (apply words_no; auto)). done.
Qed.

(** The text from the blanks on, with the first letter of the next word. *)
Lemma blank_words_cons g w l rest : blank_words ((g, w) :: l) ++ rest = replicate (S g) 32 ++ w ++ blank_words l ++ rest.
Proof. cbn [blank_words mbind list_bind fst snd]. by rewrite <- !app_assoc. Qed.

Lemma count_strings_words l : forall w A rest flg n fuel, word w -> Forall (fun x => word x.2) l -> (length l < fuel)%nat ->
  count_strings fuel (A ++ w ++ blank_words l ++ 0 :: rest) (length A) flg n =
  Some ((n + length l)%nat, flg || negb (Nat.eqb (length l) 0)).
Proof.
  induction l as [|[g w'] l IH]; intros w A rest flg n fuel Hw Hl Hf; (destruct fuel as [|fuel]; [simpl in Hf; lia|]); cbn [count_strings].
  - cbn [blank_words mbind list_bind app]. rewrite no_blank by done. simpl. by rewrite Nat.add_0_r, orb_false_r.
  - apply Forall_cons in Hl as [Hw' Hl]. simpl in Hw'. rewrite first_blank by done. cbn [mbind option_bind].
    replace (if flg then Some (true, false) else _) with (Some (true, false)); [|destruct flg; [done|]; symmetry; apply no_escape; [lia|done|by constructor]].
    cbn [mbind option_bind fst]. rewrite blank_words_cons. destruct (word_head w' Hw') as (b & w'' & Ew & Hb & _).
    replace (A ++ w ++ replicate (S g) 32 ++ w' ++ blank_words l ++ 0 :: rest)
      with ((A ++ w ++ [32]) ++ replicate g 32 ++ b :: (w'' ++ blank_words l ++ 0 :: rest)) by (rewrite Ew, <- !app_assoc; done).
    replace (S (length A + length w)) with (length (A ++ w ++ [32])) by (rewrite !length_app; simpl; lia).
    rewrite skip_spaces_over by done. cbn [mbind option_bind].
    replace ((A ++ w ++ [32]) ++ replicate g 32 ++ b :: w'' ++ blank_words l ++ 0 :: rest)
      with ((A ++ w ++ replicate (S g) 32) ++ w' ++ blank_words l ++ 0 :: rest) by (rewrite Ew, <- !app_assoc; done).
    replace (Nat.add (length (A ++ w ++ [32])) g) with (length (A ++ w ++ replicate (S g) 32)) by (rewrite !length_app, length_replicate; simpl; lia).
    simpl in Hf. rewrite IH by (done || lia). rewrite orb_true_r. simpl. do 2 f_equal. lia.
Qed.

Section Split.
  Context (oom : nat -> bool).
  Hypothesis memory : forall n, oom n = false.

Lemma runs_alloc s (Q : bool -> text_state -> Prop) :
  Q true (s <| ts_tick := S (ts_tick s) |>) -> runs (alloc oom) s Q.
Proof. intros H. eexists _, _. unfold alloc. rewrite memory. by split. Qed.

(** A copy of the string at the end of [A]. *)
Lemma runs_create_string A w rest s (Q : option (list N) -> text_state -> Prop) :
  ts_buf s = A ++ w ++ 0 :: rest -> 0 ∉ w ->
  (forall s', ts_buf s' = ts_buf s -> ts_parse s' = ts_parse s -> Q (Some w) s') ->
  runs (spider_create_string oom (length A)) s Q.
Proof.
  intros Hb H0 H. unfold spider_create_string. apply runs_bind. eapply (runs_lift _ _ w); [by rewrite Hb, drop_app_length, c_string_app|].
  apply runs_bind, runs_alloc, runs_ret. by apply H.
Qed.

Lemma runs_blank A k b l s (Q : nat -> text_state -> Prop) :
  ts_buf s = A ++ replicate k 32 ++ b :: l -> b <> 32 ->
  (forall s', ts_buf s' = A ++ replicate k 0 ++ b :: l -> ts_parse s' = ts_parse s -> Q (length A + k)%nat s') ->
  runs (in_buf (fun buf => '(buf, p) ← blank_spaces buf (length A); Some (p, buf))) s Q.
Proof.
  intros Hb Hne H. unfold in_buf. eexists _, _. rewrite Hb, blank_spaces_over by done. cbn [mbind option_bind]. split; [done|]. by apply H.
Qed.

(** The words but the last one, which is at the end of the new [A']. *)
Lemma runs_split l : forall w A rest s, word w -> Forall (fun x => word x.2) l ->
  ts_buf s = A ++ w ++ blank_words l ++ 0 :: rest ->
  runs (split_strings oom (length l) (length A) (length A) true) s (fun r s' =>
    exists ws wl A', r = inr (ws, length A') /\ ws ++ [wl] = w :: l.*2 /\ word wl /\ (length A <= length A')%nat /\
      ts_buf s' = A' ++ wl ++ 0 :: rest).
Proof.
  induction l as [|[g w'] l IH]; intros w A rest s Hw Hl Hb.
  { apply runs_ret. exists [], w, A. by split_and!. }
  apply Forall_cons in Hl as [Hw' Hl]. simpl in Hw'. destruct (word_head w' Hw') as (b & w'' & Ew & Hbl & _).
  cbn [length split_strings]. apply runs_bind. eapply (runs_lift _ _ ((length A + length w)%nat, true)).
  { rewrite Hb. cbn [string_end]. by rewrite first_blank. }
  cbn [fst snd]. apply runs_bind. rewrite <- length_app.
  eapply (runs_blank (A ++ w) (S g) b (w'' ++ blank_words l ++ 0 :: rest)); [|done|].
  { rewrite Hb, blank_words_cons, Ew, <- !app_assoc. done. }
  intros s1 Hb1 _. apply runs_bind. destruct Hw as (Hne & H32 & H0 & H92).
  eapply (runs_create_string A w (replicate g 0 ++ w' ++ blank_words l ++ 0 :: rest)); [|done|].
  { rewrite Hb1, Ew, <- !app_assoc. done. }
  intros s2 Hb2 _. apply runs_bind. replace (length (A ++ w) + S g)%nat with (length (A ++ w ++ replicate (S g) 0))
    by (rewrite !length_app, length_replicate; lia).
  eapply runs_conseq; [apply (IH w' _ rest); [done|done|]|].
  { rewrite Hb2, Hb1, Ew, <- !app_assoc. done. }
  intros r s3 (ws & wl & A' & -> & Hws & Hwl & HA & Hb3). apply runs_ret. exists (w :: ws), wl, A'. split_and!; [done| |done| |done].
  - simpl. by rewrite Hws.
  - rewrite !length_app in HA. lia.
Qed.

(** A value that starts far enough inside the memory can be noted. *)
Lemma runs_note_value A w rest s (Q : unit -> text_state -> Prop) :
  ts_buf s = A ++ w ++ 0 :: rest -> 0 ∉ w -> (2 <= length A)%nat ->
  (forall s', ts_buf s' = ts_buf s -> Q tt s') -> runs (note_value (length A)) s Q.
Proof.
  intros Hb H0 HA H. unfold note_value. apply runs_bind. eapply (runs_lift _ _ (length w)).
  { unfold strlen. by rewrite Hb, drop_app_length, c_string_app. }
  unfold in_parse. destruct (lookup_lt_is_Some_2 (ts_buf s) (pred (length A))) as [c Hc]; [rewrite Hb, length_app; lia|].
  destruct (lookup_lt_is_Some_2 (ts_buf s) (pred (pred (length A)))) as [c' Hc']; [rewrite Hb, length_app; lia|].
  unfold set_param_value. destruct (length A) as [|[|n]] eqn:En; [lia..|]. cbn [before pred] in *. unfold runs. rewrite Hc.
  cbn [mbind option_bind]. destruct (is_quote c); [rewrite Hc'; cbn [mbind option_bind]|]; eexists _, _; (split; [done|by apply H]).
Qed.

Lemma runs_split_all l w A rest s : word w -> Forall (fun x => word x.2) l ->
  ts_buf s = A ++ w ++ blank_words l ++ 0 :: rest ->
  runs (split_strings oom (length l) (length A) (length A) (negb (Nat.eqb (length l) 0))) s (fun r s' =>
    exists ws wl A', r = inr (ws, length A') /\ ws ++ [wl] = w :: l.*2 /\ word wl /\ (length A <= length A')%nat /\
      ts_buf s' = A' ++ wl ++ 0 :: rest).
Proof. intros. destruct l; [apply (runs_split [])|by apply runs_split]; done. Qed.

Lemma blank_words_length l : (length l <= length (blank_words l))%nat.
Proof.
  induction l as [|[g w] l IH]; [done|]. cbn [blank_words mbind list_bind]. fold (blank_words l).
  rewrite !length_app, length_replicate. simpl. lia.
Qed.

(** The first blanks, the first letter and the number of words. *)
Lemma string_list_start A k w l rest : word w -> Forall (fun x => word x.2) l ->
  let buf := A ++ replicate k 32 ++ w ++ blank_words l ++ 0 :: rest in
  skip_spaces buf (length A) = Some (Nat.add (length A) k) /\
  (exists b, buf !! Nat.add (length A) k = Some b /\ b <> 0) /\
  count_strings (S (length buf)) buf (Nat.add (length A) k) false 1 = Some (S (length l), negb (Nat.eqb (length l) 0)) /\
  blank_spaces buf (length A) = Some (A ++ replicate k 0 ++ w ++ blank_words l ++ 0 :: rest, Nat.add (length A) k).
Proof.
  intros Hw Hl buf. destruct (word_head w Hw) as (b & w' & Ew & Hbl & Hb0). unfold buf.
  assert (E : forall c : N, Nat.add (length A) k = length (A ++ replicate k c)) by (intros; by rewrite length_app, length_replicate).
  split_and!.
  - rewrite Ew. by apply skip_spaces_over.
  - exists b. split; [|done]. rewrite (E 32), app_assoc, Ew. by rewrite lookup_app_r, Nat.sub_diag.
  - rewrite (E 32), app_assoc. rewrite count_strings_words; [done..|].
    pose proof (blank_words_length l). rewrite !length_app. lia.
  - rewrite Ew. by apply blank_spaces_over.
Qed.

(** A text of words is split into these words: for words without blanks,
    backslashes and 0, with any number of blanks before the first and one or more
    between two of them, [spider_create_string_list] terminates, stays inside the
    memory and returns the list of the words, if memory does not run out. *)
Theorem string_list_words A k w l rest s :
  word w -> Forall (fun x => word x.2) l -> (2 <= length A)%nat ->
  ts_buf s = A ++ replicate k 32 ++ w ++ blank_words l ++ 0 :: rest ->
  exists s', spider_create_string_list oom (length A) s = Some (inr (Some (w :: l.*2)), s').
Proof.
  intros Hw Hl HA Hb. cut (runs (spider_create_string_list oom (length A)) s (fun r _ => r = inr (Some (w :: l.*2)))).
  { intros (r & s' & E & ->). by exists s'. }
  destruct (string_list_start A k w l rest Hw Hl) as (E1 & (b & E2 & Hb0) & E3 & E4). rewrite <- Hb in *.
  unfold spider_create_string_list. apply runs_bind. eexists tt, _. split; [done|]. cbn beta.
  apply runs_bind. eapply runs_lift; [exact E1|]. apply runs_bind. eapply runs_lift; [exact E2|].
  destruct (N.eqb_spec b 0); [done|]. apply runs_bind. eapply runs_lift; [exact E3|].
  apply runs_bind, runs_alloc. cbn [negb]. apply runs_bind. unfold in_buf at 1. eexists _, _. split.
  { cbn. rewrite E4. cbn. done. }
  cbn beta. apply runs_bind. cbn [fst snd pred].
  replace (Nat.add (length A) k) with (length (A ++ replicate k (0 : N))) by by rewrite length_app, length_replicate.
  eapply runs_conseq; [apply (runs_split_all l w _ rest); [done|done|by rewrite <- app_assoc]|].
  intros r s' (ws & wl & A' & -> & Hws & Hwl & HA' & Hb'). apply runs_bind. rewrite length_app in HA'. destruct Hwl as (_ & _ & H0 & _).
  apply (runs_create_string A' wl rest); [done|done|]. intros s1 Hb1 _. apply runs_bind.
  eapply (runs_note_value A' wl rest); [by rewrite Hb1|done|lia|]. intros s2 Hb2. apply runs_ret. by rewrite Hws.
Qed.
End Split.

Lemma string_list_words_witness :
  exists s', spider_create_string_list (fun _ => false) 2 (mk_text (bytes "t'a  bc d" ++ [0]) (mk_parse 9 None None 0 0 0 0 0) 0) =
    Some (inr (Some [bytes "a"; bytes "bc"; bytes "d"]), s').
Proof.
  apply (string_list_words (fun _ => false) (fun _ => eq_refl) (bytes "t'") 0 (bytes "a") [(1%nat, bytes "bc"); (0%nat, bytes "d")] []).
  - split_and!; [done|by apply (bool_decide_unpack _)..].
  - repeat constructor; (done || by apply (bool_decide_unpack _)).
  - simpl. lia.
  - reflexivity.
Defined.
