(* ===== verification/TextSafety.v ===== *)
(** * The text functions stay inside the memory

    Each function that the option parser uses terminates and reads and writes only
    inside the memory of the text, when the text from the pointer on has a 0 at
    [z].  The functions that write change nothing from [z] on ([same_from]). *)

From Stdlib Require Import NArith Lia.
From stdpp Require Import base numbers list.
From S2P Require Import Prelude CString ConnTree World OptionText TextTheorems.
From Stdlib Require Import ZArith.
Local Open Scope spider_scope.
Local Open Scope N_scope.

(** ** Numbers *)

Lemma nul_in (s : list N) k : s !! k = Some 0 -> 0 ∈ s.
Proof. apply list_elem_of_lookup_2. Qed.

Lemma nul_tail b (s : list N) : 0 ∈ b :: s -> b <> 0 -> 0 ∈ s.
Proof. intros H Hb. apply elem_of_cons in H as [H|H]; [congruence|done]. Qed.

Lemma nul_head (s : list N) : 0 ∈ s -> exists b r, s = b :: r.
Proof. destruct s as [|b r]; [by intros H%elem_of_nil|]. by exists b, r. Qed.

Lemma is_digit_nonzero c : is_digit c = true -> c <> 0.
Proof. unfold is_digit. intros H ->. done. Qed.

Lemma skip_space_total s : 0 ∈ s -> exists r, skip_space s = Some r /\ 0 ∈ r.
Proof.
  induction s as [|b s IH]; intros H; [by apply elem_of_nil in H|]. cbn [skip_space].
  destruct (is_space b) eqn:Eb; [|by eexists]. apply IH. apply (nul_tail b); [done|]. by intros ->.
Qed.

Lemma skip_blank_total s : 0 ∈ s -> exists r, skip_blank s = Some r /\ 0 ∈ r.
Proof.
  induction s as [|b s IH]; intros H; [by apply elem_of_nil in H|]. cbn [skip_blank].
  destruct ((b =? 32) || (b =? 9)) eqn:Eb; [|by eexists]. apply IH. apply (nul_tail b); [done|]. by intros ->.
Qed.

Lemma digits_value_total s : 0 ∈ s -> forall acc, exists v, digits_value acc s = Some v.
Proof.
  induction s as [|b s IH]; intros H acc; [by apply elem_of_nil in H|]. cbn [digits_value].
  destruct (is_digit b) eqn:Eb; [|by eexists]. apply IH. apply (nul_tail b); [done|]. by apply is_digit_nonzero.
Qed.

Lemma atol_total s : 0 ∈ s -> exists v, atol s = Some v.
Proof.
  intros H. unfold atol. destruct (skip_space_total s H) as (r & -> & Hr). cbn [mbind option_bind].
  destruct (nul_head r Hr) as (c & r' & ->). cbn [head mbind option_bind tail].
  destruct ((c =? 45) || (c =? 43)) eqn:Ec.
  - destruct (digits_value_total r') with (acc := 0) as [v ->]; [|by eexists]. apply (nul_tail c); [done|]. by intros ->.
  - destruct (digits_value_total _ Hr 0) as [v ->]. by eexists.
Qed.

Lemma atoi_total s : 0 ∈ s -> exists v, atoi s = Some v.
Proof. intros H. unfold atoi. destruct (atol_total s H) as [v ->]. by eexists. Qed.

Lemma digits_total n : forall s acc, 0 ∈ s -> exists v r m, digits n s acc = Some (v, r, m) /\ 0 ∈ r /\ (m <= n)%nat.
Proof.
  induction n as [|n IH]; intros s acc H; cbn [digits]; [by exists acc, s, O|].
  destruct (nul_head s H) as (c & r & ->). cbn [head mbind option_bind tail]. destruct (is_digit c) eqn:Ec.
  - destruct (IH r (acc * 10 + (c - 48))) as (v & r' & m & -> & Hr & Hm); [|exists v, r', m; split_and!; [done|done|lia]].
    apply (nul_tail c); [done|]. by apply is_digit_nonzero.
  - exists acc, (c :: r), (S n). by split_and!.
Qed.

Lemma pre_zeros_total lim : forall s, 0 ∈ s -> exists r m, pre_zeros lim s = Some (r, m) /\ 0 ∈ r.
Proof.
  induction lim as [|lim IH]; intros s H; cbn [pre_zeros]; [by exists s, O|].
  destruct (nul_head s H) as (c & r & ->). cbn [head mbind option_bind tail]. destruct (N.eqb_spec c 48) as [->|_].
  - apply IH. by apply (nul_tail 48).
  - by eexists _, _.
Qed.

Lemma lfactor_total n : (n <= 8)%nat -> exists f, lfactor n = Some f.
Proof. intros H. unfold lfactor. apply lookup_lt_is_Some_2. simpl. lia. Qed.

Lemma strtoll10_rest_total negative error i s lim : 0 ∈ s -> exists r, strtoll10_rest negative error i s lim = Some r.
Proof.
  intros H. unfold strtoll10_rest. destruct (digits_total (Nat.min INIT_CNT lim) s 0 H) as (j & r & m & -> & Hr & Hm).
  cbn [mbind option_bind]. unfold INIT_CNT in *. destruct (Nat.eqb_spec m 0) as [->|Hne]; cbn [negb].
  2:{ destruct (lfactor_total (Nat.min 9 lim - m)) as [f ->]; [lia|]. by eexists. }
  destruct (Nat.eqb_spec (lim - (Nat.min 9 lim - 0)) 0).
  { destruct (Nat.ltb_spec lim 9); [|by eexists]. destruct (lfactor_total (Nat.min 9 lim - 0)) as [f ->]; [lia|]. by eexists. }
  destruct (nul_head r Hr) as (c & r1 & ->). cbn [head mbind option_bind tail]. destruct (is_digit c) eqn:Ec; cbn [negb]; [|by eexists].
  apply nul_tail in Hr; [|by apply is_digit_nonzero]. destruct (nul_head r1 Hr) as (c' & r2 & ->).
  set (l1 := pred _). replace (if Nat.eqb l1 0 then Some 0 else head (c' :: r2)) with (Some (if Nat.eqb l1 0 then 0 else c')) by by destruct (Nat.eqb l1 0).
  cbn [mbind option_bind tail]. destruct (Nat.eqb l1 0); cbn [orb]; [case_match; by eexists|].
  destruct (is_digit c') eqn:Ec'; cbn [negb]; [|case_match; by eexists].
  apply nul_tail in Hr; [|by apply is_digit_nonzero]. destruct (nul_head r2 Hr) as (c'' & r3 & ->).
  destruct (Nat.eqb (pred l1) 0); cbn [head mbind option_bind]; repeat case_match; by eexists.
Qed.

Lemma my_strtoll10_total s : 0 ∈ s -> exists r, my_strtoll10 s = Some r.
Proof.
  intros H. unfold my_strtoll10. destruct (skip_blank_total s H) as (r & -> & Hr). cbn [mbind option_bind].
  destruct (nul_head r Hr) as (c & r' & ->). cbn [head mbind option_bind tail]. destruct (N.eqb_spec c 0) as [|Hc]; [by eexists|].
  set (s1 := if (c =? 45) || (c =? 43) then (r', pred (N.to_nat 65535)) else (c :: r', N.to_nat 65535)).
  assert (H1 : 0 ∈ s1.1) by (unfold s1; destruct (_ || _); [by apply (nul_tail c)|done]). destruct s1 as [s1 lim]. simpl in H1.
  destruct (nul_head s1 H1) as (c1 & r1 & ->). cbn [head mbind option_bind tail]. destruct (N.eqb_spec c1 48) as [->|_].
  - destruct (pre_zeros_total (pred lim) r1) as (r2 & m & -> & H2); [by apply (nul_tail 48)|]. cbn [mbind option_bind].
    destruct (Nat.eqb m 0); [by eexists|]. destruct (digits_total (Nat.min INIT_CNT m) r2 0 H2) as (v & r3 & m' & -> & H3 & _).
    cbn [mbind option_bind]. destruct (_ || _); [by eexists|]. by apply strtoll10_rest_total.
  - destruct (is_digit c1) eqn:Ec; cbn [negb]; [|by eexists]. apply nul_tail in H1; [|by apply is_digit_nonzero].
    destruct (digits_total (pred INIT_CNT) r1 (c1 - 48) H1) as (v & r3 & m' & -> & H3 & _). cbn [mbind option_bind].
    destruct (negb _); [by eexists|]. by apply strtoll10_rest_total.
Qed.

Lemma same_nocase_total n : forall s t, 0 ∈ s -> exists b, same_nocase n s t = Some b.
Proof.
  induction n as [|n IH]; intros s t H; [by eexists|]. destruct (nul_head s H) as (b & r & ->). cbn [same_nocase].
  destruct (negb _); [by eexists|]. destruct (N.eqb_spec b 0) as [->|Hb]; [by eexists|]. apply IH. by apply (nul_tail b).
Qed.

(** ** Scans *)

(** The scans stop at a 0. *)
Lemma c_string_stops s k : s !! k = Some 0 -> exists v, c_string s = Some v /\ (length v <= k)%nat.
Proof.
  revert k. induction s as [|b s IH]; intros k H; [done|]. cbn [c_string]. destruct (N.eqb_spec b 0) as [->|Hb]; [exists []; split; [done|simpl; lia]|].
  destruct k as [|k]; [by injection H|]. destruct (IH k H) as (v & -> & Hv). eexists. split; [done|]. simpl. lia.
Qed.

Lemma find_char_stops c s k : c <> 0 -> s !! k = Some 0 ->
  find_char c s = Some None \/ exists n, find_char c s = Some (Some n) /\ (n < k)%nat /\ s !! n = Some c.
Proof.
  intros Hc. revert k. induction s as [|b s IH]; intros k H; [done|]. cbn [find_char].
  destruct (N.eqb_spec b c) as [->|Hb].
  - right. exists O. split_and!; [done| |done]. destruct k; [by injection H|lia].
  - destruct (N.eqb_spec b 0) as [->|Hb0]; [by left|]. destruct k as [|k]; [by injection H|].
    destruct (IH k H) as [->|(n & -> & Hn & Hs)]; [by left|]. right. exists (S n). split_and!; [done|lia|done].
Qed.

Lemma blanks_stops (p : N -> bool) (f : list N -> option nat) s k :
  (forall b s, f (b :: s) = if p b then S <$> f s else Some O) -> p 0 = false -> s !! k = Some 0 ->
  exists n, f s = Some n /\ (n <= k)%nat /\ (forall i, (i < n)%nat -> exists b, s !! i = Some b /\ p b = true) /\
    exists b, s !! n = Some b /\ p b = false.
Proof.
  intros Hf H0. revert k. induction s as [|b s IH]; intros k H; [done|]. rewrite Hf. destruct (p b) eqn:Ep.
  - destruct k as [|k]; [injection H as ->; congruence|]. destruct (IH k H) as (n & -> & Hn & Hall & Hend). exists (S n).
    split_and!; [done|lia| |done]. intros [|i] Hi; [by exists b|]. apply Hall. lia.
  - exists O. split_and!; [done|lia|intros; lia|]. by exists b.
Qed.

(** ** In the memory *)

Definition same_from (z : nat) (buf buf' : list N) : Prop :=
  length buf' = length buf /\ forall i, (z <= i)%nat -> buf' !! i = buf !! i.

#[export] Instance same_from_refl z : Reflexive (same_from z).
Proof. by intros buf. Qed.

#[export] Instance same_from_trans z : Transitive (same_from z).
Proof. intros a b c [H1 H2] [H3 H4]. split; [congruence|]. intros i Hi. by rewrite H4, H2. Qed.

Lemma same_from_nul z buf buf' i : same_from z buf buf' -> (z <= i)%nat -> buf !! i = Some 0 -> buf' !! i = Some 0.
Proof. intros [_ H] Hi E. by rewrite H. Qed.

Section Memory.
  Context (buf : list N) (z : nat).
  Hypothesis nul : buf !! z = Some 0.

Lemma z_lt : (z < length buf)%nat.
Proof. by eapply lookup_lt_Some. Qed.

Lemma nul_drop p : (p <= z)%nat -> drop p buf !! (z - p)%nat = Some 0.
Proof. intros H. rewrite lookup_drop. by replace (p + (z - p))%nat with z by lia. Qed.

Lemma nul_in_drop p : (p <= z)%nat -> 0 ∈ drop p buf.
Proof. intros H. by eapply nul_in, nul_drop. Qed.

Lemma strlen_stops p : (p <= z)%nat -> exists n, strlen buf p = Some n /\ (p + n <= z)%nat.
Proof.
  intros H. unfold strlen. destruct (c_string_stops _ _ (nul_drop p H)) as (v & -> & Hv). exists (length v). split; [done|lia].
Qed.

Lemma strchr_stops p c : c <> 0 -> (p <= z)%nat ->
  strchr buf p c = Some None \/ exists e, strchr buf p c = Some (Some e) /\ (p <= e < z)%nat /\ buf !! e = Some c.
Proof.
  intros Hc H. unfold strchr. destruct (find_char_stops c _ _ Hc (nul_drop p H)) as [->|(n & -> & Hn & Hs)]; [by left|].
  right. exists (p + n)%nat. rewrite lookup_drop in Hs. split_and!; [done|lia|lia|done].
Qed.

Lemma store_before p b : (p < z)%nat -> exists buf', store buf p b = Some buf' /\ same_from z buf buf'.
Proof.
  intros H. pose proof z_lt. unfold store. rewrite decide_True by lia. eexists. split; [done|]. split; [apply length_insert|].
  intros i Hi. apply list_lookup_insert_ne. lia.
Qed.

(** Copying to the left; the copy has its own 0. *)
Lemma strcpy_before dst src : (dst < src <= z)%nat ->
  exists buf' k, strcpy buf dst src = Some buf' /\ same_from z buf buf' /\ (dst <= k < z)%nat /\ buf' !! k = Some 0.
Proof.
  intros H. pose proof z_lt. unfold strcpy. destruct (c_string_stops _ _ (nul_drop src ltac:(lia))) as (v & -> & Hv). cbn [mbind option_bind].
  assert (Hl : length (v ++ [0]) = S (length v)) by (rewrite length_app; simpl; lia). rewrite decide_True by lia.
  eexists _, (dst + length v)%nat. split; [done|]. split; [split; [|intros i Hi]|split; [lia|]].
  - rewrite !length_app in *. rewrite length_take, length_drop. simpl in *. lia.
  - rewrite lookup_app_r by (rewrite length_take; lia). rewrite length_take, Nat.min_l by lia.
    rewrite lookup_app_r by lia. rewrite lookup_drop. f_equal. lia.
  - rewrite lookup_app_r by (rewrite length_take; lia). rewrite length_take, Nat.min_l by lia.
    rewrite lookup_app_l by lia. replace (dst + length v - dst)%nat with (length v) by lia. by rewrite lookup_app_r, Nat.sub_diag.
Qed.

Lemma spaces_stops p : (p <= z)%nat ->
  exists n, spaces (drop p buf) = Some n /\ (p + n <= z)%nat /\
    (forall i, (p <= i < p + n)%nat -> buf !! i = Some 32) /\ buf !! (p + n)%nat <> Some 32.
Proof.
  intros H. destruct (blanks_stops (fun b => b =? 32) spaces (drop p buf) (z - p)) as (n & -> & Hn & Hall & Hend); [done|done|by apply nul_drop|].
  exists n. split_and!; [done|lia| |].
  - intros i Hi. destruct (Hall (i - p)%nat) as (b & Hb & Eb); [lia|]. rewrite lookup_drop in Hb. apply N.eqb_eq in Eb as ->.
    by replace (p + (i - p))%nat with i in Hb by lia.
  - destruct Hend as (b & Hb & Eb). rewrite lookup_drop in Hb. rewrite Hb. intros [= ->]. done.
Qed.

Lemma blank_spaces_stops p : (p <= z)%nat ->
  exists buf' n, blank_spaces buf p = Some (buf', (p + n)%nat) /\ spaces (drop p buf) = Some n /\ (p + n <= z)%nat /\ same_from (p + n) buf buf'.
Proof.
  intros H. pose proof z_lt. destruct (spaces_stops p H) as (n & E & Hn & _). unfold blank_spaces. rewrite E. cbn [mbind option_bind].
  eexists _, n. split; [done|]. split; [done|]. split; [lia|]. split; [|intros i Hi].
  - rewrite !length_app, length_take, length_replicate, length_drop. lia.
  - rewrite lookup_app_r by (rewrite length_take; lia). rewrite length_take, Nat.min_l by lia.
    rewrite lookup_app_r by (rewrite length_replicate; lia). rewrite length_replicate, lookup_drop. f_equal. lia.
Qed.

(** The scan for escapes before the byte [q] at [lim]. *)
Lemma esc_scan_total q lim fuel : forall esc flg, buf !! lim = Some q -> q <> 92 -> (esc <= lim < z)%nat -> (lim - esc < fuel)%nat ->
  exists r, esc_scan fuel buf esc lim flg = Some r.
Proof.
  induction fuel as [|fuel IH]; intros esc flg Hq Hne Hlim Hf; [lia|]. cbn [esc_scan].
  destruct (strchr_stops esc 92) as [->|(e & -> & He & Hb)]; [done|lia|by eexists|]. cbn [mbind option_bind].
  destruct (Nat.ltb_spec lim e); [by eexists|]. destruct (Nat.eqb_spec (S e) lim); [by eexists|].
  assert (e <> lim) by congruence. apply IH; [done|done|lia|lia].
Qed.

Lemma quote_end_total q fuel : q <> 92 -> q <> 0 -> forall tmp flg, (tmp <= z)%nat -> (z - tmp < fuel)%nat ->
  exists r, quote_end fuel buf q tmp flg = Some r /\ match r with Some (e, _) => (tmp <= e < z)%nat | None => True end.
Proof.
  intros Hq Hq0. induction fuel as [|fuel IH]; intros tmp flg Ht Hf; [lia|]. cbn [quote_end].
  destruct (strchr_stops tmp q) as [->|(e & -> & He & Hb)]; [done|done|by exists None|]. cbn [mbind option_bind]. pose proof z_lt.
  destruct (esc_scan_total q e (S (length buf)) tmp flg) as [[ok flg'] ->]; [done|done|lia|lia|]. cbn [mbind option_bind fst snd].
  destruct ok; [by eexists|]. destruct (IH (S e) flg') as (r & -> & Hr); [lia|lia|]. exists r. split; [done|]. destruct r as [[e' ?]|]; [lia|done].
Qed.
End Memory.

Lemma unescape_total z fuel : forall buf esc k, buf !! z = Some 0 -> buf !! k = Some 0 -> (esc <= k < z)%nat -> (z - esc < fuel)%nat ->
  exists buf', unescape fuel buf esc = Some buf' /\ same_from z buf buf'.
Proof.
  induction fuel as [|fuel IH]; intros buf esc k Hz Hk Hlt Hf; [lia|]. cbn [unescape].
  destruct (strchr_stops buf k Hk esc 92) as [->|(e & -> & He & Hb)]; [done|lia|by eexists|]. cbn [mbind option_bind].
  pose proof (z_lt buf z Hz). destruct (lookup_lt_is_Some_2 buf (S e)) as [c Hc]; [lia|]. rewrite Hc. cbn [mbind option_bind].
  destruct (store_before buf z Hz e (unescaped c)) as (buf1 & -> & S1); [lia|]. cbn [mbind option_bind].
  assert (Hz1 : buf1 !! z = Some 0) by (by eapply same_from_nul).
  destruct (strcpy_before buf1 z Hz1 (S e) (S (S e))) as (buf2 & k' & -> & S2 & Hk' & Hk0); [lia|]. cbn [mbind option_bind].
  destruct (IH buf2 (S e) k') as (buf3 & -> & S3); [by eapply same_from_nul|done|lia|lia|].
  exists buf3. split; [done|]. by do 2 (etrans; [eassumption|]).
Qed.

(** [spider_get_string_between_quote]: the string it finds starts after [p]. *)
Lemma between_quote_total buf z p : buf !! z = Some 0 -> (p <= z)%nat ->
  exists r buf', between_quote buf p = Some (r, buf') /\ same_from z buf buf' /\
    match r with Some j => (p < j < z)%nat | None => True end.
Proof.
  intros Hz Hp. unfold between_quote. pose proof (z_lt buf z Hz).
  set (op := fun s d : option nat => match s, d with
                 | Some s, Some d => if Nat.ltb s d then Some (s, 39) else Some (d, 34)
                 | Some s, None => Some (s, 39)
                 | None, Some d => Some (d, 34)
                 | None, None => None
                 end).
  assert (Hop : exists s d, strchr buf p 39 = Some s /\ strchr buf p 34 = Some d /\
    match op s d with Some (o, q) => (p <= o < z)%nat /\ q <> 92 /\ q <> 0 | None => True end).
  { destruct (strchr_stops buf z Hz p 39) as [->|(s & -> & Hs & _)]; [done|done| |];
      (destruct (strchr_stops buf z Hz p 34) as [->|(d & -> & Hd & _)]; [done|done| |]); eexists _, _; (split; [done|]); (split; [done|]); simpl; try done.
    destruct (Nat.ltb s d); done. }
  destruct Hop as (s & d & -> & -> & Ho). cbn [mbind option_bind]. fold (op s d). destruct (op s d) as [[o q]|]; [|by exists None, buf].
  destruct Ho as (Ho & Hq & Hq0). destruct (quote_end_total buf z Hz q (S (length buf)) Hq Hq0 (S o) false) as (r & -> & Hr); [lia|lia|].
  cbn [mbind option_bind]. destruct r as [[e flg]|]; [|by exists None, buf].
  destruct (store_before buf z Hz e 0) as (buf1 & E1 & S1); [lia|]. rewrite E1. cbn [mbind option_bind].
  assert (Hz1 : buf1 !! z = Some 0) by (by eapply same_from_nul). destruct flg; cbn [mbind option_bind].
  - assert (He : buf1 !! e = Some 0).
    { unfold store in E1. rewrite decide_True in E1 by lia. injection E1 as <-. apply list_lookup_insert_eq. lia. }
    destruct (unescape_total z (S (length buf1)) buf1 (S o) e) as (buf2 & -> & S2); [done|done|lia|destruct S1; lia|].
    eexists _, _. split; [done|]. split; [by etrans|lia].
  - eexists _, _. split; [done|]. split; [done|lia].
Qed.

(** ** The number of blanks *)

(** The runs of blanks in a string; [r]: the string follows a blank. *)
Fixpoint nruns (r : bool) (s : list N) : nat :=
  match s with
  | [] => O
  | b :: s => if b =? 0 then O else if b =? 32 then (if r then O else 1) + nruns true s else nruns false s
  end.

Lemma nruns_le r s : (nruns true s <= nruns r s <= S (nruns true s))%nat.
Proof. destruct r; [lia|]. destruct s as [|b s]; simpl; [lia|]. destruct (b =? 0); [lia|]. destruct (b =? 32); lia. Qed.

Lemma nruns_found s n : find_char 32 s = Some (Some n) -> nruns false s = S (nruns true (drop (S n) s)).
Proof.
  revert n. induction s as [|b s IH]; intros n; cbn [find_char]; [done|]. destruct (N.eqb_spec b 32) as [->|Hb].
  - intros [= <-]. done.
  - cbn [nruns]. destruct (b =? 0); [done|]. destruct (N.eqb_spec b 32); [done|].
    destruct (find_char 32 s) as [[k|]|]; intros [= <-]. by apply IH.
Qed.

Lemma nruns_none s : find_char 32 s = Some None -> nruns false s = O.
Proof.
  induction s as [|b s IH]; cbn [find_char]; [done|]. destruct (N.eqb_spec b 32) as [->|Hb]; [done|].
  cbn [nruns]. destruct (b =? 0); [done|]. destruct (N.eqb_spec b 32); [done|].
  destruct (find_char 32 s) as [[k|]|]; intros [=]. by apply IH.
Qed.

Lemma nruns_spaces s n : spaces s = Some n -> nruns true s = nruns false (drop n s).
Proof.
  revert n. induction s as [|b s IH]; intros n; cbn [spaces]; [done|]. destruct (N.eqb_spec b 32) as [->|Hb].
  - destruct (spaces s) as [k|]; intros [= <-]. by apply IH.
  - intros [= <-]. simpl. destruct (b =? 0); [done|]. by destruct (N.eqb_spec b 32).
Qed.

(** The search for a blank from [p] on. *)
Lemma nruns_strchr buf p t : strchr buf p 32 = Some (Some t) -> nruns false (drop p buf) = S (nruns true (drop (S t) buf)).
Proof.
  unfold strchr. destruct (find_char 32 (drop p buf)) as [[n|]|] eqn:E; intros [= <-]. rewrite (nruns_found _ _ E), drop_drop.
  by replace (p + S n)%nat with (S (p + n)) by lia.
Qed.

Lemma nruns_strchr_none buf p : strchr buf p 32 = Some None -> nruns false (drop p buf) = O.
Proof. unfold strchr. destruct (find_char 32 (drop p buf)) as [[n|]|] eqn:E; intros [=]. by apply nruns_none. Qed.

Lemma nruns_skip buf p n : spaces (drop p buf) = Some n -> nruns true (drop p buf) = nruns false (drop (p + n) buf).
Proof. intros E. by rewrite (nruns_spaces _ _ E), drop_drop. Qed.

Lemma find_char_at c s k : find_char c s = Some (Some k) -> s !! k = Some c.
Proof.
  revert k. induction s as [|b s IH]; intros k; cbn [find_char]; [done|]. destruct (N.eqb_spec b c) as [->|_]; [by intros [= <-]|].
  destruct (b =? 0); [done|]. destruct (find_char c s) as [[k'|]|]; intros [= <-]. simpl. by apply IH.
Qed.

(** The blanks from the one that was found on. *)
Lemma nruns_after buf p t n : strchr buf p 32 = Some (Some t) -> spaces (drop t buf) = Some n ->
  nruns false (drop p buf) = S (nruns false (drop (t + n) buf)).
Proof.
  intros E En. rewrite (nruns_strchr _ _ _ E). f_equal.
  assert (Ht : buf !! t = Some 32).
  { unfold strchr in E. destruct (find_char 32 (drop p buf)) as [[k|]|] eqn:Ek; simplify_eq/=. rewrite <- lookup_drop. by apply find_char_at. }
  rewrite (drop_S _ _ _ Ht) in En. cbn [spaces] in En. rewrite N.eqb_refl in En.
  destruct (spaces (drop (S t) buf)) as [m|] eqn:Em; simplify_eq/=. rewrite (nruns_skip _ _ _ Em).
  by replace (t + S m)%nat with (S t + m)%nat by lia.
Qed.

Lemma nruns_same p buf buf' r : same_from p buf buf' -> nruns r (drop p buf') = nruns r (drop p buf).
Proof.
  intros [Hl H]. f_equal. apply list_eq. intros i. rewrite !lookup_drop. apply H. lia.
Qed.

Section Count.
  Context (buf : list N) (z : nat).
  Hypothesis nul : buf !! z = Some 0.

Lemma count_strings_total fuel : forall tmp f n, (tmp <= z)%nat -> (z - tmp < fuel)%nat ->
  exists n' f', count_strings fuel buf tmp f n = Some (n', f') /\ (n <= n' <= n + nruns false (drop tmp buf))%nat /\
    (f = true -> f' = true) /\ (f' = false -> n' = n).
Proof.
  induction fuel as [|fuel IH]; intros tmp f n Ht Hf; [lia|]. cbn [count_strings]. pose proof (z_lt buf z nul).
  destruct (strchr_stops buf z nul tmp 32) as [->|(t & E & Hlt & Hb)]; [done|done|exists n, f; split_and!; [done|lia|lia|done|done]|].
  rewrite E. cbn [mbind option_bind]. pose proof (nruns_strchr _ _ _ E) as En.
  assert (Hr : exists r, (if f then Some (true, false) else esc_scan (S (length buf)) buf tmp t false) = Some r /\ (f = true -> r.1 = true)).
  { destruct f; [by eexists|]. destruct (esc_scan_total buf z nul 32 t (S (length buf)) tmp false) as [r ->]; [done|done|lia|lia|]. by exists r. }
  destruct Hr as ([ok fl] & -> & Hok). cbn [mbind option_bind fst]. destruct ok.
  - destruct (spaces_stops buf z nul (S t)) as (m & Es & Hm & _); [lia|]. unfold skip_spaces. rewrite Es. cbn [fmap option_fmap option_map mbind option_bind].
    destruct (IH (S t + m)%nat true (S n)) as (n' & f' & -> & Hn & Htr & Hfl); [lia|lia|]. exists n', f'.
    rewrite (nruns_skip _ _ _ Es) in En. split_and!; [done|lia|lia|auto|]. intros ->. specialize (Htr eq_refl). done.
  - destruct (IH (S t) false n) as (n' & f' & -> & Hn & Htr & Hfl); [lia|lia|]. exists n', f'. pose proof (nruns_le false (drop (S t) buf)).
    split_and!; [done|lia|lia| |done]. intros ->. by specialize (Hok eq_refl).
Qed.

Lemma count_numbers_total fuel : forall tmp n, (tmp <= z)%nat -> (z - tmp < fuel)%nat ->
  exists n', count_numbers fuel buf tmp n = Some n' /\ (n <= n' <= n + nruns false (drop tmp buf))%nat.
Proof.
  induction fuel as [|fuel IH]; intros tmp n Ht Hf; [lia|]. cbn [count_numbers].
  destruct (strchr_stops buf z nul tmp 32) as [->|(t & E & Hlt & Hb)]; [done|done|exists n; split; [done|lia]|].
  rewrite E. cbn [mbind option_bind]. pose proof (nruns_strchr _ _ _ E) as En.
  destruct (spaces_stops buf z nul (S t)) as (m & Es & Hm & _); [lia|]. unfold skip_spaces. rewrite Es. cbn [fmap option_fmap option_map mbind option_bind].
  destruct (IH (S t + m)%nat (S n)) as (n' & -> & Hn); [lia|lia|]. exists n'. rewrite (nruns_skip _ _ _ Es) in En. split; [done|lia].
Qed.
End Count.

(** ** The state of the parser *)

(** The text has [L] bytes with a 0 at [z] and at its end; the title of the
    parameter is [T]; the value that was noted last ends at [b] at most. *)
Record safe (L z b : nat) (T : option (nat * nat)) (t : text_state) : Prop := mk_safe {
  safe_length : length (ts_buf t) = L;
  safe_nul : ts_buf t !! z = Some 0;
  safe_last : ts_buf t !! (L - 1)%nat = Some 0;
  safe_end : end_ptr (ts_parse t) = (L - 1)%nat;
  safe_error : parse_error_num (ts_parse t) <> 0%Z;
  safe_title : title_ptrs (ts_parse t) = T;
  safe_delim : delim_title_len (ts_parse t) = O;
  safe_value : match value_ptrs (ts_parse t) with
               | Some (_, e) => (1 <= e <= b)%nat
               | None => delim_value_len (ts_parse t) = O
               end }.

Lemma safe_z L z b T t : safe L z b T t -> (z <= L - 1)%nat /\ (0 < L)%nat.
Proof. intros H. pose proof (lookup_lt_Some _ _ _ (safe_nul _ _ _ _ _ H)). rewrite (safe_length _ _ _ _ _ H) in *. lia. Qed.

(** A change of the text before [z], or of the count of allocations. *)
Lemma safe_change L z b T t t' : safe L z b T t -> same_from z (ts_buf t) (ts_buf t') -> ts_parse t' = ts_parse t -> safe L z b T t'.
Proof.
  intros H HS Hp. pose proof (safe_z _ _ _ _ _ H) as [Hz _]. destruct H as [H1 H2 H3 H4 H5 H6 H7 H8]. split; rewrite ?Hp; try done.
  - destruct HS as [Hl _]. congruence.
  - by eapply same_from_nul.
  - by eapply same_from_nul.
Qed.

Lemma safe_weaken L z b b' T t : safe L z b T t -> (b <= b')%nat -> safe L z b' T t.
Proof. intros [] Hb. split; try done. destruct (value_ptrs (ts_parse t)) as [[? e]|]; [lia|done]. Qed.

Section Steps.
  Context (L z : nat) (T : option (nat * nat)).

Lemma runs_between b p t : safe L z b T t -> (p <= z)%nat ->
  runs (in_buf (fun buf => between_quote buf p)) t (fun r t' => safe L z b T t' /\ match r with Some j => (p < j < z)%nat | None => True end).
Proof.
  intros H Hp. unfold in_buf. destruct (between_quote_total (ts_buf t) z p (safe_nul _ _ _ _ _ H) Hp) as (r & buf' & E & HS & Hr).
  eexists _, _. rewrite E. split; [done|]. split; [|done]. by apply (safe_change _ _ _ _ t).
Qed.

(** A value that starts at [j]. *)
Lemma runs_note b j t : safe L z b T t -> (2 <= j <= z)%nat ->
  runs (note_value j) t (fun _ t' => safe L z (S z) T t').
Proof.
  intros H Hj. pose proof (safe_z _ _ _ _ _ H) as [Hz HL]. unfold note_value. apply runs_bind.
  destruct (strlen_stops (ts_buf t) z (safe_nul _ _ _ _ _ H) j) as (n & E & Hn); [lia|]. eapply runs_lift; [exact E|].
  pose proof (safe_length _ _ _ _ _ H) as Hlen.
  destruct (lookup_lt_is_Some_2 (ts_buf t) (pred j)) as [c Hc]; [lia|].
  destruct (lookup_lt_is_Some_2 (ts_buf t) (pred (pred j))) as [c' Hc']; [lia|].
  unfold in_parse, set_param_value, runs. destruct j as [|[|j]]; [lia..|]. cbn [before pred] in *. rewrite Hc. cbn [mbind option_bind].
  destruct H as [H1 H2 H3 H4 H5 H6 H7 H8].
  destruct (is_quote c); [rewrite Hc'; cbn [mbind option_bind]|]; eexists _, _; (split; [done|]); split; try done; cbn; lia.
Qed.

(** A delimiter is written before the end of the text. *)
Lemma restore_one buf len d e : buf !! (L - 1)%nat = Some 0 -> (len = O \/ (1 <= e < L - 1)%nat) ->
  exists buf', restore_delim buf len d e = Some buf' /\ same_from (L - 1) buf buf'.
Proof.
  intros H0 He. destruct len as [|[|len]]; cbn [restore_delim]; [by eexists|..]; (destruct He as [|He]; [done|]); (destruct e as [|e]; [lia|]).
  - apply store_before; [done|lia].
  - destruct (store_before buf (L - 1) H0 e 92) as (buf1 & -> & S1); [lia|]. cbn [mbind option_bind].
    destruct (store_before buf1 (L - 1) (same_from_nul _ _ _ _ S1 (Nat.le_refl _) H0) (S e) d) as (buf2 & -> & S2); [lia|].
    exists buf2. split; [done|]. by etrans.
Qed.

Lemma restore_value_total b t : safe L z b T t -> (b < L - 1)%nat ->
  exists buf', restore_delims (ts_buf t) (ts_parse t) = Some buf' /\ same_from (L - 1) (ts_buf t) buf'.
Proof.
  intros [H1 H2 H3 H4 H5 H6 H7 H8] Hb. unfold restore_delims. rewrite H7. cbn [restore_delim mbind option_bind].
  apply restore_one; [done|]. destruct (value_ptrs (ts_parse t)) as [[v e]|]; [right; lia|by left].
Qed.

Lemma runs_print b tt te t : safe L z b T t -> T = Some (tt, te) -> (tt < L)%nat -> (b < L - 1)%nat ->
  runs print_param_error t (fun r _ => r <> 0%Z).
Proof.
  intros H HT Htt Hb. destruct (restore_value_total b t H Hb) as (buf' & E & HS). unfold print_param_error, runs.
  rewrite (safe_title _ _ _ _ _ H), HT, E. cbn [mbind option_bind].
  assert (H0 : buf' !! (L - 1)%nat = Some 0) by (eapply same_from_nul; [exact HS|done|apply (safe_last _ _ _ _ _ H)]).
  destruct (c_string_stops _ _ (nul_drop buf' (L - 1) H0 tt ltac:(lia))) as (v & -> & _). cbn [mbind option_bind].
  eexists _, _. split; [done|]. apply (safe_error _ _ _ _ _ H).
Qed.

Lemma skip_blanks_total buf p lim : (lim <= length buf)%nat -> forall fuel, (lim - p <= fuel)%nat ->
  exists p', skip_blanks fuel buf p lim = Some p' /\ (p <= p')%nat.
Proof.
  intros Hl fuel. revert p. induction fuel as [|fuel IH]; intros p Hf; cbn [skip_blanks].
  - destruct (Nat.ltb_spec p lim); [lia|]. by exists p.
  - destruct (Nat.ltb_spec p lim); [|by exists p]. destruct (lookup_lt_is_Some_2 buf p) as [c ->]; [lia|]. cbn [mbind option_bind].
    destruct (is_blank c); [|by exists p]. destruct (IH (S p)) as (p' & -> & Hp'); [lia|]. exists p'. split; [done|lia].
Qed.

(** What follows the value; an error is final. *)
Lemma runs_extra b tt te t : safe L z b T t -> T = Some (tt, te) -> (tt < L)%nat ->
  runs has_extra_parameter_values t (fun r t' => r = 0%Z -> safe L z b T t').
Proof.
  intros H HT Htt. pose proof (safe_z _ _ _ _ _ H) as [Hz HL]. unfold has_extra_parameter_values, runs.
  pose proof H as [H1 H2 H3 H4 H5 H6 H7 H8]. destruct (value_ptrs (ts_parse t)) as [[v e]|] eqn:Ev; [|by eexists _, _].
  rewrite H4. destruct (skip_blanks_total (ts_buf t) e (L - 1) ltac:(lia) (length (ts_buf t))) as (p & -> & Hp); [lia|]. cbn [mbind option_bind].
  destruct (Nat.ltb_spec p (L - 1)); [|by eexists _, _]. destruct (lookup_lt_is_Some_2 (ts_buf t) p) as [c ->]; [lia|]. cbn [mbind option_bind].
  destruct (negb (c =? 0)); [|by eexists _, _].
  assert (H' : safe L z e T t) by (split; try done; rewrite Ev; lia).
  destruct (runs_print e tt te t H' HT Htt ltac:(lia)) as (r & t' & E & Hr). exists r, t'. by split.
Qed.

(** Lists: memory does not run out. *)
Context (oom : nat -> bool).
Hypothesis memory : forall n, oom n = false.

Lemma runs_copy b p t : safe L z b T t -> (p <= z)%nat ->
  runs (spider_create_string oom p) t (fun r t' => (exists v, r = Some v) /\ safe L z b T t' /\ ts_buf t' = ts_buf t).
Proof.
  intros H Hp. unfold spider_create_string. apply runs_bind.
  destruct (c_string_stops _ _ (nul_drop _ _ (safe_nul _ _ _ _ _ H) p Hp)) as (v & E & _). eapply runs_lift; [exact E|].
  apply runs_bind, (runs_alloc oom memory), runs_ret. split_and!; [by eexists| |done]. by apply (safe_change _ _ _ _ t).
Qed.

Lemma runs_blank_spaces b p t : safe L z b T t -> (p <= z)%nat ->
  runs (in_buf (fun buf => '(buf, p) ← blank_spaces buf p; Some (p, buf))) t (fun p' t' =>
    safe L z b T t' /\ (p <= p' <= z)%nat /\ same_from p' (ts_buf t) (ts_buf t') /\
    exists n, p' = (p + n)%nat /\ spaces (drop p (ts_buf t)) = Some n).
Proof.
  intros H Hp. destruct (blank_spaces_stops _ _ (safe_nul _ _ _ _ _ H) p Hp) as (buf' & n & E & Es & Hn & HS).
  unfold in_buf, runs. rewrite E. cbn [mbind option_bind]. eexists _, _. split; [done|]. split_and!; [|lia|lia|done|by exists n].
  apply (safe_change _ _ _ _ t); [done| |done]. destruct HS as [HS1 HS2]. split; [done|]. intros i Hi. apply HS2. lia.
Qed.

Lemma runs_split_strings b k : forall tmp tmp3 f t, safe L z b T t -> (tmp3 <= tmp <= z)%nat ->
  (k <= nruns false (drop tmp (ts_buf t)))%nat -> (k = O \/ f = true) ->
  runs (split_strings oom k tmp tmp3 f) t (fun r t' => safe L z b T t' /\ exists vs p, r = inr (vs, p) /\ (tmp3 <= p <= z)%nat).
Proof.
  induction k as [|k IH]; intros tmp tmp3 f t H Ht Hk Hf; cbn [split_strings].
  { apply runs_ret. split; [done|]. eexists _, _. split; [done|lia]. }
  destruct Hf as [|Hf]; [done|]. subst f. apply runs_bind.
  destruct (strchr_stops _ _ (safe_nul _ _ _ _ _ H) tmp 32) as [E|(p & E & Hp & _)]; [done|lia|rewrite (nruns_strchr_none _ _ E) in Hk; lia|].
  eapply (runs_lift _ _ (p, true)); [cbn [string_end]; by rewrite E|]. cbn [fst snd]. apply runs_bind.
  eapply runs_conseq; [apply runs_blank_spaces; [exact H|lia]|]. intros p' t1 (S1 & Hp' & HS & n & -> & En). apply runs_bind.
  eapply runs_conseq; [apply runs_copy; [exact S1|lia]|]. intros r t2 ((v & ->) & S2 & Eb). apply runs_bind.
  eapply runs_conseq; [apply (IH (p + n)%nat (p + n)%nat true); [exact S2|lia| |by right]|].
  - rewrite Eb, (nruns_same _ _ _ _ HS). rewrite (nruns_after _ _ _ _ E En) in Hk. lia.
  - intros r' t3 (S3 & vs & q & -> & Hq). apply runs_ret. split; [done|]. eexists _, _. split; [done|lia].
Qed.
Lemma runs_string_list b j t : safe L z b T t -> (2 <= j <= z)%nat ->
  runs (spider_create_string_list oom j) t (fun r t' => (exists l, r = inr l) /\ safe L z (S z) T t').
Proof.
  intros H Hj. unfold spider_create_string_list. apply runs_bind. eexists tt, _. split; [done|].
  set (t0 := t <| ts_parse := init_param_value (ts_parse t) |>).
  assert (H0 : safe L z (S z) T t0) by (destruct H; by split).
  apply runs_bind. destruct (spaces_stops _ _ (safe_nul _ _ _ _ _ H0) j) as (n & En & Hn & _); [lia|].
  eapply (runs_lift _ _ (j + n)%nat); [unfold skip_spaces; by rewrite En|].
  pose proof (safe_z _ _ _ _ _ H0) as [Hz _]. destruct (lookup_lt_is_Some_2 (ts_buf t0) (j + n)) as [c Ec]; [rewrite (safe_length _ _ _ _ _ H0); lia|].
  apply runs_bind. eapply runs_lift; [exact Ec|]. destruct (c =? 0); [apply runs_ret; split; [by eexists|done]|].
  apply runs_bind. destruct (count_strings_total (ts_buf t0) z (safe_nul _ _ _ _ _ H0) (S (length (ts_buf t0))) (j + n) false 1)
    as (k & f & Ek & Hk & _ & Hf); [lia|rewrite (safe_length _ _ _ _ _ H0); lia|].
  eapply runs_lift; [exact Ek|]. apply runs_bind, (runs_alloc oom memory). cbn [negb fst snd]. apply runs_bind.
  set (t1 := t0 <| ts_tick := S (ts_tick t0) |>). assert (H1 : safe L z (S z) T t1) by by apply (safe_change _ _ _ _ t0).
  eapply runs_conseq; [apply runs_blank_spaces; [exact H1|lia]|]. intros p t2 (H2 & Hp & HS & m & -> & Em).
  assert (m = n) as -> by (change (ts_buf t1) with (ts_buf t0) in Em; rewrite En in Em; by injection Em). apply runs_bind.
  eapply runs_conseq; [apply runs_split_strings; [exact H2|lia| |]|].
  - rewrite (nruns_same _ _ _ _ HS). change (ts_buf t1) with (ts_buf t0). lia.
  - destruct f; [by right|left]. rewrite (Hf eq_refl). done.
  - intros r t3 (H3 & vs & p & -> & Hp3). apply runs_bind. eapply runs_conseq; [apply runs_copy; [exact H3|lia]|].
    intros v t4 ((v' & ->) & H4 & _). apply runs_bind. eapply runs_conseq; [eapply runs_note; [exact H4|lia]|].
    intros [] t5 H5. apply runs_ret. split; [by eexists|done].
Qed.

Section Numbers.
  Context (conv : list N -> option Z) (lo hi : Z).
  Hypothesis conv_total : forall s, 0 ∈ s -> exists v, conv s = Some v.

Lemma runs_conv b p t : safe L z b T t -> (p <= z)%nat ->
  runs (lift_opt (fun s => conv (drop p (ts_buf s)))) t (fun _ t' => t' = t).
Proof.
  intros H Hp. destruct (conv_total (drop p (ts_buf t))) as [v Ev]; [eapply nul_in_drop; [apply (safe_nul _ _ _ _ _ H)|done]|].
  by eapply runs_lift.
Qed.

Lemma runs_split_numbers b k : forall tmp t, safe L z b T t -> (tmp <= z)%nat -> (k <= nruns false (drop tmp (ts_buf t)))%nat ->
  runs (split_numbers conv lo hi false k tmp) t (fun r t' => safe L z b T t' /\ (tmp <= r.2 <= z)%nat).
Proof.
  induction k as [|k IH]; intros tmp t H Ht Hk; cbn [split_numbers].
  { apply runs_ret. split; [done|]. simpl. lia. }
  apply runs_bind. destruct (strchr_stops _ _ (safe_nul _ _ _ _ _ H) tmp 32) as [E|(p & E & Hp & _)]; [done|lia|rewrite (nruns_strchr_none _ _ E) in Hk; lia|].
  eapply (runs_lift _ _ p); [by rewrite E|]. apply runs_bind.
  eapply runs_conseq; [apply runs_blank_spaces; [exact H|lia]|]. intros p' t1 (S1 & Hp' & HS & n & -> & En). apply runs_bind.
  eapply runs_conseq; [eapply runs_conv; [exact S1|lia]|]. intros v t2 ->. apply runs_bind.
  eapply runs_conseq; [apply (IH (p + n)%nat); [exact S1|lia|]|].
  - rewrite (nruns_same _ _ _ _ HS). rewrite (nruns_after _ _ _ _ E En) in Hk. lia.
  - intros r t3 [S3 Hr]. apply runs_ret. split; [done|]. simpl. lia.
Qed.

Lemma runs_number_list b j t : safe L z b T t -> (2 <= j <= z)%nat ->
  runs (create_number_list oom conv j lo hi) t (fun r t' => (exists l, r = inr l) /\ safe L z (S z) T t').
Proof.
  intros H Hj. unfold create_number_list. apply runs_bind. eexists tt, _. split; [done|].
  set (t0 := t <| ts_parse := init_param_value (ts_parse t) |>).
  assert (H0 : safe L z (S z) T t0) by (destruct H; by split).
  apply runs_bind. destruct (spaces_stops _ _ (safe_nul _ _ _ _ _ H0) j) as (n & En & Hn & _); [lia|].
  eapply (runs_lift _ _ (j + n)%nat); [unfold skip_spaces; by rewrite En|].
  pose proof (safe_z _ _ _ _ _ H0) as [Hz _]. destruct (lookup_lt_is_Some_2 (ts_buf t0) (j + n)) as [c Ec]; [rewrite (safe_length _ _ _ _ _ H0); lia|].
  apply runs_bind. eapply runs_lift; [exact Ec|]. destruct (c =? 0); [apply runs_ret; split; [by eexists|done]|].
  apply runs_bind. destruct (count_numbers_total (ts_buf t0) z (safe_nul _ _ _ _ _ H0) (S (length (ts_buf t0))) (j + n) 1)
    as (k & Ek & Hk); [lia|rewrite (safe_length _ _ _ _ _ H0); lia|].
  eapply runs_lift; [exact Ek|]. apply runs_bind, (runs_alloc oom memory). cbn [negb]. apply runs_bind.
  set (t1 := t0 <| ts_tick := S (ts_tick t0) |>). assert (H1 : safe L z (S z) T t1) by by apply (safe_change _ _ _ _ t0).
  destruct k as [|k]; [lia|]. cbn [split_numbers]. apply runs_bind, runs_ret, runs_bind.
  eapply runs_conseq; [apply runs_blank_spaces; [exact H1|lia]|]. intros p t2 (H2 & Hp & HS & m & -> & Em).
  assert (m = n) as -> by (change (ts_buf t1) with (ts_buf t0) in Em; rewrite En in Em; by injection Em). apply runs_bind.
  eapply runs_conseq; [eapply runs_conv; [exact H2|lia]|]. intros v t3 ->. apply runs_bind.
  eapply runs_conseq; [apply runs_split_numbers; [exact H2|lia|]|].
  - rewrite (nruns_same _ _ _ _ HS). change (ts_buf t1) with (ts_buf t0). lia.
  - intros r t3 [H3 Hr]. apply runs_ret. simpl. apply runs_bind. eapply runs_conseq; [eapply runs_note; [exact H3|lia]|].
    intros [] t5 H5. apply runs_ret. split; [by eexists|done].
Qed.
End Numbers.
End Steps.
