(* ===== verification/OptionParse.v ===== *)
(** * Parsing the options of a table

    [spider_parse_connect_info] (storage/spider/spd_table.cc), which reads the
    options of a table from the comments of its subpartition, its partition and
    the table and from the connect string, in this order; the first value of an
    option counts.  Then the lists are stretched to the number of links, the
    fields of the server of a link are copied from [mysql.servers]
    ([spider_get_server]), what is still missing gets its default
    ([spider_set_connect_info_default]), and for a new table the lengths are
    checked.

    The options of [SPIDER_SHARE] are a map from the name of a field to its value; a
    field that is absent is [NULL] or [-1], the value of a field that is not set
    (a value that is set is not negative).  The state is the text that is parsed
    ([text_state]) and the options.  The allocations, the servers and what the
    server was started with are the outside's ([OptEnv]).  The copies of the lists
    for [ALTER TABLE] are left out. *)

From Stdlib Require Import NArith Lia.
From stdpp Require Import base numbers list gmap strings.
From S2P Require Import Prelude CString ConnTree World OptionText OptionTable.
From Stdlib Require Import ZArith.
Local Open Scope spider_scope.
Local Open Scope N_scope.

(** ** The options of a share *)

(** [VReal text min_val] is the larger of [min_val] and [my_atof (text)]. *)
Inductive value :=
  | VStr (s : list N)
  | VStrs (l : list (option (list N)))
  | VNums (l : list Z)
  | VNum (z : Z)
  | VReal (text : list N) (min_val : Z).

(** [so_lengths] has the recorded lengths of strings where they are not those of
    the string. *)
Record share_options := mk_options {
  so_values : gmap string value;
  key_hint : option (list (list N));
  static_key_cardinality : option (list Z);
  so_lengths : gmap (string * nat) nat;
  so_link_count : Z }.

#[export] Instance eta_options : Eta share_options := fun s =>
  mk_options (so_values s) (key_hint s) (static_key_cardinality s) (so_lengths s) (so_link_count s).

Record parse_state := mk_state {
  ps_text : text_state;
  ps_share : share_options }.

#[export] Instance eta_state : Eta parse_state := fun s => mk_state (ps_text s) (ps_share s).

(** A row of [mysql.servers]. *)
Record FOREIGN_SERVER := mk_server {
  sv_scheme : option (list N);
  sv_host : option (list N);
  sv_port : Z;
  sv_socket : option (list N);
  sv_db : option (list N);
  sv_username : option (list N);
  sv_password : option (list N) }.

(** The table: its names, the sources of its options, the length of its path
    ([table_name_length]). *)
Record table_info := mk_table {
  ti_db : list N;
  ti_table_name : list N;
  ti_part_name : option (list N);
  ti_sub_name : option (list N);
  ti_path_length : nat;
  ti_sub_comment : option (list N);
  ti_part_comment : option (list N);
  ti_comment : list N;
  ti_connect_string : list N }.

Class OptEnv := mk_opt_env {
  oom : nat -> bool;
  servers_cache : list N -> option FOREIGN_SERVER;
  MYSQL_UNIX_ADDR : list N;
  MYSQL_PORT : Z;
  server_id : Z;
  spd_defaults_file : option (list N);
  spd_defaults_extra_file : option (list N) }.

Definition my_localhost : list N := bytes "localhost".
Definition SPIDER_DB_WRAPPER_STR : list N := bytes "mysql".
Definition SPIDER_DB_PK_NAME_STR : list N := bytes "PRIMARY".
Definition SPIDER_DB_SEQUENCE_NAME_STR : list N := [].
Definition SPIDER_SQL_TMP_BKA_ENGINE_STR : list N := bytes "memory".
Definition SPIDER_SQL_SQL_FORCE_IDX_STR : list N := bytes " force index(".
Definition SPIDER_SQL_SQL_USE_IDX_STR : list N := bytes " use index(".
Definition SPIDER_SQL_SQL_IGNORE_IDX_STR : list N := bytes " ignore index(".
Definition SPIDER_CONNECT_INFO_MAX_LEN : nat := 64.
Definition SPIDER_CONNECT_INFO_PATH_MAX_LEN : nat := 512.
Definition SPIDER_LINK_STATUS_NO_CHANGE : Z := 0.

(** The wrappers of [spider_dbton]. *)
Definition dbton_wrappers : list (list N) := [bytes "mysql"].

Section Parse.
  Context {OE : OptEnv}.

Definition in_text {A} (m : M text_state A) : M parse_state A := fun s =>
  match m (ps_text s) with Some (a, t) => Some (a, s <| ps_text := t |>) | None => None end.

Definition in_share {A} (f : share_options -> A) : M parse_state A := gets (fun s => f (ps_share s)).

Definition set_share (f : share_options -> share_options) : M parse_state unit :=
  modify (fun s => s <| ps_share ::= f |>).

Definition set_value (param : string) (v : value) : M parse_state unit :=
  set_share (fun sh => sh <| so_values ::= insert param v |>).

Definition new_memory : M parse_state bool := in_text (alloc oom).

(** ** The macros *)

(** If the field is not set, the quoted string after the title; a string that is
    not there is an error. *)
Definition when_unset (param : string) (start_ptr : nat) (k : nat -> M parse_state Z) : M parse_state Z :=
  v ← in_share (fun sh => so_values sh !! param);
  match v with
  | Some _ => mret 0%Z
  | None =>
      tmp_ptr2 ← in_text (in_buf (fun buf => between_quote buf start_ptr));
      match tmp_ptr2 with
      | None => in_text print_param_error
      | Some p => k p
      end
  end.

(** [spider_get_string_between_quote] notes the value before the copy. *)
Definition SPIDER_PARAM_STR (param : string) (start_ptr : nat) : M parse_state Z :=
  when_unset param start_ptr (fun p =>
    in_text (note_value p);;
    v ← in_text (spider_create_string oom p);
    match v with
    | None => in_text print_param_error
    | Some v => set_value param (VStr v);; mret 0%Z
    end).

Definition SPIDER_PARAM_STR_LIST (param : string) (start_ptr : nat) : M parse_state Z :=
  when_unset param start_ptr (fun p =>
    r ← in_text (spider_create_string_list oom p);
    match r with
    | inl e => mret e
    | inr None => mret 0%Z
    | inr (Some l) => set_value param (VStrs (Some <$> l));; mret 0%Z
    end).

Definition set_numbers (param : string) (r : Z + option (list Z)) : M parse_state Z :=
  match r with
  | inl e => mret e
  | inr None => mret 0%Z
  | inr (Some l) => set_value param (VNums l);; mret 0%Z
  end.

Definition SPIDER_PARAM_LONG_LIST_WITH_MAX (param : string) (min_val max_val : Z) (start_ptr : nat) : M parse_state Z :=
  when_unset param start_ptr (fun p =>
    in_text (spider_create_long_list oom p min_val max_val) ≫= set_numbers param).

Definition SPIDER_PARAM_LONGLONG_LIST_WITH_MAX (param : string) (min_val max_val : Z) (start_ptr : nat) : M parse_state Z :=
  when_unset param start_ptr (fun p =>
    in_text (spider_create_longlong_list oom p min_val max_val) ≫= set_numbers param).

(** A number at [p]. *)
Definition number_at (conv : list N -> option Z) (p : nat) : M parse_state Z :=
  lift_opt (fun s => conv (drop p (ts_buf (ps_text s)))).

Definition SPIDER_PARAM_INT_WITH_MAX (param : string) (min_val max_val : Z) (start_ptr : nat) : M parse_state Z :=
  when_unset param start_ptr (fun p =>
    v ← number_at atoi p;
    set_value param (VNum (clamp min_val max_val v));;
    in_text (note_value p);;
    mret 0%Z).

Definition SPIDER_PARAM_INT (param : string) (min_val : Z) (start_ptr : nat) : M parse_state Z :=
  when_unset param start_ptr (fun p =>
    v ← number_at atoi p;
    set_value param (VNum (if Z.ltb v min_val then min_val else v));;
    in_text (note_value p);;
    mret 0%Z).

Definition SPIDER_PARAM_DOUBLE (param : string) (min_val : Z) (start_ptr : nat) : M parse_state Z :=
  when_unset param start_ptr (fun p =>
    v ← lift_opt (fun s => c_string (drop p (ts_buf (ps_text s))));
    set_value param (VReal v min_val);;
    in_text (note_value p);;
    mret 0%Z).

Definition SPIDER_PARAM_LONGLONG (param : string) (min_val : Z) (start_ptr : nat) : M parse_state Z :=
  when_unset param start_ptr (fun p =>
    v ← number_at (fun s => fst <$> my_strtoll10 s) p;
    set_value param (VNum (if Z.ltb v min_val then min_val else v));;
    in_text (note_value p);;
    mret 0%Z).

Definition is_letter (c : N) (upper : N) : bool := (c =? upper) || (c =? upper + 32).

(** What is appended to the empty text of a hint. *)
Definition key_hint_text (hint_str : list N) : list N :=
  match hint_str with
  | a :: 32 :: rest =>
      if is_letter a 70 then SPIDER_SQL_SQL_FORCE_IDX_STR ++ rest ++ bytes ")"
      else if is_letter a 85 then SPIDER_SQL_SQL_USE_IDX_STR ++ rest ++ bytes ")"
      else 32 :: hint_str
  | a :: b :: 32 :: rest =>
      if is_letter a 73 && is_letter b 71 then SPIDER_SQL_SQL_IGNORE_IDX_STR ++ rest ++ bytes ")"
      else 32 :: hint_str
  | _ => 32 :: hint_str
  end.

(** The text of the hint, or an error. *)
Definition spider_db_append_key_hint (str hint_str : list N) : M parse_state (Z + list N) :=
  ok ← new_memory;
  mret (if (ok : bool) then inr (str ++ key_hint_text hint_str) else inl HA_ERR_OUT_OF_MEM).

(** The string of a hint; the macros do not test that there is one. *)
Definition hint_string (start_ptr : nat) : M parse_state nat :=
  p ← in_text (in_buf (fun buf => between_quote buf start_ptr));
  match p with None => ub | Some p => mret p end.

Definition SPIDER_PARAM_HINT (tmp_ptr check_length start_ptr : nat) : M parse_state Z :=
  hint_num ← number_at atoi (tmp_ptr + check_length);
  hints ← in_share key_hint;
  match hints with
  | None => in_text print_param_error
  | Some hints =>
      if Z.ltb hint_num 0 || Z.leb (Z.of_nat (length hints)) hint_num then in_text print_param_error
      else
        str ← lift_opt (fun _ => hints !! Z.to_nat hint_num);
        match str with
        | _ :: _ => mret 0%Z
        | [] =>
            p ← hint_string start_ptr;
            hint_str ← lift_opt (fun s => c_string (drop p (ts_buf (ps_text s))));
            r ← spider_db_append_key_hint str hint_str;
            match r with
            | inl e => mret e
            | inr str =>
                set_share (fun sh => sh <| key_hint := Some (<[Z.to_nat hint_num := str]> hints) |>);;
                mret 0%Z
            end
        end
  end.

(** The value is stored also when its conversion reports an error. *)
Definition SPIDER_PARAM_NUMHINT (tmp_ptr check_length start_ptr : nat) : M parse_state Z :=
  hint_num ← number_at atoi (tmp_ptr + check_length);
  hints ← in_share static_key_cardinality;
  match hints with
  | None => in_text print_param_error
  | Some hints =>
      if Z.ltb hint_num 0 || Z.leb (Z.of_nat (length hints)) hint_num then in_text print_param_error
      else
        old ← lift_opt (fun _ => hints !! Z.to_nat hint_num);
        if negb (Z.eqb old (-1)) then mret 0%Z else
        p ← hint_string start_ptr;
        r ← lift_opt (fun s => my_strtoll10 (drop p (ts_buf (ps_text s))));
        set_share (fun sh => sh <| static_key_cardinality := Some (<[Z.to_nat hint_num := r.1]> hints) |>);;
        mret r.2
  end.

(** ** The parameters of a source *)

(** [strncasecmp (tmp_ptr, title, n) == 0], with the number of characters that the
    macro compares. *)
Definition title_matches (e : option_entry) (tmp_ptr title_length : nat) (buf : list N) : option bool :=
  same_nocase (match opt_kind e with P_HINT n | P_NUMHINT n => n | _ => title_length end)
    (drop tmp_ptr buf) (bytes (opt_title e)).

Definition set_param (e : option_entry) (tmp_ptr start_ptr : nat) : M parse_state Z :=
  match opt_kind e with
  | P_STR => SPIDER_PARAM_STR (opt_param e) start_ptr
  | P_STR_LIST => SPIDER_PARAM_STR_LIST (opt_param e) start_ptr
  | P_HINT n => SPIDER_PARAM_HINT tmp_ptr n start_ptr
  | P_NUMHINT n => SPIDER_PARAM_NUMHINT tmp_ptr n start_ptr
  | P_LONG_LIST lo hi => SPIDER_PARAM_LONG_LIST_WITH_MAX (opt_param e) lo hi start_ptr
  | P_LONGLONG_LIST lo hi => SPIDER_PARAM_LONGLONG_LIST_WITH_MAX (opt_param e) lo hi start_ptr
  | P_INT_WITH_MAX lo hi => SPIDER_PARAM_INT_WITH_MAX (opt_param e) lo hi start_ptr
  | P_INT lo => SPIDER_PARAM_INT (opt_param e) lo start_ptr
  | P_DOUBLE lo => SPIDER_PARAM_DOUBLE (opt_param e) lo start_ptr
  | P_LONGLONG lo => SPIDER_PARAM_LONGLONG (opt_param e) lo start_ptr
  | P_IGNORE => mret 0%Z
  end.

(** A case of the switch: the first entry that matches, or an error. *)
Fixpoint find_param (es : list option_entry) (tmp_ptr title_length start_ptr : nat) : M parse_state Z :=
  match es with
  | [] => in_text print_param_error
  | e :: es =>
      m ← lift_opt (fun s => title_matches e tmp_ptr title_length (ts_buf (ps_text s)));
      if (m : bool) then set_param e tmp_ptr start_ptr else find_param es tmp_ptr title_length start_ptr
  end.

(** The blanks before a title, and the characters of the title. *)
Fixpoint blanks (s : list N) : option nat :=
  match s with
  | [] => None
  | b :: s => if is_blank b then S <$> blanks s else Some O
  end.

Fixpoint title_chars (s : list N) : option nat :=
  match s with
  | [] => None
  | b :: s => if is_blank b || is_quote b || (b =? 0) then Some O else S <$> title_chars s
  end.

(** One parameter, which starts at [tmp_ptr]. *)
Definition parse_param (tmp_ptr : nat) : M parse_state Z :=
  n ← lift_opt (fun s => blanks (drop tmp_ptr (ts_buf (ps_text s))));
  let tmp_ptr := (tmp_ptr + n)%nat in
  c ← lift_opt (fun s => ts_buf (ps_text s) !! tmp_ptr);
  if c =? 0 then mret 0%Z else
  title_length ← lift_opt (fun s => title_chars (drop tmp_ptr (ts_buf (ps_text s))));
  in_text (in_parse (fun buf p => set_param_title buf p tmp_ptr (tmp_ptr + title_length)));;
  if Nat.eqb title_length 0 then in_text print_param_error
  else
    find_param (options title_length) tmp_ptr title_length (tmp_ptr + title_length) &&;
    in_text has_extra_parameter_values.

(** The parameters from [sprit_ptr] on, which commas separate. *)
Fixpoint parse_params (fuel : nat) (sprit_ptr : nat) : M parse_state Z :=
  match fuel with
  | O => ub
  | S fuel =>
      comma ← lift_opt (fun s => strchr (ts_buf (ps_text s)) sprit_ptr 44);
      match comma with
      | None => parse_param sprit_ptr
      | Some c =>
          in_text (in_buf (fun buf => buf ← store buf c 0; Some (tt, buf)));;
          parse_param sprit_ptr &&; parse_params fuel (S c)
      end
  end.

(** [connect_string_parse.init] *)
Definition parse_init (buf : list N) : option SPIDER_PARAM_STRING_PARSE :=
  n ← strlen buf 0;
  Some (init_param_value (init_param_title
    (mk_parse n None None ER_SPIDER_INVALID_CONNECT_INFO_NUM 0 0 0 0))).

(** The sources in their order; a source that is not there is passed over. *)
Fixpoint parse_sources (sources : list (option (list N))) : M parse_state Z :=
  match sources with
  | [] => mret 0%Z
  | None :: sources => parse_sources sources
  | Some connect_string :: sources =>
      ok ← new_memory;
      if negb ok then mret HA_ERR_OUT_OF_MEM else
      let buf := connect_string ++ [0] in
      p ← lift_opt (fun _ => parse_init buf);
      modify (fun s => s <| ps_text ::= fun t => t <| ts_buf := buf |> <| ts_parse := p |> |>);;
      parse_params (S (length buf)) 0 &&; parse_sources sources
  end.

Definition non_empty (s : list N) : option (list N) := match s with [] => None | _ => Some s end.

Definition table_sources (t : table_info) : list (option (list N)) :=
  [ti_sub_comment t; ti_part_comment t; non_empty (ti_comment t); non_empty (ti_connect_string t)].
End Parse.
