(* ===== verification/OptionDefaults.v ===== *)
(** * Completing the options of a table

    The second half of [spider_parse_connect_info] (storage/spider/spd_table.cc):
    the lists are stretched to one element for each link, the fields of the link's
    server and the defaults fill what is missing, and the options of a new table
    are checked.  Then [spider_create_conn_keys], which names the connection of a
    link after its server. *)

From Stdlib Require Import NArith Lia.
From stdpp Require Import base numbers list gmap strings.
From S2P Require Import Prelude CString ConnTree World OptionText OptionTable OptionParse.
From Stdlib Require Import ZArith.
Local Open Scope spider_scope.
Local Open Scope N_scope.

(** ** The lists *)

Inductive list_kind := string_list | null_string_list | number_list.

#[export] Instance list_kind_eq : EqDecision list_kind.
Proof. solve_decision. Defined.

(** The lists that have an element for each link, in the order of the code. *)
Definition link_lists : list (string * list_kind) := [
  ("server_names", string_list);
  ("tgt_table_names", string_list);
  ("tgt_dbs", string_list);
  ("tgt_hosts", string_list);
  ("tgt_usernames", string_list);
  ("tgt_passwords", string_list);
  ("tgt_sockets", string_list);
  ("tgt_config_table", string_list);
  ("tgt_wrappers", string_list);
  ("tgt_ssl_cas", string_list);
  ("tgt_ssl_capaths", string_list);
  ("tgt_ssl_certs", string_list);
  ("tgt_ssl_ciphers", string_list);
  ("tgt_ssl_keys", string_list);
  ("tgt_default_files", string_list);
  ("tgt_default_groups", string_list);
  ("tgt_pk_names", string_list);
  ("tgt_sequence_names", string_list);
  ("static_link_ids", null_string_list);
  ("tgt_ports", number_list);
  ("tgt_ssl_vscs", number_list);
  ("link_statuses", number_list);
  ("monitoring_bg_flag", number_list);
  ("monitoring_bg_kind", number_list);
  ("monitoring_binlog_pos_at_failing", number_list);
  ("monitoring_flag", number_list);
  ("monitoring_kind", number_list);
  ("monitoring_bg_interval", number_list);
  ("monitoring_limit", number_list);
  ("monitoring_sid", number_list);
  ("use_handlers", number_list);
  ("connect_timeouts", number_list);
  ("net_read_timeouts", number_list);
  ("net_write_timeouts", number_list);
  ("access_balances", number_list);
  ("bka_table_name_types", number_list)]%string.

(** The list of a field; [None] for [NULL]. *)
Definition strings_of (sh : share_options) (param : string) : option (list (option (list N))) :=
  match so_values sh !! param with Some (VStrs l) => Some l | _ => None end.

Definition numbers_of (sh : share_options) (param : string) : option (list Z) :=
  match so_values sh !! param with Some (VNums l) => Some l | _ => None end.

(** The element for a link, [tgt_x[link_idx]]. *)
Definition string_at (sh : share_options) (param : string) (link_idx : nat) : option (option (list N)) :=
  strings_of sh param ≫= (.!! link_idx).

Definition number_at_link (sh : share_options) (param : string) (link_idx : nat) : option Z :=
  numbers_of sh param ≫= (.!! link_idx).

(** [tgt_x_lengths[link_idx]] *)
Definition string_length_at (sh : share_options) (param : string) (link_idx : nat) : option nat :=
  s ← string_at sh param link_idx;
  Some (default (length (default [] s)) (so_lengths sh !! (param, link_idx))).

Definition SPIDER_DBTON_SIZE : nat := 1.

Section Defaults.
  Context {OE : OptEnv}.

Definition store_list {A} (param : string) (mk : A -> value) (r : Z + option A) : M parse_state Z :=
  match r with
  | inl e => mret e
  | inr None => mret 0%Z
  | inr (Some l) => set_value param (mk l);; mret 0%Z
  end.

Definition increase_list (link_count : nat) (f : string * list_kind) : M parse_state Z :=
  sh ← in_share id;
  match f.2 with
  | string_list =>
      in_text (spider_increase_string_list oom (strings_of sh f.1) link_count) ≫= store_list f.1 VStrs
  | null_string_list =>
      in_text (spider_increase_null_string_list oom (strings_of sh f.1) link_count) ≫= store_list f.1 VStrs
  | number_list =>
      in_text (spider_increase_long_list oom (numbers_of sh f.1) link_count) ≫= store_list f.1 VNums
  end.

(** Steps in sequence, up to the first error. *)
Fixpoint all_steps (l : list (M parse_state Z)) : M parse_state Z :=
  match l with
  | [] => mret 0%Z
  | m :: l => m &&; all_steps l
  end.

Definition increase_lists (link_count : nat) : M parse_state Z :=
  all_steps (increase_list link_count <$> link_lists).

(** ** The fields of one link *)

Definition set_string (param : string) (link_idx : nat) (s : list N) : M parse_state Z :=
  l ← lift_opt (fun st => strings_of (ps_share st) param);
  set_value param (VStrs (<[link_idx := Some s]> l));;
  mret 0%Z.

(** [if (!tgt_x[link_idx]) tgt_x[link_idx] = spider_create_string (s)]; with [None]
    nothing is done. *)
Definition default_string (param : string) (link_idx : nat) (s : option (list N)) : M parse_state Z :=
  old ← lift_opt (fun st => string_at (ps_share st) param link_idx);
  match old, s with
  | None, Some s =>
      ok ← new_memory;
      if negb ok then mret HA_ERR_OUT_OF_MEM else set_string param link_idx s
  | _, _ => mret 0%Z
  end.

Definition update_number (param : string) (link_idx : nat) (f : Z -> Z) : M parse_state Z :=
  old ← lift_opt (fun st => number_at_link (ps_share st) param link_idx);
  l ← lift_opt (fun st => numbers_of (ps_share st) param);
  set_value param (VNums (<[link_idx := f old]> l));;
  mret 0%Z.

(** [if (tgt_x[link_idx] == -1) tgt_x[link_idx] = z] *)
Definition if_unset (z x : Z) : Z := if Z.eqb x (-1) then z else x.

Definition default_number (param : string) (link_idx : nat) (z : Z) : M parse_state Z :=
  update_number param link_idx (if_unset z).

Definition get_server_by_name (name : list N) : option FOREIGN_SERVER :=
  match name with [] => None | _ => servers_cache name end.

(** [spider_get_server]; memory that runs out is reported as such. *)
Definition spider_get_server (link_idx : nat) : M parse_state Z :=
  name ← lift_opt (fun st => s ← string_at (ps_share st) "server_names" link_idx; s);
  match get_server_by_name name with
  | None => mret ER_FOREIGN_SERVER_DOESNT_EXIST
  | Some server =>
      all_steps [
        default_string "tgt_wrappers" link_idx (sv_scheme server);
        default_string "tgt_hosts" link_idx (sv_host server);
        default_number "tgt_ports" link_idx (sv_port server);
        default_string "tgt_sockets" link_idx (sv_socket server);
        default_string "tgt_dbs" link_idx (sv_db server ≫= non_empty);
        default_string "tgt_usernames" link_idx (sv_username server);
        default_string "tgt_passwords" link_idx (sv_password server)]
  end.

Definition spider_create_table_name_string (table_name : list N) (part_name sub_name : option (list N)) : list N :=
  table_name ++
  match part_name with
  | None => []
  | Some p => bytes "#P#" ++ p ++ match sub_name with None => [] | Some s => bytes "#SP#" ++ s end
  end.

(** The recorded length of the default table name is the length of the path. *)
Definition default_table_name (t : table_info) (link_idx : nat) : M parse_state Z :=
  old ← lift_opt (fun st => string_at (ps_share st) "tgt_table_names" link_idx);
  match old with
  | Some _ => mret 0%Z
  | None =>
      set_share (fun sh => sh <| so_lengths ::= insert ("tgt_table_names", link_idx) (ti_path_length t) |>);;
      ok ← new_memory;
      if negb ok then mret HA_ERR_OUT_OF_MEM else
      set_string "tgt_table_names" link_idx
        (spider_create_table_name_string (ti_table_name t) (ti_part_name t) (ti_sub_name t))
  end.

Definition default_default_file (link_idx : nat) : M parse_state Z :=
  group ← lift_opt (fun st => string_at (ps_share st) "tgt_default_groups" link_idx);
  match group with
  | None => mret 0%Z
  | Some _ =>
      default_string "tgt_default_files" link_idx
        (match spd_defaults_extra_file with Some f => Some f | None => spd_defaults_file end)
  end.

Definition default_port (x : Z) : Z :=
  if Z.eqb x (-1) then MYSQL_PORT else if Z.ltb x 0 then 0%Z else if Z.ltb 65535 x then 65535%Z else x.

Definition default_socket (link_idx : nat) : M parse_state Z :=
  host ← lift_opt (fun st => h ← string_at (ps_share st) "tgt_hosts" link_idx; h);
  default_string "tgt_sockets" link_idx (if decide (host = my_localhost) then Some MYSQL_UNIX_ADDR else None).

(** The last defaults of the loop body; [sid] is the server's own id. *)
Definition number_defaults (sid : Z) : list (string * Z) := [
  ("link_statuses", SPIDER_LINK_STATUS_NO_CHANGE);
  ("monitoring_bg_flag", 0);
  ("monitoring_bg_kind", 0);
  ("monitoring_binlog_pos_at_failing", 0);
  ("monitoring_flag", 0);
  ("monitoring_kind", 0);
  ("monitoring_bg_interval", 10000000);
  ("monitoring_limit", 1);
  ("monitoring_sid", sid);
  ("use_handlers", 0);
  ("connect_timeouts", 6);
  ("net_read_timeouts", 600);
  ("net_write_timeouts", 600);
  ("access_balances", 100);
  ("bka_table_name_types", 0)]%string%Z.

(** The loop body of [spider_set_connect_info_default]. *)
Definition link_defaults (t : table_info) (link_idx : nat) : list (M parse_state Z) := [
    name ← lift_opt (fun st => string_at (ps_share st) "server_names" link_idx);
      match name with None => mret 0%Z | Some _ => spider_get_server link_idx end;
    default_string "tgt_wrappers" link_idx (Some SPIDER_DB_WRAPPER_STR);
    default_string "tgt_hosts" link_idx (Some my_localhost);
    default_string "tgt_dbs" link_idx (Some (ti_db t));
    default_table_name t link_idx;
    default_default_file link_idx;
    default_string "tgt_pk_names" link_idx (Some SPIDER_DB_PK_NAME_STR);
    default_string "tgt_sequence_names" link_idx (Some SPIDER_DB_SEQUENCE_NAME_STR);
    update_number "tgt_ports" link_idx default_port;
    default_number "tgt_ssl_vscs" link_idx 0;
    default_socket link_idx] ++
  ((fun f => default_number f.1 link_idx f.2) <$> number_defaults server_id).

Definition default_link (t : table_info) (link_idx : nat) : M parse_state Z := all_steps (link_defaults t link_idx).

(** ** The other fields *)

(** A constant of the code; it is not below the least value of its option,
    [min_val], and so the larger of both. *)
Definition real (text : string) (min_val : Z) : value := VReal (bytes text) min_val.

Definition field_defaults (all_link_count : nat) : list (string * value) := [
  ("sts_bg_mode", VNum 2); ("sts_interval", real "3600" 0); ("sts_mode", VNum 1);
  ("sts_sync", VNum 0); ("store_last_sts", VNum 1); ("load_sts_at_startup", VNum 1);
  ("crd_bg_mode", VNum 0); ("crd_interval", real "51" 0); ("crd_mode", VNum 1);
  ("crd_sync", VNum 0); ("store_last_crd", VNum 1); ("load_crd_at_startup", VNum 1);
  ("crd_type", VNum 2); ("crd_weight", real "2" 1); ("internal_offset", VNum 0);
  ("internal_limit", VNum LONG_MAX); ("split_read", VNum LONG_MAX); ("semi_split_read", real "1" 0);
  ("semi_split_read_limit", VNum LONG_MAX); ("init_sql_alloc_size", VNum 1024);
  ("reset_sql_alloc", VNum 1); ("multi_split_read", VNum 100); ("max_order", VNum 32767);
  ("semi_table_lock", VNum 0); ("semi_table_lock_conn", VNum 1); ("selupd_lock_mode", VNum 1);
  ("query_cache", VNum 0); ("query_cache_sync", VNum 0); ("internal_delayed", VNum 0);
  ("bulk_size", VNum 16000); ("bulk_update_mode", VNum 0); ("bulk_update_size", VNum 16000);
  ("internal_optimize", VNum 0); ("internal_optimize_local", VNum 0); ("scan_rate", real "1" 0);
  ("read_rate", real "0.0002" 0); ("priority", VNum 1000000); ("quick_mode", VNum 1);
  ("quick_page_size", VNum 100); ("low_mem_read", VNum 1); ("table_count_mode", VNum 0);
  ("select_column_mode", VNum 1); ("bgs_mode", VNum 0); ("bgs_first_read", VNum 2);
  ("bgs_second_read", VNum 100); ("first_read", VNum 0); ("second_read", VNum 0);
  ("auto_increment_mode", VNum 0); ("use_table_charset", VNum 1); ("use_pushdown_udf", VNum 1);
  ("skip_default_condition", VNum 0); ("skip_parallel_search", VNum 0); ("direct_dup_insert", VNum 0);
  ("direct_order_limit", VNum LONG_MAX); ("read_only_mode", VNum 0); ("error_read_mode", VNum 0);
  ("error_write_mode", VNum 0); ("active_link_count", VNum (Z.of_nat all_link_count));
  ("force_bulk_update", VNum 0); ("force_bulk_delete", VNum 0); ("casual_read", VNum 0);
  ("delete_all_rows_type", VNum 1); ("bka_mode", VNum 1)]%string.

(** [if (x == -1) x = v] *)
Definition default_field (f : string * value) : M parse_state Z :=
  set_share (fun sh => sh <| so_values ::= fun m => match m !! f.1 with Some _ => m | None => <[f.1 := f.2]> m end |>);;
  mret 0%Z.

Definition default_engine : M parse_state Z :=
  v ← in_share (fun sh => so_values sh !! "bka_engine"%string);
  match v with
  | Some _ => mret 0%Z
  | None =>
      ok ← new_memory;
      if negb ok then mret HA_ERR_OUT_OF_MEM else
      set_value "bka_engine" (VStr SPIDER_SQL_TMP_BKA_ENGINE_STR);; mret 0%Z
  end.

Definition spider_set_connect_info_default (t : table_info) (all_link_count : nat) : M parse_state Z :=
  all_steps (default_link t <$> seq 0 all_link_count) &&;
  all_steps (default_field <$> field_defaults all_link_count) &&;
  default_engine.

(** ** The checks for a new table *)

(** The strings whose length is limited, in the order of the tests. *)
Definition length_limits : list (string * nat) := [
  ("server_names", SPIDER_CONNECT_INFO_MAX_LEN);
  ("tgt_table_names", SPIDER_CONNECT_INFO_MAX_LEN);
  ("tgt_dbs", SPIDER_CONNECT_INFO_MAX_LEN);
  ("tgt_hosts", SPIDER_CONNECT_INFO_MAX_LEN);
  ("tgt_shard_keys", SPIDER_CONNECT_INFO_MAX_LEN);
  ("tgt_config_table", SPIDER_CONNECT_INFO_MAX_LEN);
  ("tgt_usernames", SPIDER_CONNECT_INFO_MAX_LEN);
  ("tgt_passwords", SPIDER_CONNECT_INFO_MAX_LEN);
  ("tgt_sockets", SPIDER_CONNECT_INFO_PATH_MAX_LEN);
  ("tgt_wrappers", SPIDER_CONNECT_INFO_MAX_LEN);
  ("tgt_ssl_cas", SPIDER_CONNECT_INFO_PATH_MAX_LEN);
  ("tgt_ssl_capaths", SPIDER_CONNECT_INFO_PATH_MAX_LEN);
  ("tgt_ssl_certs", SPIDER_CONNECT_INFO_PATH_MAX_LEN);
  ("tgt_ssl_ciphers", SPIDER_CONNECT_INFO_MAX_LEN);
  ("tgt_ssl_keys", SPIDER_CONNECT_INFO_PATH_MAX_LEN);
  ("tgt_default_files", SPIDER_CONNECT_INFO_PATH_MAX_LEN);
  ("tgt_default_groups", SPIDER_CONNECT_INFO_MAX_LEN);
  ("tgt_pk_names", SPIDER_CONNECT_INFO_MAX_LEN);
  ("tgt_sequence_names", SPIDER_CONNECT_INFO_MAX_LEN);
  ("static_link_ids", SPIDER_CONNECT_INFO_MAX_LEN)]%string.

(** The shard keys are tested only if there are any. *)
Definition check_length (sh : share_options) (link_idx : nat) (f : string * nat) : option Z :=
  if decide (f.1 = "tgt_shard_keys"%string /\ strings_of sh f.1 = None) then Some 0%Z else
  n ← string_length_at sh f.1 link_idx;
  Some (if Nat.ltb f.2 n then ER_SPIDER_INVALID_CONNECT_INFO_TOO_LONG_NUM else 0%Z).

(** The name of a link does not start with a digit, and is not that of a later
    link. *)
Definition same_id (sh : share_options) (s : list N) (link_idx : nat) : bool :=
  bool_decide (default [] (default None (string_at sh "static_link_ids" link_idx)) = s).

Definition check_static_id (sh : share_options) (all_link_count link_idx : nat) : option Z :=
  id ← string_at sh "static_link_ids" link_idx;
  Some match id with
       | None => 0%Z
       | Some s =>
           if match s with c :: _ => is_digit c | [] => false end then ER_SPIDER_INVALID_CONNECT_INFO_START_WITH_NUM_NUM
           else if existsb (same_id sh s) (seq (S link_idx) (all_link_count - S link_idx))
           then ER_SPIDER_INVALID_CONNECT_INFO_SAME_NUM
           else 0%Z
       end.

Definition check_wrapper (sh : share_options) (link_idx : nat) : option Z :=
  s ← string_at sh "tgt_wrappers" link_idx;
  s ← s;
  Some (if bool_decide (s ∈ dbton_wrappers) then 0%Z else ER_SPIDER_INVALID_CONNECT_INFO_NUM).

Definition checked (f : share_options -> option Z) : M parse_state Z := lift_opt (fun st => f (ps_share st)).

Definition check_link (all_link_count link_idx : nat) : M parse_state Z :=
  all_steps (
    checked (fun sh => check_wrapper sh link_idx) ::
    ((fun f => checked (fun sh => check_length sh link_idx f)) <$> length_limits) ++
    [checked (fun sh => check_static_id sh all_link_count link_idx)]).

(** ** The whole function *)

(** The number of links: with [SPIDER_DISABLE_LINK] a table has one. *)
Definition all_link_count : nat := 1.

Definition copy_for_alter : M parse_state Z :=
  ok ← new_memory; mret (if (ok : bool) then 0%Z else HA_ERR_OUT_OF_MEM).

Definition set_link_count : M parse_state Z :=
  n ← lift_opt (fun st => match so_values (ps_share st) !! "active_link_count"%string with Some (VNum n) => Some n | _ => None end);
  set_share (fun sh => sh <| so_link_count := n |>);;
  mret 0%Z.

Definition spider_parse_connect_info (t : table_info) (create_table : bool) : M parse_state Z :=
  parse_sources (table_sources t) &&;
  increase_lists all_link_count &&;
  copy_for_alter &&;
  spider_set_connect_info_default t all_link_count &&;
  (if create_table then all_steps (check_link all_link_count <$> seq 0 all_link_count) else mret 0%Z) &&;
  set_link_count.

(** [spider_init_share_for_parse_connect_info]: a table with [keys] keys, with a
    hint and a cardinality for each of them. *)
Definition init_options (keys : nat) : share_options :=
  mk_options ∅ (if Nat.eqb keys 0 then None else Some (replicate keys []))
    (if Nat.eqb keys 0 then None else Some (replicate keys (-1)%Z)) ∅ 0%Z.

Definition no_text : text_state := mk_text [] (mk_parse 0 None None 0 0 0 0 0) 0.

Definition parse_table (t : table_info) (keys : nat) (create_table : bool) : option (Z * share_options) :=
  r ← spider_parse_connect_info t create_table (mk_state no_text (init_options keys));
  Some (r.1, ps_share r.2).

(** ** The keys of the connections *)

(** The keys of the links with their recorded lengths, the access method of each
    link ([SPIDER_DBTON_SIZE] for none), and the access methods that the table
    uses. *)
Record conn_keys := mk_keys {
  ck_keys : list (list N * nat);
  ck_sql_dbton_ids : list nat;
  ck_use_dbton_ids : list nat }.

(** The key of a link's connection: '0' and the name of its server. *)
Definition conn_key (sh : share_options) (link_idx : nat) : option (list N * nat) :=
  s ← string_at sh "server_names" link_idx;
  n ← string_length_at sh "server_names" link_idx;
  Some (48 :: default [] s, S n).

(** The first access method of the link's wrapper. *)
Fixpoint find_dbton (ws : list (list N)) (id : nat) (wrapper : list N) : nat :=
  match ws with
  | [] => SPIDER_DBTON_SIZE
  | w :: ws => if decide (w = wrapper) then id else find_dbton ws (S id) wrapper
  end.

Definition sql_dbton_id (sh : share_options) (link_idx : nat) : option nat :=
  w ← string_at sh "tgt_wrappers" link_idx;
  w ← w;
  Some (find_dbton dbton_wrappers 0 w).

Definition spider_create_conn_keys : M parse_state (Z + conn_keys) :=
  keys ← lift_opt (fun st => mapM (conn_key (ps_share st)) (seq 0 all_link_count));
  ok ← new_memory;
  if negb ok then mret (inl HA_ERR_OUT_OF_MEM) else
  ids ← lift_opt (fun st => mapM (sql_dbton_id (ps_share st)) (seq 0 all_link_count));
  mret (inr (mk_keys keys ids (filter (.∈ ids) (seq 0 SPIDER_DBTON_SIZE)))).
End Defaults.
