(* ===== verification/OptionTheorems.v ===== *)
(** * The options after parsing

    What [spider_parse_connect_info] leaves in the share.  The value of an option
    that is set is not changed by a later parameter or source.  When the function
    succeeds, every option of the table has a value of its kind within its bounds,
    and every list has one element for the one link.

    [yields m s Q] is partial correctness: if [m] returns from [s], [Q] holds of the
    result; [keeps P p m]: [m] keeps the property [P] of the field [p]. *)

From Stdlib Require Import NArith Lia.
From stdpp Require Import base numbers list gmap strings.
From S2P Require Import Prelude CString ConnTree World OptionText OptionTable OptionParse OptionDefaults.
From Stdlib Require Import ZArith.
Local Open Scope spider_scope.

(** ** Partial correctness *)

Definition yields {W A} (m : M W A) (s : W) (Q : A -> W -> Prop) : Prop :=
  forall r s', m s = Some (r, s') -> Q r s'.

Section Yields.
  Context {W : Type}.

Lemma yields_ret {A} (a : A) (s : W) (Q : A -> W -> Prop) : Q a s -> yields (mret a) s Q.
Proof. intros H r s' [= <- <-]. done. Qed.

Lemma yields_bind {A B} (m : M W A) (f : A -> M W B) s (Q : B -> W -> Prop) :
  yields m s (fun a s' => yields (f a) s' Q) -> yields (m ≫= f) s Q.
Proof.
  intros H r s' E. unfold mbind, M_bind in E. destruct (m s) as [[a s1]|] eqn:E1; [|done]. exact (H _ _ E1 _ _ E).
Qed.

Lemma yields_conseq {A} (m : M W A) s (Q Q' : A -> W -> Prop) :
  yields m s Q' -> (forall a s', Q' a s' -> Q a s') -> yields m s Q.
Proof. intros H1 H2 r s' E. auto. Qed.

Lemma yields_gets {A} (g : W -> A) s (Q : A -> W -> Prop) : Q (g s) s -> yields (gets g) s Q.
Proof. intros H r s' [= <- <-]. done. Qed.

Lemma yields_modify (g : W -> W) s (Q : unit -> W -> Prop) : Q tt (g s) -> yields (modify g) s Q.
Proof. intros H r s' [= <- <-]. done. Qed.

Lemma yields_lift {A} (g : W -> option A) s (Q : A -> W -> Prop) :
  (forall a, g s = Some a -> Q a s) -> yields (lift_opt g) s Q.
Proof. intros H r s' E. unfold lift_opt in E. destruct (g s) eqn:E1; [|done]. injection E as <- <-. auto. Qed.

Lemma yields_ub {A} s (Q : A -> W -> Prop) : yields ub s Q.
Proof. done. Qed.

Lemma yields_true {A} (m : M W A) s : yields m s (fun _ _ => True).
Proof. done. Qed.

(** [m1 &&; m2]: the second runs only after the first one succeeded. *)
Lemma yields_andthen (m1 m2 : M W Z) s (Q : Z -> W -> Prop) :
  yields m1 s (fun e s' => if Z.eqb e 0 then yields m2 s' Q else Q e s') -> yields (m1 &&; m2) s Q.
Proof.
  intros H. unfold andthen. apply yields_bind. eapply yields_conseq; [exact H|]. intros e s' H'. simpl in *.
  destruct (Z.eqb e 0); [done|]. by apply yields_ret.
Qed.
End Yields.

(** ** Fields *)

Definition field (s : parse_state) (p : string) : option value := so_values (ps_share s) !! p.

Definition keeps {A} (P : option value -> Prop) (p : string) (m : M parse_state A) : Prop :=
  forall s, P (field s p) -> yields m s (fun _ s' => P (field s' p)).

Section Keeps.
  Context (P : option value -> Prop) (p : string).

Lemma keeps_ret {A} (a : A) : keeps P p (mret a).
Proof. intros s H. by apply yields_ret. Qed.

Lemma keeps_bind {A B} (m : M parse_state A) (f : A -> M parse_state B) :
  keeps P p m -> (forall a, keeps P p (f a)) -> keeps P p (m ≫= f).
Proof.
  intros H1 H2 s H. apply yields_bind. eapply yields_conseq; [by apply H1|]. intros a s' H'. by apply H2.
Qed.

Lemma keeps_andthen (m1 m2 : M parse_state Z) : keeps P p m1 -> keeps P p m2 -> keeps P p (m1 &&; m2).
Proof. intros H1 H2. apply keeps_bind; [done|]. intros e. destruct (Z.eqb e 0); [done|]. apply keeps_ret. Qed.

Lemma keeps_gets {A} (g : parse_state -> A) : keeps P p (gets g).
Proof. intros s H. by apply yields_gets. Qed.

Lemma keeps_lift {A} (g : parse_state -> option A) : keeps P p (lift_opt g).
Proof. intros s H. by apply yields_lift. Qed.

Lemma keeps_ub {A} : keeps P p (ub : M parse_state A).
Proof. done. Qed.

Lemma keeps_in_text {A} (m : M text_state A) : keeps P p (in_text m).
Proof. intros s H r s' E. unfold in_text in E. destruct (m (ps_text s)) as [[a t]|]; [|done]. by injection E as <- <-. Qed.

Lemma keeps_share f : (forall sh, so_values (f sh) = so_values sh) -> keeps P p (set_share f).
Proof. intros Hf s H. apply yields_modify. unfold field in *. cbn. by rewrite Hf. Qed.

Lemma keeps_set_value q v : (q = p -> P (Some v)) -> keeps P p (set_value q v).
Proof.
  intros Hv s H. apply yields_modify. unfold field in *. cbn. destruct (decide (q = p)) as [->|Hne].
  - rewrite lookup_insert_eq. auto.
  - by rewrite lookup_insert_ne.
Qed.

Lemma keeps_all_steps l : Forall (keeps P p) l -> keeps P p (all_steps l).
Proof. induction 1 as [|m l H1 H2 IH]; simpl; [apply keeps_ret|]. by apply keeps_andthen. Qed.
End Keeps.

Create HintDb keeps_db discriminated.
#[export] Hint Resolve keeps_ret keeps_gets keeps_lift keeps_ub keeps_in_text : keeps_db.

Ltac keeps_tac :=
  repeat first
    [ progress intros
    | solve [auto 2 with keeps_db nocore]
    | apply keeps_ret | apply keeps_gets | apply keeps_lift | apply keeps_ub | apply keeps_in_text
    | apply keeps_andthen
    | apply keeps_bind
    | match goal with |- keeps _ _ (match ?x with _ => _ end) => destruct x end
    | match goal with |- keeps _ _ (if ?x then _ else _) => destruct x end ].

(** ** Values of the kind of an option *)

Definition in_bounds (k : option_kind) (z : Z) : Prop :=
  match k with
  | P_LONG_LIST lo hi | P_LONGLONG_LIST lo hi | P_INT_WITH_MAX lo hi => (lo <= z <= hi)%Z
  | P_INT lo | P_LONGLONG lo => (lo <= z)%Z
  | _ => True
  end.

Definition value_ok (k : option_kind) (v : value) : Prop :=
  match k, v with
  | P_STR, VStr _ => True
  | P_DOUBLE lo, VReal _ min_val => (lo <= min_val)%Z
  | P_STR_LIST, VStrs l => l <> []
  | P_LONG_LIST _ _, VNums l | P_LONGLONG_LIST _ _, VNums l => Forall (in_bounds k) l
  | P_INT_WITH_MAX _ _, VNum z | P_INT _, VNum z | P_LONGLONG _, VNum z => in_bounds k z
  | _, _ => False
  end.

Definition bounds_ordered (k : option_kind) : bool :=
  match k with
  | P_LONG_LIST lo hi | P_LONGLONG_LIST lo hi | P_INT_WITH_MAX lo hi => (lo <=? hi)%Z
  | _ => true
  end.

Lemma clamp_bounds lo hi z : (lo <= hi)%Z -> (lo <= clamp lo hi z <= hi)%Z.
Proof. intros H. unfold clamp. destruct (Z.ltb_spec z lo); [lia|]. destruct (Z.ltb_spec hi z); lia. Qed.

Section Parse.
  Context {OE : OptEnv}.

Lemma split_numbers_bounds conv lo hi first k tmp s :
  (lo <= hi)%Z -> yields (split_numbers conv lo hi first k tmp) s (fun r _ => Forall (fun z => (lo <= z <= hi)%Z) r.1).
Proof.
  intros Hlo. revert first tmp s. induction k as [|k IH]; intros first tmp s; simpl; [by apply yields_ret|].
  do 3 (apply yields_bind; eapply yields_conseq; [apply yields_true|]; intros ?x ?t _).
  apply yields_bind. eapply yields_conseq; [apply IH|]. intros r s' Hr. apply yields_ret. simpl.
  constructor; [by apply clamp_bounds|done].
Qed.

Lemma number_list_bounds conv str lo hi s : (lo <= hi)%Z ->
  yields (create_number_list oom conv str lo hi) s
    (fun r _ => match r with inr (Some l) => Forall (fun z => (lo <= z <= hi)%Z) l | _ => True end).
Proof.
  intros Hlo. unfold create_number_list.
  do 3 (apply yields_bind; eapply yields_conseq; [apply yields_true|]; intros ?x ?t _).
  case_match; [by apply yields_ret|].
  do 2 (apply yields_bind; eapply yields_conseq; [apply yields_true|]; intros ?x ?t _).
  case_match; [by apply yields_ret|].
  apply yields_bind. eapply yields_conseq; [by apply split_numbers_bounds|]. intros r s' Hr.
  apply yields_bind. eapply yields_conseq; [apply yields_true|]. intros [] s'' _. by apply yields_ret.
Qed.

Lemma string_list_nonempty str t :
  yields (spider_create_string_list oom str) t (fun r _ => match r with inr (Some l) => l <> [] | _ => True end).
Proof.
  unfold spider_create_string_list.
  do 3 (apply yields_bind; eapply yields_conseq; [apply yields_true|]; intros ?x ?t _).
  case_match; [by apply yields_ret|].
  do 2 (apply yields_bind; eapply yields_conseq; [apply yields_true|]; intros ?x ?t _).
  case_match; [by apply yields_ret|].
  apply yields_bind; eapply yields_conseq; [apply yields_true|]; intros tmp ?t _.
  apply yields_bind; eapply yields_conseq; [apply yields_true|]; intros [e|[vs p]] ?t _; [by apply yields_ret|].
  apply yields_bind; eapply yields_conseq; [apply yields_true|]; intros [v|] ?t _; [|by apply yields_ret].
  apply yields_bind; eapply yields_conseq; [apply yields_true|]; intros [] ?t _. apply yields_ret. by destruct vs.
Qed.

Lemma yields_in_text {A} (m : M text_state A) s (Q : A -> Prop) :
  yields m (ps_text s) (fun r _ => Q r) -> yields (in_text m) s (fun r s' => Q r /\ ps_share s' = ps_share s).
Proof.
  intros H r s' E. unfold in_text in E. destruct (m (ps_text s)) as [[a t]|] eqn:E1; [|done]. injection E as <- <-.
  split; [exact (H _ _ E1)|done].
Qed.

(** A step that binds a text computation with a known result. *)
Lemma keeps_text_bind {A B} P p (Q : A -> Prop) (m : M text_state A) (f : A -> M parse_state B) :
  (forall t, yields m t (fun r _ => Q r)) -> (forall a, Q a -> keeps P p (f a)) -> keeps P p (in_text m ≫= f).
Proof.
  intros H1 H2 s H. apply yields_bind. eapply yields_conseq; [apply yields_in_text, H1|]. intros a s' [Ha Hs].
  apply H2; [done|]. unfold field in *. by rewrite Hs.
Qed.

Lemma keeps_when_unset P p q i k :
  (q <> p \/ P None -> forall j, keeps P p (k j)) -> keeps P p (when_unset q i k).
Proof.
  intros H s Hs. apply yields_bind, yields_gets. destruct (so_values (ps_share s) !! q) as [v|] eqn:Eq; [by apply yields_ret|].
  assert (Hor : q <> p \/ P None).
  { destruct (decide (q = p)) as [->|Hne]; [right|by left]. unfold field in Hs. by rewrite Eq in Hs. }
  revert s Hs Eq. intros s Hs _. revert s Hs. fold (keeps P p (tmp_ptr2 ← in_text (in_buf (fun buf => between_quote buf i));
    match tmp_ptr2 with None => in_text print_param_error | Some j => k j end)).
  apply keeps_bind; [apply keeps_in_text|]. intros [j|]; [by apply H|apply keeps_in_text].
Qed.

Lemma keeps_set_numbers P p q k r :
  (forall v, value_ok k v -> q = p -> P (Some v)) ->
  (match r with inr (Some l) => value_ok k (VNums l) | _ => True end) -> keeps P p (set_numbers q r).
Proof.
  intros H Hr. unfold set_numbers. destruct r as [e|[l|]]; keeps_tac. apply keeps_set_value. auto.
Qed.

(** A parameter sets its field to a value of its kind, if it is not set yet. *)
Lemma keeps_set_param P p e tmp i :
  bounds_ordered (opt_kind e) = true ->
  (forall v, value_ok (opt_kind e) v -> opt_param e = p -> P None -> P (Some v)) ->
  keeps P p (set_param e tmp i).
Proof.
  intros Hb HP.
  assert (HP' : opt_param e <> p \/ P None -> forall v, value_ok (opt_kind e) v -> opt_param e = p -> P (Some v)).
  { intros [Hne|HN] v Hv Hp; [done|]. by apply HP. }
  unfold set_param. destruct (opt_kind e) as [| |n|n|lo hi|lo hi|lo hi|lo|lo|lo|] eqn:Ek; simpl in Hb.
  - apply keeps_when_unset. intros Hor j. keeps_tac. apply keeps_set_value. by apply HP'.
  - apply keeps_when_unset. intros Hor j. eapply keeps_text_bind; [intros t; apply string_list_nonempty|].
    intros [|[l|]] Hl; keeps_tac. apply keeps_set_value, HP'; [done|]. by destruct l.
  - unfold SPIDER_PARAM_HINT. keeps_tac; by apply keeps_share.
  - unfold SPIDER_PARAM_NUMHINT. keeps_tac; by apply keeps_share.
  - apply keeps_when_unset. intros Hor j. eapply keeps_text_bind; [intros t; apply number_list_bounds; lia|].
    intros r Hr. eapply keeps_set_numbers; [exact (HP' Hor)|]. destruct r as [|[]]; done.
  - apply keeps_when_unset. intros Hor j. eapply keeps_text_bind; [intros t; apply number_list_bounds; lia|].
    intros r Hr. eapply keeps_set_numbers; [exact (HP' Hor)|]. destruct r as [|[]]; done.
  - apply keeps_when_unset. intros Hor j. unfold number_at. keeps_tac. apply keeps_set_value, HP'; [done|].
    apply clamp_bounds. lia.
  - apply keeps_when_unset. intros Hor j. unfold number_at. keeps_tac. apply keeps_set_value, HP'; [done|]. simpl.
    destruct (Z.ltb_spec a lo); lia.
  - apply keeps_when_unset. intros Hor j. keeps_tac. apply keeps_set_value, HP'; [done|]. simpl. lia.
  - apply keeps_when_unset. intros Hor j. unfold number_at. keeps_tac. apply keeps_set_value, HP'; [done|]. simpl.
    destruct (Z.ltb_spec a lo); lia.
  - apply keeps_ret.
Qed.

(** ** The option table *)

Definition all_options : list option_entry := mjoin (options <$> seq 0 33).

Lemma options_in n e : e ∈ options n -> e ∈ all_options.
Proof.
  intros H. apply list_elem_of_join. exists (options n). split; [done|]. apply list_elem_of_fmap_2, elem_of_seq. split; [lia|].
  do 33 (destruct n as [|n]; [lia|]). by apply elem_of_nil in H.
Qed.

(** A property of the option table that can be evaluated. *)
Lemma option_check (f : option_entry -> bool) : forallb f all_options = true -> forall e, e ∈ all_options -> f e = true.
Proof. intros H e He. rewrite forallb_forall in H. by apply H, list_elem_of_In. Qed.

Lemma options_ordered e : e ∈ all_options -> bounds_ordered (opt_kind e) = true.
Proof. by apply (option_check (fun e => bounds_ordered (opt_kind e))). Qed.

Section Sources.
  Context (P : option value -> Prop) (p : string).
  Hypothesis P_set : forall e v, e ∈ all_options -> opt_param e = p -> value_ok (opt_kind e) v -> P None -> P (Some v).

Lemma keeps_find_param es tmp n i : (forall e, e ∈ es -> e ∈ all_options) -> keeps P p (find_param es tmp n i).
Proof.
  induction es as [|e es IH]; intros Hes; simpl; [apply keeps_in_text|]. apply keeps_bind; [apply keeps_lift|]. intros [|].
  - apply keeps_set_param; [apply options_ordered, Hes; by left|]. intros v Hv Hp HN. apply (P_set e); [apply Hes; by left|done..].
  - apply IH. intros e' He'. apply Hes. by right.
Qed.

Lemma keeps_parse_param i : keeps P p (parse_param i).
Proof.
  unfold parse_param. keeps_tac. apply keeps_find_param. apply options_in.
Qed.

Lemma keeps_parse_params fuel i : keeps P p (parse_params fuel i).
Proof.
  revert i. induction fuel as [|fuel IH]; intros i; simpl; [apply keeps_ub|]. apply keeps_bind; [apply keeps_lift|].
  intros [c|]; [|apply keeps_parse_param]. apply keeps_bind; [apply keeps_in_text|]. intros _.
  apply keeps_andthen; [apply keeps_parse_param|apply IH].
Qed.

Lemma keeps_parse_sources l : keeps P p (parse_sources l).
Proof.
  induction l as [|[src|] l IH]; cbn [parse_sources]; [apply keeps_ret| |done]. apply keeps_bind; [apply keeps_in_text|]. intros ok.
  destruct (negb ok); [apply keeps_ret|]. apply keeps_bind; [apply keeps_lift|]. intros pi. apply keeps_bind.
  - intros s H. by apply yields_modify.
  - intros _. apply keeps_andthen; [apply keeps_parse_params|done].
Qed.
End Sources.

(** C14. The first value of an option counts: once a parameter has set an option, no
    later parameter and no later source (the comment of the subpartition comes
    before that of the partition, that of the table and the connect string)
    changes it, whatever these texts are and however parsing ends. *)
Theorem first_value_counts sources s r s' p v :
  so_values (ps_share s) !! p = Some v ->
  parse_sources sources s = Some (r, s') ->
  so_values (ps_share s') !! p = Some v.
Proof.
  intros Hv E. assert (K : keeps (eq (Some v)) p (parse_sources sources)) by by apply keeps_parse_sources.
  symmetry. exact (K s (eq_sym Hv) _ _ E).
Qed.

(** ** The lists *)

(** [m] leads from [A] to [B] if it succeeds. *)
Definition leads (A B : option value -> Prop) (p : string) (m : M parse_state Z) : Prop :=
  forall s, A (field s p) -> yields m s (fun r s' => r = 0%Z -> B (field s' p)).

Lemma leads_keeps B p m : keeps B p m -> leads B B p m.
Proof. intros H s Hs r s' E _. exact (H s Hs r s' E). Qed.

Lemma leads_then A B C p m1 m2 : leads A B p m1 -> leads B C p m2 -> leads A C p (m1 &&; m2).
Proof.
  intros H1 H2 s Hs. apply yields_andthen. eapply yields_conseq; [by apply H1|]. intros e s' He. simpl in He.
  destruct (Z.eqb_spec e 0) as [->|Hne]; [|done]. by apply H2, He.
Qed.

(** One of the steps leads to [B], and all of them keep [A] and [B]. *)
Lemma leads_steps A B p l m :
  m ∈ l -> leads A B p m -> Forall (keeps A p) l -> Forall (keeps B p) l -> leads A B p (all_steps l).
Proof.
  intros Hm HAB. induction l as [|m' l IH]; intros HA HB; [by apply elem_of_nil in Hm|]. simpl.
  apply Forall_cons in HA as [HA1 HA2]. apply Forall_cons in HB as [HB1 HB2]. apply elem_of_cons in Hm as [<-|Hm].
  - eapply leads_then; [done|]. by apply leads_keeps, keeps_all_steps.
  - eapply leads_then; [by apply leads_keeps|]. by apply IH.
Qed.

Definition unset_or (k : option_kind) (z : Z) : Prop := z = (-1)%Z \/ in_bounds k z.

(** The field of a list before and after it is stretched. *)
Definition some_numbers (k : option_kind) (o : option value) : Prop :=
  match o with None => True | Some (VNums l) => Forall (unset_or k) l | _ => False end.

Definition one_number (Q : Z -> Prop) (o : option value) : Prop := exists z, o = Some (VNums [z]) /\ Q z.

Definition some_strings (o : option value) : Prop := match o with None | Some (VStrs _) => True | _ => False end.

Definition one_string (o : option value) : Prop := exists x, o = Some (VStrs [x]).

Lemma keeps_store_list {A} P p q (mk : A -> value) r :
  (forall l, r = inr (Some l) -> q = p -> P (Some (mk l))) -> keeps P p (store_list q mk r).
Proof. intros H. unfold store_list. destruct r as [e|[l|]]; keeps_tac. apply keeps_set_value. auto. Qed.

Lemma keeps_increase_other P p n f : f.1 <> p -> keeps P p (increase_list n f).
Proof.
  intros Hne. unfold increase_list, in_share. apply keeps_bind; [apply keeps_gets|]. intros sh.
  destruct (f.2); (apply keeps_bind; [apply keeps_in_text|]; intros r; by apply keeps_store_list).
Qed.

(** The result of stretching a list to one element. *)
Lemma increase_long_one (l : option (list Z)) t :
  yields (spider_increase_long_list oom l 1) t
    (fun r _ => match r with inl e => e <> 0%Z | inr r => exists z, r = Some [z] /\ (z = (-1)%Z \/ exists l', l = Some l' /\ z ∈ l') end).
Proof.
  unfold spider_increase_long_list. destruct (Nat.eqb_spec (match l with Some l => length l | None => 0 end) 1) as [El|Hne].
  { apply yields_ret. destruct l as [[|z [|]]|]; try done. exists z. split; [done|]. right. eexists. split; [done|]. by left. }
  destruct (Nat.ltb _ _); [by apply yields_ret|]. apply yields_bind. eapply yields_conseq; [apply yields_true|].
  intros ok t' _. apply yields_ret. destruct ok; [|done]. eexists. split; [done|].
  destruct l as [[|z l]|]; [by left| |by left]. right. eexists. split; [done|]. by left.
Qed.

Lemma increase_string_one (l : option (list (option (list N)))) t :
  yields (spider_increase_string_list oom l 1) t
    (fun r _ => match r with inl e => e <> 0%Z | inr r => exists x, r = Some [x] end).
Proof.
  unfold spider_increase_string_list. destruct (Nat.eqb_spec (match l with Some l => length l | None => 0 end) 1) as [El|Hne].
  { apply yields_ret. destruct l as [[|x [|]]|]; try done. by exists x. }
  destruct (Nat.ltb _ _); [by apply yields_ret|]. apply yields_bind. eapply yields_conseq; [apply yields_true|].
  intros ok t' _. destruct ok; [|by apply yields_ret]. simpl. apply yields_bind. eapply yields_conseq; [apply yields_true|].
  intros ok t'' _. apply yields_ret. destruct ok; [|done]. by eexists.
Qed.

Lemma increase_null_one (l : option (list (option (list N)))) t :
  yields (spider_increase_null_string_list oom l 1) t
    (fun r _ => match r with inl e => e <> 0%Z | inr r => exists x, r = Some [x] end).
Proof.
  unfold spider_increase_null_string_list. destruct (Nat.eqb_spec (length (default [] l)) 1) as [El|Hne].
  { apply yields_ret. destruct l as [[|x [|]]|]; try done. by exists x. }
  apply yields_bind. eapply yields_conseq; [apply yields_true|]. intros ok t' _. destruct ok; [|by apply yields_ret]. simpl.
  destruct (Nat.ltb_spec 1 (length (default [] l))); [apply yields_ub|]. apply yields_ret.
  destruct l as [[|x l]|]; simpl in *; [by eexists|lia|by eexists].
Qed.
Lemma numbers_of_field s p l : numbers_of (ps_share s) p = Some l -> field s p = Some (VNums l).
Proof. unfold numbers_of, field. by destruct (so_values (ps_share s) !! p) as [[]|]; intros [= <-]. Qed.

Lemma strings_of_field s p l : strings_of (ps_share s) p = Some l -> field s p = Some (VStrs l).
Proof. unfold strings_of, field. by destruct (so_values (ps_share s) !! p) as [[]|]; intros [= <-]. Qed.

Lemma yields_set_value p v s (Q : unit -> parse_state -> Prop) :
  (forall s', field s' p = Some v -> Q tt s') -> yields (set_value p v) s Q.
Proof. intros H. apply yields_modify, H. unfold field. cbn. apply lookup_insert_eq. Qed.

Lemma increase_numbers p s :
  yields (increase_list 1 (p, number_list)) s (fun r s' =>
    (r <> 0%Z /\ field s' p = field s p) \/
    exists z, field s' p = Some (VNums [z]) /\ (z = (-1)%Z \/ exists l, field s p = Some (VNums l) /\ z ∈ l)).
Proof.
  unfold increase_list, in_share. apply yields_bind, yields_gets. simpl. apply yields_bind.
  eapply yields_conseq; [apply yields_in_text, increase_long_one|]. intros r s' [Hr Hsh]. simpl in Hr. unfold store_list.
  destruct r as [e|r]; [apply yields_ret; left; split; [done|]; unfold field; by rewrite Hsh|].
  destruct Hr as (z & -> & Hz). apply yields_bind, yields_set_value. intros s'' Hs''. apply yields_ret. right. exists z.
  split; [done|]. destruct Hz as [->|(l & Hl & Hz)]; [by left|]. right. exists l. split; [|done]. by apply numbers_of_field.
Qed.

Lemma increase_strings p k s : k <> number_list ->
  yields (increase_list 1 (p, k)) s (fun r s' =>
    (r <> 0%Z /\ field s' p = field s p) \/ exists x, field s' p = Some (VStrs [x])).
Proof.
  intros Hk. unfold increase_list, in_share. apply yields_bind, yields_gets. simpl.
  destruct k; [| |done]; (apply yields_bind; eapply yields_conseq;
    [apply yields_in_text; first [apply increase_string_one|apply increase_null_one]|];
    intros r s' [Hr Hsh]; simpl in Hr; unfold store_list;
    destruct r as [e|r]; [apply yields_ret; left; split; [done|]; unfold field; by rewrite Hsh|];
    destruct Hr as (x & ->); apply yields_bind, yields_set_value; intros s'' Hs''; apply yields_ret; right; by exists x).
Qed.

(** Stretching keeps what is known of a list, and gives it one element. *)
Lemma increase_number_steps k p :
  leads (some_numbers k) (one_number (unset_or k)) p (increase_list 1 (p, number_list)) /\
  keeps (some_numbers k) p (increase_list 1 (p, number_list)) /\
  keeps (one_number (unset_or k)) p (increase_list 1 (p, number_list)).
Proof.
  assert (H : forall s z, some_numbers k (field s p) -> z = (-1)%Z \/ (exists l, field s p = Some (VNums l) /\ z ∈ l) -> unset_or k z).
  { intros s z Hs [->|(l & Hl & Hz)]; [by left|]. rewrite Hl in Hs. simpl in Hs. rewrite Forall_forall in Hs. by apply Hs. }
  split_and!; intros s Hs; (eapply yields_conseq; [apply increase_numbers|]); intros r s' Hr.
  - intros ->. destruct Hr as [[]|(z & Hz & Hor)]; [done|]. exists z. split; [done|]. by apply (H s).
  - destruct Hr as [[_ ->]|(z & -> & Hor)]; [done|]. simpl. constructor; [by apply (H s)|done].
  - destruct Hr as [[_ ->]|(z & Hz & Hor)]; [done|]. exists z. split; [done|]. apply (H s); [|done].
    destruct Hs as (z' & -> & Hz'). simpl. by constructor.
Qed.

Lemma increase_string_steps p k : k <> number_list ->
  leads some_strings one_string p (increase_list 1 (p, k)) /\
  keeps some_strings p (increase_list 1 (p, k)) /\
  keeps one_string p (increase_list 1 (p, k)).
Proof.
  intros Hk. split_and!; intros s Hs; (eapply yields_conseq; [by apply increase_strings|]); intros r s' Hr.
  - intros ->. by destruct Hr as [[]|Hr].
  - destruct Hr as [[_ ->]|(z & ->)]; done.
  - destruct Hr as [[_ ->]|Hr]; done.
Qed.

Lemma keeps_increase_list P p f :
  (f.1 = p -> keeps P p (increase_list 1 f)) -> keeps P p (increase_list 1 f).
Proof. intros H. destruct (decide (f.1 = p)) as [Hp|Hne]; [by apply H|by apply keeps_increase_other]. Qed.

(** [A] leads to [B] over all lists if it does for the list [p] of kind [k]. *)
Lemma leads_increase A B p k :
  (p, k) ∈ link_lists -> (forall k', (p, k') ∈ link_lists -> k' = k) -> leads A B p (increase_list 1 (p, k)) ->
  keeps A p (increase_list 1 (p, k)) -> keeps B p (increase_list 1 (p, k)) ->
  leads A B p (increase_lists 1).
Proof.
  intros Hin Huniq HL HA HB. unfold increase_lists.
  assert (Hk : forall Q, keeps Q p (increase_list 1 (p, k)) -> Forall (keeps Q p) (increase_list 1 <$> link_lists)).
  { intros Q HQ. apply Forall_fmap, Forall_forall. intros [q k'] Hq. apply keeps_increase_list. simpl. intros ->.
    by rewrite (Huniq _ Hq). }
  eapply leads_steps; [|exact HL|by apply Hk..]. by apply list_elem_of_fmap_2.
Qed.
(** ** The defaults *)

Definition strings_stable (P : option value -> Prop) : Prop :=
  forall l i x, P (Some (VStrs l)) -> P (Some (VStrs (<[i := Some x]> l))).

Lemma keeps_set_string P p q i x : strings_stable P -> keeps P p (set_string q i x).
Proof.
  intros HP s Hs. apply yields_bind, yields_lift. intros l Hl. apply yields_bind.
  apply strings_of_field in Hl. eapply yields_conseq; [|intros u s' H; apply yields_ret; exact H].
  apply keeps_set_value; [|done]. intros ->. rewrite Hl in Hs. by apply HP.
Qed.

#[local] Hint Resolve keeps_set_string : keeps_db.

Lemma keeps_default_string P p q i x : strings_stable P -> keeps P p (default_string q i x).
Proof. intros HP. unfold default_string, new_memory. keeps_tac. Qed.

Lemma keeps_default_table_name P p t i : strings_stable P -> keeps P p (default_table_name t i).
Proof.
  intros HP. unfold default_table_name, new_memory. keeps_tac. by apply keeps_share.
Qed.

Lemma keeps_update_number P p q i f :
  (q = p -> forall l z, l !! i = Some z -> P (Some (VNums l)) -> P (Some (VNums (<[i := f z]> l)))) ->
  keeps P p (update_number q i f).
Proof.
  intros HP s Hs. apply yields_bind, yields_lift. intros z Hz. apply yields_bind, yields_lift. intros l Hl.
  unfold number_at_link in Hz. rewrite Hl in Hz. simpl in Hz. apply yields_bind. apply numbers_of_field in Hl.
  eapply yields_conseq; [|intros u s' H; apply yields_ret; exact H].
  apply keeps_set_value; [|done]. intros ->. rewrite Hl in Hs. by apply HP.
Qed.

(** The numbers of a link that get a default. *)
Definition link_numbers (sid : Z) : list (string * Z) := ("tgt_ssl_vscs"%string, 0%Z) :: number_defaults sid.

Lemma keeps_link_defaults P p t :
  strings_stable P -> p <> "tgt_ports"%string ->
  (forall d, (p, d) ∈ link_numbers server_id -> keeps P p (default_number p 0 d)) ->
  Forall (keeps P p) (link_defaults t 0).
Proof.
  intros HP Hp Hn.
  assert (Hnum : forall f, f ∈ link_numbers server_id -> keeps P p (default_number f.1 0 f.2)).
  { intros [q d] Hf. simpl. destruct (decide (q = p)) as [->|Hne]; [by apply Hn|]. by apply keeps_update_number. }
  assert (Hstr : forall q i x, keeps P p (default_string q i x)) by (intros; by apply keeps_default_string).
  assert (Hport : forall f, keeps P p (update_number "tgt_ports" 0 f)) by (intros; by apply keeps_update_number).
  unfold link_defaults. rewrite Forall_app, !Forall_cons, Forall_nil. split_and!; try done; try apply Hstr; try apply Hport.
  - apply keeps_bind; [apply keeps_lift|]. intros [name|]; [|apply keeps_ret]. unfold spider_get_server.
    apply keeps_bind; [apply keeps_lift|]. intros name'. destruct (get_server_by_name name'); [|apply keeps_ret].
    apply keeps_all_steps. rewrite !Forall_cons, Forall_nil. split_and!; try done; first [apply Hstr|apply Hport].
  - by apply keeps_default_table_name.
  - apply keeps_bind; [apply keeps_lift|]. intros [g|]; [apply Hstr|apply keeps_ret].
  - apply (Hnum ("tgt_ssl_vscs"%string, 0%Z)). by left.
  - apply keeps_bind; [apply keeps_lift|]. intros h. apply Hstr.
  - apply Forall_fmap, Forall_forall. intros f Hf. apply Hnum. by right.
Qed.

Lemma keeps_default_field P p f : (f.1 = p -> P None -> P (Some f.2)) -> keeps P p (default_field f).
Proof.
  intros HP s Hs. unfold default_field. apply yields_bind, yields_modify, yields_ret. unfold field in *. cbn.
  destruct (so_values (ps_share s) !! f.1) eqn:E; [done|]. destruct (decide (f.1 = p)) as [Hp|Hne].
  - rewrite <- Hp, lookup_insert_eq. rewrite <- Hp, E in Hs. auto.
  - by rewrite lookup_insert_ne.
Qed.

Lemma keeps_default_engine P p :
  (p = "bka_engine"%string -> P None -> P (Some (VStr SPIDER_SQL_TMP_BKA_ENGINE_STR))) -> keeps P p default_engine.
Proof.
  intros HP s Hs. unfold default_engine, in_share. apply yields_bind, yields_gets.
  destruct (so_values (ps_share s) !! "bka_engine"%string) eqn:E; [by apply yields_ret|].
  cut (keeps P p (ok ← new_memory; if negb ok then mret HA_ERR_OUT_OF_MEM else
      set_value "bka_engine" (VStr SPIDER_SQL_TMP_BKA_ENGINE_STR);; mret 0%Z)); [intros K; by apply K|].
  unfold new_memory. keeps_tac. apply keeps_set_value. intros <-. apply HP; [done|]. unfold field in Hs. by rewrite E in Hs.
Qed.
(** ** The table again *)

#[local] Instance option_kind_eq : EqDecision option_kind.
Proof. solve_decision. Defined.

#[local] Instance in_bounds_dec k z : Decision (in_bounds k z).
Proof. destruct k; simpl; apply _. Defined.

#[local] Instance value_ok_dec k v : Decision (value_ok k v).
Proof. destruct k, v; simpl; apply _. Defined.

(** The titles of an option agree on its kind and bounds. *)
Lemma option_kind_unique e e' :
  e ∈ all_options -> e' ∈ all_options -> opt_param e = opt_param e' -> opt_kind e = opt_kind e'.
Proof.
  intros He He'.
  assert (H : forallb (fun e => forallb (fun e' => negb (bool_decide (opt_param e = opt_param e'))
    || bool_decide (opt_kind e = opt_kind e')) all_options) all_options = true) by (vm_compute; reflexivity).
  pose proof (option_check _ H _ He) as H1. pose proof (option_check _ H1 _ He') as H2.
  intros Hp. simpl in H2. rewrite (bool_decide_eq_true_2 (_ = _)) in H2 by done. by apply bool_decide_eq_true in H2.
Qed.

Inductive option_class := numbers | strings | scalar | other.

Definition class_of (k : option_kind) : option_class :=
  match k with
  | P_LONG_LIST _ _ | P_LONGLONG_LIST _ _ => numbers
  | P_STR_LIST => strings
  | P_STR | P_INT_WITH_MAX _ _ | P_INT _ | P_DOUBLE _ | P_LONGLONG _ => scalar
  | P_HINT _ | P_NUMHINT _ | P_IGNORE => other
  end.

(** The options that have no default, and the list that is not stretched. *)
Definition no_default (p : string) : bool :=
  bool_decide (p ∈ ["static_records_for_status"; "static_mean_rec_length"]%string).

Definition not_stretched (p : string) : bool := bool_decide (p = "tgt_shard_keys"%string).

(** What the defaults and the lists of links have to do with an option. *)
Definition covered (e : option_entry) : bool :=
  let p := opt_param e in
  let k := opt_kind e in
  negb (bool_decide (p = "tgt_ports"%string)) &&
  match class_of k with
  | numbers =>
      bool_decide ((p, number_list) ∈ link_lists) &&
      forallb (fun f => negb (bool_decide (f.1 = p)) || bool_decide (f.2 = number_list)) link_lists &&
      bool_decide (p ∈ (link_numbers 0).*1) &&
      forallb (fun f => negb (bool_decide (f.1 = p)) || bool_decide (in_bounds k f.2)) (link_numbers 0)
  | strings =>
      not_stretched p ||
      (bool_decide (p ∈ link_lists.*1) &&
       forallb (fun f => negb (bool_decide (f.1 = p)) || negb (bool_decide (f.2 = number_list))) link_lists)
  | scalar =>
      negb (bool_decide (p ∈ link_lists.*1)) &&
      (if bool_decide (k = P_STR) then bool_decide (p = "bka_engine"%string)
       else no_default p || bool_decide (p ∈ (field_defaults 1).*1)) &&
      forallb (fun f => negb (bool_decide (f.1 = p)) || bool_decide (value_ok k f.2)) (field_defaults 1)
  | other => true
  end.

Lemma options_covered e : e ∈ all_options -> covered e = true.
Proof. apply option_check. vm_compute. reflexivity. Qed.
Lemma forallb_elem {A} (f : A -> bool) l x : forallb f l = true -> x ∈ l -> f x = true.
Proof. rewrite forallb_forall. intros H Hx. by apply H, list_elem_of_In. Qed.

(** A test [name differs or b] on an element with the name. *)
Lemma guarded (b c : Prop) `{!Decision b, !Decision c} :
  (negb (bool_decide b) || bool_decide c) = true -> b -> c.
Proof. intros H Hb. rewrite (bool_decide_eq_true_2 b) in H by done. by apply bool_decide_eq_true in H. Qed.

(** ** The whole function *)

(** From what parsing leaves in a field over the lists and the defaults. *)
Lemma leads_parse A B C p t create :
  (forall e v, e ∈ all_options -> opt_param e = p -> value_ok (opt_kind e) v -> A None -> A (Some v)) ->
  leads A B p (increase_lists 1) -> leads B C p (spider_set_connect_info_default t 1) ->
  leads A C p (spider_parse_connect_info t create).
Proof.
  intros HA HAB HBC. unfold spider_parse_connect_info, all_link_count.
  eapply leads_then; [by apply leads_keeps, keeps_parse_sources|].
  eapply leads_then; [exact HAB|]. eapply leads_then; [apply leads_keeps; unfold copy_for_alter, new_memory; keeps_tac|].
  eapply leads_then; [exact HBC|]. apply leads_keeps. apply keeps_andthen.
  - destruct create; [|apply keeps_ret]. apply keeps_all_steps, Forall_fmap, Forall_forall. intros i _.
    apply keeps_all_steps. apply Forall_cons. split; [apply keeps_lift|]. apply Forall_app. split.
    + apply Forall_fmap, Forall_forall. intros f _. apply keeps_lift.
    + apply Forall_cons. split; [apply keeps_lift|done].
  - unfold set_link_count. keeps_tac. by apply keeps_share.
Qed.

(** The defaults of the link, of the fields and of the engine. *)
Lemma leads_defaults B C D p t :
  leads B C p (all_steps (link_defaults t 0)) -> leads C D p (all_steps (default_field <$> field_defaults 1)) ->
  keeps D p default_engine -> leads B D p (spider_set_connect_info_default t 1).
Proof.
  intros H1 H2 H3. unfold spider_set_connect_info_default. cbn [seq fmap list_fmap all_steps].
  eapply leads_then; [eapply leads_then; [exact H1|apply leads_keeps, keeps_ret]|].
  eapply leads_then; [exact H2|]. by apply leads_keeps.
Qed.

(** Fields that are set are not touched by the last defaults. *)
Lemma keeps_fields P p : ~ P None -> keeps P p (all_steps (default_field <$> field_defaults 1)) /\ keeps P p default_engine.
Proof.
  intros HN. split; [|by apply keeps_default_engine]. apply keeps_all_steps, Forall_fmap, Forall_forall. intros f _.
  by apply keeps_default_field.
Qed.

Lemma if_unset_one (Q R : Z -> Prop) p d :
  (forall z, Q z -> R (if_unset d z)) -> leads (one_number Q) (one_number R) p (default_number p 0 d).
Proof.
  intros HQ s (z & Hz & Qz). unfold default_number, update_number. apply yields_bind, yields_lift. intros z' Hz'.
  apply yields_bind, yields_lift. intros l Hl. unfold number_at_link in Hz'. rewrite Hl in Hz'. apply numbers_of_field in Hl.
  rewrite Hz in Hl. injection Hl as <-. injection Hz' as <-. apply yields_bind, yields_set_value. intros s' Hs'.
  apply yields_ret. intros _. exists (if_unset d z). auto.
Qed.

Lemma keeps_default_one (Q : Z -> Prop) p d :
  (forall z, Q z -> Q (if_unset d z)) -> keeps (one_number Q) p (default_number p 0 d).
Proof.
  intros HQ. apply keeps_update_number. intros _ l z Hl (z' & [= ->] & Qz). injection Hl as ->. exists (if_unset d z). auto.
Qed.

Lemma if_unset_cases d z : if_unset d z = d \/ (if_unset d z = z /\ z <> (-1)%Z).
Proof. unfold if_unset. destruct (Z.eqb_spec z (-1)); auto. Qed.

(** The default of a number of a link is within the bounds of the option. *)
Hypothesis server_id_range : (0 <= server_id <= 4294967295)%Z.

Lemma number_defaults_cases p d :
  (p, d) ∈ link_numbers server_id -> (p, d) ∈ link_numbers 0 \/ (p = "monitoring_sid"%string /\ d = server_id).
Proof.
  intros H. change (link_numbers server_id) with
    (take 9 (link_numbers 0) ++ ("monitoring_sid"%string, server_id) :: drop 10 (link_numbers 0)) in H.
  apply elem_of_app in H as [H|H]; [left; rewrite <- (take_drop 9), elem_of_app; by left|].
  apply elem_of_cons in H as [[= -> ->]|H]; [by right|]. left. rewrite <- (take_drop 10), elem_of_app. by right.
Qed.

Lemma number_names sid p : p ∈ (link_numbers 0).*1 -> exists d, (p, d) ∈ link_numbers sid.
Proof.
  intros H. change (link_numbers 0).*1 with (link_numbers sid).*1 in H.
  apply list_elem_of_fmap in H as ([q d] & -> & H). by exists d.
Qed.

Lemma number_default_bounds e d :
  e ∈ all_options -> class_of (opt_kind e) = numbers -> (opt_param e, d) ∈ link_numbers server_id -> in_bounds (opt_kind e) d.
Proof.
  intros He Hk Hd. pose proof (options_covered e He) as Hc. unfold covered in Hc. rewrite Hk in Hc.
  rewrite !andb_true_iff in Hc. destruct Hc as (_ & (_ & _) & Hb). apply number_defaults_cases in Hd as [Hd|[Hp ->]].
  - exact (guarded _ _ (forallb_elem _ _ _ Hb Hd) eq_refl).
  - rewrite (option_kind_unique e (entry "monitoring_server_id" "monitoring_sid" (P_LONGLONG_LIST 0 4294967295))); [done|done| |done].
    apply (options_in 20). by left.
Qed.
(** A value that parsing gives to the option is of its kind. *)
Lemma same_kind e e' v : e ∈ all_options -> e' ∈ all_options -> opt_param e' = opt_param e ->
  value_ok (opt_kind e') v -> value_ok (opt_kind e) v.
Proof. intros He He' Hp. by rewrite (option_kind_unique e' e). Qed.

Lemma numbers_leads e t create : e ∈ all_options -> class_of (opt_kind e) = numbers ->
  leads (some_numbers (opt_kind e)) (one_number (in_bounds (opt_kind e))) (opt_param e) (spider_parse_connect_info t create).
Proof.
  intros He Hk. pose proof (options_covered e He) as Hc. unfold covered in Hc. rewrite Hk, !andb_true_iff in Hc.
  destruct Hc as (Hports & ((Hin & Huniq) & Hnames) & _). apply negb_true_iff, bool_decide_eq_false in Hports.
  apply bool_decide_eq_true in Hin, Hnames. destruct (increase_number_steps (opt_kind e) (opt_param e)) as (HL & HA & HB).
  pose proof (fun d => number_default_bounds e d He Hk) as Hd. destruct (number_names server_id _ Hnames) as [d0 Hd0].
  apply leads_parse with (B := one_number (unset_or (opt_kind e))).
  - intros e' v He' Hp Hv _. apply (same_kind e) in Hv; [|done..]. destruct (opt_kind e), v; try done; simpl in *;
      (eapply Forall_impl; [exact Hv|]; intros; by right).
  - eapply leads_increase; [exact Hin| |done..]. intros k' Hk'. exact (guarded _ _ (forallb_elem _ _ _ Huniq Hk') eq_refl).
  - eapply (leads_defaults _ _ _ _ _); [|apply leads_keeps, keeps_fields; by intros (? & ? & _)|apply keeps_fields; by intros (? & ? & _)].
    eapply leads_steps with (m := default_number (opt_param e) 0 d0).
    + unfold link_defaults. apply elem_of_cons in Hd0 as [[= Hp ->]|Hd0].
      * rewrite Hp. apply elem_of_app. left. rewrite !elem_of_cons. tauto.
      * apply elem_of_app. right. apply list_elem_of_fmap. by exists (opt_param e, d0).
    + apply if_unset_one. intros z Hz. destruct (if_unset_cases d0 z) as [->|[-> Hne]]; [by apply Hd|]. by destruct Hz.
    + apply keeps_link_defaults; [intros l i x (? & ? & _); done|done|]. intros d Hdin. apply keeps_default_one.
      intros z Hz. destruct (if_unset_cases d z) as [->|[-> Hne]]; [right; by apply Hd|done].
    + apply keeps_link_defaults; [intros l i x (? & ? & _); done|done|]. intros d Hdin. apply keeps_default_one.
      intros z Hz. destruct (if_unset_cases d z) as [->|[-> Hne]]; [by apply Hd|done].
Qed.

Lemma keeps_new_memory P p : keeps P p new_memory.
Proof. unfold new_memory. keeps_tac. Qed.

(** The string lists whose element has a default. *)
Definition text_lists : list string :=
  ["tgt_wrappers"; "tgt_hosts"; "tgt_dbs"; "tgt_table_names"; "tgt_pk_names"; "tgt_sequence_names"]%string.

Definition has_text (p : string) : bool := bool_decide (p ∈ text_lists).

Definition one_text (o : option value) : Prop := exists x, o = Some (VStrs [Some x]).

Lemma one_string_at s p o : one_string (field s p) -> string_at (ps_share s) p 0 = Some o -> field s p = Some (VStrs [o]).
Proof.
  intros [x Hx] Ho. rewrite Hx. unfold string_at, strings_of in Ho. unfold field in Hx. rewrite Hx in Ho. by injection Ho as ->.
Qed.

Lemma set_string_text p x : leads one_string one_text p (set_string p 0 x).
Proof.
  intros st [y Hy]. unfold set_string. apply yields_bind, yields_lift. intros l Hl. apply strings_of_field in Hl. rewrite Hy in Hl.
  injection Hl as <-. apply yields_bind, yields_set_value. intros s' Hs'. apply yields_ret. intros _. by exists x.
Qed.

Lemma default_string_text p x : leads one_string one_text p (default_string p 0 (Some x)).
Proof.
  intros s Hs. unfold default_string. apply yields_bind, yields_lift. intros [o|] Ho; apply (one_string_at _ _ _ Hs) in Ho.
  - apply yields_ret. intros _. by exists o.
  - apply yields_bind. eapply yields_conseq; [apply (keeps_new_memory one_string p); exact Hs|]. intros ok s' Hs'.
    destruct ok; simpl; [|by apply yields_ret]. by apply set_string_text.
Qed.

Lemma default_table_name_text t : leads one_string one_text "tgt_table_names" (default_table_name t 0).
Proof.
  intros s Hs. unfold default_table_name. apply yields_bind, yields_lift. intros [o|] Ho; apply (one_string_at _ _ _ Hs) in Ho.
  - apply yields_ret. intros _. by exists o.
  - apply yields_bind, yields_modify, yields_bind. eapply yields_conseq; [apply (keeps_new_memory one_string "tgt_table_names"); exact Hs|].
    intros ok s' Hs'. destruct ok; simpl; [|by apply yields_ret]. by apply set_string_text.
Qed.

Lemma text_default p t : has_text p = true -> exists m, m ∈ link_defaults t 0 /\ leads one_string one_text p m.
Proof.
  intros Hp%bool_decide_eq_true. unfold text_lists in Hp. rewrite !elem_of_cons, elem_of_nil in Hp.
  destruct Hp as [->|[->|[->|[->|[->|[->|[]]]]]]]; (eexists; split; [|first [apply default_table_name_text|apply default_string_text]]);
    unfold link_defaults; apply elem_of_app; left; repeat first [apply list_elem_of_here|apply list_elem_of_further].
Qed.

Lemma string_link_defaults p t : p <> "tgt_ports"%string ->
  Forall (keeps one_string p) (link_defaults t 0) /\ Forall (keeps one_text p) (link_defaults t 0).
Proof.
  intros Hp. split; apply keeps_link_defaults; try done.
  - intros l i x (y & [= ->]). destruct i; [by exists (Some x)|by exists y].
  - intros d _. apply keeps_update_number. intros _ l z _ (y & ?). done.
  - intros l i x (y & [= ->]). destruct i; [by exists x|by exists y].
  - intros d _. apply keeps_update_number. intros _ l z _ (y & ?). done.
Qed.

(** What the element of a string list is after the defaults. *)
Definition string_done (p : string) : option value -> Prop := if has_text p then one_text else one_string.

Lemma string_defaults p t : p <> "tgt_ports"%string -> leads one_string (string_done p) p (all_steps (link_defaults t 0)).
Proof.
  intros Hp. destruct (string_link_defaults p t Hp) as [K1 K2]. unfold string_done. destruct (has_text p) eqn:Et.
  - destruct (text_default p t Et) as (m & Hm & Hl). by eapply leads_steps.
  - by apply leads_keeps, keeps_all_steps.
Qed.

Lemma strings_leads e t create : e ∈ all_options -> class_of (opt_kind e) = strings -> not_stretched (opt_param e) = false ->
  leads some_strings (string_done (opt_param e)) (opt_param e) (spider_parse_connect_info t create).
Proof.
  intros He Hk Hs. pose proof (options_covered e He) as Hc. unfold covered in Hc. rewrite Hk, Hs, orb_false_l, !andb_true_iff in Hc.
  destruct Hc as (Hports & Hin & Hkind). apply negb_true_iff, bool_decide_eq_false in Hports.
  apply bool_decide_eq_true, list_elem_of_fmap in Hin as ([q k] & Hq & Hin). simpl in Hq. subst q.
  assert (Hnk : forall k', (opt_param e, k') ∈ link_lists -> k' <> number_list).
  { intros k' Hk'. pose proof (forallb_elem _ _ _ Hkind Hk') as Hg. simpl in Hg. rewrite bool_decide_eq_true_2 in Hg by done.
    simpl in Hg. by apply negb_true_iff, bool_decide_eq_false in Hg. }
  assert (Hstep : forall Q, (forall k, k <> number_list -> keeps Q (opt_param e) (increase_list 1 (opt_param e, k))) ->
    Forall (keeps Q (opt_param e)) (increase_list 1 <$> link_lists)).
  { intros Q HQ. apply Forall_fmap, Forall_forall. intros [q k'] Hq. apply keeps_increase_list. simpl. intros ->. by apply HQ, Hnk. }
  apply leads_parse with (B := one_string).
  - intros e' v He' Hp Hv _. apply (same_kind e) in Hv; [|done..]. destruct (opt_kind e), v; done.
  - eapply leads_steps with (m := increase_list 1 (opt_param e, k)).
    + by apply list_elem_of_fmap_2.
    + by apply increase_string_steps, Hnk.
    + apply Hstep. intros. by apply increase_string_steps.
    + apply Hstep. intros. by apply increase_string_steps.
  - assert (HN : ~ string_done (opt_param e) None) by (unfold string_done; destruct (has_text _); by intros (? & ?)).
    eapply (leads_defaults _ _ _ _ _); [by apply string_defaults|by apply leads_keeps, keeps_fields|by apply keeps_fields].
Qed.
Definition maybe_ok (k : option_kind) (o : option value) : Prop := match o with None => True | Some v => value_ok k v end.
Definition set_ok (k : option_kind) (o : option value) : Prop := exists v, o = Some v /\ value_ok k v.

Lemma default_field_sets k p v : value_ok k v -> leads (maybe_ok k) (set_ok k) p (default_field (p, v)).
Proof.
  intros Hv s Hs. unfold default_field. apply yields_bind, yields_modify, yields_ret. intros _. unfold field in *. cbn.
  destruct (so_values (ps_share s) !! p) as [w|] eqn:E.
  - rewrite E. by exists w.
  - rewrite lookup_insert_eq. by exists v.
Qed.

Lemma default_engine_sets : leads (maybe_ok P_STR) (set_ok P_STR) "bka_engine" default_engine.
Proof.
  intros s Hs. unfold default_engine, in_share. apply yields_bind, yields_gets. unfold field in Hs.
  destruct (so_values (ps_share s) !! "bka_engine"%string) as [v|] eqn:E.
  - apply yields_ret. intros _. exists v. by split.
  - apply yields_bind. eapply yields_conseq; [apply yields_true|]. intros ok s' _. destruct ok; [|by apply yields_ret]. simpl.
    apply yields_bind, yields_set_value. intros s'' H. apply yields_ret. intros _. by eexists.
Qed.

(** The defaults of the link do not touch a scalar field. *)
Lemma scalar_link_defaults k p t : class_of k = scalar -> p <> "tgt_ports"%string ->
  keeps (maybe_ok k) p (all_steps (link_defaults t 0)).
Proof.
  intros Hk Hports. apply keeps_all_steps, keeps_link_defaults; [|done|].
  - intros l i x H. by destruct k.
  - intros d _. apply keeps_update_number. intros _ l z _ H. by destruct k.
Qed.

Lemma engine_kind e : e ∈ all_options -> opt_param e = "bka_engine"%string -> opt_kind e = P_STR.
Proof.
  intros He. refine (guarded _ _ _). revert e He. apply option_check. vm_compute. reflexivity.
Qed.

(** The defaults give a value to a scalar field that has a default. *)
Lemma scalar_defaults e t : e ∈ all_options -> class_of (opt_kind e) = scalar ->
  leads (maybe_ok (opt_kind e)) (if no_default (opt_param e) then maybe_ok (opt_kind e) else set_ok (opt_kind e))
    (opt_param e) (spider_set_connect_info_default t 1).
Proof.
  intros He Hk. pose proof (options_covered e He) as Hc. unfold covered in Hc. rewrite Hk, !andb_true_iff in Hc.
  destruct Hc as (Hports & (_ & Hdef) & Hok). apply negb_true_iff, bool_decide_eq_false in Hports.
  pose proof (scalar_link_defaults (opt_kind e) (opt_param e) t Hk Hports) as K2.
  assert (Hf : forall f, f ∈ field_defaults 1 -> f.1 = opt_param e -> value_ok (opt_kind e) f.2)
    by (intros f Hf; exact (guarded _ _ (forallb_elem _ _ _ Hok Hf))).
  assert (KF : forall Q, (forall v, value_ok (opt_kind e) v -> Q None -> Q (Some v)) ->
    Forall (keeps Q (opt_param e)) (default_field <$> field_defaults 1)).
  { intros Q HQ. apply Forall_fmap, Forall_forall. intros f Hfin. apply keeps_default_field. auto. }
  unfold spider_set_connect_info_default. cbn [seq fmap list_fmap all_steps].
  eapply leads_then; [eapply leads_then; [by apply leads_keeps|apply leads_keeps, keeps_ret]|].
  destruct (bool_decide (opt_kind e = P_STR)) eqn:Es.
  { apply bool_decide_eq_true in Es. apply bool_decide_eq_true in Hdef. rewrite Hdef, Es in *.
    eapply leads_then; [by apply leads_keeps, keeps_all_steps, KF|apply default_engine_sets]. }
  apply bool_decide_eq_false in Es. destruct (no_default (opt_param e)).
  - eapply leads_then; [by apply leads_keeps, keeps_all_steps, KF|]. apply leads_keeps, keeps_default_engine.
    intros Hp _. by destruct Es, (engine_kind e He).
  - apply bool_decide_eq_true, list_elem_of_fmap in Hdef as ([q v] & Hq & Hv). simpl in Hq.
    eapply leads_then; [|apply leads_keeps, keeps_fields; by intros (? & ? & _)].
    apply leads_steps with (m := default_field (q, v)); [by apply list_elem_of_fmap_2| |apply KF; done|].
    + rewrite Hq. apply default_field_sets. by apply (Hf (q, v)).
    + apply KF. intros w _ (? & ? & _). done.
Qed.

(** The lists do not touch a scalar field. *)
Lemma scalar_increase e : e ∈ all_options -> class_of (opt_kind e) = scalar ->
  keeps (maybe_ok (opt_kind e)) (opt_param e) (increase_lists 1).
Proof.
  intros He Hk. pose proof (options_covered e He) as Hc. unfold covered in Hc. rewrite Hk, !andb_true_iff in Hc.
  destruct Hc as (_ & (Hin & _) & _). apply negb_true_iff, bool_decide_eq_false in Hin.
  apply keeps_all_steps, Forall_fmap, Forall_forall. intros f Hf. apply keeps_increase_other. intros E.
  apply Hin. rewrite <- E. by apply list_elem_of_fmap_2.
Qed.

Lemma scalar_leads e t create : e ∈ all_options -> class_of (opt_kind e) = scalar ->
  leads (maybe_ok (opt_kind e)) (if no_default (opt_param e) then maybe_ok (opt_kind e) else set_ok (opt_kind e))
    (opt_param e) (spider_parse_connect_info t create).
Proof.
  intros He Hk. apply leads_parse with (B := maybe_ok (opt_kind e)).
  - intros e' v He' Hp Hv _. by apply (same_kind e) in Hv.
  - by apply leads_keeps, scalar_increase.
  - by apply scalar_defaults.
Qed.

(** The value of an option in a complete share: numbers are within the bounds of the
    option, the larger of a number and a [min_val] is so if [min_val] is, lists have one
    element, which is a string where there is a default and else may be NULL; two
    options may be left out. *)
Definition option_set (sh : share_options) (e : option_entry) : Prop :=
  let o := so_values sh !! opt_param e in
  match opt_kind e with
  | P_STR => exists s, o = Some (VStr s)
  | P_STR_LIST =>
      if not_stretched (opt_param e) then match o with None => True | Some v => exists l, v = VStrs l end
      else if has_text (opt_param e) then exists s, o = Some (VStrs [Some s])
      else exists s, o = Some (VStrs [s])
  | P_LONG_LIST lo hi | P_LONGLONG_LIST lo hi => exists z, o = Some (VNums [z]) /\ (lo <= z <= hi)%Z
  | P_INT_WITH_MAX lo hi => exists z, o = Some (VNum z) /\ (lo <= z <= hi)%Z
  | P_INT lo | P_LONGLONG lo =>
      (exists z, o = Some (VNum z) /\ (lo <= z)%Z) \/ (o = None /\ no_default (opt_param e) = true)
  | P_DOUBLE lo => exists text min_val, o = Some (VReal text min_val) /\ (lo <= min_val)%Z
  | P_HINT _ | P_NUMHINT _ | P_IGNORE => True
  end.

(** The shard keys are not stretched and have no default. *)
Definition shard_keys_ok (o : option value) : Prop :=
  match o with None => True | Some (VStrs l) => l <> [] | _ => False end.

Lemma shard_keys_kind e v : e ∈ all_options -> opt_param e = "tgt_shard_keys"%string -> value_ok (opt_kind e) v -> shard_keys_ok (Some v).
Proof.
  intros He Hp Hv. assert (Hk : opt_kind e = P_STR_LIST).
  { revert Hp. refine (guarded _ _ _). clear Hv. revert e He. apply option_check. vm_compute. reflexivity. }
  rewrite Hk in Hv. by destruct v.
Qed.

Lemma shard_keys_steps t :
  keeps shard_keys_ok "tgt_shard_keys" (increase_lists 1) /\
  leads shard_keys_ok shard_keys_ok "tgt_shard_keys" (spider_set_connect_info_default t 1).
Proof.
  assert (Hin : "tgt_shard_keys"%string ∉ link_lists.*1) by (apply (bool_decide_unpack _); vm_compute; done).
  assert (Hf : "tgt_shard_keys"%string ∉ (field_defaults 1).*1) by (apply (bool_decide_unpack _); vm_compute; done).
  split.
  - apply keeps_all_steps, Forall_fmap, Forall_forall. intros f Hfin. apply keeps_increase_other. intros Hp.
    apply Hin. rewrite <- Hp. by apply list_elem_of_fmap_2.
  - eapply (leads_defaults _ shard_keys_ok shard_keys_ok).
    + apply leads_keeps, keeps_all_steps, keeps_link_defaults; [|done|].
      * intros l i x Hl. simpl in *. intros E. apply (f_equal length) in E. rewrite length_insert in E. by destruct l.
      * intros d _. apply keeps_update_number. intros _ l z _ H. done.
    + apply leads_keeps, keeps_all_steps, Forall_fmap, Forall_forall. intros f Hfin. apply keeps_default_field. intros Hp.
      destruct Hf. rewrite <- Hp. by apply list_elem_of_fmap_2.
    + by apply keeps_default_engine.
Qed.

Lemma shard_keys_leads t create :
  leads shard_keys_ok shard_keys_ok "tgt_shard_keys" (spider_parse_connect_info t create).
Proof.
  destruct (shard_keys_steps t). apply leads_parse with (B := shard_keys_ok); [|by apply leads_keeps|done].
  intros e v He Hp Hv _. by apply (shard_keys_kind e).
Qed.

Lemma option_set_final t create s s' e :
  so_values (ps_share s) = ∅ -> spider_parse_connect_info t create s = Some (0%Z, s') -> e ∈ all_options ->
  option_set (ps_share s') e.
Proof.
  intros H0 E He. assert (Hs : forall p, field s p = None) by (intros p; unfold field; rewrite H0; apply lookup_empty).
  assert (K : forall A B, A None -> leads A B (opt_param e) (spider_parse_connect_info t create) -> B (field s' (opt_param e))).
  { intros A B HA HL. eapply HL; [|exact E|done]. by rewrite Hs. }
  unfold option_set. change (so_values (ps_share s') !! opt_param e) with (field s' (opt_param e)).
  destruct (class_of (opt_kind e)) eqn:Ec.
  - apply (numbers_leads e t create) in Ec as Hl; [|done]. apply K in Hl; [|done]. destruct Hl as (z & Hz & Hb).
    destruct (opt_kind e); try done; by exists z.
  - assert (Ek : opt_kind e = P_STR_LIST) by by destruct (opt_kind e). rewrite Ek.
    destruct (not_stretched (opt_param e)) eqn:En.
    + assert (Hp : opt_param e = "tgt_shard_keys"%string) by by apply bool_decide_eq_true in En.
      assert (HK : shard_keys_ok (field s' (opt_param e))) by (eapply K; [|rewrite Hp; apply shard_keys_leads]; done).
      destruct (field s' (opt_param e)) as [[]|]; try done. by eexists.
    + apply (strings_leads e t create) in Ec; [|done..]. apply K in Ec; [|done]. unfold string_done in Ec. by destruct (has_text _).
  - apply (scalar_leads e t create) in Ec as Hl; [|done]. apply K in Hl; [|done].
    destruct (no_default (opt_param e)) eqn:En.
    + assert (Hk : match opt_kind e with P_LONGLONG _ => True | _ => False end).
      { revert En. clear -He. revert e He. intros e He En.
        pose proof (option_check (fun e => negb (no_default (opt_param e)) || match opt_kind e with P_LONGLONG _ => true | _ => false end)
          ltac:(vm_compute; reflexivity) e He) as H. simpl in H. rewrite En in H. by destruct (opt_kind e). }
      destruct (opt_kind e); try done. destruct (field s' (opt_param e)) as [[]|]; try done; [left; by eexists|by right].
    + destruct Hl as (v & -> & Hv). destruct (opt_kind e), v; try done; simpl in Hv; eauto.
  - by destruct (opt_kind e).
Qed.

(** C15. When [spider_parse_connect_info] succeeds, the options of the share are
    complete and within their bounds, whatever the comments and the connect
    string of the table are: every numeric option of the option table has a value
    within the bounds that the table gives it (read from the text and cut to the
    bounds, or its default), every real option is the larger of a number and a bound
    that is not below the least value of the option, every list of numbers has
    exactly one element, within the bounds, for the one link of the table, every list
    of strings has exactly one element (the shard keys apart), which is a string for
    the wrapper, the host, the database, the table, the primary key and the sequence,
    and may be NULL for the others, and the string option is set; only the two static
    statistics options may stay unset.  Nothing is said of the hints for keys. *)
Theorem options_in_bounds t keys create sh n e :
  parse_table t keys create = Some (0%Z, sh) -> e ∈ options n -> option_set sh e.
Proof.
  intros E He. unfold parse_table in E. apply bind_Some in E as ([r s'] & E & [= -> <-]).
  eapply option_set_final; [|exact E|by eapply options_in]. done.
Qed.
(** ** The checks for a new table *)

Lemma yields_checks fs s :
  yields (all_steps (checked <$> fs)) s (fun r s' => r = 0%Z -> s' = s /\ Forall (fun f => f (ps_share s) = Some 0%Z) fs).
Proof.
  induction fs as [|f fs IH]; simpl; [by apply yields_ret|]. apply yields_andthen, yields_lift. intros e He.
  destruct (Z.eqb_spec e 0) as [->|Hne]; [|done]. eapply yields_conseq; [exact IH|]. intros r s' H Hr.
  destruct (H Hr) as [-> Hfs]. split; [done|]. by constructor.
Qed.

Definition link_checks : list (share_options -> option Z) :=
  (fun sh => check_wrapper sh 0) :: ((fun f sh => check_length sh 0 f) <$> length_limits) ++ [fun sh => check_static_id sh 1 0].

Lemma check_link_checks : check_link 1 0 = all_steps (checked <$> link_checks).
Proof. unfold check_link, link_checks. rewrite fmap_cons, fmap_app, <- list_fmap_compose. done. Qed.

Lemma checks_same f sh sh' :
  f ∈ link_checks -> so_values sh = so_values sh' -> so_lengths sh = so_lengths sh' -> f sh = f sh'.
Proof.
  intros Hf H1 H2. assert (Hs : strings_of sh = strings_of sh') by (unfold strings_of; by rewrite H1).
  assert (Ha : string_at sh = string_at sh') by (unfold string_at; by rewrite Hs).
  apply elem_of_cons in Hf as [->|Hf]; [unfold check_wrapper; by rewrite Ha|].
  apply elem_of_app in Hf as [Hf|Hf].
  - apply list_elem_of_fmap in Hf as (x & -> & _). unfold check_length, string_length_at. by rewrite Hs, Ha, H2.
  - apply list_elem_of_singleton in Hf as ->. unfold check_static_id, same_id. by rewrite Ha.
Qed.

Lemma yields_new_table t s :
  yields (spider_parse_connect_info t true) s (fun r s' => r = 0%Z -> Forall (fun f => f (ps_share s') = Some 0%Z) link_checks).
Proof.
  unfold spider_parse_connect_info, all_link_count.
  do 4 (apply yields_andthen; eapply yields_conseq; [apply yields_true|]; intros e ?t _; destruct (Z.eqb_spec e 0); [clear e e0|done]).
  apply yields_andthen. cbn [seq fmap list_fmap all_steps]. apply yields_andthen. rewrite check_link_checks.
  eapply yields_conseq; [apply yields_checks|]. intros e s' H. simpl in H. destruct (Z.eqb_spec e 0) as [->|Hne]; [|by destruct (Z.eqb_spec e 0)].
  destruct (H eq_refl) as [-> Hfs]. apply yields_ret. rewrite Z.eqb_refl. unfold set_link_count.
  apply yields_bind, yields_lift. intros n Hn. apply yields_bind, yields_modify, yields_ret. intros _.
  rewrite Forall_forall in *. intros f Hf. rewrite <- (Hfs f Hf). by apply checks_same.
Qed.
(** The access method of a link whose wrapper was checked. *)
Lemma wrapper_checked sh : check_wrapper sh 0 = Some 0%Z ->
  string_at sh "tgt_wrappers" 0 = Some (Some SPIDER_DB_WRAPPER_STR) /\ sql_dbton_id sh 0 = Some 0%nat.
Proof.
  unfold check_wrapper, sql_dbton_id. destruct (string_at sh "tgt_wrappers" 0) as [[s|]|]; try done. simpl.
  case_bool_decide as Hs; [|done]. intros _. apply list_elem_of_singleton in Hs as ->. done.
Qed.

Lemma keys_of_share st : check_wrapper (ps_share st) 0 = Some 0%Z ->
  yields spider_create_conn_keys st (fun r _ => match r with
    | inl e => e = HA_ERR_OUT_OF_MEM
    | inr k => ck_sql_dbton_ids k = [0%nat] /\ ck_use_dbton_ids k = [0%nat] /\
        exists name n, ck_keys k = [(48%N :: name, S n)] /\ string_length_at (ps_share st) "server_names" 0 = Some n
    end).
Proof.
  intros Hw. apply wrapper_checked in Hw as [_ Hid]. unfold spider_create_conn_keys, all_link_count. cbn [seq].
  apply yields_bind, yields_lift. intros keys Hk. apply yields_bind.
  eapply yields_conseq; [apply (yields_in_text (alloc oom) st (fun _ => True)), yields_true|]. intros ok s' [_ Hsh].
  destruct ok; [|by apply yields_ret]. simpl. apply yields_bind, yields_lift. intros ids Hids. apply yields_ret.
  rewrite Hsh in Hids. simpl in Hids. rewrite Hid in Hids. injection Hids as <-. split_and!; [done|done|].
  simpl in Hk. apply bind_Some in Hk as (key & Hkey & [= <-]). unfold conn_key in Hkey.
  apply bind_Some in Hkey as (s & Hs & Hkey). apply bind_Some in Hkey as (n & Hn & [= <-]). eauto.
Qed.

Lemma new_table_checks t keys sh : parse_table t keys true = Some (0%Z, sh) -> Forall (fun f => f sh = Some 0%Z) link_checks.
Proof.
  intros E. unfold parse_table in E. apply bind_Some in E as ([r s'] & E & [= -> <-]). exact (yields_new_table _ _ _ _ E eq_refl).
Qed.

(** C25. The checks for a new table: when [spider_parse_connect_info] succeeds for
    CREATE TABLE, the link's wrapper is that of an access method of this build, no
    recorded length of a name, path or key exceeds its limit, and the static id of
    the link does not start with a digit.  Then [spider_create_conn_keys], if it
    gets its memory, gives the link the first access method and a key that starts
    with '0', whose recorded length is at most 65. *)
Theorem new_table_checked t keys sh st :
  parse_table t keys true = Some (0%Z, sh) -> ps_share st = sh ->
  string_at sh "tgt_wrappers" 0 = Some (Some SPIDER_DB_WRAPPER_STR) /\
  (forall p limit n, (p, limit) ∈ length_limits -> string_length_at sh p 0 = Some n -> (n <= limit)%nat) /\
  (forall c s, string_at sh "static_link_ids" 0 = Some (Some (c :: s)) -> is_digit c = false) /\
  (forall k st', spider_create_conn_keys st = Some (inr k, st') ->
     ck_sql_dbton_ids k = [0%nat] /\ exists name n, ck_keys k = [(48%N :: name, S n)] /\ (n <= 64)%nat).
Proof.
  intros E <-. apply new_table_checks in E. apply Forall_cons in E as [Hw E]. apply Forall_app in E as [Hl Hi].
  assert (HL : forall p limit n, (p, limit) ∈ length_limits -> string_length_at (ps_share st) p 0 = Some n -> (n <= limit)%nat).
  { intros p limit n Hp Hn. rewrite Forall_fmap, Forall_forall in Hl. specialize (Hl _ Hp). simpl in Hl. unfold check_length in Hl.
    simpl in Hl. destruct (decide _) as [[-> Hnone]|_].
    - unfold string_length_at, string_at in Hn. by rewrite Hnone in Hn.
    - rewrite Hn in Hl. simpl in Hl. destruct (Nat.ltb_spec limit n); [done|lia]. }
  split_and!; [by apply wrapper_checked|exact HL| |].
  - intros c s Hs. apply Forall_cons in Hi as [Hi _]. unfold check_static_id in Hi. rewrite Hs in Hi. simpl in Hi.
    by destruct (is_digit c).
  - intros k st' Hk. apply keys_of_share in Hk; [|done]. simpl in Hk. destruct Hk as (Hid & _ & name & n & Hkey & Hn).
    split; [done|]. exists name, n. split; [done|]. apply (HL "server_names"%string 64%nat n); [by left|done].
Qed.
End Parse.

(** ** A table *)

(** One server, a build with the usual port; memory does not run out. *)
Definition ex_server : FOREIGN_SERVER :=
  mk_server (Some (bytes "mysql")) (Some (bytes "h1")) 3307 None (Some (bytes "d1")) (Some (bytes "u")) (Some (bytes "p")).

Definition ex_opt_env : OptEnv :=
  mk_opt_env (fun _ => false) (fun name => if decide (name = bytes "s1") then Some ex_server else None)
    (bytes "/tmp/mysql.sock") 3306 1 None None.

(** The table [test.t] at ["./test/t"] with a comment. *)
Definition ex_table_with (comment : string) : table_info :=
  mk_table (bytes "test") (bytes "t") None None 8 None None (bytes comment) [].

Definition ex_parse (comment : string) (keys : nat) : option (Z * share_options) :=
  parse_table (OE := ex_opt_env) (ex_table_with comment) keys true.

Definition ex_comment : string := "srv 's1', table 't2', qmd '7', bgs_mode '-3', net_read_timeout '30'".

Lemma ex_parse_ok : option_map fst (ex_parse ex_comment 0) = Some 0%Z.
Proof. vm_compute. reflexivity. Qed.

Lemma options_in_bounds_witness :
  exists sh, ex_parse ex_comment 0 = Some (0%Z, sh) /\
    option_set sh (entry "quick_mode" "quick_mode" (P_INT_WITH_MAX 0 3)).
Proof.
  pose proof ex_parse_ok as H. destruct (ex_parse ex_comment 0) as [[r sh]|] eqn:E; [|done]. injection H as ->.
  exists sh. split; [done|]. apply (options_in_bounds (OE := ex_opt_env)) with (t := ex_table_with ex_comment) (keys := 0%nat) (create := true) (n := 10%nat).
  - simpl. lia.
  - exact E.
  - right. right. by left.
Defined.

Lemma new_table_checked_witness :
  exists sh, ex_parse ex_comment 0 = Some (0%Z, sh) /\ string_at sh "tgt_wrappers" 0 = Some (Some SPIDER_DB_WRAPPER_STR).
Proof.
  pose proof ex_parse_ok as H. destruct (ex_parse ex_comment 0) as [[r sh]|] eqn:E; [|done]. injection H as ->.
  exists sh. split; [done|].
  apply (new_table_checked (OE := ex_opt_env) (ex_table_with ex_comment) 0 sh (mk_state no_text sh)); [exact E|done].
Defined.

(** The partition says quick_mode 1, the table says 2. *)
Definition ex_state : parse_state :=
  mk_state no_text ((init_options 0) <| so_values := {["quick_mode"%string := VNum 1]} |>).

Lemma first_value_counts_witness :
  exists s', parse_sources (OE := ex_opt_env) [Some (bytes "qmd '2', srv 's1'")] ex_state = Some (0%Z, s') /\
    so_values (ps_share s') !! "quick_mode"%string = Some (VNum 1).
Proof.
  assert (H : option_map fst (parse_sources (OE := ex_opt_env) [Some (bytes "qmd '2', srv 's1'")] ex_state) = Some 0%Z)
    by (vm_compute; reflexivity).
  destruct (parse_sources [Some (bytes "qmd '2', srv 's1'")] ex_state) as [[r s']|] eqn:E; [|done]. injection H as ->.
  exists s'. split; [done|].
  apply (first_value_counts (OE := ex_opt_env) [Some (bytes "qmd '2', srv 's1'")] ex_state 0 s'); [done|exact E].
Defined.

(** ** Texts that are not read as they are meant *)

Definition ex_code (comment : string) (keys : nat) : option Z := fst <$> ex_parse comment keys.

(** What follows a value is an error, but not after a value with an escape. *)
Lemma extra_value_after_escape :
  ex_code "srv 's1', table 'ac' b" 0 = Some ER_SPIDER_INVALID_CONNECT_INFO_NUM /\
  ex_code "srv 's1', table 'a\'c' b" 0 = Some 0%Z.
Proof. split; vm_compute; reflexivity. Qed.

(** A parameter that starts with a quote at the start of the text reads the byte
    before the text; after a blank it is an error. *)
Lemma quote_at_start :
  ex_code "'srv" 0 = None /\ ex_code " 'srv" 0 = Some ER_SPIDER_INVALID_CONNECT_INFO_NUM.
Proof. split; vm_compute; reflexivity. Qed.

(** Two static ids for the one link are written past the end of the new list; two
    table names are an error. *)
Lemma two_static_ids :
  ex_code "srv 's1', sli 'a b'" 0 = None /\ ex_code "srv 's1', table 'a b'" 0 = Some ER_SPIDER_DIFFERENT_LINK_COUNT_NUM.
Proof. split; vm_compute; reflexivity. Qed.

(** A comma inside quotes ends the parameter, and a blank before the closing quote
    makes one more, empty, name. *)
Lemma comma_and_blank_in_quotes :
  ex_code "srv 's1', table 'a,b'" 0 = Some ER_SPIDER_INVALID_CONNECT_INFO_NUM /\
  ex_code "srv 's1', table 'a '" 0 = Some ER_SPIDER_DIFFERENT_LINK_COUNT_NUM.
Proof. split; vm_compute; reflexivity. Qed.

(** A blank after a backslash belongs to the first name of a list, but ends a later
    one. *)
Definition ex_strings (text : string) : option (Z + option (list (list N))) :=
  fst <$> spider_create_string_list (fun _ => false) 2
    (mk_text (bytes ("xx" ++ text) ++ [0%N]) (mk_parse 0 None None 0 0 0 0 0) 0).

Lemma escaped_blank_after_separator :
  ex_strings "b\ c" = Some (inr (Some [bytes "b\ c"])) /\
  ex_strings "a b\ c" = Some (inr (Some [bytes "a"; bytes "b\"; bytes "c"])).
Proof. split; vm_compute; reflexivity. Qed.

(** The number of active links may exceed the number of links. *)
Lemma more_active_links :
  so_link_count ∘ snd <$> ex_parse "srv 's1', active_link_count '5'" 0 = Some 5%Z /\ all_link_count = 1%nat.
Proof. split; vm_compute; reflexivity. Qed.

(** The long title sets the cardinality of the first key whatever key it names; the
    short title sets the key it names. *)
Lemma cardinality_of_first_key :
  static_key_cardinality ∘ snd <$> ex_parse "srv 's1', static_key_cardinality001 '7'" 2 = Some (Some [7; -1]%Z) /\
  static_key_cardinality ∘ snd <$> ex_parse "srv 's1', skc001 '7'" 2 = Some (Some [-1; 7]%Z).
Proof. split; vm_compute; reflexivity. Qed.

(** A hint without a quoted string reads through a NULL pointer. *)
Lemma hint_without_string : ex_code "srv 's1', idx000 f PRIMARY" 1 = None.
Proof. vm_compute. reflexivity. Qed.

(** The number 2^63 is larger than every bound but is read as the smallest value. *)
Lemma large_number_wraps :
  (fun r => so_values r.2 !! "split_read"%string) <$> ex_parse "srv 's1', split_read '9223372036854775808'" 0 =
  Some (Some (VNum 0)).
Proof. vm_compute. reflexivity. Qed.

(** The length that is checked for a table name that was not given is the length of
    the table's path. *)
Lemma default_name_length :
  fst <$> parse_table (OE := ex_opt_env)
    (mk_table (bytes "test") (bytes "t") None None 65 None None (bytes "srv 's1'") []) 0 true =
  Some ER_SPIDER_INVALID_CONNECT_INFO_TOO_LONG_NUM.
Proof. vm_compute. reflexivity. Qed.
