(* ===== verification/ParseSafety.v ===== *)
(** * The option parser terminates and stays inside the memory

    The parser of [spider_parse_connect_info] works in the memory of the text; for
    every text that does not start with a quote it returns, with a result or an
    error, and accesses only that memory. *)

From Stdlib Require Import NArith Lia.
From stdpp Require Import base numbers list gmap strings.
From S2P Require Import Prelude CString ConnTree World OptionText OptionTable TextTheorems TextSafety OptionParse.
From Stdlib Require Import ZArith.
Local Open Scope spider_scope.
Local Open Scope N_scope.

Section Safety.
  Context {OE : OptEnv}.
  Hypothesis memory : forall n, oom n = false.

(** The text is safe, and there are no hints for keys. *)
Definition psafe (L z b : nat) (T : option (nat * nat)) (s : parse_state) : Prop :=
  safe L z b T (ps_text s) /\ key_hint (ps_share s) = None /\ static_key_cardinality (ps_share s) = None.

Lemma psafe_weaken L z b b' T s : psafe L z b T s -> (b <= b')%nat -> psafe L z b' T s.
Proof. intros (H & H1 & H2) Hb. split; [by eapply safe_weaken|done]. Qed.

Lemma runs_in_text {A} (m : M text_state A) s (Q : A -> text_state -> Prop) :
  runs m (ps_text s) Q -> runs (in_text m) s (fun r s' => Q r (ps_text s') /\ ps_share s' = ps_share s).
Proof. intros (r & t & E & H). eexists _, _. unfold in_text. rewrite E. done. Qed.

Lemma runs_in_share {A} (f : share_options -> A) s (Q : A -> parse_state -> Prop) : Q (f (ps_share s)) s -> runs (in_share f) s Q.
Proof. apply (runs_gets (fun s => f (ps_share s))). Qed.

Section Param.
  Context (L z tmp te : nat).
Let T := Some (tmp, te).

(** The last step of a macro: the field is set, or an error is reported. *)
Lemma psafe_text b s s' : psafe L z b T s -> forall b', safe L z b' T (ps_text s') -> ps_share s' = ps_share s -> psafe L z b' T s'.
Proof. intros (_ & H1 & H2) b' H Hs. split; [done|]. by rewrite Hs. Qed.

Lemma runs_set_value b p v s : psafe L z b T s -> runs (set_value p v) s (fun _ s' => psafe L z b T s').
Proof. intros H. apply runs_modify. exact H. Qed.

Lemma runs_print_text b s : psafe L z b T s -> (tmp < L)%nat -> (b < L - 1)%nat ->
  runs (in_text print_param_error) s (fun r _ => r <> 0%Z).
Proof.
  intros [H _] Ht Hb. eapply runs_conseq; [apply runs_in_text; by eapply runs_print|]. by intros r s' [Hr _].
Qed.

Lemma runs_note_text b j s : psafe L z b T s -> (2 <= j <= z)%nat ->
  runs (in_text (note_value j)) s (fun _ s' => psafe L z (S z) T s').
Proof.
  intros H Hj. eapply runs_conseq; [apply runs_in_text; eapply runs_note; [exact (proj1 H)|done]|]. intros [] s' [H' Hs].
  by eapply psafe_text.
Qed.

Section Macro.
  Context (i start_ptr : nat).
  Hypothesis Hi : (i <= tmp < z)%nat.
  Hypothesis Hz : (z <= L - 1)%nat.
  Hypothesis Hstart : (tmp < start_ptr <= z)%nat.

(** The result of a macro. *)
Definition done_ok (r : Z) (s' : parse_state) : Prop := r = 0%Z -> psafe L z (S z) T s'.

Lemma runs_error b s : psafe L z b T s -> (b <= i)%nat -> runs (in_text print_param_error) s done_ok.
Proof. intros H Hb. eapply runs_conseq; [eapply runs_print_text; [exact H|lia|lia]|]. intros r s' Hr H0. done. Qed.

Lemma runs_when_unset p k s : psafe L z i T s ->
  (forall j s', psafe L z i T s' -> (2 <= j <= z)%nat -> runs (k j) s' done_ok) -> runs (when_unset p start_ptr k) s done_ok.
Proof.
  intros H Hk. unfold when_unset. apply runs_bind, runs_in_share. destruct (so_values (ps_share s) !! p) as [v|].
  { apply runs_ret. intros _. eapply psafe_weaken; [exact H|lia]. }
  apply runs_bind. eapply runs_conseq; [apply runs_in_text, (runs_between L z T i); [exact (proj1 H)|lia]|].
  intros [j|] s' [[H' Hj] Hs]; assert (Hp : psafe L z i T s') by (by eapply psafe_text).
  - apply Hk; [done|lia].
  - by eapply runs_error.
Qed.

Lemma runs_number conv j b s (Q : Z -> parse_state -> Prop) :
  (forall l, 0 ∈ l -> exists v, conv l = Some v) -> psafe L z b T s -> (j <= z)%nat -> (forall v, Q v s) -> runs (number_at conv j) s Q.
Proof.
  intros Hc [H _] Hj HQ. unfold number_at. destruct (Hc (drop j (ts_buf (ps_text s)))) as [v Ev].
  - eapply nul_in_drop; [apply (safe_nul _ _ _ _ _ H)|done].
  - eapply runs_lift; [exact Ev|apply HQ].
Qed.

(** A number is stored and its place noted. *)
Lemma runs_store_number p (f : Z -> value) conv : (forall l, 0 ∈ l -> exists v, conv l = Some v) -> forall s, psafe L z i T s ->
  runs (when_unset p start_ptr (fun j => v ← number_at conv j; set_value p (f v);; in_text (note_value j);; mret 0%Z)) s done_ok.
Proof.
  intros Hc s H. apply runs_when_unset; [done|]. intros j s1 H1 Hj. apply runs_bind. eapply runs_number; [done|exact H1|lia|].
  intros v. apply runs_bind. eapply runs_conseq; [by apply runs_set_value|]. intros [] s2 H2. apply runs_bind.
  eapply runs_conseq; [eapply runs_note_text; [exact H2|lia]|]. intros [] s3 H3. apply runs_ret. by intros _.
Qed.

Lemma runs_set_numbers p r b s : psafe L z b T s -> (b <= S z)%nat -> (exists l, r = inr l) -> runs (set_numbers p r) s done_ok.
Proof.
  intros H Hb [[l|] ->]; unfold set_numbers.
  - apply runs_bind. eapply runs_conseq; [by apply runs_set_value|]. intros [] s' H'. apply runs_ret. intros _. by eapply psafe_weaken.
  - apply runs_ret. intros _. by eapply psafe_weaken.
Qed.

Lemma strtoll_value l : 0 ∈ l -> exists v, (fst <$> my_strtoll10 l) = Some v.
Proof. intros H. destruct (my_strtoll10_total l H) as [r ->]. by eexists. Qed.

Lemma runs_number_option p conv lo hi s : (forall l, 0 ∈ l -> exists v, conv l = Some v) -> psafe L z i T s ->
  runs (when_unset p start_ptr (fun j => in_text (create_number_list oom conv j lo hi) ≫= set_numbers p)) s done_ok.
Proof.
  intros Hc H. apply runs_when_unset; [done|]. intros j s1 H1 Hj. apply runs_bind.
  eapply runs_conseq; [apply runs_in_text; eapply runs_number_list; [exact memory|exact Hc|exact (proj1 H1)|lia]|].
  intros r s2 [[Hr H2] Hs]. eapply runs_set_numbers; [eapply psafe_text; [exact H1|exact H2|done]|lia|done].
Qed.

(** The macros for hints do nothing but report an error. *)
Lemma runs_hint {A} n (f : share_options -> option A) (k : Z -> A -> M parse_state Z) s :
  psafe L z i T s -> (tmp + n <= z)%nat -> f (ps_share s) = None ->
  runs (hint_num ← number_at atoi (tmp + n); hints ← in_share f;
    match hints with None => in_text print_param_error | Some h => k hint_num h end) s done_ok.
Proof.
  intros H Hn Hf. apply runs_bind. eapply runs_number; [apply atoi_total|exact H|done|]. intros v.
  apply runs_bind, runs_in_share. rewrite Hf. by eapply runs_error.
Qed.

Definition hint_length (k : option_kind) : nat := match k with P_HINT n | P_NUMHINT n => n | _ => O end.

Lemma runs_set_param e s : psafe L z i T s -> (tmp + hint_length (opt_kind e) <= z)%nat -> runs (set_param e tmp start_ptr) s done_ok.
Proof.
  intros H Hn. unfold set_param. destruct (opt_kind e) as [| |n|n|lo hi|lo hi|lo hi|lo|lo|lo|].
  - apply runs_when_unset; [done|]. intros j s1 H1 Hj. apply runs_bind.
    eapply runs_conseq; [eapply runs_note_text; [exact H1|lia]|]. intros [] s2 H2. apply runs_bind.
    eapply runs_conseq; [eapply runs_in_text, runs_copy; [exact memory|exact (proj1 H2)|lia]|].
    intros r s3 [[[v ->] [H3 _]] Hs]. apply runs_bind.
    eapply runs_conseq; [eapply runs_set_value, psafe_text; [exact H2|exact H3|done]|]. intros [] s4 H4. apply runs_ret. by intros _.
  - apply runs_when_unset; [done|]. intros j s1 H1 Hj. apply runs_bind.
    eapply runs_conseq; [apply runs_in_text; eapply runs_string_list; [exact memory|exact (proj1 H1)|lia]|].
    intros r s2 [[[l ->] H2] Hs]. assert (P2 : psafe L z (S z) T s2) by (by eapply psafe_text). destruct l as [l|].
    + apply runs_bind. eapply runs_conseq; [by apply runs_set_value|]. intros [] s3 H3. apply runs_ret. by intros _.
    + apply runs_ret. by intros _.
  - apply runs_hint; [done|done|apply H].
  - apply runs_hint; [done|done|apply H].
  - by apply runs_number_option; [apply atol_total|].
  - by apply runs_number_option; [apply strtoll_value|].
  - apply (runs_store_number _ (fun v => VNum (clamp lo hi v))); [apply atoi_total|done].
  - apply (runs_store_number _ (fun v => VNum (if Z.ltb v lo then lo else v))); [apply atoi_total|done].
  - apply runs_when_unset; [done|]. intros j s1 H1 Hj. apply runs_bind.
    destruct (c_string_stops _ _ (nul_drop _ _ (safe_nul _ _ _ _ _ (proj1 H1)) j ltac:(lia))) as (v & Ev & _).
    eapply runs_lift; [exact Ev|]. apply runs_bind. eapply runs_conseq; [by apply runs_set_value|]. intros [] s2 H2. apply runs_bind.
    eapply runs_conseq; [eapply runs_note_text; [exact H2|lia]|]. intros [] s3 H3. apply runs_ret. by intros _.
  - apply (runs_store_number _ (fun v => VNum (if Z.ltb v lo then lo else v))); [apply strtoll_value|done].
  - apply runs_ret. intros _. eapply psafe_weaken; [exact H|lia].
Qed.

Lemma runs_find_param es n s : psafe L z i T s -> (forall e, e ∈ es -> (tmp + hint_length (opt_kind e) <= z)%nat) ->
  runs (find_param es tmp n start_ptr) s done_ok.
Proof.
  induction es as [|e es IH]; intros H Hes; cbn [find_param]; [by eapply runs_error|]. apply runs_bind.
  assert (Hin : 0 ∈ drop tmp (ts_buf (ps_text s))) by (eapply nul_in_drop; [apply (safe_nul _ _ _ _ _ (proj1 H))|lia]).
  destruct (title_matches e tmp n (ts_buf (ps_text s))) as [m|] eqn:Em.
  2:{ unfold title_matches in Em. match type of Em with same_nocase ?n ?s ?t = _ => destruct (same_nocase_total n s t Hin); congruence end. }
  eapply runs_lift; [exact Em|]. destruct m.
  - apply runs_set_param; [done|]. apply Hes. by left.
  - apply IH; [done|]. intros e' He'. apply Hes. by right.
Qed.
End Macro.
End Param.

(** ** One parameter *)

Lemma options_hints n e : e ∈ options n -> (hint_length (opt_kind e) <= n)%nat.
Proof.
  intros H. assert (Hn : (n < 33)%nat \/ options n = []).
  { do 33 (destruct n as [|n]; [left; lia|]). by right. }
  destruct Hn as [Hn|Hn]; [|rewrite Hn in H; by apply elem_of_nil in H].
  assert (Hall : forallb (fun n => forallb (fun e => Nat.leb (hint_length (opt_kind e)) n) (options n)) (seq 0 33) = true) by (vm_compute; reflexivity).
  rewrite forallb_forall in Hall. specialize (Hall n). rewrite in_seq, forallb_forall in Hall. apply Nat.leb_le, Hall; [lia|by apply list_elem_of_In].
Qed.

(** The error for a parameter without a title: the delimiter is written before it. *)
Lemma runs_no_title L z i tmp te d n t T0 :
  safe L z i T0 t -> (i <= tmp < z)%nat -> (1 <= tmp)%nat -> te = tmp ->
  runs print_param_error (t <| ts_parse ::= fun p => p <| title_ptrs := Some (tmp, te) |> <| delim_title := d |> <| delim_title_len := n |> |>)
    (fun r _ => r <> 0%Z).
Proof.
  intros H Hi Ht ->. pose proof (safe_z _ _ _ _ _ H) as [Hz _]. destruct H as [H1 H2 H3 H4 H5 H6 H7 H8].
  unfold print_param_error, runs. cbn. unfold restore_delims. cbn.
  destruct (restore_one L (ts_buf t) n d tmp) as (buf1 & -> & S1); [done|right; lia|]. cbn [mbind option_bind].
  assert (B1 : buf1 !! (L - 1)%nat = Some 0) by (by eapply same_from_nul).
  destruct (restore_one L buf1 (delim_value_len (ts_parse t)) (delim_value (ts_parse t))
    (match value_ptrs (ts_parse t) with Some (_, e) => e | None => O end)) as (buf2 & -> & S2); [done| |].
  { destruct (value_ptrs (ts_parse t)) as [[v e]|]; [right; lia|by left]. }
  cbn [mbind option_bind]. assert (B2 : buf2 !! (L - 1)%nat = Some 0) by (by eapply same_from_nul).
  destruct (c_string_stops _ _ (nul_drop buf2 (L - 1) B2 tmp ltac:(lia))) as (v & -> & _). cbn [mbind option_bind].
  by eexists _, _.
Qed.

(** The first byte of the text is not a quote. *)
Definition no_quote (buf : list N) : Prop := match head buf with Some c => is_quote c = false | None => True end.

(** The title is noted. *)
Lemma runs_title L z i T0 tmp m c s (Q : unit -> parse_state -> Prop) :
  psafe L z i T0 s -> (i <= tmp < z)%nat -> ts_buf (ps_text s) !! tmp = Some c -> (is_quote c = true -> (1 <= tmp)%nat) ->
  (is_quote c = false -> forall s', psafe L z i (Some (tmp, (tmp + m)%nat)) s' -> Q tt s') ->
  (is_quote c = true -> forall n, Q tt (s <| ps_text ::= fun t => t <| ts_parse ::= fun p =>
     p <| title_ptrs := Some (tmp, (tmp + m)%nat) |> <| delim_title := c |> <| delim_title_len := n |> |> |>)) ->
  runs (in_text (in_parse (fun buf p => set_param_title buf p tmp (tmp + m)))) s Q.
Proof.
  intros (Hs & Hk & Hc) Ht Ec H1 Hok Hbad. unfold in_text, in_parse, set_param_title, runs. rewrite Ec. cbn [mbind option_bind].
  destruct (is_quote c) eqn:Eq.
  - specialize (H1 eq_refl). destruct tmp as [|k]; [lia|]. cbn [before]. pose proof (safe_z _ _ _ _ _ Hs) as [Hz _].
    destruct (lookup_lt_is_Some_2 (ts_buf (ps_text s)) k) as [c' ->]; [rewrite (safe_length _ _ _ _ _ Hs); lia|]. cbn [mbind option_bind].
    eexists _, _. split; [done|]. by apply Hbad.
  - eexists _, _. split; [done|]. apply Hok; [done|]. split; [|done]. destruct Hs. by split.
Qed.

Lemma runs_parse_param L z i T0 s : psafe L z i T0 s -> (i <= z)%nat -> ((1 <= i)%nat \/ no_quote (ts_buf (ps_text s))) ->
  runs (parse_param i) s (fun r s' => r = 0%Z -> exists T, psafe L z (S z) T s').
Proof.
  intros H Hi Hq. pose proof H as (Hs & Hk & Hc). pose proof (safe_z _ _ _ _ _ Hs) as [Hz _]. unfold parse_param. apply runs_bind.
  destruct (blanks_stops is_blank blanks (drop i (ts_buf (ps_text s))) (z - i)) as (n & En & Hn & _ & c & Ec & Hb);
    [done|done|apply nul_drop; [apply (safe_nul _ _ _ _ _ Hs)|done]|].
  eapply runs_lift; [exact En|]. rewrite lookup_drop in Ec. apply runs_bind. eapply runs_lift; [exact Ec|]. cbv beta zeta.
  destruct (N.eqb_spec c 0) as [->|Hc0].
  { apply runs_ret. intros _. exists T0. eapply psafe_weaken; [exact H|lia]. }
  set (tmp := (i + n)%nat) in *. assert (Htmp : (i <= tmp < z)%nat).
  { split; [lia|]. assert (tmp <> z); [|lia]. intros E. rewrite E in Ec. pose proof (safe_nul _ _ _ _ _ Hs). congruence. }
  assert (Hmem : forall p, (p <= z)%nat -> drop p (ts_buf (ps_text s)) !! (z - p)%nat = Some 0) by (intros p Hp; apply nul_drop; [apply (safe_nul _ _ _ _ _ Hs)|done]).
  assert (Hquote : is_quote c = true -> (1 <= tmp)%nat).
  { intros Eq. destruct Hq as [|Hq]; [lia|]. destruct tmp as [|]; [|lia]. unfold no_quote in Hq. rewrite head_lookup, Ec in Hq. congruence. }
  apply runs_bind. destruct (blanks_stops (fun b => negb (is_blank b || is_quote b || (b =? 0))) title_chars (drop tmp (ts_buf (ps_text s))) (z - tmp))
    as (m & Em & Hm & _ & c' & Ec' & Hc'); [intros b l; simpl; by destruct (_ || _)|done|apply Hmem; lia|].
  eapply runs_lift; [exact Em|]. rewrite lookup_drop in Ec'. apply runs_bind.
  assert (Hm0 : m = O <-> is_quote c = true).
  { rewrite (drop_S _ _ _ Ec) in Em. cbn [title_chars] in Em. rewrite Hb in Em. destruct (N.eqb_spec c 0); [done|]. rewrite orb_false_r in Em.
    destruct (is_quote c); simpl in Em; [by injection Em as <-|]. destruct (title_chars _); simplify_eq/=. by split. }
  eapply (runs_title L z i T0); [done|done|exact Ec|done|..].
  - intros Eq s' Hs'. destruct (Nat.eqb_spec m 0) as [Em0|Hne]; [apply Hm0 in Em0; congruence|]. unfold andthen. apply runs_bind.
    eapply runs_conseq; [eapply (runs_find_param L z tmp (tmp + m) i); [lia|lia|lia|done|]|].
    + intros e He. pose proof (options_hints _ _ He). lia.
    + intros r s1 H1. destruct (Z.eqb_spec r 0) as [->|Hr]; [|apply runs_ret; by intros ->].
      pose proof (H1 eq_refl) as P1. eapply runs_conseq; [apply runs_in_text; eapply runs_extra; [exact (proj1 P1)|done|lia]|].
      intros r s2 [Hx Hsh] Hr. exists (Some (tmp, (tmp + m)%nat)). eapply (psafe_text L z tmp (tmp + m)); [exact P1|by apply Hx|done].
  - intros Eq k. apply Hm0 in Eq as Em0. rewrite Em0. simpl.
    eapply runs_conseq; [apply runs_in_text, (runs_no_title L z i tmp (tmp + 0) c k _ T0 Hs); [lia|by apply Hquote|lia]|].
    intros r s' [Hr _] ->. done.
Qed.

(** ** All parameters *)

Lemma psafe_narrow L z b T s c : psafe L z b T s -> ts_buf (ps_text s) !! c = Some 0 -> psafe L c b T s.
Proof. intros [[H1 H2 H3 H4 H5 H6 H7 H8] Hk] Hc. split; [by split|done]. Qed.

(** A comma becomes the end of the parameter. *)
Lemma runs_end_param L b T i c s : psafe L (L - 1) b T s -> (i <= c < L - 1)%nat ->
  runs (in_text (in_buf (fun buf => buf ← store buf c 0; Some (tt, buf)))) s (fun _ s' =>
    psafe L c b T s' /\ ((1 <= i)%nat \/ no_quote (ts_buf (ps_text s)) -> (1 <= i)%nat \/ no_quote (ts_buf (ps_text s')))).
Proof.
  intros H Hc. pose proof H as (Hs & Hk). destruct (store_before _ _ (safe_nul _ _ _ _ _ Hs) c 0) as (buf' & E & HS); [lia|].
  unfold in_text, in_buf, runs. rewrite E. cbn [mbind option_bind]. eexists _, _. split; [done|].
  unfold store in E. rewrite decide_True in E by (rewrite (safe_length _ _ _ _ _ Hs); lia). injection E as <-. split.
  - apply (psafe_narrow _ (L - 1)).
    + split; [|done]. apply (safe_change _ _ _ _ (ps_text s)); [done|exact HS|done].
    + cbn. apply list_lookup_insert_eq. rewrite (safe_length _ _ _ _ _ Hs). lia.
  - intros [|Hq]; [by left|right]. unfold no_quote in *. rewrite head_lookup in *. cbn. destruct c as [|c].
    + by rewrite list_lookup_insert_eq by (rewrite (safe_length _ _ _ _ _ Hs); lia).
    + by rewrite list_lookup_insert_ne.
Qed.

Lemma runs_parse_params L fuel : forall i T s, psafe L (L - 1) i T s -> (i <= L - 1)%nat -> (L - i <= fuel)%nat ->
  ((1 <= i)%nat \/ no_quote (ts_buf (ps_text s))) ->
  runs (parse_params fuel i) s (fun r s' => r = 0%Z -> key_hint (ps_share s') = None /\ static_key_cardinality (ps_share s') = None).
Proof.
  induction fuel as [|fuel IH]; intros i T s H Hi Hf Hq; pose proof H as (Hs & Hk & Hc); pose proof (safe_z _ _ _ _ _ Hs) as [_ HL]; [lia|].
  cbn [parse_params]. apply runs_bind.
  destruct (strchr_stops _ _ (safe_nul _ _ _ _ _ Hs) i 44) as [E|(c & E & Hlt & _)]; [done|done|eapply runs_lift; [exact E|]..].
  - eapply runs_conseq; [by eapply runs_parse_param|]. intros r s' H' Hr. by destruct (H' Hr) as (T' & _ & H1).
  - apply runs_bind. eapply runs_conseq; [by eapply runs_end_param|]. intros [] s1 [H1 Hq1]. unfold andthen. apply runs_bind.
    eapply runs_conseq; [eapply runs_parse_param; [exact H1|lia|by apply Hq1]|]. intros r s2 H2.
    destruct (Z.eqb_spec r 0) as [->|Hr]; [|apply runs_ret; by intros ->]. destruct (H2 eq_refl) as (T2 & P2).
    apply (IH (S c) T2); [|lia|lia|left; lia]. eapply psafe_narrow; [exact P2|]. exact (safe_last _ _ _ _ _ (proj1 P2)).
Qed.

(** A text that can be a source. *)
Definition good_source (o : option (list N)) : Prop := match o with Some src => 0 ∉ src /\ no_quote src | None => True end.

Lemma psafe_init src p s : 0 ∉ src -> parse_init (src ++ [0]) = Some p ->
  key_hint (ps_share s) = None -> static_key_cardinality (ps_share s) = None ->
  psafe (S (length src)) (S (length src) - 1) 0 None (s <| ps_text ::= fun t => t <| ts_buf := src ++ [0] |> <| ts_parse := p |> |>).
Proof.
  intros H0 E Hk Hc. unfold parse_init, strlen in E. rewrite drop_0, c_string_app in E by done. injection E as <-.
  assert (Hl : (src ++ [0]) !! (S (length src) - 1)%nat = Some 0) by (simpl; rewrite Nat.sub_0_r; by rewrite lookup_app_r, Nat.sub_diag).
  split; [|done]. split; cbn [ps_text ts_buf ts_parse]; try done; cbn; [by rewrite length_app, Nat.add_comm|by rewrite Nat.sub_0_r].
Qed.

(** The loop over the sources returns, for a table without keys. *)
Lemma runs_parse_sources sources s :
  Forall good_source sources -> key_hint (ps_share s) = None -> static_key_cardinality (ps_share s) = None ->
  runs (parse_sources sources) s (fun _ _ => True).
Proof.
  intros Hall Hk Hc.
  revert s Hk Hc. induction Hall as [|[src|] sources Hsrc Hall IH]; intros s Hk Hc; cbn [parse_sources]; [by apply runs_ret| |by apply IH].
  apply runs_bind. unfold new_memory. eapply runs_conseq; [apply (runs_in_text _ _ (fun ok _ => ok = true)), (runs_alloc oom memory); done|].
  intros ok s1 [-> Hs1]. cbn [negb]. destruct Hsrc as [H0 Hq].
  destruct (parse_init (src ++ [0])) as [p|] eqn:Ep.
  2:{ unfold parse_init, strlen in Ep. by rewrite drop_0, c_string_app in Ep. }
  apply runs_bind. eapply runs_lift; [done|]. apply runs_bind, runs_modify. unfold andthen. apply runs_bind.
  eapply runs_conseq; [eapply (runs_parse_params (S (length src)) _ 0), or_intror|].
  - apply psafe_init; [done|exact Ep|by rewrite Hs1..].
  - lia.
  - rewrite length_app. lia.
  - cbn. unfold no_quote in *. by destruct src.
  - intros r s2 H2. destruct (Z.eqb_spec r 0) as [->|_]; [|by apply runs_ret]. destruct (H2 eq_refl) as [Hk2 Hc2]. by apply IH.
Qed.
End Safety.
