(* ===== verification/ParseTotal.v ===== *)
(** * The options of a table: termination

    [spider_parse_connect_info] returns: after the parser (ParseSafety) the lists
    are stretched, which leaves one element in each of them, so that the defaults
    and the checks find the element of the one link.  The only write outside the
    memory is that of a second static link id. *)

From Stdlib Require Import NArith Lia.
From stdpp Require Import base numbers list gmap strings.
From S2P Require Import Prelude CString ConnTree World OptionText OptionTable OptionParse OptionDefaults OptionTheorems.
From S2P Require Import TextTheorems TextSafety ParseSafety.
From Stdlib Require Import ZArith.
Local Open Scope spider_scope.

(** ** Rules *)

Definition returns {A} (m : M parse_state A) (s : parse_state) : Prop := runs m s (fun _ _ => True).

(** A function that returns has every property of its results. *)
Lemma returns_yields {A} (m : M parse_state A) s (Q : A -> parse_state -> Prop) : returns m s -> yields m s Q -> runs m s Q.
Proof. intros (r & s' & E & _) H. exists r, s'. split; [done|]. exact (H _ _ E). Qed.

(** If [m1] returns and what it leads to lets [m2] return. *)
Lemma returns_then (m1 m2 : M parse_state Z) s (B : parse_state -> Prop) :
  returns m1 s -> yields m1 s (fun r s' => r = 0%Z -> B s') -> (forall s', B s' -> returns m2 s') -> returns (m1 &&; m2) s.
Proof.
  intros H1 HB H2. apply runs_andthen. eapply runs_conseq; [by apply (returns_yields _ _ _ H1)|]. intros e s' He. simpl in He.
  destruct (Z.eqb_spec e 0) as [->|Hne]; [|done]. by apply H2, He.
Qed.

Lemma yields_and {A} (m : M parse_state A) s (P Q : A -> parse_state -> Prop) :
  yields m s P -> yields m s Q -> yields m s (fun r s' => P r s' /\ Q r s').
Proof. intros H1 H2 r s' E. split; [by apply (H1 _ _ E)|by apply (H2 _ _ E)]. Qed.

(** ** Stretched lists *)

Definition list_ok (k : list_kind) : option value -> Prop :=
  match k with number_list => one_number (fun _ => True) | _ => one_string end.

Lemma list_ok_set k : ~ list_ok k None.
Proof. destruct k; [intros (x & H)|intros (x & H)|intros (x & H & _)]; done. Qed.

Definition stretched (s : parse_state) : Prop := forall p k, (p, k) ∈ link_lists -> list_ok k (field s p).

(** The strings of the options [l] are not NULL. *)
Definition given (l : list string) (s : parse_state) : Prop := forall p, p ∈ l -> exists x, field s p = Some (VStrs [Some x]).

Definition at_most_one (o : option value) : Prop := match o with Some (VStrs l) => (length l <= 1)%nat | _ => True end.

Lemma link_lists_unique p k k' : (p, k) ∈ link_lists -> (p, k') ∈ link_lists -> k = k'.
Proof.
  assert (H : forallb (fun f => forallb (fun g => negb (bool_decide (f.1 = g.1)) || bool_decide (f.2 = g.2)) link_lists) link_lists = true)
    by (vm_compute; reflexivity).
  intros H1 H2. exact (guarded _ _ (forallb_elem _ _ _ (forallb_elem _ _ _ H H1) H2) eq_refl).
Qed.

Section Total.
  Context {OE : OptEnv}.

Lemma returns_in_text {A} (m : M text_state A) s : (forall t, exists r t', m t = Some (r, t')) -> returns (in_text m) s.
Proof. intros H. destruct (H (ps_text s)) as (r & t' & E). unfold returns, runs, in_text. rewrite E. by eexists _, _. Qed.

Lemma returns_memory s : returns new_memory s.
Proof. apply returns_in_text. intros t. by eexists _, _. Qed.

Lemma alloc_copies_total n t : exists r t', alloc_copies oom n t = Some (r, t').
Proof.
  revert t. induction n as [|n IH]; intros t; [by eexists _, _|]. cbn [alloc_copies]. unfold mbind, M_bind, alloc.
  destruct (negb (oom (ts_tick t))); [apply IH|by eexists _, _].
Qed.

Lemma increase_string_total l n t : exists r t', spider_increase_string_list oom l n t = Some (r, t').
Proof.
  unfold spider_increase_string_list. destruct (Nat.eqb _ _); [by eexists _, _|]. destruct (Nat.ltb _ _); [by eexists _, _|].
  unfold mbind, M_bind, alloc. destruct (negb (oom _)); [|by eexists _, _]. cbn [negb].
  match goal with |- context [match ?x with Some _ => alloc_copies oom n | None => _ end] => destruct x end; [|by eexists _, _].
  match goal with |- context [alloc_copies oom n ?t'] => destruct (alloc_copies_total n t') as (r & t'' & ->) end. by eexists _, _.
Qed.

Lemma increase_long_total l n t : exists r t', spider_increase_long_list oom l n t = Some (r, t').
Proof.
  unfold spider_increase_long_list. destruct (Nat.eqb _ _); [by eexists _, _|]. destruct (Nat.ltb _ _); by eexists _, _.
Qed.

Lemma increase_null_total l t : (length (default [] l) <= 1)%nat -> exists r t', spider_increase_null_string_list oom l 1 t = Some (r, t').
Proof.
  intros H. unfold spider_increase_null_string_list. destruct (Nat.eqb _ _); [by eexists _, _|].
  unfold mbind, M_bind, alloc. destruct (negb (oom _)); [|by eexists _, _]. cbn [negb].
  destruct (Nat.ltb_spec 1 (length (default [] l))); [lia|]. by eexists _, _.
Qed.

Lemma returns_store {A} p (mk : A -> value) r s : returns (store_list p mk r) s.
Proof. destruct r as [e|[l|]]; by eexists _, _. Qed.

Lemma null_list_name f : f ∈ link_lists -> f.2 = null_string_list -> f.1 = "static_link_ids"%string.
Proof.
  assert (H : forallb (fun f => match f.2 with null_string_list => bool_decide (f.1 = "static_link_ids"%string) | _ => true end) link_lists = true)
    by (vm_compute; reflexivity).
  intros Hf E. apply (forallb_elem _ _ _ H) in Hf. rewrite E in Hf. by apply bool_decide_eq_true in Hf.
Qed.

Lemma returns_increase_list f s : f ∈ link_lists -> at_most_one (field s "static_link_ids") -> returns (increase_list 1 f) s.
Proof.
  intros Hf H1. unfold returns, increase_list. apply runs_bind, runs_in_share. cbv beta. simpl id. destruct (f.2) eqn:Ek;
    (apply runs_bind; eapply runs_conseq; [apply returns_in_text|intros r s' _; apply returns_store]).
  - intros t. apply increase_string_total.
  - intros t. apply increase_null_total. rewrite (null_list_name f Hf Ek). unfold at_most_one, field, strings_of in *.
    destruct (so_values (ps_share s) !! _) as [[]|]; simpl; lia.
  - intros t. apply increase_long_total.
Qed.

Lemma keeps_at_most_one f : f ∈ link_lists -> keeps at_most_one "static_link_ids" (increase_list 1 f).
Proof.
  intros Hf. apply keeps_increase_list. intros Hp s Hs. destruct f as [p k]. simpl in Hp. subst p.
  assert (Hk : k = null_string_list) by (eapply link_lists_unique; [exact Hf|apply (bool_decide_unpack _); vm_compute; done]). subst k.
  eapply yields_conseq; [by apply increase_strings|]. intros r s' [[_ ->]|(x & ->)]; simpl; [done|lia].
Qed.

Lemma returns_increase s : at_most_one (field s "static_link_ids") -> returns (increase_lists 1) s.
Proof.
  unfold increase_lists. assert (H : forall f, f ∈ link_lists -> f ∈ link_lists) by done. revert s H. generalize link_lists at 1 3.
  intros l. induction l as [|f l IH]; intros s Hl Hs; [by apply runs_ret|]. cbn [fmap list_fmap all_steps].
  eapply returns_then with (B := fun s' => at_most_one (field s' "static_link_ids")).
  - apply returns_increase_list; [|done]. apply Hl. by left.
  - eapply yields_conseq; [apply keeps_at_most_one; [|done]; apply Hl; by left|]. done.
  - intros s' H'. apply IH; [|done]. intros g Hg. apply Hl. by right.
Qed.

Lemma increase_stretches s : yields (increase_lists 1) s (fun r s' => r = 0%Z -> stretched s').
Proof.
  intros r s' E Hr p k Hp. refine (leads_increase (fun _ => True) (list_ok k) p k Hp _ _ _ _ s I r s' E Hr).
  - intros k' Hk'. by eapply link_lists_unique.
  - intros t _. destruct k; [eapply yields_conseq; [by apply increase_strings|]|eapply yields_conseq; [by apply increase_strings|]|
      eapply yields_conseq; [apply increase_numbers|]]; intros r' t' [[]|(x & Hx)] ->; try done; [by exists x..|]. exists x. by split; [apply Hx|].
  - done.
  - intros t Ht. destruct k; [eapply yields_conseq; [by apply increase_strings|]|eapply yields_conseq; [by apply increase_strings|]|
      eapply yields_conseq; [apply increase_numbers|]]; intros r' t' [[_ ->]|(x & Hx)]; try done; [by exists x..|]. exists x. by split; [apply Hx|].
Qed.

(** ** The defaults of the link *)

(** [m] leads from lists with the strings [l] to lists with the strings [l']. *)
Definition goes (l l' : list string) (m : M parse_state Z) : Prop :=
  forall s, stretched s -> given l s -> runs m s (fun r s' => r = 0%Z -> stretched s' /\ given l' s').

Lemma goes_then l l' l'' m ms : goes l l' m -> goes l' l'' (all_steps ms) -> goes l l'' (all_steps (m :: ms)).
Proof.
  intros H1 H2 s Hs Hg. cbn [all_steps]. apply runs_andthen. eapply runs_conseq; [by apply H1|]. intros e s' He.
  destruct (Z.eqb_spec e 0) as [->|Hne]; [|done]. destruct (He eq_refl). by apply H2.
Qed.

Lemma goes_all l ms : Forall (goes l l) ms -> goes l l (all_steps ms).
Proof. induction 1 as [|m ms H1 H2 IH]; [intros s Hs Hg; by apply runs_ret|]. by eapply goes_then. Qed.

Definition string_option (p : string) : Prop := exists k, (p, k) ∈ link_lists /\ k <> number_list.

Definition is_string_option (p : string) : bool :=
  existsb (fun f => bool_decide (f.1 = p) && negb (bool_decide (f.2 = number_list))) link_lists.

Lemma is_string_option_ok p : is_string_option p = true -> string_option p.
Proof.
  intros H. apply existsb_exists in H as ([q k] & Hin & Hb). apply list_elem_of_In in Hin.
  apply andb_true_iff in Hb as [Hq Hk]. apply bool_decide_eq_true in Hq. simpl in Hq. subst q.
  apply negb_true_iff, bool_decide_eq_false in Hk. by exists k.
Qed.

Lemma stretched_string s p : stretched s -> string_option p -> one_string (field s p).
Proof. intros H (k & Hk & Hn). apply H in Hk. by destruct k. Qed.

Lemma string_at_field s p x : field s p = Some (VStrs [x]) -> string_at (ps_share s) p 0 = Some x.
Proof. unfold field, string_at, strings_of. by intros ->. Qed.

(** A string or a number of the link is replaced. *)
Lemma replace_string l p x s : stretched s -> given l s -> string_option p ->
  let s' := s <| ps_share ::= fun sh => sh <| so_values ::= insert p (VStrs [Some x]) |> |> in stretched s' /\ given (p :: l) s'.
Proof.
  intros Hs Hg (k & Hk & Hn). split.
  - intros q k' Hq. unfold field. cbn. destruct (decide (q = p)) as [->|Hne].
    + rewrite lookup_insert_eq. rewrite (link_lists_unique _ _ _ Hq Hk). destruct k; [by eexists..|done].
    + rewrite lookup_insert_ne by done. by apply Hs.
  - intros q Hq. unfold field. cbn. destruct (decide (q = p)) as [->|Hne]; [rewrite lookup_insert_eq; by eexists|].
    rewrite lookup_insert_ne by done. apply elem_of_cons in Hq as [|Hq]; [done|]. by apply Hg.
Qed.

Lemma replace_number l p z s : stretched s -> given l s -> (p, number_list) ∈ link_lists ->
  let s' := s <| ps_share ::= fun sh => sh <| so_values ::= insert p (VNums [z]) |> |> in stretched s' /\ given l s'.
Proof.
  intros Hs Hg Hk. split.
  - intros q k' Hq. unfold field. cbn. destruct (decide (q = p)) as [->|Hne].
    + rewrite lookup_insert_eq. rewrite (link_lists_unique _ _ _ Hq Hk). by exists z.
    + rewrite lookup_insert_ne by done. by apply Hs.
  - intros q Hq. unfold field. cbn. destruct (decide (q = p)) as [->|Hne]; [|rewrite lookup_insert_ne by done; by apply Hg].
    destruct (Hg _ Hq) as [x Hx], (Hs _ _ Hk) as (y & Hy & _). congruence.
Qed.

Lemma given_cons l p x s : given l s -> field s p = Some (VStrs [Some x]) -> given (p :: l) s.
Proof. intros Hg Hp q Hq. apply elem_of_cons in Hq as [->|Hq]; [by exists x|by apply Hg]. Qed.

Lemma given_weaken l p s : given (p :: l) s -> given l s.
Proof. intros H q Hq. apply H. by right. Qed.

Lemma runs_set_string l p x s : stretched s -> given l s -> string_option p ->
  runs (set_string p 0 x) s (fun _ s' => stretched s' /\ given (p :: l) s').
Proof.
  intros Hs Hg Hp. destruct (stretched_string s p Hs Hp) as [y Hy]. unfold set_string. apply runs_bind.
  eapply runs_lift; [unfold strings_of; unfold field in Hy; by rewrite Hy|]. apply runs_bind, runs_modify, runs_ret.
  exact (replace_string l p x s Hs Hg Hp).
Qed.

Lemma goes_new_string l p x : string_option p ->
  forall s, stretched s -> given l s ->
  runs (ok ← new_memory; if negb ok then mret HA_ERR_OUT_OF_MEM else set_string p 0 x) s (fun r s' => r = 0%Z -> stretched s' /\ given (p :: l) s').
Proof.
  intros Hp s Hs Hg. apply runs_bind. eapply runs_conseq; [apply (returns_yields _ _ (fun _ s' => ps_share s' = ps_share s) (returns_memory s))|].
  - intros r s' [= <- <-]. done.
  - intros ok s' E. destruct ok; [|by apply runs_ret]. eapply runs_conseq; [apply (runs_set_string l)|done]; [| |done].
    + intros q k Hq. unfold field. rewrite E. by apply Hs.
    + intros q Hq. unfold field. rewrite E. by apply Hg.
Qed.

Lemma goes_default_string l p x : string_option p -> goes l (p :: l) (default_string p 0 (Some x)).
Proof.
  intros Hp s Hs Hg. destruct (stretched_string s p Hs Hp) as [y Hy]. unfold default_string. apply runs_bind.
  eapply runs_lift; [by apply string_at_field|]. destruct y as [y|]; [apply runs_ret; intros _; split; [done|by eapply given_cons]|].
  by apply goes_new_string.
Qed.

Lemma goes_some_string l p x : string_option p -> goes l l (default_string p 0 x).
Proof.
  intros Hp s Hs Hg. destruct x as [x|].
  - eapply runs_conseq; [by apply goes_default_string|]. intros r s' H Hr. destruct (H Hr) as [H1 H2%given_weaken]. done.
  - destruct (stretched_string s p Hs Hp) as [y Hy]. unfold default_string. apply runs_bind.
    eapply runs_lift; [by apply string_at_field|]. destruct y; apply runs_ret; by intros _.
Qed.

Lemma goes_number l p f : (p, number_list) ∈ link_lists -> goes l l (update_number p 0 f).
Proof.
  intros Hp s Hs Hg. destruct (Hs _ _ Hp) as (z & Hz & _). unfold update_number.
  assert (Hn : numbers_of (ps_share s) p = Some [z]) by (unfold numbers_of; unfold field in Hz; by rewrite Hz).
  apply runs_bind. eapply runs_lift; [unfold number_at_link; by rewrite Hn|]. apply runs_bind. eapply runs_lift; [exact Hn|].
  apply runs_bind, runs_modify, runs_ret. intros _. by apply replace_number.
Qed.

Ltac string_option_tac := apply is_string_option_ok; vm_compute; reflexivity.

Lemma goes_server l : goes l l (name ← lift_opt (fun st => string_at (ps_share st) "server_names" 0);
  match name with None => mret 0%Z | Some _ => spider_get_server 0 end).
Proof.
  intros s Hs Hg. destruct (stretched_string s "server_names" Hs ltac:(string_option_tac)) as [y Hy]. apply runs_bind.
  eapply runs_lift; [by apply string_at_field|]. destruct y as [name|]; [|apply runs_ret; by intros _].
  unfold spider_get_server. apply runs_bind. eapply runs_lift; [by rewrite (string_at_field _ _ _ Hy)|].
  destruct (get_server_by_name name) as [sv|]; [|by apply runs_ret]. revert s Hs Hg Hy. intros s Hs Hg _. revert s Hs Hg.
  apply goes_all. rewrite !Forall_cons, Forall_nil. split_and!; try done;
    first [apply goes_some_string; string_option_tac|apply goes_number; apply (bool_decide_unpack _); vm_compute; done].
Qed.

Lemma goes_table_name l t : goes l l (default_table_name t 0).
Proof.
  intros s Hs Hg. destruct (stretched_string s "tgt_table_names" Hs ltac:(string_option_tac)) as [y Hy]. unfold default_table_name.
  apply runs_bind. eapply runs_lift; [by apply string_at_field|]. destruct y as [y|]; [apply runs_ret; by intros _|].
  apply runs_bind, runs_modify. eapply runs_conseq; [apply goes_new_string; [string_option_tac|exact Hs|exact Hg]|].
  intros r s' H Hr. destruct (H Hr) as [H1 H2%given_weaken]. done.
Qed.

Lemma goes_default_file l : goes l l (default_default_file 0).
Proof.
  intros s Hs Hg. destruct (stretched_string s "tgt_default_groups" Hs ltac:(string_option_tac)) as [y Hy]. unfold default_default_file.
  apply runs_bind. eapply runs_lift; [by apply string_at_field|]. destruct y as [y|]; [|apply runs_ret; by intros _].
  apply goes_some_string; [string_option_tac|done..].
Qed.

Lemma goes_socket l : "tgt_hosts"%string ∈ l -> goes l l (default_socket 0).
Proof.
  intros Hl s Hs Hg. destruct (Hg _ Hl) as [h Hh]. unfold default_socket. apply runs_bind.
  eapply runs_lift; [by rewrite (string_at_field _ _ _ Hh)|]. apply goes_some_string; [string_option_tac|done..].
Qed.

Lemma number_defaults_listed f : f ∈ number_defaults server_id -> (f.1, number_list) ∈ link_lists.
Proof.
  assert (H : forallb (fun p => bool_decide ((p, number_list) ∈ link_lists)) (number_defaults 0).*1 = true) by (vm_compute; reflexivity).
  intros Hf. assert (Hp : f.1 ∈ (number_defaults 0).*1).
  { change (number_defaults 0).*1 with (number_defaults server_id).*1. by apply list_elem_of_fmap_2. }
  apply (forallb_elem _ _ _ H) in Hp. by apply bool_decide_eq_true in Hp.
Qed.

(** After the defaults of the link its wrapper and its host are known. *)
Lemma goes_link_defaults t : goes [] ["tgt_hosts"; "tgt_wrappers"]%string (all_steps (link_defaults t 0)).
Proof.
  unfold link_defaults. cbn [app].
  eapply goes_then; [apply goes_server|]. eapply goes_then; [apply goes_default_string; string_option_tac|].
  eapply goes_then; [apply goes_default_string; string_option_tac|]. apply goes_all.
  rewrite !Forall_cons. split_and!; try (apply goes_some_string; string_option_tac).
  - apply goes_table_name.
  - apply goes_default_file.
  - apply goes_number, (bool_decide_unpack _). vm_compute. done.
  - apply goes_number, (bool_decide_unpack _). vm_compute. done.
  - apply goes_socket. by left.
  - apply Forall_fmap, Forall_forall. intros f Hf. by apply goes_number, number_defaults_listed.
Qed.

(** The other defaults fill only fields that are not set. *)
Lemma goes_default_field l f : goes l l (default_field f).
Proof.
  intros s Hs Hg. unfold default_field. apply runs_bind, runs_modify, runs_ret. intros _.
  assert (H : forall p v, field s p = Some v -> field (s <| ps_share ::= fun sh => sh <| so_values ::= fun m =>
    match m !! f.1 with Some _ => m | None => <[f.1 := f.2]> m end |> |>) p = Some v).
  { intros p v Hp. unfold field in *. cbn. destruct (so_values (ps_share s) !! f.1) eqn:E; [done|].
    rewrite lookup_insert_ne; [done|]. intros <-. congruence. }
  split.
  - intros p k Hp. pose proof (Hs p k Hp) as Hok. destruct (field s p) as [v|] eqn:Ef; [by rewrite (H p v Ef)|]. by destruct (list_ok_set k).
  - intros p Hp. destruct (Hg p Hp) as [x Hx]. exists x. by apply H.
Qed.

Lemma goes_default_engine l : goes l l default_engine.
Proof.
  intros s Hs Hg. unfold default_engine. apply runs_bind, runs_in_share.
  destruct (so_values (ps_share s) !! "bka_engine"%string) eqn:E; [apply runs_ret; by intros _|].
  apply runs_bind. eapply runs_conseq; [apply (returns_yields _ _ (fun _ s' => ps_share s' = ps_share s) (returns_memory s))|].
  { intros r s' [= <- <-]. done. }
  intros ok s' Es. destruct ok; [|by apply runs_ret]. simpl. apply runs_bind, runs_modify, runs_ret. intros _.
  assert (H : forall p v, field s p = Some v ->
    field (s' <| ps_share ::= fun sh => sh <| so_values ::= insert "bka_engine"%string (VStr SPIDER_SQL_TMP_BKA_ENGINE_STR) |> |>) p = Some v).
  { intros p v Hp. unfold field in *. cbn. rewrite Es, lookup_insert_ne; [done|]. intros <-. congruence. }
  split.
  - intros p k Hp. pose proof (Hs p k Hp) as Hok. destruct (field s p) as [v|] eqn:Ef; [by rewrite (H p v Ef)|]. by destruct (list_ok_set k).
  - intros p Hp. destruct (Hg p Hp) as [x Hx]. exists x. by apply H.
Qed.

Lemma goes_defaults t : goes [] ["tgt_hosts"; "tgt_wrappers"]%string (spider_set_connect_info_default t 1).
Proof.
  intros s Hs Hg. unfold spider_set_connect_info_default. cbn [seq fmap list_fmap all_steps].
  apply runs_andthen, runs_andthen. eapply runs_conseq; [by apply goes_link_defaults|]. intros e s1 H1.
  destruct (Z.eqb_spec e 0) as [->|Hne]; [|by destruct (Z.eqb_spec e 0)]. destruct (H1 eq_refl) as [Hs1 Hg1]. apply runs_ret. rewrite Z.eqb_refl.
  apply runs_andthen. eapply runs_conseq; [apply (goes_all ["tgt_hosts"; "tgt_wrappers"]%string)|]; [|done|done|].
  - apply Forall_fmap, Forall_forall. intros f _. apply goes_default_field.
  - intros e s2 H2. destruct (Z.eqb_spec e 0) as [->|Hne]; [|done]. destruct (H2 eq_refl). by apply goes_default_engine.
Qed.

(** ** The checks *)

Lemma runs_checks fs s : Forall (fun f => is_Some (f (ps_share s))) fs -> runs (all_steps (checked <$> fs)) s (fun _ s' => s' = s).
Proof.
  induction 1 as [|f fs [z Hz] Hfs IH]; [by apply runs_ret|]. cbn [fmap list_fmap all_steps]. apply runs_andthen.
  eapply runs_lift; [exact Hz|]. by destruct (Z.eqb z 0).
Qed.

Lemma length_limits_strings f : f ∈ length_limits -> f.1 = "tgt_shard_keys"%string \/ string_option f.1.
Proof.
  assert (H : forallb (fun f => bool_decide (f.1 = "tgt_shard_keys"%string) || is_string_option f.1) length_limits = true) by (vm_compute; reflexivity).
  intros Hf. apply (forallb_elem _ _ _ H), orb_true_iff in Hf as [Hf|Hf]; [left; by apply bool_decide_eq_true in Hf|right; by apply is_string_option_ok].
Qed.

Lemma string_at_first s p l : field s p = Some (VStrs l) -> l <> [] -> is_Some (string_at (ps_share s) p 0).
Proof. unfold field, string_at, strings_of. intros ->. by destruct l; [|eexists]. Qed.

Lemma checks_total s : stretched s -> given ["tgt_hosts"; "tgt_wrappers"]%string s -> shard_keys_ok (field s "tgt_shard_keys") ->
  Forall (fun f => is_Some (f (ps_share s))) link_checks.
Proof.
  intros Hs Hg Hk. unfold link_checks. rewrite Forall_cons, Forall_app, Forall_cons, Forall_nil. split_and!; [| | |done].
  - destruct (Hg "tgt_wrappers"%string) as [x Hx]; [by right; left|]. unfold check_wrapper. rewrite (string_at_field _ _ _ Hx). by eexists.
  - apply Forall_fmap, Forall_forall. intros f Hf. unfold compose, check_length. destruct (decide _) as [|Hn]; [by eexists|].
    assert (Hat : is_Some (string_at (ps_share s) f.1 0)).
    { destruct (length_limits_strings f Hf) as [E|Hp].
      - rewrite E in *. unfold shard_keys_ok in Hk. destruct (field s "tgt_shard_keys") as [[]|] eqn:Ef; try done; [by eapply string_at_first|].
        destruct Hn. split; [done|]. unfold strings_of. unfold field in Ef. by rewrite Ef.
      - destruct (stretched_string s f.1 Hs Hp) as [x Hx]. rewrite (string_at_field _ _ _ Hx). by eexists. }
    destruct Hat as [x Hx]. unfold string_length_at. rewrite Hx. by eexists.
  - destruct (stretched_string s "static_link_ids" Hs ltac:(string_option_tac)) as [x Hx]. unfold check_static_id.
    rewrite (string_at_field _ _ _ Hx). by eexists.
Qed.

(** ** The whole function *)

Definition alc : option_entry := entry "active_link_count" "active_link_count" (P_INT 1).

Lemma alc_in : alc ∈ all_options.
Proof. apply (options_in 17). unfold options, long_options. simpl. rewrite !elem_of_cons. tauto. Qed.

(** What parsing leaves of the fields that the later steps rely on. *)
Definition parsed (s : parse_state) : Prop :=
  maybe_ok (P_INT 1) (field s "active_link_count") /\ shard_keys_ok (field s "tgt_shard_keys").

Lemma parse_parsed sources s : parsed s -> yields (parse_sources sources) s (fun _ s' => parsed s').
Proof.
  intros [H1 H2]. apply yields_and.
  - apply (keeps_parse_sources (maybe_ok (P_INT 1)) "active_link_count"); [|done].
    intros e v He Hp Hv _. exact (same_kind alc e v alc_in He Hp Hv).
  - apply (keeps_parse_sources shard_keys_ok "tgt_shard_keys"); [|done]. intros e v He Hp Hv _. by apply (shard_keys_kind e).
Qed.

Lemma increase_parsed s : parsed s -> yields (increase_lists 1) s (fun _ s' => parsed s').
Proof.
  intros [H1 H2]. apply yields_and; [by apply (scalar_increase alc alc_in)|]. by apply (shard_keys_steps (mk_table [] [] None None 0 None None [] [])).
Qed.

(** After the defaults the checks and the number of links find what they need. *)
Definition completed (s : parse_state) : Prop :=
  stretched s /\ given ["tgt_hosts"; "tgt_wrappers"]%string s /\ shard_keys_ok (field s "tgt_shard_keys") /\ set_ok (P_INT 1) (field s "active_link_count").

Lemma defaults_completed t s : stretched s -> parsed s ->
  runs (spider_set_connect_info_default t 1) s (fun r s' => r = 0%Z -> completed s').
Proof.
  intros Hs [H1 H2]. assert (Hg : given [] s) by (intros p Hp; by apply elem_of_nil in Hp).
  destruct (goes_defaults t s Hs Hg) as (r & s' & E & H). exists r, s'. split; [done|]. intros Hr. destruct (H Hr). split_and!; [done..| |].
  - by apply (proj2 (shard_keys_steps t) s H2 r s' E).
  - exact (scalar_defaults alc t alc_in eq_refl s H1 r s' E Hr).
Qed.

Lemma returns_end (create : bool) s : completed s ->
  returns ((if create then all_steps (check_link all_link_count <$> seq 0 all_link_count) else mret 0%Z) &&; set_link_count) s.
Proof.
  intros (Hs & Hg & Hk & v & Hv & Hok). assert (Hset : returns set_link_count s).
  { unfold returns, set_link_count. destruct v; try done. apply runs_bind. eapply runs_lift; [unfold field in Hv; by rewrite Hv|].
    by apply runs_bind, runs_modify, runs_ret. }
  apply runs_andthen. destruct create; [|by apply runs_ret]. cbn [seq fmap list_fmap all_link_count all_steps]. apply runs_andthen.
  unfold all_link_count. rewrite check_link_checks. eapply runs_conseq; [by apply runs_checks, checks_total|]. intros e s' ->.
  destruct (Z.eqb_spec e 0) as [->|Hne]; [by apply runs_ret|]. by destruct (Z.eqb_spec e 0).
Qed.

Hypothesis memory : forall n, oom n = false.

(** C16. [spider_parse_connect_info] is memory safe and terminates: for a table
    without keys, any comments and any connect string without a 0, of which none
    starts with a quote and which give the link at most one static id, it returns,
    with success or with an error number, if memory does not run out.  The parser
    neither reads nor writes outside the memory of the text, though it cuts the
    text at commas, quotes and blanks, removes escapes in place and puts delimiters
    back for the error message; the lists that follow have the element of the link
    whenever it is accessed. *)
Theorem parse_connect_info_returns t create :
  Forall good_source (table_sources t) ->
  (forall s', parse_sources (table_sources t) (mk_state no_text (init_options 0)) = Some (0%Z, s') ->
     at_most_one (field s' "static_link_ids")) ->
  exists r sh, parse_table t 0 create = Some (r, sh).
Proof.
  intros Hsrc Hone. set (s0 := mk_state no_text (init_options 0)) in *.
  cut (returns (spider_parse_connect_info t create) s0); [intros (r & s' & E & _); exists r, (ps_share s'); unfold parse_table; by fold s0; rewrite E|].
  unfold spider_parse_connect_info. assert (H0 : parsed s0) by done.
  eapply (returns_then _ _ _ (fun s => parsed s /\ at_most_one (field s "static_link_ids"))); [by apply runs_parse_sources| |].
  { intros r s' E ->. split; [exact (parse_parsed _ _ H0 _ _ E)|by apply Hone]. }
  intros s1 [P1 O1]. eapply (returns_then _ _ _ (fun s => stretched s /\ parsed s)); [by apply returns_increase| |].
  { intros r s' E Hr. split; [exact (increase_stretches _ _ _ E Hr)|exact (increase_parsed _ P1 _ _ E)]. }
  intros s2 [S2 P2]. eapply (returns_then _ _ _ (fun s => stretched s /\ parsed s)).
  - apply runs_bind. eapply runs_conseq; [apply returns_memory|]. intros ok s' _. by apply runs_ret.
  - intros r s' [= <- <-] _. done.
  - intros s3 [S3 P3]. apply runs_andthen. eapply runs_conseq; [by apply defaults_completed|]. intros e s4 H4.
    destruct (Z.eqb_spec e 0) as [->|Hne]; [|done]. by apply returns_end, H4.
Qed.
End Total.

(** A table with an escape, a number out of range and a static id. *)
Definition rough_table : table_info := ex_table_with "srv 's1', table 't\'2', sli 'a' , lst '99999999999999999999'".

Lemma parse_connect_info_returns_witness :
  (fst <$> parse_sources (OE := ex_opt_env) (table_sources rough_table) (mk_state no_text (init_options 0))) = Some 0%Z /\
  exists r sh, parse_table (OE := ex_opt_env) rough_table 0 true = Some (r, sh).
Proof.
  split; [vm_compute; reflexivity|]. apply (parse_connect_info_returns (OE := ex_opt_env)); [done| |].
  - repeat constructor; by apply (bool_decide_unpack _).
  - intros s' E. assert (H : option_map (fun r => field r.2 "static_link_ids")
      (parse_sources (OE := ex_opt_env) (table_sources rough_table) (mk_state no_text (init_options 0))) = Some (Some (VStrs [Some (bytes "a")])))
      by (vm_compute; reflexivity).
    rewrite E in H. injection H as ->. simpl. lia.
Defined.
