(* ===== verification/Links.v ===== *)
(** * The links of a table

    A Spider table has [link_count] links, each with one or more servers to fail
    over to: server [j] of [all_link_count] serves link [j mod link_count].  The
    choice of the server of a link, of the link a read goes to and the loops over
    the usable links (storage/spider/spd_conn.cc, spd_trx.cc).  Arrays are lists;
    [None] is an access past their end or a loop that outran its fuel.  The
    functions that choose a link and go to the next one are those compiled without
    SPIDER_DISABLE_LINK. *)

From stdpp Require Import base option gmap list strings.
From Stdlib Require Import ZArith Lia.
From S2P Require Import Prelude ConnTree World.
Local Open Scope Z_scope.

Definition SPIDER_LINK_STATUS_OK : Z := 1.
Definition SPIDER_LINK_STATUS_RECOVERY : Z := 2.
Definition SPIDER_LINK_STATUS_NG : Z := 3.

(** [spider_set_bit], [spider_bit_is_set] on an array of bytes. *)
Definition spider_set_bit (bitmap : list Z) (bit : nat) : option (list Z) :=
  b ← bitmap !! (bit / 8)%nat;
  Some (<[(bit / 8)%nat := Z.lor b (Z.shiftl 1 (Z.land (Z.of_nat bit) 7))]> bitmap).

Definition spider_bit_is_set (bitmap : list Z) (bit : nat) : option bool :=
  b ← bitmap !! (bit / 8)%nat;
  Some (negb (Z.eqb (Z.land b (Z.shiftl 1 (Z.land (Z.of_nat bit) 7))) 0)).

(** ** The server of each link *)

(** The inner loop: the first server of link [i] that is not given up. *)
Fixpoint usable_server (fuel : nat) (link_statuses : list Z) (link_count all_link_count j : nat) : option nat :=
  if decide (j < all_link_count)%nat then
    match fuel with
    | O => None
    | S fuel =>
        st ← link_statuses !! j;
        if Z.leb st SPIDER_LINK_STATUS_RECOVERY then Some j
        else usable_server fuel link_statuses link_count all_link_count (j + link_count)%nat
    end
  else Some j.

(** The outer loop, for the links of [ls]. *)
Fixpoint set_link_idx_loop (link_statuses : list Z) (link_count all_link_count : nat) (ls : list nat)
    (conn_link_idx : list nat) (conn_can_fo : list Z) : option (list nat * list Z) :=
  match ls with
  | [] => Some (conn_link_idx, conn_can_fo)
  | i :: ls =>
      guard (i < length conn_link_idx)%nat;;
      j ← usable_server (S all_link_count) link_statuses link_count all_link_count i;
      if decide (j < all_link_count)%nat then
        fo ← (if decide (j + link_count < all_link_count)%nat then spider_set_bit conn_can_fo i else Some conn_can_fo);
        set_link_idx_loop link_statuses link_count all_link_count ls (<[i := j]> conn_link_idx) fo
      else set_link_idx_loop link_statuses link_count all_link_count ls (<[i := i]> conn_link_idx) conn_can_fo
  end.

Definition spider_trx_set_link_idx_for_all (link_statuses : list Z) (link_count all_link_count link_bitmap_size : nat)
    (conn_link_idx : list nat) : option (list nat * list Z) :=
  set_link_idx_loop link_statuses link_count all_link_count (seq 0 link_count) conn_link_idx
    (replicate link_bitmap_size 0).

Fixpoint check_failed_loop (link_statuses : list Z) (conn_link_idx : list nat) (conn_can_fo : list Z)
    (ls : list nat) : option Z :=
  match ls with
  | [] => Some 0
  | i :: ls =>
      j ← conn_link_idx !! i;
      st ← link_statuses !! j;
      if Z.eqb st SPIDER_LINK_STATUS_NG then
        b ← spider_bit_is_set conn_can_fo i;
        if (b : bool) then Some ER_SPIDER_LINK_IS_FAILOVER_NUM else check_failed_loop link_statuses conn_link_idx conn_can_fo ls
      else check_failed_loop link_statuses conn_link_idx conn_can_fo ls
  end.

Definition spider_trx_check_link_idx_failed (link_statuses : list Z) (conn_link_idx : list nat)
    (conn_can_fo : list Z) (link_count : nat) : option Z :=
  check_failed_loop link_statuses conn_link_idx conn_can_fo (seq 0 link_count).

(** ** Which link to read *)

(** [my_rnd_init], then the first number of [my_rnd]: the value is this number
    divided by [0x3FFFFFFF]. *)
Definition rnd_max : Z := 0x3FFFFFFF.

Definition my_rnd_first (seed1 seed2 : Z) : Z :=
  let s1 := seed1 mod rnd_max in
  let s2 := seed2 mod rnd_max in
  (s1 * 3 + s2) mod rnd_max.

Definition spider_rand (rand_source : Z) : Z :=
  my_rnd_first ((rand_source * 65537 + 55555555) mod 2 ^ 32) ((rand_source * 268435457) mod 2 ^ 32).

(** Arithmetic of doubles: [(longlong) ((double) seed / max * total)]. *)
Class DoubleScale := double_scale : Z -> Z -> Z.

(** A link is usable if its server has at most the given status. *)
Definition link_usable (link_statuses : list Z) (conn_link_idx : list nat) (link_status : Z) (i : nat) : option bool :=
  j ← conn_link_idx !! i;
  st ← link_statuses !! j;
  Some (Z.leb st link_status).

(** The first loop of [spider_conn_first_link_idx]: the usable links with their
    weights. *)
Fixpoint gather_links (link_statuses access_balances : list Z) (conn_link_idx : list nat) (link_status : Z)
    (ls : list nat) : option (list (nat * Z)) :=
  match ls with
  | [] => Some []
  | i :: ls =>
      u ← link_usable link_statuses conn_link_idx link_status i;
      if (u : bool) then
        b ← access_balances !! i;
        rest ← gather_links link_statuses access_balances conn_link_idx link_status ls;
        Some ((i, b) :: rest)
      else gather_links link_statuses access_balances conn_link_idx link_status ls
  end.

(** The second loop: the link whose share of the weights the value falls into;
    the last one takes the rest. *)
Fixpoint pick_link (balance_val : Z) (first : nat * Z) (rest : list (nat * Z)) : nat :=
  match rest with
  | [] => first.1
  | next :: rest => if Z.ltb balance_val first.2 then first.1 else pick_link (balance_val - first.2) next rest
  end.

(** The sum of the weights. *)
Definition balance_total (ls : list (nat * Z)) : Z := foldr (fun l => Z.add l.2) 0 ls.

Section Choice.
  Context {scale : DoubleScale} (thd : THD).

(** The random value of the session, scaled to the weights. *)
Definition balance_value (total : Z) : Z :=
  double_scale (spider_rand ((server_id thd + thread_id thd) mod 2 ^ 32)) total.

Definition spider_conn_first_link_idx (link_statuses access_balances : list Z) (conn_link_idx : list nat)
    (link_count : nat) (link_status : Z) : option Z :=
  ls ← gather_links link_statuses access_balances conn_link_idx link_status (seq 0 link_count);
  match ls with
  | [] => Some (-1)
  | first :: rest => Some (Z.of_nat (pick_link (balance_value (balance_total ls)) first rest))
  end.

(** The loop of [spider_conn_next_link_idx]: around from the given link to the
    next usable one, or back to it. *)
Fixpoint next_link_loop (fuel : nat) (link_statuses : list Z) (conn_link_idx : list nat)
    (link_idx link_count : nat) (link_status : Z) (tmp : nat) : option nat :=
  match fuel with
  | O => None
  | S fuel =>
      let tmp := (if decide (link_count <= tmp + 1)%nat then 0 else tmp + 1)%nat in
      if decide (tmp = link_idx) then Some tmp
      else
        u ← link_usable link_statuses conn_link_idx link_status tmp;
        if (u : bool) then Some tmp
        else next_link_loop fuel link_statuses conn_link_idx link_idx link_count link_status tmp
  end.

Definition spider_conn_next_link_idx (link_statuses access_balances : list Z) (conn_link_idx : list nat)
    (link_idx link_count : nat) (link_status : Z) : option Z :=
  tmp ← spider_conn_first_link_idx link_statuses access_balances conn_link_idx link_count link_status;
  if Z.leb 0 tmp && Z.eqb tmp (Z.of_nat link_idx)
  then Z.of_nat <$> next_link_loop link_count link_statuses conn_link_idx link_idx link_count link_status link_idx
  else Some tmp.
End Choice.

(** [spider_conn_link_idx_next]: the next usable link, or [link_count]; the loops
    over the links start it at -1, here the index of the link to look at first. *)
Fixpoint link_idx_next_loop (fuel : nat) (link_statuses : list Z) (conn_link_idx : list nat)
    (link_count : nat) (link_status : Z) (i : nat) : option nat :=
  if decide (link_count <= i)%nat then Some i
  else match fuel with
       | O => None
       | S fuel =>
           u ← link_usable link_statuses conn_link_idx link_status i;
           if (u : bool) then Some i
           else link_idx_next_loop fuel link_statuses conn_link_idx link_count link_status (i + 1)
       end.

Definition spider_conn_link_idx_next (link_statuses : list Z) (conn_link_idx : list nat)
    (link_idx : Z) (link_count : nat) (link_status : Z) : option nat :=
  link_idx_next_loop link_count link_statuses conn_link_idx link_count link_status (Z.to_nat (link_idx + 1)).

Definition spider_conn_get_link_status (link_statuses : list Z) (conn_link_idx : list nat) (link_idx : nat) : option Z :=
  j ← conn_link_idx !! link_idx; link_statuses !! j.

(** [spider_conn_check_recovery_link]: the loop over the first [link_count]
    statuses. *)
Fixpoint spider_conn_check_recovery_link (link_statuses : list Z) (link_count : nat) : option bool :=
  match link_count, link_statuses with
  | O, _ => Some false
  | S n, st :: sts => if Z.eqb st SPIDER_LINK_STATUS_RECOVERY then Some true else spider_conn_check_recovery_link sts n
  | S _, [] => None
  end.

(** The loop with which the engine goes over the usable links. *)
Fixpoint links_loop (fuel : nat) (link_statuses : list Z) (conn_link_idx : list nat) (link_count : nat)
    (link_status link_idx : Z) : option (list nat) :=
  match fuel with
  | O => None
  | S fuel =>
      i ← spider_conn_link_idx_next link_statuses conn_link_idx link_idx link_count link_status;
      if decide (i < link_count)%nat then
        rest ← links_loop fuel link_statuses conn_link_idx link_count link_status (Z.of_nat i);
        Some (i :: rest)
      else Some []
  end.
