(* ===== verification/LinkTheorems.v ===== *)
(** * What the choice of links promises

    The functions of Links return, their result is a usable link, chosen by the
    weights; every link gets the first of its servers that is not given up. *)

From stdpp Require Import base option gmap list strings.
From Stdlib Require Import ZArith Lia.
From S2P Require Import Prelude ConnTree World Links.
Local Open Scope Z_scope.

(** ** Usable links *)

Section Usable.
  Context (sts : list Z) (idx : list nat) (n : nat) (limit : Z).

(** Every link has a server, and the server a status. *)
Definition links_wf : Prop := forall i, (i < n)%nat -> is_Some (link_usable sts idx limit i).

Definition usable (i : nat) : bool := default false (link_usable sts idx limit i).

Lemma usable_eq i : links_wf -> (i < n)%nat -> link_usable sts idx limit i = Some (usable i).
Proof. intros Hw Hi. unfold usable. by destruct (Hw i Hi) as [b ->]. Qed.

Lemma gather_ok bal ls : links_wf -> (n <= length bal)%nat -> Forall (fun i => (i < n)%nat) ls ->
  gather_links sts bal idx limit ls = Some ((fun i => (i, default 0 (bal !! i))) <$> filter (fun i => usable i = true) ls).
Proof.
  intros Hw Hb. induction 1 as [|i ls Hi Hls IH]; [done|]. simpl. rewrite (usable_eq i Hw Hi). simpl.
  destruct (usable i) eqn:E; [|rewrite IH, filter_cons_False by congruence; done].
  destruct (lookup_lt_is_Some_2 bal i ltac:(lia)) as [b Eb]. rewrite Eb, IH, filter_cons_True by done. simpl. by rewrite Eb.
Qed.

(** ** The pick by weight *)

Lemma pick_in v first rest : exists b, (pick_link v first rest, b) ∈ first :: rest.
Proof.
  revert v first. induction rest as [|x rest IH]; intros v [i b]; simpl; [exists b; by left|].
  destruct (Z.ltb v b); [exists b; by left|]. destruct (IH (v - b) x) as [b' Hb']. exists b'. by right.
Qed.

Lemma pick_weight v first rest b : Forall (fun l : nat * Z => 0 <= l.2) (first :: rest) -> NoDup ((first :: rest).*1) ->
  0 <= v < balance_total (first :: rest) -> (pick_link v first rest, b) ∈ first :: rest -> 0 < b.
Proof.
  revert v first. induction rest as [|x rest IH]; intros v [i c] Hf Hnd Hv Hin; simpl in *.
  { apply list_elem_of_singleton in Hin as [= ->]. lia. }
  apply Forall_cons in Hf as [Hc Hf]. apply NoDup_cons in Hnd as [Hi Hnd]. simpl in Hc.
  destruct (Z.ltb_spec v c); simpl in Hin.
  - apply elem_of_cons in Hin as [[= ->]|Hin]; [lia|]. exfalso. apply Hi. change (i ∈ (x :: rest).*1). apply list_elem_of_fmap. by exists (i, b).
  - apply elem_of_cons in Hin as [[= E ->]|Hin].
    + exfalso. apply Hi. destruct (pick_in (v - c) x rest) as [b' Hb']. change (i ∈ (x :: rest).*1). apply list_elem_of_fmap. rewrite E in Hb'. by exists (i, b').
    + apply (IH (v - c) x); [done|done|simpl; lia|done].
Qed.

(** ** The loops over the usable links *)

Lemma idx_next_ok fuel i : links_wf -> (n <= fuel + i)%nat ->
  exists j, link_idx_next_loop fuel sts idx n limit i = Some j /\ (i <= j)%nat /\
    (forall k, (i <= k < j)%nat -> (k < n)%nat -> usable k = false) /\ ((j < n)%nat -> usable j = true) /\ ((i <= n)%nat -> (j <= n)%nat).
Proof.
  intros Hw. revert i. induction fuel as [|fuel IH]; intros i Hf; simpl.
  - rewrite decide_True by lia. exists i. split_and!; [done|lia|lia|lia|lia].
  - destruct (decide (n <= i)%nat); [exists i; split_and!; [done|lia|lia|lia|lia]|]. rewrite (usable_eq i Hw) by lia. simpl.
    destruct (usable i) eqn:E; [exists i; split_and!; [done|lia|lia|done|lia]|].
    destruct (IH (i + 1)%nat ltac:(lia)) as (j & Ej & H1 & H2 & H3 & H4). exists j. split_and!; [done|lia| |done|intros; apply H4; lia].
    intros k Hk Hkn. destruct (decide (k = i)) as [->|]; [done|]. apply H2; lia.
Qed.

(** The links from [i] on that are usable. *)
Lemma filter_skip i j : (i <= j <= n)%nat -> (forall k, (i <= k < j)%nat -> usable k = false) ->
  filter (fun k => usable k = true) (seq i (n - i)) = filter (fun k => usable k = true) (seq j (n - j)).
Proof.
  intros Hij Hk. replace (n - i)%nat with ((j - i) + (n - j))%nat by lia. rewrite seq_app, filter_app.
  replace (i + (j - i))%nat with j by lia. 
  assert (filter (fun k => usable k = true) (seq i (j - i)) = []) as ->; [|done]. apply elem_of_nil_inv.
  intros k [Hu Hin%elem_of_seq]%list_elem_of_filter. rewrite Hk in Hu by lia. done.
Qed.

Lemma links_loop_ok fuel i : links_wf -> (i <= n)%nat -> (n < fuel + i)%nat ->
  links_loop fuel sts idx n limit (Z.of_nat i - 1) = Some (filter (fun k => usable k = true) (seq i (n - i))).
Proof.
  intros Hw. revert i. induction fuel as [|fuel IH]; intros i Hi Hf; [lia|]. simpl.
  unfold spider_conn_link_idx_next. replace (Z.to_nat (Z.of_nat i - 1 + 1)) with i by lia.
  destruct (idx_next_ok n i Hw ltac:(lia)) as (j & -> & H1 & H2 & H3 & H4). simpl. rewrite (filter_skip i j) by (naive_solver lia).
  destruct (decide (j < n)%nat) as [Hj|Hj].
  - specialize (IH (S j) ltac:(lia) ltac:(lia)). replace (Z.of_nat (S j) - 1) with (Z.of_nat j) in IH by lia. rewrite IH. simpl.
    replace (n - j)%nat with (S (n - S j)) by lia. simpl. rewrite filter_cons_True by auto. done.
  - replace (n - j)%nat with 0%nat by lia. done.
Qed.

(** How many links one has to go on from link [i], around the end, to get to
    [t]. *)
Definition around (i t : nat) : nat := if decide (i <= t)%nat then (t - i)%nat else (t + n - i)%nat.

Lemma around_lt i t : (i < n)%nat -> (t < n)%nat -> (around i t < n)%nat.
Proof. intros Hi Ht. unfold around. destruct (decide _); lia. Qed.

Lemma around_inj i t u : (i < n)%nat -> (t < n)%nat -> (u < n)%nat -> around i t = around i u -> t = u.
Proof. intros Hi Ht Hu. unfold around. destruct (decide (i <= t)%nat), (decide (i <= u)%nat); lia. Qed.

Lemma around_next i tmp : (i < n)%nat -> (tmp < n)%nat ->
  let t := (if decide (n <= tmp + 1)%nat then 0 else tmp + 1)%nat in
  (t < n)%nat /\ (t = i /\ S (around i tmp) = n \/ t <> i /\ around i t = S (around i tmp)).
Proof. intros Hi Ht t. unfold t, around. repeat destruct (decide _); lia. Qed.

Lemma next_link_ok i fuel tmp : links_wf -> (i < n)%nat -> (tmp < n)%nat -> (n <= fuel + around i tmp)%nat ->
  exists j, next_link_loop fuel sts idx i n limit tmp = Some j /\ (j < n)%nat /\ (j = i \/ usable j = true) /\
    (forall k, (k < n)%nat -> usable k = true -> (around i tmp < around i k)%nat -> j <> i).
Proof.
  intros Hw Hi. revert tmp. induction fuel as [|fuel IH]; intros tmp Ht Hf.
  { pose proof (around_lt i tmp Hi Ht). lia. }
  cbn [next_link_loop]. destruct (around_next i tmp Hi Ht) as [Htn Hd].
  set (t := (if decide (n <= tmp + 1)%nat then 0 else tmp + 1)%nat) in *. destruct Hd as [[Hti Hd]|[Hti Hd]].
  - rewrite decide_True by done. exists t. split_and!; [done|done|by left|]. intros k Hk _ Hlt. pose proof (around_lt i k Hi Hk). lia.
  - rewrite decide_False by done. rewrite (usable_eq t Hw Htn). simpl. destruct (usable t) eqn:E; [exists t; by split_and!; auto|].
    destruct (IH t Htn ltac:(lia)) as (j & Ej & J1 & J2 & J3). exists j. split_and!; [done|done|done|].
    intros k Hk Hu Hlt. apply (J3 k Hk Hu). assert (around i k <> around i t) as Hne; [|lia].
    intros Hkt. apply around_inj in Hkt; [congruence|done..].
Qed.
End Usable.

(** ** The claims on the choice *)

Section Choice.
  Context {scale : DoubleScale} (thd : THD).

(** Weights of links are not negative; doubles: a number of the generator divided
    by its maximum and multiplied by a total is cut to less than the total. *)
Definition double_ok : Prop := forall seed total, 0 <= seed < rnd_max -> 0 < total -> 0 <= double_scale seed total < total.

Lemma spider_rand_range seed : 0 <= spider_rand seed < rnd_max.
Proof. unfold spider_rand, my_rnd_first. apply Z.mod_pos_bound. unfold rnd_max. lia. Qed.

Lemma first_link_ok sts bal idx n limit : links_wf sts idx n limit -> (n <= length bal)%nat ->
  exists r, spider_conn_first_link_idx thd sts bal idx n limit = Some r /\
    (r = -1 /\ (forall i, (i < n)%nat -> usable sts idx limit i = false) \/
     exists i b, r = Z.of_nat i /\ (i < n)%nat /\ usable sts idx limit i = true /\ bal !! i = Some b /\
       (double_ok -> Forall (fun b => 0 <= b) bal -> (exists k c, (k < n)%nat /\ usable sts idx limit k = true /\ bal !! k = Some c /\ 0 < c) -> 0 < b)).
Proof.
  intros Hw Hb. unfold spider_conn_first_link_idx. set (ls := filter (fun i => usable sts idx limit i = true) (seq 0 n)).
  assert (Hin : forall i, i ∈ ls <-> (i < n)%nat /\ usable sts idx limit i = true).
  { intros i. unfold ls. rewrite list_elem_of_filter, elem_of_seq. split; intros []; split; done || lia. }
  rewrite (gather_ok sts idx n limit bal (seq 0 n) Hw Hb); [|apply Forall_seq; lia]. fold ls. simpl.
  set (g := fun i => (i, default 0 (bal !! i))). destruct (g <$> ls) as [|first rest] eqn:E.
  { exists (-1). split; [done|]. left. split; [done|]. intros i Hi. apply not_true_iff_false. intros Hu. apply fmap_nil_inv in E.
    apply (not_elem_of_nil i). rewrite <- E. by apply Hin. }
  eexists. split; [reflexivity|]. right. set (v := balance_value thd (balance_total (first :: rest))).
  destruct (pick_in v first rest) as [b Hpick]. pose proof Hpick as Hp. rewrite <- E in Hp. apply list_elem_of_fmap in Hp as (i & [= Ei Eb] & Hi%Hin).
  rewrite Ei. destruct Hi as [Hi Hu]. destruct (lookup_lt_is_Some_2 bal i ltac:(lia)) as [b' Eb']. rewrite Eb' in Eb. simpl in Eb. subst b'.
  exists i, b. split_and!; [done|done|done|done|]. intros Hd Hbal (k & c & Hk & Huk & Hc & Hpos).
  assert (Hall : Forall (fun l : nat * Z => 0 <= l.2) (first :: rest)).
  { rewrite <- E. apply Forall_fmap, Forall_forall. intros j _. simpl. destruct (bal !! j) eqn:Ej; simpl; [|lia].
    rewrite Forall_forall in Hbal. eapply Hbal, list_elem_of_lookup_2, Ej. }
  assert (Htot : 0 < balance_total (first :: rest)).
  { assert (Hk' : (k, c) ∈ first :: rest) by (rewrite <- E; apply list_elem_of_fmap; exists k; unfold g; rewrite Hc; split; [done|by apply Hin]).
    clear -Hall Hk' Hpos. revert Hall Hk'. generalize (first :: rest). induction l as [|x l IH]; intros Hall Hin; [by apply not_elem_of_nil in Hin|].
    apply Forall_cons in Hall as [Hx Hall]. assert (0 <= balance_total l) by (clear -Hall; induction Hall; simpl; lia).
    simpl. apply elem_of_cons in Hin as [<-|Hin]; simpl; [lia|]. specialize (IH Hall Hin). lia. }
  apply (pick_weight v first rest b Hall); [|apply Hd; [apply spider_rand_range|done]|done].
  rewrite <- E, <- list_fmap_compose. rewrite list_fmap_id. apply NoDup_filter, NoDup_seq.
Qed.
(** The choice of a link returns -1 only if no link is usable, and a usable
    link else; a link of weight 0 is not chosen if another one has a weight.  The
    choice of the next link also returns a usable one, and another one than the
    given one if there is another one. *)
Theorem link_choice sts bal idx n limit cur :
  links_wf sts idx n limit -> (n <= length bal)%nat -> (cur < n)%nat ->
  exists r r', spider_conn_first_link_idx thd sts bal idx n limit = Some r /\
    spider_conn_next_link_idx thd sts bal idx cur n limit = Some r' /\
    (forall k, (k < n)%nat -> usable sts idx limit k = true -> r <> -1 /\ r' <> -1 /\ (k <> cur -> r' <> Z.of_nat cur)) /\
    (r <> -1 -> exists i b, r = Z.of_nat i /\ (i < n)%nat /\ usable sts idx limit i = true /\ bal !! i = Some b /\
       (double_ok -> Forall (fun b => 0 <= b) bal ->
        (exists k c, (k < n)%nat /\ usable sts idx limit k = true /\ bal !! k = Some c /\ 0 < c) -> 0 < b)) /\
    (r' <> -1 -> exists j, r' = Z.of_nat j /\ (j < n)%nat /\ usable sts idx limit j = true).
Proof.
  intros Hw Hb Hcur. unfold spider_conn_next_link_idx. destruct (first_link_ok sts bal idx n limit Hw Hb) as (r & -> & H). simpl.
  destruct H as [[-> Hno]|(i & b & -> & Hi & Hu & Hbi & Hwt)].
  { exists (-1), (-1). split_and!; try done. intros k Hk Hu. by rewrite Hno in Hu. }
  assert (Hr : Z.of_nat i <> -1) by lia. rewrite (proj2 (Z.leb_le 0 (Z.of_nat i))) by lia. simpl. destruct (Z.eqb_spec (Z.of_nat i) (Z.of_nat cur)) as [E|E].
  - apply Nat2Z.inj in E as ->. destruct (next_link_ok sts idx n limit cur n cur Hw Hcur Hcur ltac:(unfold around; destruct (decide _); lia)) as (j & -> & Hj & Hju & Hne).
    exists (Z.of_nat cur), (Z.of_nat j). split_and!; [done|done| |by eauto 10|].
    + intros k Hk Huk. split_and!; [done|lia|]. intros Hkc. assert (j <> cur) as Hjc; [|lia]. apply (Hne k Hk Huk).
      unfold around. repeat destruct (decide _); lia.
    + intros _. exists j. split_and!; [done|done|]. destruct Hju as [->|]; done.
  - exists (Z.of_nat i), (Z.of_nat i). split_and!; [done|done| |by eauto 10|by eauto 10]. intros k Hk Huk. split_and!; [done|done|lia].
Qed.
End Choice.

(** The loop over the links of a table ends and visits exactly the usable
    links, in order. *)
Theorem links_enumerated sts idx n limit : links_wf sts idx n limit ->
  links_loop (S n) sts idx n limit (-1) = Some (filter (fun i => link_usable sts idx limit i = Some true) (seq 0 n)).
Proof.
  intros Hw. change (-1) with (Z.of_nat 0 - 1). rewrite (links_loop_ok sts idx n limit (S n) 0 Hw ltac:(lia) ltac:(lia)). f_equal. rewrite Nat.sub_0_r.
  apply list_filter_iff. intros i. unfold usable. destruct (link_usable sts idx limit i) as [[]|]; naive_solver.
Qed.

(** ** Bits *)

Lemma land_bit b m : 0 <= m -> Z.eqb (Z.land b (Z.shiftl 1 m)) 0 = negb (Z.testbit b m).
Proof.
  intros Hm. rewrite Z.shiftl_1_l. destruct (Z.testbit b m) eqn:E; simpl.
  - apply Z.eqb_neq. intros H. assert (Z.testbit (Z.land b (2 ^ m)) m = false) as Hf by (rewrite H; apply Z.bits_0).
    rewrite Z.land_spec, E, Z.pow2_bits_true in Hf by done. done.
  - apply Z.eqb_eq, Z.bits_inj'. intros k Hk. rewrite Z.land_spec, Z.bits_0, Z.pow2_bits_eqb by done.
    destruct (Z.eqb_spec m k) as [->|]; [by rewrite E|apply andb_false_r].
Qed.

Definition bit_pos (bit : nat) : Z := Z.land (Z.of_nat bit) 7.

Lemma bit_pos_range bit : 0 <= bit_pos bit /\ Z.of_nat bit = Z.of_nat (bit / 8) * 8 + bit_pos bit.
Proof.
  unfold bit_pos. replace 7 with (Z.ones 3) by done. rewrite Z.land_ones by lia. change (2 ^ 3) with 8.
  rewrite Nat2Z.inj_div. change (Z.of_nat 8) with 8. pose proof (Z.div_mod (Z.of_nat bit) 8). pose proof (Z.mod_pos_bound (Z.of_nat bit) 8). lia.
Qed.

Lemma set_bit_ok bitmap bit : (bit < length bitmap * 8)%nat ->
  exists bitmap', spider_set_bit bitmap bit = Some bitmap' /\ length bitmap' = length bitmap /\
    spider_bit_is_set bitmap' bit = Some true /\ forall b, b <> bit -> spider_bit_is_set bitmap' b = spider_bit_is_set bitmap b.
Proof.
  intros Hlt. assert (Hd : (bit / 8 < length bitmap)%nat) by (apply Nat.Div0.div_lt_upper_bound; lia).
  destruct (lookup_lt_is_Some_2 bitmap (bit / 8) Hd) as [x Ex]. destruct (bit_pos_range bit) as [P1 P2].
  unfold spider_set_bit. rewrite Ex. simpl. eexists. split; [reflexivity|]. rewrite length_insert. split; [done|].
  fold (bit_pos bit). unfold spider_bit_is_set. split.
  - rewrite list_lookup_insert_eq by done. simpl. fold (bit_pos bit). rewrite land_bit, Z.lor_spec, Z.shiftl_1_l, Z.pow2_bits_true by done.
    by rewrite orb_true_r.
  - intros b Hb. fold (bit_pos b). destruct (decide (b / 8 = bit / 8)%nat) as [E|E]; [|by rewrite list_lookup_insert_ne by done].
    rewrite E, Ex, list_lookup_insert_eq by done. simpl. destruct (bit_pos_range b) as [Q1 Q2].
    rewrite !land_bit, Z.lor_spec, Z.shiftl_1_l, Z.pow2_bits_eqb by done. rewrite (proj2 (Z.eqb_neq (bit_pos bit) (bit_pos b))) by lia.
    by rewrite orb_false_r.
Qed.

(** ** The servers of the links *)

Section Servers.
  Context (sts : list Z) (lc alc : nat) (Hlc : (0 < lc)%nat) (Halc : (alc <= length sts)%nat).

Definition given_up (j : nat) : Prop := exists st, sts !! j = Some st /\ SPIDER_LINK_STATUS_RECOVERY < st.
Definition in_use (j : nat) : Prop := exists st, sts !! j = Some st /\ st <= SPIDER_LINK_STATUS_RECOVERY.

(** The server of link [i]: the first one not given up, or past the end. *)
Record first_server (i j : nat) : Prop := {
  fs_level : exists m, j = (i + m * lc)%nat;
  fs_before : forall k, (k < j)%nat -> (exists m, k = (i + m * lc)%nat) -> given_up k;
  fs_use : (j < alc)%nat -> in_use j }.

Lemma usable_server_ok i fuel m : (alc <= fuel + (i + m * lc))%nat ->
  (forall k, (k < i + m * lc)%nat -> (exists p, k = (i + p * lc)%nat) -> given_up k) ->
  exists j, usable_server fuel sts lc alc (i + m * lc) = Some j /\ first_server i j.
Proof.
  revert m. induction fuel as [|fuel IH]; intros m Hf Hb; simpl.
  { rewrite decide_False by lia. eexists. split; [reflexivity|]. split; [by exists m|done|lia]. }
  destruct (decide (i + m * lc < alc)%nat) as [Hlt|Hge].
  2: { eexists. split; [reflexivity|]. split; [by exists m|done|lia]. }
  destruct (lookup_lt_is_Some_2 sts (i + m * lc) ltac:(lia)) as [st Est]. rewrite Est. simpl. destruct (Z.leb_spec st SPIDER_LINK_STATUS_RECOVERY) as [Hle|Hgt].
  { eexists. split; [reflexivity|]. split; [by exists m|done|]. intros _. by exists st. }
  replace (i + m * lc + lc)%nat with (i + S m * lc)%nat by lia. apply IH; [lia|]. intros k Hk [p ->].
  destruct (decide (p = m)) as [->|Hne]; [by exists st|]. apply Hb; [|by exists p]. assert (p < m)%nat by nia. nia.
Qed.

(** What the loop promises of link [i]. *)
Definition link_served (idx : list nat) (fo : list Z) (i : nat) : Prop :=
  exists j, first_server i j /\
    idx !! i = Some (if decide (j < alc)%nat then j else i) /\
    spider_bit_is_set fo i = Some (bool_decide (j + lc < alc)%nat).

Lemma set_link_loop_ok ls idx fo : NoDup ls -> Forall (fun i => (i < length idx)%nat /\ (i < length fo * 8)%nat) ls ->
  (forall i, i ∈ ls -> spider_bit_is_set fo i = Some false) ->
  exists idx' fo', set_link_idx_loop sts lc alc ls idx fo = Some (idx', fo') /\ length idx' = length idx /\
    (forall i, i ∈ ls -> link_served idx' fo' i) /\
    (forall i, i ∉ ls -> idx' !! i = idx !! i /\ spider_bit_is_set fo' i = spider_bit_is_set fo i).
Proof.
  revert idx fo. induction ls as [|i ls IH]; intros idx fo Hnd Hls Hz; cbn [set_link_idx_loop].
  { exists idx, fo. split_and!; [done|done|by intros i ?%not_elem_of_nil|done]. }
  apply NoDup_cons in Hnd as [Hi Hnd]. apply Forall_cons in Hls as [[Hi1 Hi2] Hls]. rewrite option_guard_True by done. cbn [mbind option_bind].
  destruct (usable_server_ok i (S alc) 0 ltac:(lia) ltac:(intros; exfalso; destruct H0; nia)) as (j & Ej & Hj).
  rewrite Nat.mul_0_l, Nat.add_0_r in Ej. rewrite Ej.
  set (j' := if decide (j < alc)%nat then j else i).
  assert (Hset : exists fo1, (if decide (j + lc < alc)%nat then spider_set_bit fo i else Some fo) = Some fo1 /\ length fo1 = length fo /\
    spider_bit_is_set fo1 i = Some (bool_decide (j + lc < alc)%nat) /\ forall b, b <> i -> spider_bit_is_set fo1 b = spider_bit_is_set fo b).
  { destruct (decide (j + lc < alc)%nat) as [Hjl|Hjl].
    - destruct (set_bit_ok fo i Hi2) as (fo1 & E & L & B1 & B2). exists fo1. rewrite bool_decide_true by done. by split_and!.
    - exists fo. rewrite bool_decide_false by done. split_and!; [done|done|apply Hz; by left|done]. }
  destruct Hset as (fo1 & E1 & L1 & B1 & B2).
  destruct (IH (<[i := j']> idx) fo1) as (idx' & fo' & E & Hlen & Hin & Hout); [done| | |].
  { rewrite length_insert, L1. done. }
  { intros k Hk. rewrite B2 by (by intros ->). apply Hz. by right. }
  exists idx', fo'. split_and!.
  - rewrite <- E. unfold j'. destruct (decide (j < alc)%nat) as [Hjl|Hjl]; cbn [mbind option_bind].
    + by rewrite decide_True, E1 by done.
    + rewrite decide_False by done. rewrite decide_False in E1 by lia. by injection E1 as ->.
  - by rewrite Hlen, length_insert.
  - intros k [->|Hk]%elem_of_cons; [|by apply Hin]. destruct (Hout i Hi) as [O1 O2]. exists j.
    rewrite O1, O2, list_lookup_insert_eq by done. split_and!; [done|done|done].
  - intros k [Hki Hk]%not_elem_of_cons. destruct (Hout k Hk) as [-> ->]. by rewrite list_lookup_insert_ne, B2 by done.
Qed.
End Servers.

Lemma replicate_bit size bit : (bit < size * 8)%nat -> spider_bit_is_set (replicate size 0) bit = Some false.
Proof.
  intros Hlt. unfold spider_bit_is_set. rewrite lookup_replicate_2; [done|]. apply Nat.Div0.div_lt_upper_bound. lia.
Qed.

(** The check finds no failed link. *)
Lemma check_loop_ok sts idx fo ls :
  (forall i, i ∈ ls -> exists j st, idx !! i = Some j /\ sts !! j = Some st /\ (st = SPIDER_LINK_STATUS_NG -> spider_bit_is_set fo i = Some false)) ->
  check_failed_loop sts idx fo ls = Some 0.
Proof.
  induction ls as [|i ls IH]; intros H; simpl; [done|]. destruct (H i ltac:(by left)) as (j & st & -> & E & Hng). simpl. rewrite E. simpl.
  destruct (Z.eqb_spec st SPIDER_LINK_STATUS_NG) as [->|]; [rewrite (Hng eq_refl); simpl|]; apply IH; intros k Hk; apply H; by right.
Qed.

(** C18. The choice of servers gives every link the first of its servers that is
    not given up, or its own first one if all are; the link is marked for
    failover exactly if a further server follows; and the check for links to
    fail over finds none then. *)
Theorem link_servers sts lc alc size idx :
  (0 < lc <= alc)%nat -> (alc <= length sts)%nat -> (lc <= length idx)%nat -> (lc <= size * 8)%nat ->
  exists idx' fo, spider_trx_set_link_idx_for_all sts lc alc size idx = Some (idx', fo) /\
    (forall i, (i < lc)%nat -> link_served sts lc alc idx' fo i) /\
    spider_trx_check_link_idx_failed sts idx' fo lc = Some 0.
Proof.
  intros Hlc Halc Hidx Hsize. unfold spider_trx_set_link_idx_for_all.
  destruct (set_link_loop_ok sts lc alc ltac:(lia) Halc (seq 0 lc) idx (replicate size 0)) as (idx' & fo & -> & _ & Hin & _).
  - apply NoDup_seq.
  - apply Forall_seq. intros i Hi. rewrite length_replicate. lia.
  - intros i Hi%elem_of_seq. apply replicate_bit. lia.
  - exists idx', fo. split; [done|]. assert (Hs : forall i, (i < lc)%nat -> link_served sts lc alc idx' fo i) by (intros i Hi; apply Hin, elem_of_seq; lia).
    split; [done|]. apply check_loop_ok. intros i Hi%elem_of_seq. destruct (Hs i ltac:(lia)) as (j & Hj & E & Hb).
    destruct (decide (j < alc)%nat) as [Hlt|Hge].
    + destruct (fs_use _ _ _ _ _ Hj Hlt) as (st & Est & Hst). exists j, st. split_and!; [done|done|].
      intros ->. unfold SPIDER_LINK_STATUS_NG, SPIDER_LINK_STATUS_RECOVERY in Hst. lia.
    + destruct (lookup_lt_is_Some_2 sts i ltac:(lia)) as [st Est]. exists i, st. split_and!; [done|done|]. intros _. rewrite Hb, bool_decide_false by lia. done.
Qed.

(** ** Concrete tables *)

(** Two links of two servers each; the first server of link 1 is given up. *)
Definition example_statuses : list Z := [1; 3; 1; 1].

Lemma link_servers_witness :
  spider_trx_set_link_idx_for_all example_statuses 2 4 1 [0%nat; 1%nat] = Some ([0%nat; 3%nat], [1]) /\
  exists idx' fo, spider_trx_set_link_idx_for_all example_statuses 2 4 1 [0%nat; 1%nat] = Some (idx', fo) /\
    (forall i, (i < 2)%nat -> link_served example_statuses 2 4 idx' fo i) /\
    spider_trx_check_link_idx_failed example_statuses idx' fo 2 = Some 0.
Proof. split; [by vm_compute|]. apply link_servers; simpl; lia. Defined.

#[local] Instance example_scale : DoubleScale := fun seed total => seed * total / rnd_max.

Lemma example_wf : links_wf example_statuses [0%nat; 1%nat; 2%nat] 3 SPIDER_LINK_STATUS_OK.
Proof. intros [|[|[|i]]] Hi; [by eexists..|lia]. Qed.

Lemma example_double : double_ok.
Proof.
  intros seed total Hs Ht. unfold double_scale, example_scale. assert (0 < rnd_max) by done. split; [apply Z.div_pos; nia|].
  apply Z.div_lt_upper_bound; nia.
Qed.

Lemma links_enumerated_witness :
  links_loop 4 example_statuses [0%nat; 1%nat; 2%nat] 3 SPIDER_LINK_STATUS_OK (-1) = Some [0%nat; 2%nat].
Proof. rewrite (links_enumerated example_statuses [0%nat; 1%nat; 2%nat] 3 SPIDER_LINK_STATUS_OK example_wf). by vm_compute. Defined.

Definition example_reader : THD := mk_thd false 1 true true false null_xid 1 None 0 1 1 false false 0 0 false.

Lemma link_choice_witness : exists r r',
  spider_conn_first_link_idx example_reader example_statuses [0; 100; 100] [0%nat; 1%nat; 2%nat] 3 SPIDER_LINK_STATUS_OK = Some r /\
  spider_conn_next_link_idx example_reader example_statuses [0; 100; 100] [0%nat; 1%nat; 2%nat] 2 3 SPIDER_LINK_STATUS_OK = Some r' /\
  r = 2 /\ r' = 0.
Proof.
  destruct (link_choice example_reader example_statuses [0; 100; 100] [0%nat; 1%nat; 2%nat] 3 SPIDER_LINK_STATUS_OK 2
    example_wf ltac:(simpl; lia) ltac:(lia)) as (r & r' & E1 & E2 & H1 & H2 & H3).
  exists r, r'. split; [done|]. split; [done|]. destruct (H1 0%nat ltac:(lia) ltac:(done)) as (N1 & N2 & N3). split.
  - destruct (H2 N1) as (i & b & -> & Hi & Hu & Hb & Hpos).
    assert (0 < b) by (apply Hpos; [apply example_double|by repeat constructor|exists 2%nat, 100; by split_and!; try lia]).
    destruct i as [|[|[|i]]]; simpl in *; [injection Hb as <-; lia|done|done|lia].
  - destruct (H3 N2) as (j & -> & Hj & Hu). specialize (N3 ltac:(lia)). destruct j as [|[|[|j]]]; [done|done|done|lia].
Defined.
