(* ===== verification/SqlText.v ===== *)
(** * The text of XA identifiers

    storage/spider/spd_db_conn.cc: [spider_db_append_hex_string] and
    [spider_db_append_xid_str], which write an XID into a statement as
    [0x<gtrid>,0x<bqual>,0x<formatID>], and the formats of [sprintf] used to
    make an XID.  Characters are their codes.  The theorem is that the text
    determines the XID, so two transactions never name each other's branches. *)

From stdpp Require Import base list gmap.
From Stdlib Require Import ZArith Lia.
From S2P Require Import Prelude ConnTree World.
Local Open Scope spider_scope.
Local Open Scope Z_scope.

(** [spider_dig_upper] and the digits of [%x]. *)
Definition dig_upper (d : Z) : Z := if d <? 10 then 48 + d else 55 + d.
Definition dig_lower (d : Z) : Z := if d <? 10 then 48 + d else 87 + d.

(** The hexadecimal digits of a number, most significant first; at most 16 for
    a 64-bit number. *)
Fixpoint hex_digits_loop (fuel : nat) (n : Z) (acc : list Z) : list Z :=
  match fuel with
  | O => acc
  | S fuel' =>
      let acc' := dig_lower (n mod 16) :: acc in
      if n / 16 =? 0 then acc' else hex_digits_loop fuel' (n / 16) acc'
  end.

(** [%lx], [%llx] of an unsigned 64-bit number *)
Definition fmt_hex (n : Z) : list Z := hex_digits_loop 16 n [].

(** [%016llx] *)
Definition fmt_hex16 (n : Z) : list Z :=
  let d := fmt_hex n in replicate (16 - length d) 48 ++ d.

Definition chr_0 : Z := 48.
Definition chr_x : Z := 120.
Definition chr_comma : Z := 44.
Definition chr_quote : Z := 39.

(** The two digits of a byte. *)
Definition hex_byte (b : Z) : list Z := [dig_upper (Z.shiftr b 4); dig_upper (Z.land b 15)].

Definition spider_db_append_hex_string (bytes : list Z) : list Z :=
  match bytes with
  | [] => [chr_quote; chr_quote]
  | _ => chr_0 :: chr_x :: (bytes ≫= hex_byte)
  end.

Definition gtrid (x : XID) : list Z := take (Z.to_nat (gtrid_length x)) (xid_data x).
Definition bqual (x : XID) : list Z :=
  take (Z.to_nat (bqual_length x)) (drop (Z.to_nat (gtrid_length x)) (xid_data x)).

(** [0x%lx] of the format id, a signed long printed as unsigned. *)
Definition fmt_format_id (f : Z) : list Z := chr_0 :: chr_x :: fmt_hex (f mod 2 ^ 64).

(** The text alone: the buffer of 11 bytes the format id is printed into (see
    [format_id_fits]) and the results of the two calls that append the parts, which
    the code ignores, are not in the model. *)
Definition spider_db_append_xid_str (x : XID) : list Z :=
  spider_db_append_hex_string (gtrid x) ++ [chr_comma] ++
  spider_db_append_hex_string (bqual x) ++ [chr_comma] ++
  fmt_format_id (formatID x).

(** ** Injectivity *)

Lemma dig_upper_inj a b : 0 <= a < 16 -> 0 <= b < 16 -> dig_upper a = dig_upper b -> a = b.
Proof.
  unfold dig_upper. intros Ha Hb. destruct (Z.ltb_spec a 10), (Z.ltb_spec b 10); lia.
Qed.

Lemma dig_lower_inj a b : 0 <= a < 16 -> 0 <= b < 16 -> dig_lower a = dig_lower b -> a = b.
Proof.
  unfold dig_lower. intros Ha Hb. destruct (Z.ltb_spec a 10), (Z.ltb_spec b 10); lia.
Qed.

Definition is_byte (b : Z) : Prop := 0 <= b < 256.

Lemma nibbles b : is_byte b -> 0 <= Z.shiftr b 4 < 16 /\ 0 <= Z.land b 15 < 16 /\
  b = Z.shiftr b 4 * 16 + Z.land b 15.
Proof.
  intros Hb. change 15 with (Z.ones 4). rewrite Z.land_ones, Z.shiftr_div_pow2 by lia.
  unfold is_byte in Hb. change (2 ^ 4) with 16.
  pose proof (Z.div_mod b 16). pose proof (Z.mod_pos_bound b 16). lia.
Qed.

Lemma hex_byte_inj a b : is_byte a -> is_byte b -> hex_byte a = hex_byte b -> a = b.
Proof.
  intros Ha Hb [= H1 H2]. apply nibbles in Ha as (?&?&->). apply nibbles in Hb as (?&?&->).
  apply dig_upper_inj in H1; [|lia..]. apply dig_upper_inj in H2; [|lia..]. congruence.
Qed.

Lemma hex_bytes_inj l k :
  Forall is_byte l -> Forall is_byte k -> l ≫= hex_byte = k ≫= hex_byte -> l = k.
Proof.
  intros Hl. revert k. induction Hl as [|a l Ha Hl IH]; intros [|b k] Hk; simpl; try done.
  apply Forall_cons in Hk as [Hb Hk]. intros [= H1 H2 H3].
  rewrite (hex_byte_inj a b); [|done|done|unfold hex_byte; congruence]. f_equal. auto.
Qed.

Lemma hex_string_inj l k :
  Forall is_byte l -> Forall is_byte k ->
  spider_db_append_hex_string l = spider_db_append_hex_string k -> l = k.
Proof.
  intros Hl Hk. destruct l as [|a l], k as [|b k]; try done.
  intros [= ? ? ?]. apply hex_bytes_inj; [done..|]. simpl. congruence.
Qed.

Lemma dig_upper_not_comma d : 0 <= d < 16 -> dig_upper d <> chr_comma.
Proof. unfold dig_upper, chr_comma. destruct (Z.ltb_spec d 10); lia. Qed.

Lemma hex_string_no_comma l :
  Forall is_byte l -> chr_comma ∉ spider_db_append_hex_string l.
Proof.
  intros Hl. assert (Hb : chr_comma ∉ l ≫= hex_byte).
  { induction Hl as [|a l Ha Hl IH]; simpl; [set_solver|].
    destruct (nibbles a Ha) as (H1 & H2 & _).
    apply dig_upper_not_comma in H1. apply dig_upper_not_comma in H2. set_solver. }
  destruct l as [|a l]; unfold spider_db_append_hex_string, chr_comma, chr_quote, chr_0, chr_x in *;
    rewrite !not_elem_of_cons; split_and!; try done; set_solver.
Qed.

(** Splitting at the first comma. *)
Lemma comma_split (l l' k k' : list Z) :
  chr_comma ∉ l -> chr_comma ∉ l' -> l ++ chr_comma :: k = l' ++ chr_comma :: k' -> l = l' /\ k = k'.
Proof.
  revert l'. induction l as [|a l IH]; intros [|a' l']; rewrite ?not_elem_of_cons; simpl.
  - by intros _ _ [= ->].
  - by intros _ [Ha _] [= <- _].
  - by intros [Ha _] _ [= -> _].
  - intros [_ Hl] [_ Hl'] [= -> Heq]. destruct (IH l' Hl Hl' Heq) as [-> ->]. done.
Qed.

(** Reading the digits back. *)
Definition undig (c : Z) : Z := if c <? 58 then c - 48 else c - 87.
Definition digits_val (v : Z) (l : list Z) : Z := foldl (fun acc c => acc * 16 + undig c) v l.

Lemma undig_dig d : 0 <= d < 16 -> undig (dig_lower d) = d.
Proof.
  intros Hd. unfold undig, dig_lower. destruct (Z.ltb_spec d 10).
  - destruct (Z.ltb_spec (48 + d) 58); lia.
  - destruct (Z.ltb_spec (87 + d) 58); lia.
Qed.

Lemma hex_digits_loop_val fuel n acc :
  0 <= n < 16 ^ Z.of_nat fuel -> digits_val 0 (hex_digits_loop fuel n acc) = digits_val n acc.
Proof.
  revert n acc. induction fuel as [|fuel IH]; intros n acc Hn.
  - change (16 ^ Z.of_nat 0) with 1 in Hn. replace n with 0 by lia. done.
  - rewrite Nat2Z.inj_succ, Z.pow_succ_r in Hn by lia.
    pose proof (Z.div_mod n 16). pose proof (Z.mod_pos_bound n 16). simpl.
    destruct (Z.eqb_spec (n / 16) 0) as [Hz|Hz].
    + unfold digits_val. simpl. rewrite undig_dig by lia. f_equal. lia.
    + rewrite IH.
      * unfold digits_val. simpl. rewrite undig_dig by lia. f_equal. lia.
      * split; [apply Z.div_pos; lia|]. apply Z.div_lt_upper_bound; lia.
Qed.

Lemma fmt_hex_inj a b :
  0 <= a < 2 ^ 64 -> 0 <= b < 2 ^ 64 -> fmt_hex a = fmt_hex b -> a = b.
Proof.
  intros Ha Hb Heq. assert (H : forall n, 0 <= n < 2 ^ 64 -> digits_val 0 (fmt_hex n) = n).
  { intros n Hn. unfold fmt_hex. by rewrite hex_digits_loop_val. }
  rewrite <- (H a Ha), <- (H b Hb). by rewrite Heq.
Qed.

Lemma format_id_inj a b :
  - 2 ^ 63 <= a < 2 ^ 63 -> - 2 ^ 63 <= b < 2 ^ 63 -> fmt_format_id a = fmt_format_id b -> a = b.
Proof.
  intros Ha Hb [= Heq]. apply fmt_hex_inj in Heq; [|apply Z.mod_pos_bound; lia..].
  destruct (Z_lt_le_dec a 0), (Z_lt_le_dec b 0).
  all: rewrite ?(Z.mod_small a), ?(Z.mod_small b) in Heq by lia.
  all: try rewrite <- (Z.mod_unique a (2 ^ 64) (-1) (a + 2 ^ 64)) in Heq by lia.
  all: try rewrite <- (Z.mod_unique b (2 ^ 64) (-1) (b + 2 ^ 64)) in Heq by lia.
  all: lia.
Qed.

(** An XID as the server makes it: a signed long format id, and data long enough
    for both parts. *)
Record xid_wf (x : XID) : Prop := {
  wf_format : - 2 ^ 63 <= formatID x < 2 ^ 63;
  wf_gtrid : 0 <= gtrid_length x;
  wf_bqual : 0 <= bqual_length x;
  wf_length : gtrid_length x + bqual_length x <= Z.of_nat (length (xid_data x));
  wf_bytes : Forall is_byte (xid_data x)
}.

Lemma gtrid_bytes x : xid_wf x -> Forall is_byte (gtrid x) /\ Forall is_byte (bqual x).
Proof.
  intros [_ _ _ _ H]. split; [by apply Forall_take|]. by apply Forall_take, Forall_drop.
Qed.

Lemma gtrid_lengths x : xid_wf x ->
  Z.of_nat (length (gtrid x)) = gtrid_length x /\ Z.of_nat (length (bqual x)) = bqual_length x.
Proof.
  intros [_ H1 H2 H3 _]. unfold gtrid, bqual. rewrite !length_take, length_drop. lia.
Qed.

(** C32. The text of an XID in a statement determines the XID: its format id, the
    lengths and the bytes of both parts. *)
Theorem xid_str_injective (x y : XID) (Hx : xid_wf x) (Hy : xid_wf y)
    (Heq : spider_db_append_xid_str x = spider_db_append_xid_str y) :
  formatID x = formatID y /\ gtrid_length x = gtrid_length y /\
  bqual_length x = bqual_length y /\ gtrid x = gtrid y /\ bqual x = bqual y.
Proof.
  destruct (gtrid_bytes x Hx) as [Hgx Hbx]. destruct (gtrid_bytes y Hy) as [Hgy Hby].
  unfold spider_db_append_xid_str in Heq. simpl in Heq.
  apply comma_split in Heq as [Hg Heq]; [|by apply hex_string_no_comma..].
  apply comma_split in Heq as [Hb Hf]; [|by apply hex_string_no_comma..].
  apply hex_string_inj in Hg; [|done..]. apply hex_string_inj in Hb; [|done..].
  apply format_id_inj in Hf; [|by destruct Hx|by destruct Hy].
  destruct (gtrid_lengths x Hx) as [<- <-]. destruct (gtrid_lengths y Hy) as [<- <-].
  split_and!; congruence.
Qed.

Lemma xid_str_injective_witness :
  exists x, xid_wf x /\ formatID x = formatID x /\ gtrid x = [97; 98].
Proof.
  pose (x := mk_XID 1 2 1 [97; 98; 49]). exists x.
  assert (Hx : xid_wf x).
  { split; unfold x; simpl; try lia. repeat constructor; unfold is_byte; lia. }
  split; [exact Hx|].
  destruct (xid_str_injective x x Hx Hx eq_refl) as (Hf & _). split; [exact Hf|reflexivity].
Defined.

(** ** The buffer of the format id *)

Lemma hex_digits_loop_more fuel n acc :
  (1 <= fuel)%nat -> (S (length acc) <= length (hex_digits_loop fuel n acc))%nat.
Proof.
  revert n acc. induction fuel as [|fuel IH]; intros n acc Hf; [lia|]. simpl.
  destruct (_ =? _); simpl; [lia|]. destruct fuel as [|fuel]; [simpl; lia|].
  etrans; [|apply IH; lia]. simpl. lia.
Qed.

(** At most [S j] digits exactly when the number is below [16 ^ S j]. *)
Lemma hex_digits_loop_length fuel n acc j :
  0 <= n < 16 ^ Z.of_nat fuel -> (1 <= fuel)%nat ->
  (length (hex_digits_loop fuel n acc) <= length acc + S j)%nat <-> n < 16 ^ Z.of_nat (S j).
Proof.
  revert n acc j. induction fuel as [|fuel IH]; intros n acc j Hn Hf; [lia|].
  rewrite !Nat2Z.inj_succ, !Z.pow_succ_r in * by lia.
  pose proof (Z.div_mod n 16). pose proof (Z.mod_pos_bound n 16).
  pose proof (Z.pow_pos_nonneg 16 (Z.of_nat j)). simpl.
  destruct (Z.eqb_spec (n / 16) 0) as [Hz|Hz]; [simpl; split; intros; nia|].
  assert (0 <= n / 16 < 16 ^ Z.of_nat fuel).
  { split; [apply Z.div_pos; lia|]. apply Z.div_lt_upper_bound; lia. }
  assert (1 <= fuel)%nat by (destruct fuel; [change (16 ^ Z.of_nat 0) with 1 in *|]; lia).
  destruct j as [|j].
  - change (16 ^ Z.of_nat 0) with 1.
    pose proof (hex_digits_loop_more fuel (n / 16) (dig_lower (n mod 16) :: acc)).
    simpl in *. split; intros; lia.
  - specialize (IH (n / 16) (dig_lower (n mod 16) :: acc) j). simpl length in IH.
    replace (length acc + S (S j))%nat with (S (length acc) + S j)%nat by lia.
    rewrite IH by lia. split; intros; nia.
Qed.

(** [char format_id[sizeof(long) + 3]] *)
Definition format_id_size : nat := 11.

(** The text of the format id and its terminating zero fit the buffer that
    [spider_db_append_xid_str] prints it into exactly when the format id is an
    unsigned 32-bit number: larger or negative ones overflow it. *)
Theorem format_id_fits (f : Z) (Hf : - 2 ^ 63 <= f < 2 ^ 63) :
  (length (fmt_format_id f) + 1 <= format_id_size)%nat <-> 0 <= f < 2 ^ 32.
Proof.
  change (length (fmt_format_id f)) with (S (S (length (fmt_hex (f mod 2 ^ 64))))).
  pose proof (Z.mod_pos_bound f (2 ^ 64)) as Hm. unfold format_id_size.
  assert (H : (length (fmt_hex (f mod 2 ^ 64)) <= 8)%nat <-> f mod 2 ^ 64 < 2 ^ 32).
  { apply (hex_digits_loop_length 16 (f mod 2 ^ 64) [] 7); [|lia].
    change (16 ^ Z.of_nat 16) with (2 ^ 64). lia. }
  assert (Heq : f mod 2 ^ 64 < 2 ^ 32 <-> 0 <= f < 2 ^ 32).
  { destruct (Z_lt_le_dec f 0).
    - rewrite <- (Z.mod_unique f (2 ^ 64) (-1) (f + 2 ^ 64)) by lia. lia.
    - rewrite Z.mod_small by lia. lia. }
  rewrite <- Heq, <- H. generalize (length (fmt_hex (f mod 2 ^ 64))). lia.
Qed.

Lemma format_id_fits_witness :
  ~ (length (fmt_format_id (2 ^ 32)) + 1 <= format_id_size)%nat.
Proof. rewrite (format_id_fits (2 ^ 32)); lia. Defined.
