(* ===== verification/ConnQueue.v ===== *)
(** * Connections: queued settings, queries and errors

    storage/spider/spd_conn.cc (the [spider_conn_queue_*] setters),
    spd_db_conn.cc (connecting, [spider_db_conn_queue_action], the query
    functions, [spider_db_errorno]) and the parts of [spider_db_mysql] and
    [spider_db_mysql_util] (spd_db_mysql.cc) below them.

    Spider postpones the settings of a backend session: a setter only marks
    them as queued, and the next query first sends one multi-statement query
    that makes the queued changes.

    Left out: the diagnostic logs of [exec_query], the break of a background
    search and the draining of a streamed result in [spider_db_before_query]
    ([bg_search] FALSE and [quick_target] NULL, as at commit time), the meta
    information table, and the text of the statements, which is in SqlText. *)

From stdpp Require Import base gmap list strings.
From Stdlib Require Import ZArith Lia.
From S2P Require Import Prelude ConnTree World.
Local Open Scope spider_scope.
Local Open Scope Z_scope.

(** ** Access to the world *)

Definition getc (c : cid) : M world SPIDER_CONN := fun w =>
  match w_conns w !! c with Some n => Some (n, w) | None => None end.

Definition updc (c : cid) (f : SPIDER_CONN -> SPIDER_CONN) : M world unit := fun w =>
  match w_conns w !! c with
  | Some n => Some (tt, w <| w_conns := <[c := f n]> (w_conns w) |>)
  | None => None
  end.

(** One call to the outside. *)
Definition outside {A} (f : nat -> A) : M world A := fun w =>
  Some (f (w_tick w), w <| w_tick := S (w_tick w) |>).

Definition emit (ev : event) : M world unit :=
  modify (fun w => w <| w_trace := w_trace w ++ [ev] |>).

(** [my_message] and [my_error] set the error of the statement. *)
Definition my_message (_ : Z) : M world unit :=
  modify (fun w => w <| w_thd := (w_thd w) <| is_error := true |> |>).

Definition clear_error : M world unit :=
  modify (fun w => w <| w_thd := (w_thd w) <| is_error := false |> |>).

Definition upd_trx (f : SPIDER_TRX -> SPIDER_TRX) : M world unit :=
  modify (fun w => w <| w_trx := f (w_trx w) |>).

(** [*conn->need_mon = v] *)
Definition write_need_mon (c : cid) (v : Z) : M world unit :=
  conn ← getc c;
  match need_mon conn with
  | None => ub
  | Some r => modify (fun w => w <| w_mons := (r, v) :: w_mons w |>)
  end.

(** [spider_mta_conn_mutex_lock], [spider_mta_conn_mutex_unlock]: no mutex, only
    the position of the caller. *)
Definition spider_mta_conn_mutex_lock (c : cid) : M world unit :=
  updc c (fun n => n <| mta_file_pos := true |>).
Definition spider_mta_conn_mutex_unlock (c : cid) : M world unit :=
  updc c (fun n => n <| mta_file_pos := false |>).

(** ** The queue setters *)

Definition spider_conn_queue_connect (c : cid) : M world unit :=
  updc c (fun n => n <| queued_connect := true |>).

Definition spider_conn_queue_connect_rewrite (share : SPIDER_SHARE) (c : cid)
    (link_idx : Z) : M world unit :=
  updc c (fun n => n <| queued_connect_share := Some share |>
                     <| queued_connect_link_idx := link_idx |>).

Definition spider_conn_queue_ping (c : cid) : M world unit :=
  updc c (fun n => n <| queued_ping := true |>).

Definition spider_conn_queue_trx_isolation (c : cid) (v : Z) : M world unit :=
  updc c (fun n => n <| queued_trx_isolation := true |>
                     <| queued_trx_isolation_val := v |>).

Definition spider_conn_queue_semi_trx_isolation (c : cid) (v : Z) : M world unit :=
  updc c (fun n => n <| queued_semi_trx_isolation := true |>
                     <| queued_semi_trx_isolation_val := v |>).

Definition spider_conn_queue_autocommit (c : cid) (v : bool) : M world unit :=
  updc c (fun n => n <| queued_autocommit := true |>
                     <| queued_autocommit_val := v |>).

Definition spider_conn_queue_sql_log_off (c : cid) (v : bool) : M world unit :=
  updc c (fun n => n <| queued_sql_log_off := true |>
                     <| queued_sql_log_off_val := v |>).

Definition spider_conn_queue_time_zone (c : cid) (v : option Z) : M world unit :=
  updc c (fun n => n <| queued_time_zone := true |>
                     <| queued_time_zone_val := v |>).

Definition spider_conn_queue_start_transaction (c : cid) : M world unit :=
  updc c (fun n => n <| queued_trx_start := true |> <| trx_start := true |>).

(** [xid] is always [&trx->xid]. *)
Definition spider_conn_queue_xa_start (c : cid) : M world unit :=
  updc c (fun n => n <| queued_xa_start := true |> <| queued_xa_start_xid := true |>).

(** [queued_connect], [queued_ping] and [queued_net_timeout] stay. *)
Definition conn_clear_queue (n : SPIDER_CONN) : SPIDER_CONN :=
  n <| queued_trx_isolation := false |> <| queued_semi_trx_isolation := false |>
    <| queued_autocommit := false |> <| queued_sql_log_off := false |>
    <| queued_time_zone := false |> <| queued_trx_start := false |>
    <| queued_xa_start := false |>.

Definition spider_conn_clear_queue (c : cid) : M world unit := updc c conn_clear_queue.

Definition conn_clear_queue_at_commit (n : SPIDER_CONN) : SPIDER_CONN :=
  let n1 := if queued_trx_start n
            then n <| queued_trx_start := false |> <| trx_start := false |> else n in
  n1 <| queued_xa_start := false |> <| is_xa_commit_one_phase := false |>.

Definition spider_conn_clear_queue_at_commit (c : cid) : M world unit :=
  updc c conn_clear_queue_at_commit.

Definition spider_conn_set_timeout (c : cid) (rd wr : Z) : M world unit :=
  updc c (fun n =>
    let n1 := if Z.eqb rd (net_read_timeout n) then n
              else n <| queued_net_timeout := true |> <| net_read_timeout := rd |> in
    if Z.eqb wr (net_write_timeout n1) then n1
    else n1 <| queued_net_timeout := true |> <| net_write_timeout := wr |>).

(** ** Errors of the client library *)

Definition is_server_gone_error (e : Z) : bool :=
  Z.eqb e CR_SERVER_GONE_ERROR || Z.eqb e CR_SERVER_LOST.

Definition is_dup_entry_error (e : Z) : bool :=
  Z.eqb e ER_DUP_ENTRY || Z.eqb e ER_DUP_KEY || Z.eqb e HA_ERR_FOUND_DUPP_KEY.

Definition is_xa_nota_error (e : Z) : bool :=
  Z.eqb e ER_XAER_NOTA || Z.eqb e ER_XA_RBTIMEOUT || Z.eqb e ER_XA_RBDEADLOCK.

Definition spider_convert_errno (e : Z) : Z :=
  if Z.eqb e CR_SERVER_GONE_ERROR || Z.eqb e CR_SERVER_LOST
  then ER_SPIDER_REMOTE_SERVER_GONE_AWAY_NUM else e.

Section Queries.
  Context `{env : Env, vars : Vars}.

(** ** Connecting *)

(** [spider_db_mysql::disconnect] *)
Definition mysql_disconnect (c : cid) : M world unit :=
  conn ← getc c;
  when (db_conn conn)
    (emit (EvDisconnect c) ≫= fun _ => updc c (fun n => n <| db_conn := false |> <| pending := [] |>)).

Definition spider_db_disconnect (c : cid) : M world unit :=
  conn ← getc c; when (db_conn conn) (mysql_disconnect c).

(** The end of a failed connect. *)
Definition connect_failed (c : cid) (e : Z) : M world Z :=
  if Z.eqb e ER_CON_COUNT_ERROR then
    write_need_mon c 0;; my_message ER_CON_COUNT_ERROR;; mret ER_CON_COUNT_ERROR
  else
    write_need_mon c ER_CONNECT_TO_FOREIGN_DATA_SOURCE;;
    my_message ER_CONNECT_TO_FOREIGN_DATA_SOURCE;;
    mret ER_CONNECT_TO_FOREIGN_DATA_SOURCE.

(** The [while (TRUE)] of [spider_db_mysql::connect]: at most
    [connect_retry_count] further attempts. *)
Fixpoint mysql_connect (c : cid) (connect_retry_count : nat) : M world Z :=
  killed ← outside env_killed;
  if (killed : bool) then mret ER_SPIDER_COND_SKIP_NUM else
  conn ← getc c;
  oom ← (if db_conn conn then mret false else outside env_oom);
  if (oom : bool) then mret HA_ERR_OUT_OF_MEM else
  updc c (fun n => n <| db_conn := true |>);;
  e ← (if spider_param_dry_access then mret 0
       else e ← outside env_connect; emit (EvConnect c e);; mret e);
  if Z.eqb e 0 then updc c (fun n => n <| last_errno := 0 |>);; mret 0 else
  mysql_disconnect c;;
  killed' ← outside env_killed;
  if (killed' : bool) then mret ER_SPIDER_COND_SKIP_NUM else
  match connect_retry_count with
  | O => connect_failed c e
  | S n =>
      if Z.eqb e CR_CONN_HOST_ERROR || Z.eqb e CR_CONNECTION_ERROR
      then mysql_connect c n else connect_failed c e
  end.

(** [spider_reset_conn_setted_parameter]; the default database is not
    modelled. *)
Definition spider_reset_conn_setted_parameter (c : cid) : M world Z :=
  updc c (fun n => n <| autocommit := spider_param_remote_autocommit |>
                     <| sql_log_off := spider_param_remote_sql_log_off |>);;
  tz ← (if spider_param_remote_time_zone then outside env_tz else mret None);
  updc c (fun n => n <| time_zone := tz |>
                     <| trx_isolation := spider_param_remote_trx_isolation |>);;
  found ← (if spider_param_remote_access_charset then outside env_charset_found else mret true);
  mret (if (found : bool) then 0 else ER_UNKNOWN_CHARACTER_SET).

(** The guard of [spider_db_connect] that repeats a recent connect error: in the
    same statement, or within the error interval. *)
Definition connect_error_is_recent (n : SPIDER_CONN) (thd : THD) (now : Z) : bool :=
  (conn_thd n && connect_error_thd n && Z.eqb (query_id thd) (connect_error_query_id n)) ||
  Z.ltb (now - connect_error_time n) spider_param_connect_error_interval.

(** What [spider_db_connect] records of a failed connect. *)
Definition record_connect_error (c : cid) (e : Z) : M world unit :=
  conn ← getc c;
  when (conn_thd conn)
    (thd ← gets w_thd; now ← outside env_time;
     updc c (fun n => n <| connect_error_thd := true |>
                        <| connect_error_query_id := query_id thd |>
                        <| connect_error_time := now |> <| connect_error := e |>
                        <| connect_error_with_message := is_error thd |>)).

(** [spider_db_connect] after its guards. *)
Definition db_connect_target (c : cid) (lt : link_target) : M world Z :=
  conn ← getc c;
  updc c (fun n => n <| connect_timeout := spider_param_connect_timeout (lt_connect_timeout lt) |>
                     <| net_read_timeout := spider_param_net_read_timeout (lt_net_read_timeout lt) |>
                     <| net_write_timeout := spider_param_net_write_timeout (lt_net_write_timeout lt) |>);;
  found ← outside env_server_found;
  if negb found then mret ER_FOREIGN_SERVER_DOESNT_EXIST else
  e ← spider_reset_conn_setted_parameter c;
  if negb (Z.eqb e 0) then mret e else
  e ← mysql_connect c (if disable_connect_retry conn then O else spider_param_connect_retry_count);
  if negb (Z.eqb e 0) then record_connect_error c e;; mret e else
  updc c (fun n => n <| connect_error := 0 |> <| opened_handlers := 0 |>
                     <| connection_id := connection_id n + 1 |>);;
  mret 0.

(** [current_thd] is not NULL; the SQL wrapper of the connection is known. *)
Definition spider_db_connect (share : option SPIDER_SHARE) (c : cid) (link_idx : Z) :
    M world Z :=
  match share ≫= fun s => share_links s !! Z.to_nat link_idx with
  | None => ub
  | Some lt =>
      match lt_server_name lt with
      | None =>
          write_need_mon c ER_CONNECT_TO_FOREIGN_DATA_SOURCE;;
          my_message ER_CONNECT_TO_FOREIGN_DATA_SOURCE;;
          mret ER_CONNECT_TO_FOREIGN_DATA_SOURCE
      | Some _ =>
          conn ← getc c;
          if Z.eqb (connect_error conn) 0 then db_connect_target c lt else
          thd ← gets w_thd;
          now ← outside env_time;
          if connect_error_is_recent conn thd now then
            when (connect_error_with_message conn) (my_message (connect_error conn));;
            mret (connect_error conn)
          else db_connect_target c lt
      end
  end.

(** ** Queries *)

(** [mysql_real_query] on a multi-statement query: the answer to the first
    statement is read; the results of the others wait. *)
Definition mysql_real_query (c : cid) (q : list stmt) : M world Z :=
  conn ← getc c;
  if negb (db_conn conn) then ub else
  match q with
  | [] => mret 0
  | s :: rest =>
      e ← outside env_stmt;
      emit (EvStmt c s e);;
      updc c (fun n => n <| last_errno := e |> <| pending := if Z.eqb e 0 then rest else [] |>);;
      mret (if Z.eqb e 0 then 0 else 1)
  end.

(** [spider_db_mysql::exec_query] *)
Definition exec_query (c : cid) (q : list stmt) : M world Z :=
  if spider_param_dry_access then mret 0 else
  e ← mysql_real_query c q;
  now ← outside env_time;
  updc c (fun n => n <| last_visited := now |>);;
  mret e.

(** [spider_db_errorno]: the error of the connection, after its effects. *)
Definition errorno_unlock (c : cid) : M world unit :=
  conn ← getc c;
  when (negb (mta_conn_mutex_unlock_later conn)) (spider_mta_conn_mutex_unlock c).

Definition spider_db_errorno (c : cid) : M world Z :=
  conn ← getc c;
  if server_lost conn then
    write_need_mon c ER_SPIDER_REMOTE_SERVER_GONE_AWAY_NUM;;
    thd ← gets w_thd;
    when (negb (is_error thd)) (my_message ER_SPIDER_REMOTE_SERVER_GONE_AWAY_NUM);;
    errorno_unlock c;; mret ER_SPIDER_REMOTE_SERVER_GONE_AWAY_NUM
  else
  let e := last_errno conn in
  if Z.eqb e 0 then errorno_unlock c;; mret 0
  else if is_server_gone_error e then
    spider_db_disconnect c;;
    updc c (fun n => n <| server_lost := true |>);;
    when (disable_reconnect conn)
      (write_need_mon c ER_SPIDER_REMOTE_SERVER_GONE_AWAY_NUM;;
       my_message ER_SPIDER_REMOTE_SERVER_GONE_AWAY_NUM);;
    errorno_unlock c;; mret ER_SPIDER_REMOTE_SERVER_GONE_AWAY_NUM
  else if ignore_dup_key conn && is_dup_entry_error e then
    errorno_unlock c;; mret HA_ERR_FOUND_DUPP_KEY
  else if is_xa_nota_error e && Z.eqb spider_param_force_commit 1 then
    errorno_unlock c;; mret e
  else if is_xa_commit_one_phase conn then
    write_need_mon c ER_SPIDER_XA_TIMEOUT_NUM;; my_message ER_SPIDER_XA_TIMEOUT_NUM;;
    errorno_unlock c;; mret ER_SPIDER_XA_TIMEOUT_NUM
  else
    write_need_mon c e;; my_message e;; errorno_unlock c;; mret e.

(** [spider_db_mysql::next_result]: -1 when no result waits. *)
Definition next_result (c : cid) : M world Z :=
  conn ← getc c;
  if negb (db_conn conn) then my_message ER_SPIDER_UNKNOWN_NUM;; mret ER_SPIDER_UNKNOWN_NUM else
  updc c (fun n => n <| last_errno := 0 |>);;
  match pending conn with
  | [] => mret (-1)
  | s :: rest =>
      e ← outside env_stmt;
      emit (EvStmt c s e);;
      updc c (fun n => n <| last_errno := e |> <| pending := if Z.eqb e 0 then rest else [] |>);;
      if Z.eqb e 0 then mret 0 else spider_db_errorno c
  end.

(** ** Sending the queued settings *)

(** The [append_*] functions of [spider_db_mysql_util]: an error, or the
    statement that is appended after a semicolon. *)
Definition append_stmt (s : stmt) : M world (Z + stmt) :=
  oom ← outside env_oom;
  mret (if (oom : bool) then inl HA_ERR_OUT_OF_MEM else inr s).

Definition append_trx_isolation (level : Z) : M world (Z + stmt) :=
  r ← append_stmt (SetIsolation level);
  mret (match r with
        | inl e => inl e
        | inr s => if Z.leb 0 level && Z.leb level 3 then inr s else inl HA_ERR_UNSUPPORTED
        end).

Definition append_autocommit (on : bool) : M world (Z + stmt) := append_stmt (SetAutocommit on).
Definition append_sql_log_off (on : bool) : M world (Z + stmt) := append_stmt (SetSqlLogOff on).
Definition append_time_zone (tz : option Z) : M world (Z + stmt) :=
  match tz with None => ub | Some z => append_stmt (SetTimeZone z) end.
Definition append_start_transaction : M world (Z + stmt) := append_stmt StartTransaction.
Definition append_xa_start (x : XID) : M world (Z + stmt) := append_stmt (XaStart x).

(** One disjunct [cond && (error_num = append(&sql_str))] of the big condition;
    [acc] is [sql_str], or the error that ends the evaluation. *)
Definition queue_append (acc : Z + list stmt) (cond : bool) (ap : M world (Z + stmt)) :
    M world (Z + list stmt) :=
  match acc with
  | inl e => mret (inl e)
  | inr q =>
      if cond then
        r ← ap; mret (match r with inl e => inl e | inr s => inr (q ++ [s]) end)
      else mret (inr q)
  end.

Definition needs_trx_isolation (n : SPIDER_CONN) : bool :=
  queued_trx_isolation n && negb (queued_semi_trx_isolation n) &&
  negb (Z.eqb (queued_trx_isolation_val n) (trx_isolation n)).

Definition needs_semi_trx_isolation (n : SPIDER_CONN) : bool :=
  queued_semi_trx_isolation n &&
  negb (Z.eqb (queued_semi_trx_isolation_val n) (trx_isolation n)).

Definition needs_autocommit (n : SPIDER_CONN) : bool :=
  queued_autocommit n &&
  ((negb spider_param_ignore_autocommit &&
    ((queued_autocommit_val n && negb (Z.eqb (autocommit n) 1)) ||
     (negb (queued_autocommit_val n) && negb (Z.eqb (autocommit n) 0)))) ||
   (spider_param_ignore_autocommit && Z.eqb (autocommit n) 0)).

Definition needs_sql_log_off (n : SPIDER_CONN) : bool :=
  queued_sql_log_off n &&
  ((queued_sql_log_off_val n && negb (Z.eqb (sql_log_off n) 1)) ||
   (negb (queued_sql_log_off_val n) && negb (Z.eqb (sql_log_off n) 0))).

Definition needs_time_zone (n : SPIDER_CONN) : bool :=
  queued_time_zone n && negb (bool_decide (queued_time_zone_val n = time_zone n)).

Definition trx_transmit_begin_commit (thd : THD) : bool :=
  spider_param_with_begin_commit || option_not_autocommit thd || option_begin thd.

(** The multi-statement query for what is queued on [n]. *)
Definition queue_sql (n : SPIDER_CONN) (thd : THD) : M world (Z + list stmt) :=
  q ← queue_append (inr []) (needs_trx_isolation n)
        (append_trx_isolation (queued_trx_isolation_val n));
  q ← queue_append q (needs_semi_trx_isolation n)
        (append_trx_isolation (queued_semi_trx_isolation_val n));
  q ← queue_append q (needs_autocommit n)
        (append_autocommit (queued_autocommit_val n || spider_param_ignore_autocommit));
  q ← queue_append q (needs_sql_log_off n) (append_sql_log_off (queued_sql_log_off_val n));
  q ← queue_append q (needs_time_zone n) (append_time_zone (queued_time_zone_val n));
  q ← queue_append q (queued_trx_start n && trx_transmit_begin_commit thd)
        append_start_transaction;
  queue_append q (queued_xa_start n)
    (if queued_xa_start_xid n then trx ← gets w_trx; append_xa_start (xid trx) else ub).

(** The [do ... while] that reads the results; these statements return no rows,
    so [store_result] is NULL.  At most one result per statement waits. *)
Fixpoint drain_results (fuel : nat) (c : cid) : M world Z :=
  match fuel with
  | O => ub
  | S fuel' =>
      conn ← getc c;
      if negb (Z.eqb (last_errno conn) 0) then mret (last_errno conn) else
      e ← next_result c;
      if Z.eqb e 0 then drain_results fuel' c else mret e
  end.

(** The bookkeeping after the queued statements were executed. *)
Definition queue_done (thd : THD) (n : SPIDER_CONN) : SPIDER_CONN :=
  let n := if needs_trx_isolation n
           then n <| trx_isolation := queued_trx_isolation_val n |> else n in
  let n := if needs_semi_trx_isolation n
           then n <| semi_trx_isolation := queued_semi_trx_isolation_val n |>
                  <| trx_isolation := thd_tx_isolation thd |> else n in
  let n := if queued_autocommit n
           then n <| autocommit := if queued_autocommit_val n || spider_param_ignore_autocommit
                                   then 1 else 0 |> else n in
  let n := if queued_sql_log_off n
           then n <| sql_log_off := if queued_sql_log_off_val n then 1 else 0 |> else n in
  let n := if needs_time_zone n then n <| time_zone := queued_time_zone_val n |> else n in
  conn_clear_queue n.

(** From the test of [server_lost] on. *)
Definition queue_action_send (c : cid) : M world Z :=
  conn ← getc c;
  if server_lost conn then mret CR_SERVER_GONE_ERROR else
  updc c (fun n => n <| queued_net_timeout := false |>);;
  thd ← gets w_thd;
  q ← queue_sql conn thd;
  match q with
  | inl e => mret e
  | inr [] => updc c (queue_done thd);; mret 0
  | inr q =>
      e ← exec_query c q;
      if negb (Z.eqb e 0) then mret e else
      e ← drain_results (S (length q)) c;
      if Z.ltb 0 e then mret e else updc c (queue_done thd);; mret 0
  end.

(** [spider_db_ping] returns 0 at once. *)
Definition spider_db_ping (_ : cid) : M world Z := mret 0.

Definition spider_db_conn_queue_action (c : cid) : M world Z :=
  conn ← getc c;
  e ← (if queued_connect conn then
         e ← spider_db_connect (queued_connect_share conn) c (queued_connect_link_idx conn);
         (if Z.eqb e 0
          then updc c (fun n => n <| server_lost := false |> <| queued_connect := false |>)
          else updc c (fun n => n <| server_lost := true |>));;
         mret e
       else mret 0);
  if negb (Z.eqb e 0) then mret e else
  e ← (if queued_ping conn then
         e ← spider_db_ping c;
         when (Z.eqb e 0) (updc c (fun n => n <| queued_ping := false |>));; mret e
       else mret 0);
  if negb (Z.eqb e 0) then mret e else queue_action_send c.

Definition spider_db_before_query (c : cid) (mon : mon_ref) : M world Z :=
  updc c (fun n => n <| in_before_query := true |>);;
  conn ← getc c;
  when (negb (mta_conn_mutex_lock_already conn))
    (spider_mta_conn_mutex_lock c;; updc c (fun n => n <| need_mon := Some mon |>));;
  updc c (fun n => n <| mta_conn_mutex_lock_already := true |>);;
  e ← spider_db_conn_queue_action c;
  updc c (fun n => n <| mta_conn_mutex_lock_already := mta_conn_mutex_lock_already conn |>);;
  updc c (fun n => n <| in_before_query := false |>);;
  conn ← getc c;
  mret (if negb (Z.eqb e 0) then e
        else if server_lost conn then CR_SERVER_GONE_ERROR else 0).

Definition spider_db_query (c : cid) (q : list stmt) (mon : mon_ref) : M world Z :=
  conn ← getc c;
  e ← (if in_before_query conn then mret 0 else spider_db_before_query c mon);
  if negb (Z.eqb e 0) then mret e else exec_query c q.
End Queries.
