(* ===== verification/DbXa.v ===== *)
(** * Transaction statements on one connection

    The transaction methods of [spider_db_mysql] (spd_db_mysql.cc) and the
    [spider_db_*] functions around them (spd_db_conn.cc): commit, rollback and
    the steps of the XA protocol. *)

From stdpp Require Import base gmap list strings.
From Stdlib Require Import ZArith Lia.
From S2P Require Import Prelude ConnTree World ConnQueue.
Local Open Scope spider_scope.
Local Open Scope Z_scope.

Section Statements.
  Context `{env : Env, vars : Vars}.

(** ** [spider_db_mysql] *)

(** The methods that send one query: [spider_db_errorno] after a failure. *)
Definition mysql_simple (c : cid) (q : list stmt) (mon : mon_ref) : M world Z :=
  e ← spider_db_query c q mon;
  if negb (Z.eqb e 0) then spider_db_errorno c
  else spider_mta_conn_mutex_unlock c;; mret 0.

Definition mysql_consistent_snapshot (c : cid) (mon : mon_ref) : M world Z :=
  mysql_simple c [StartConsistentSnapshot] mon.

Definition mysql_start_transaction (c : cid) (mon : mon_ref) : M world Z :=
  mysql_simple c [StartTransaction] mon.

Definition mysql_commit (c : cid) (mon : mon_ref) : M world Z :=
  thd ← gets w_thd;
  if trx_transmit_begin_commit thd then mysql_simple c [Commit] mon
  else spider_mta_conn_mutex_unlock c;; mret 0.

(** A connection that was lost is already rolled back: the error is cleared. *)
Definition mysql_rollback (c : cid) (mon : mon_ref) : M world Z :=
  updc c (fun n => n <| mta_conn_mutex_unlock_later := true |>);;
  e ← spider_db_query c [Rollback] mon;
  r ← (if negb (Z.eqb e 0) then
         thd ← gets w_thd;
         error_num ← spider_db_errorno c;
         if Z.eqb error_num ER_SPIDER_REMOTE_SERVER_GONE_AWAY_NUM && negb (is_error thd)
         then clear_error;; mret 0 else mret error_num
       else mret 0);
  updc c (fun n => n <| mta_conn_mutex_unlock_later := false |>);;
  spider_mta_conn_mutex_unlock c;;
  mret r.

Definition mysql_xa_end (c : cid) (x : XID) (mon : mon_ref) : M world Z :=
  mysql_simple c [XaEnd x] mon.

Definition mysql_xa_prepare (c : cid) (x : XID) (mon : mon_ref) : M world Z :=
  mysql_simple c [XaPrepare x] mon.

(** Two statements in one query; the second result is read by [next_result]. *)
Definition mysql_two_statements (c : cid) (s1 s2 : stmt) (mon : mon_ref) : M world Z :=
  e ← spider_db_query c [s1; s2] mon;
  error_num1 ← (if negb (Z.eqb e 0) then spider_db_errorno c else mret 0);
  error_num2 ← next_result c;
  spider_mta_conn_mutex_unlock c;;
  mret (if negb (Z.eqb error_num1 0) then error_num1 else error_num2).

Definition mysql_xa_end_and_prepare (c : cid) (x : XID) (mon : mon_ref) : M world Z :=
  mysql_two_statements c (XaEnd x) (XaPrepare x) mon.

Definition mysql_xa_commit (c : cid) (x : XID) (mon : mon_ref) : M world Z :=
  mysql_simple c [XaCommit x] mon.

Definition mysql_xa_commit_one_phase (c : cid) (x : XID) (mon : mon_ref) : M world Z :=
  mysql_two_statements c (XaEnd x) (XaCommitOnePhase x) mon.

Definition mysql_xa_rollback (c : cid) (x : XID) (mon : mon_ref) : M world Z :=
  mysql_simple c [XaRollback x] mon.

Definition mysql_set_trx_isolation (c : cid) (level : Z) (mon : mon_ref) : M world Z :=
  if Z.leb 0 level && Z.leb level 3 then mysql_simple c [SetIsolation level] mon
  else mret HA_ERR_UNSUPPORTED.

Definition mysql_set_autocommit (c : cid) (on : bool) (mon : mon_ref) : M world Z :=
  mysql_simple c [SetAutocommit on] mon.

Definition mysql_set_sql_log_off (c : cid) (on : bool) (mon : mon_ref) : M world Z :=
  mysql_simple c [SetSqlLogOff on] mon.

(** ** [spider_db_*]: nothing is sent while the connect or the start of the
    transaction is still queued *)

Definition spider_db_set_trx_isolation (c : cid) (level : Z) (mon : mon_ref) : M world Z :=
  mysql_set_trx_isolation c level mon.

Definition spider_db_consistent_snapshot (c : cid) (mon : mon_ref) : M world Z :=
  e ← mysql_consistent_snapshot c mon;
  if negb (Z.eqb e 0) then mret e else
  updc c (fun n => n <| trx_start := true |>);; mret 0.

Definition spider_db_start_transaction (c : cid) (mon : mon_ref) : M world Z :=
  e ← mysql_start_transaction c mon;
  if negb (Z.eqb e 0) then mret e else
  updc c (fun n => n <| trx_start := true |>);; mret 0.

(** The standby of an active-standby pair refuses to commit once it is lost. *)
Definition failover_refused (n : SPIDER_CONN) : bool := use_for_active_standby n && server_lost n.

Definition refuse_failover : M world Z :=
  my_message ER_SPIDER_LINK_IS_FAILOVER_NUM;; mret ER_SPIDER_LINK_IS_FAILOVER_NUM.

Definition spider_db_commit (c : cid) : M world Z :=
  conn ← getc c;
  if negb (queued_connect conn) && negb (queued_trx_start conn) then
    if failover_refused conn then refuse_failover else
    e ← mysql_commit c MonLocal;
    if negb (Z.eqb e 0) then mret e else
    updc c (fun n => n <| trx_start := false |>);; mret 0
  else updc c (fun n => n <| trx_start := false |>);; mret 0.

Definition spider_db_rollback (c : cid) : M world Z :=
  conn ← getc c;
  if negb (queued_connect conn) && negb (queued_trx_start conn) then
    e ← mysql_rollback c MonLocal;
    if negb (Z.eqb e 0) then mret e else
    updc c (fun n => n <| trx_start := false |>);; mret 0
  else updc c (fun n => n <| trx_start := false |>);; mret 0.

(** The connection takes part in the XA transaction on the backend. *)
Definition xa_sendable (n : SPIDER_CONN) : bool :=
  negb (queued_connect n) && negb (queued_xa_start n).

Definition spider_db_xa_end (c : cid) (x : XID) : M world Z :=
  conn ← getc c;
  if xa_sendable conn then mysql_xa_end c x MonLocal else mret 0.

Definition spider_db_xa_prepare (c : cid) (x : XID) : M world Z :=
  conn ← getc c;
  if xa_sendable conn then
    if failover_refused conn then refuse_failover else mysql_xa_prepare c x MonLocal
  else mret 0.

Definition spider_db_xa_end_and_prepare (c : cid) (x : XID) : M world Z :=
  conn ← getc c;
  if xa_sendable conn then
    if failover_refused conn then refuse_failover else mysql_xa_end_and_prepare c x MonLocal
  else mret 0.

Definition spider_db_xa_commit (c : cid) (x : XID) : M world Z :=
  conn ← getc c;
  if negb (is_xa_commit_one_phase conn) && xa_sendable conn
  then mysql_xa_commit c x MonLocal else mret 0.

Definition spider_db_xa_commit_one_phase (c : cid) (x : XID) : M world Z :=
  conn ← getc c;
  if xa_sendable conn then
    updc c (fun n => n <| is_xa_commit_one_phase := true |>);;
    mysql_xa_commit_one_phase c x MonLocal
  else mret 0.

Definition spider_db_xa_rollback (c : cid) (x : XID) : M world Z :=
  conn ← getc c;
  if xa_sendable conn then mysql_xa_rollback c x MonLocal else mret 0.
End Statements.
