(* ===== verification/SysTable.v ===== *)
(** * The XA log tables

    storage/spider/spd_sys_table.cc: the rows of [mysql.spider_xa] (one per
    distributed transaction, with its status) and [mysql.spider_xa_member] (one
    per backend of the transaction).  Every access to the tables' engine may
    fail with an error of the outside ([env_engine]). *)

From stdpp Require Import base gmap list strings.
From Stdlib Require Import ZArith Lia.
From S2P Require Import Prelude ConnTree World ConnQueue.
Local Open Scope spider_scope.
Local Open Scope Z_scope.

Definition SPIDER_SYS_XA_COL_CNT : Z := 5.
Definition SPIDER_SYS_XA_MEMBER_COL_CNT : Z := 19.

(** A number stored into an [int(11)] column: it is cut to the range of the
    column. *)
Definition int_column (z : Z) : Z := Z.max (- 2 ^ 31) (Z.min (2 ^ 31 - 1) z).

(** Bytes stored into the [binary(128)] column: cut to it, padded with zeros. *)
Definition binary_column (d : list Z) : list Z :=
  let d := take 128 d in d ++ replicate (128 - length d) 0.

Definition spider_store_xa_pk (x : XID) : xa_key :=
  mk_xa_key (binary_column (take (Z.to_nat (gtrid_length x + bqual_length x)) (xid_data x)))
    (int_column (formatID x)) (int_column (gtrid_length x)).

Definition find_xa (k : xa_key) (l : list xa_row) : option xa_row :=
  snd <$> list_find (fun r => xr_key r = k) l.

Definition not_found (e : Z) : bool :=
  Z.eqb e HA_ERR_KEY_NOT_FOUND || Z.eqb e HA_ERR_END_OF_FILE.

Section Tables.
  Context `{env : Env, vars : Vars}.

(** [spider_open_sys_table]: 0, or the error after its message. *)
Definition spider_open_sys_table (fields col_cnt : Z) : M world Z :=
  e ← outside env_engine;
  if negb (Z.eqb e 0) then
    my_message ER_SPIDER_CANT_OPEN_SYS_TABLE_NUM;; mret ER_SPIDER_CANT_OPEN_SYS_TABLE_NUM
  else if negb (Z.eqb fields col_cnt) then
    my_message ER_SPIDER_SYS_TABLE_VERSION_NUM;; mret ER_SPIDER_SYS_TABLE_VERSION_NUM
  else mret 0.

Definition open_xa : M world Z :=
  spider_open_sys_table sys_xa_fields SPIDER_SYS_XA_COL_CNT.

Definition open_xa_member : M world Z :=
  spider_open_sys_table sys_xa_member_fields SPIDER_SYS_XA_MEMBER_COL_CNT.

(** [spider_check_sys_table] on the primary key of [spider_xa]. *)
Definition spider_check_sys_table (k : xa_key) : M world Z :=
  e ← outside env_engine;
  if negb (Z.eqb e 0) then mret e else
  rows ← gets w_xa;
  mret (if find_xa k rows then 0 else HA_ERR_KEY_NOT_FOUND).

(** The same on the key [(data, format_id, gtrid_length, host)] of
    [spider_xa_member]. *)
Definition check_xa_member (k : xa_key) (host : string) : M world Z :=
  e ← outside env_engine;
  if negb (Z.eqb e 0) then mret e else
  rows ← gets w_xa_member;
  mret (if list_find (fun r => xm_key r = k /\ xm_host r = host) rows
        then 0 else HA_ERR_KEY_NOT_FOUND).

(** An insertion or deletion of a row by the engine: [print_error] after a failure. *)
Definition sys_table_row (op : M world unit) : M world Z :=
  e ← outside env_engine;
  if Z.eqb e 0 then op;; mret 0 else my_message e;; mret e.

(** An update of a row: that the row is the same already is no error. *)
Definition update_sys_table_row (op : M world unit) : M world Z :=
  e ← outside env_engine;
  if Z.eqb e 0 then op;; mret 0
  else if Z.eqb e HA_ERR_RECORD_IS_THE_SAME then mret 0
  else my_message e;; mret e.

Definition spider_insert_xa (x : XID) (st : xa_status) : M world Z :=
  let k := spider_store_xa_pk x in
  e ← spider_check_sys_table k;
  if Z.eqb e 0 then mret 0
  else if negb (not_found e) then my_message e;; mret e
  else sys_table_row
    (modify (fun w => w <| w_xa := w_xa w ++ [mk_xa_row k (bqual_length x) st] |>);;
     emit (EvLogInsert k st)).

Definition spider_insert_xa_member (x : XID) (c : cid) (st : xa_status) : M world Z :=
  let k := spider_store_xa_pk x in
  conn ← getc c;
  e ← check_xa_member k (tgt_host conn);
  if Z.eqb e 0 then mret 0
  else if negb (not_found e) then my_message e;; mret e
  else sys_table_row
    (modify (fun w => w <| w_xa_member := w_xa_member w ++
        [mk_xa_member_row k (bqual_length x) (tgt_host conn) (tgt_port conn) st] |>);;
     emit (EvMemberInsert k (tgt_host conn))).

(** A lookup that must find the row. *)
Definition require_xa (k : xa_key) (found : M world Z) : M world Z :=
  e ← spider_check_sys_table k;
  if Z.eqb e 0 then found
  else if negb (not_found e) then my_message e;; mret e
  else my_message ER_SPIDER_XA_NOT_EXISTS_NUM;; mret ER_SPIDER_XA_NOT_EXISTS_NUM.

Definition set_status (k : xa_key) (st : xa_status) (l : list xa_row) : list xa_row :=
  (fun r => if decide (xr_key r = k) then mk_xa_row (xr_key r) (xr_bqual_length r) st else r) <$> l.

Definition spider_update_xa (x : XID) (st : xa_status) : M world Z :=
  let k := spider_store_xa_pk x in
  require_xa k (update_sys_table_row
    (modify (fun w => w <| w_xa := set_status k st (w_xa w) |>);; emit (EvLogUpdate k st))).

Definition spider_delete_xa (x : XID) : M world Z :=
  let k := spider_store_xa_pk x in
  require_xa k (sys_table_row
    (modify (fun w => w <| w_xa := filter (fun r => xr_key r <> k) (w_xa w) |>);;
     emit (EvLogDelete k))).

(** The [do ... while] of [spider_delete_xa_member]: it ends at the first error
    of [index_next_same], which is only the end of the matches if the engine
    reports nothing else. *)
Fixpoint delete_xa_member_loop (fuel : nat) (k : xa_key) : M world Z :=
  match fuel with
  | O => ub
  | S fuel' =>
      e ← sys_table_row
            (modify (fun w => w <| w_xa_member :=
               match list_find (fun r => xm_key r = k) (w_xa_member w) with
               | Some (i, _) => delete i (w_xa_member w)
               | None => w_xa_member w
               end |>));
      if negb (Z.eqb e 0) then mret e else
      e ← outside env_engine;
      rows ← gets w_xa_member;
      if Z.eqb e 0 && bool_decide (is_Some (list_find (fun r => xm_key r = k) rows))
      then delete_xa_member_loop fuel' k else mret 0
  end.

Definition spider_delete_xa_member (x : XID) : M world Z :=
  let k := spider_store_xa_pk x in
  e ← outside env_engine;
  rows ← gets w_xa_member;
  if negb (Z.eqb e 0) && negb (not_found e) then my_message e;; mret e
  else if negb (Z.eqb e 0) || negb (bool_decide (is_Some (list_find (fun r => xm_key r = k) rows)))
  then mret 0
  else
    e ← delete_xa_member_loop (S (length rows)) k;
    if negb (Z.eqb e 0) then mret e else
    e ← outside env_engine;
    if Z.eqb e 0 then emit (EvMemberDelete k);; mret 0 else my_message e;; mret e.

(** The status column of the row just read is one of the allowed ones. *)
Definition spider_check_sys_xa_status (k : xa_key) (allowed : list xa_status) (err : Z) :
    M world Z :=
  rows ← gets w_xa;
  mret (match find_xa k rows with
        | Some r => if decide (xr_status r ∈ allowed) then 0 else err
        | None => err
        end).

(** [spider_sys_log_xa_failed]: the table has no column check. *)
Definition spider_sys_log_xa_failed (x : XID) : M world Z :=
  e ← outside env_engine;
  if negb (Z.eqb e 0) then
    my_message ER_SPIDER_CANT_OPEN_SYS_TABLE_NUM;; mret ER_SPIDER_CANT_OPEN_SYS_TABLE_NUM
  else sys_table_row (emit (EvLogFailed (spider_store_xa_pk x))).
End Tables.
