(* ===== verification/ConnPool.v ===== *)
(** * Creating, pooling and freeing connections

    storage/spider/spd_conn.cc: the connection pool ([SPIDER_CONN_POOL], one
    stack of idle connections per connection key), the count of connections per
    key ([SPIDER_IP_PORT_CONN]), [spider_create_conn], [spider_free_conn],
    [spider_free_conn_from_trx], the recycling of idle connections and
    [spider_send_kill].

    A freed connection leaves [w_conns] and [w_links], so any later use of it is
    undefined behaviour of the model.  One thread runs: the locks of the pool
    and the counters, and the waiting of [spider_get_conn_from_idle_connection],
    are left out. *)

From stdpp Require Import base gmap list strings.
From Stdlib Require Import ZArith Lia.
From S2P Require Import Prelude ConnTree World ConnQueue.
Local Open Scope spider_scope.
Local Open Scope Z_scope.

Section Pool.
  Context `{env : Env, vars : Vars}.

(** ** The pool *)

(** [SPIDER_CONN_POOL::put_conn]: TRUE if memory ran out. *)
Definition put_conn (c : cid) : M world bool :=
  conn ← getc c;
  pool ← gets w_pool;
  oom ← (if pool !! conn_key conn then mret false else outside env_oom);
  if (oom : bool) then mret true else
  let q := default [] (pool !! conn_key conn) in
  modify (fun w => w <| w_pool := <[conn_key conn := q]> (w_pool w) |>);;
  oom ← outside env_oom;
  if (oom : bool) then mret true else
  modify (fun w => w <| w_pool := <[conn_key conn := q ++ [c]]> (w_pool w) |>);;
  mret false.

(** [SPIDER_CONN_POOL::get_conn] and [get_conn_by_key]: the last one put. *)
Definition get_conn (key : string) : M world (option cid) :=
  pool ← gets w_pool;
  match pool !! key with
  | None => mret None
  | Some q =>
      modify (fun w => w <| w_pool := <[key := take (pred (length q)) q]> (w_pool w) |>);;
      mret (last q)
  end.

(** ** Freeing *)

Definition spider_free_conn_alloc (c : cid) : M world unit := spider_db_disconnect c.

Definition spider_free_conn (c : cid) : M world unit :=
  conn ← getc c;
  match ip_port_conn conn with
  | None => mret tt
  | Some k =>
      modify (fun w => w <| w_ip_port := alter (fun n => if Z.ltb 0 n then n - 1 else n) k (w_ip_port w) |>)
  end;;
  spider_free_conn_alloc c;;
  modify (fun w => w <| w_conns := delete c (w_conns w) |> <| w_links := delete c (w_links w) |>).

(** ** Creating *)

(** [spider_create_ipport_conn] then [my_hash_insert]: FALSE if the counter
    could not be created, which leaves the connection without one. *)
Definition add_ipport_conn (c : cid) : M world bool :=
  conn ← getc c;
  oom ← outside env_oom;
  if (oom : bool) || Nat.eqb (String.length (conn_key conn)) 0 then mret false else
  oom ← outside env_oom;
  if (oom : bool) then mret false else
  modify (fun w => w <| w_ip_port := <[conn_key conn := 1]> (w_ip_port w) |>);; mret true.

(** [spider_add_conn_meta_info]: FALSE if the entry could not be created. *)
Definition spider_add_conn_meta_info (c : cid) : M world bool :=
  conn ← getc c;
  meta ← gets w_meta;
  if bool_decide (conn_key conn ∈ meta) then mret true else
  oom ← outside env_oom;
  if (oom : bool) || Nat.eqb (String.length (conn_key conn)) 0 then mret false else
  oom ← outside env_oom;
  if (oom : bool) then mret false else
  modify (fun w => w <| w_meta := {[ conn_key conn ]} ∪ w_meta w |>);; mret true.

(** The allocation and initialisation of the structure: all of it zero but the
    fields below. *)
Definition new_conn (c : cid) (lt : link_target) (base_link_idx : Z)
    (mon : option mon_ref) (now id : Z) : SPIDER_CONN :=
  conn_zero <| conn_key := lt_conn_key lt |> <| tgt_host := lt_host lt |>
    <| tgt_port := lt_port lt |> <| semi_trx_isolation := -2 |>
    <| link_idx := base_link_idx |>
    <| need_mon := Some (default (MonConn c) mon) |>
    <| queued_connect := true |> <| ping_time := now |> <| connect_error_time := now |>
    <| conn_id := id |>.

(** The check and the count of the connections of the key; FALSE if there are
    too many.  [None] as a counter means it could not be created. *)
Definition count_conn (c : cid) : M world (bool * option string) :=
  conn ← getc c;
  counts ← gets w_ip_port;
  match counts !! conn_key conn with
  | Some n =>
      if negb (Z.eqb spider_param_max_connections 0) && Z.leb spider_param_max_connections n
      then mret (false, None)
      else
        modify (fun w => w <| w_ip_port := <[conn_key conn := n + 1]> (w_ip_port w) |>);;
        mret (true, Some (conn_key conn))
  | None =>
      ok ← add_ipport_conn c;
      mret (true, if (ok : bool) then Some (conn_key conn) else None)
  end.

(** [spider_create_conn]: the connection, or an error. *)
Definition spider_create_conn (share : SPIDER_SHARE) (link_idx base_link_idx : Z)
    (mon : option mon_ref) : M world (Z + cid) :=
  match share_links share !! Z.to_nat link_idx with
  | None => ub
  | Some lt =>
      oom ← outside env_oom;
      if (oom : bool) then mret (inl HA_ERR_OUT_OF_MEM) else
      now ← outside env_time;
      modify (fun w => w <| w_conn_id := w_conn_id w + 1 |>);;
      w ← gets id;
      let c := fresh (dom (w_conns w)) in
      modify (fun w => w <| w_conns := <[c := new_conn c lt base_link_idx mon now (w_conn_id w)]> (w_conns w) |>
                         <| w_links := <[c := tnode_zero]> (w_links w) |>);;
      r ← count_conn c;
      match r with
      | (false, _) =>
          modify (fun w => w <| w_conns := delete c (w_conns w) |> <| w_links := delete c (w_links w) |>);;
          mret (inl ER_SPIDER_CON_COUNT_ERROR)
      | (true, None) => mret (inr c)
      | (true, Some k) =>
          now ← outside env_time;
          updc c (fun n => n <| current_key_version := conn_key_version share |>
                             <| ip_port_conn := Some k |> <| last_visited := now |>);;
          ok ← spider_add_conn_meta_info c;
          mret (if (ok : bool) then inr c else inl 0)
      end
  end.

(** ** Returning a connection *)

(** The server was redefined since the connection was made: it is not reused. *)
Definition check_server_version (c : cid) : M world unit :=
  thd ← gets w_thd;
  v ← outside env_modify_version;
  when (negb (Z.eqb (current_global_server_version thd) v))
    (sv ← outside env_server_version;
     conn ← getc c;
     when (negb (Z.eqb sv (current_key_version conn)))
       (updc c (fun n => n <| server_lost := true |>);;
        when spider_param_error_when_flush_server
          (my_message ER_SPIDER_REMOTE_SERVER_GONE_AWAY_NUM))).

Definition with_first_char0 (k : string) : string :=
  match k with EmptyString => EmptyString | String _ r => String (Ascii.ascii_of_nat 48) r end.

(** [spider_free_conn_from_trx] for [another] FALSE; TRUE if the connection left
    the transaction (and [*roop_count] is not advanced). *)
Definition spider_free_conn_from_trx (c : cid) (trx_free : bool) : M world bool :=
  spider_conn_clear_queue c;;
  updc c (fun n => n <| use_for_active_standby := false |> <| error_mode := 1 |>);;
  check_server_version c;;
  conn ← getc c;
  if trx_free ||
     ((server_lost conn || negb (Z.eqb spider_param_conn_recycle_mode 2)) &&
      Z.eqb (opened_handlers conn) 0) then
    updc c (fun n => n <| conn_thd := false |>);;
    modify (fun w => w <| w_trx := (w_trx w) <| trx_conn_hash := trx_conn_hash (w_trx w) ∖ {[ c ]} |> |>);;
    thd ← gets w_thd;
    if negb trx_free && negb (server_lost conn) && Z.eqb spider_param_conn_recycle_mode 1 &&
       negb (is_error thd) then
      updc c (fun n => n <| conn_key := with_first_char0 (conn_key n) |>);;
      failed ← put_conn c;
      when failed (spider_free_conn c);; mret true
    else spider_free_conn c;; mret true
  else mret false.

(** ** Recycling idle connections *)

(** [poll_last_visited]: one key for each connection of the queue that was idle
    for the whole interval. *)
Fixpoint poll_last_visited (q : list cid) : M world (list string) :=
  match q with
  | [] => mret []
  | c :: q' =>
      conn ← getc c;
      now ← outside env_time;
      rest ← poll_last_visited q';
      mret (if Z.ltb 0 now && Z.ltb (last_visited conn) now &&
               Z.leb spider_param_idle_conn_recycle_interval (now - last_visited conn)
            then conn_key conn :: rest else rest)
  end.

(** The inner loop of [spider_conn_recycle_action]: for each key found, the
    connection [get_conn] gives is freed. *)
Definition recycle_keys (keys : list string) : M world unit :=
  iterM (fun k => c ← get_conn k;
                  match c with None => mret tt | Some c => spider_free_conn c end) keys.

(** One round over the queues of the pool. *)
Definition spider_conn_recycle_round : M world unit :=
  pool ← gets w_pool;
  keys ← foldM (fun acc (kq : string * list cid) =>
                  ks ← poll_last_visited kq.2; mret (acc ++ ks)) [] (map_to_list pool);
  recycle_keys keys.

(** ** Killing a statement on a backend *)

(** [spider_send_kill] *)
Definition spider_send_kill (to_kill : cid) (kill_signal : Z) : M world Z :=
  let is_kill_conn := Z.leb 12 kill_signal in
  conn ← getc to_kill;
  thread ← (if db_conn conn then outside env_thread_id else mret 0);
  if Z.eqb thread 0 then mret (-1) else
  k ← get_conn (conn_key conn);
  r ← match k with
      | Some killer => mret (inr killer)
      | None =>
          match conn_share conn with
          | None => ub
          | Some share =>
              k ← spider_create_conn share 0 0 None;
              match k with
              | inl e => mret (inl e)
              | inr killer =>
                  e ← spider_db_connect (Some share) killer 0;
                  if negb (Z.eqb e 0) then spider_free_conn killer;; mret (inl e) else
                  updc killer (fun n => n <| queued_connect := false |> <| server_lost := false |>);;
                  mret (inr killer)
              end
          end
      end;
  match r with
  | inl e => mret e
  | inr killer =>
      e ← exec_query killer [Kill is_kill_conn thread];
      if negb (Z.eqb e 0) then spider_free_conn killer;; mret e else
      when is_kill_conn (updc to_kill (fun n => n <| server_lost := true |>));;
      failed ← put_conn killer;
      when failed (spider_free_conn killer);; mret 0
  end.
End Pool.
