(* ===== verification/SessionConns.v ===== *)
(** * The connections of a session

    storage/spider/spd_conn.cc, [spider_get_conn], and spd_trx.cc,
    [spider_free_trx_conn]: a session finds its connections in the hash tables of
    its transaction ([trx_conn_hash], [trx_another_conn_hash]), takes them from
    the pool or creates them, and returns them at the end of a statement or
    transaction.

    The state is the world with the two hash tables (HashTable), the share of the
    table at work and its handler.  A record of the tables is the address of a
    connection with the key that is stored in it; a connection's key does not
    change while it is in a table.  One thread runs, so no one signals a wait for
    an idle connection and it ends with its timeout. *)

From Stdlib Require Import NArith Lia.
From stdpp Require Import base numbers gmap list strings pretty.
From S2P Require Import Prelude HashTable ConnTree World Links ConnQueue ConnPool.
From Stdlib Require Import ZArith.
Local Open Scope spider_scope.
Local Open Scope Z_scope.

(** The fields of [ha_spider] used here. *)
Record ha_spider := mk_ha_spider {
  conn_link_idx : list nat;
  conn_can_fo : list Z;
  ha_conns : gmap nat cid }.

#[export] Instance eta_ha_spider : Eta ha_spider := fun h =>
  mk_ha_spider (conn_link_idx h) (conn_can_fo h) (ha_conns h).

Definition conn_hash : Type := HASH string (cid * string).

Record session := mk_session {
  ses_world : world;
  trx_hash : conn_hash;
  trx_another_hash : conn_hash;
  ses_share : SPIDER_SHARE;
  ses_spider : option ha_spider }.

#[export] Instance eta_session : Eta session := fun s =>
  mk_session (ses_world s) (trx_hash s) (trx_another_hash s) (ses_share s) (ses_spider s).

(** A function of the connections, run by the session. *)
Definition in_world {A} (m : M world A) : M session A := fun s =>
  match m (ses_world s) with
  | Some (a, w) => Some (a, s <| ses_world := w |>)
  | None => None
  end.

(** An operation of one of the session's hash tables. *)
Definition in_hash {A} (another : bool) (f : conn_hash -> option (A * conn_hash)) : M session A := fun s =>
  match f (if another then trx_another_hash s else trx_hash s) with
  | Some (a, h) => Some (a, if another then s <| trx_another_hash := h |> else s <| trx_hash := h |>)
  | None => None
  end.

Section Session.
  Context `{env : Env, vars : Vars, HashKey string}.

(** ** The keys of a share *)

(** [spider_update_conn_keys]: the key of the link, with the version of its
    server. *)
Definition spider_update_conn_keys (share : SPIDER_SHARE) (link_idx : nat) : M world SPIDER_SHARE :=
  lt ← lift_opt (fun _ => share_links share !! link_idx);
  name ← lift_opt (fun _ => lt_server_name lt);
  sv ← outside env_server_version;
  if Z.eqb sv (conn_key_version share) then mret share
  else
    let key := String (Ascii.ascii_of_nat 48) (name ++ "#" ++ pretty (Z.to_N sv))%string in
    let lt := mk_link_target (lt_server_name lt) key (lt_host lt) (lt_port lt) (lt_connect_timeout lt)
                (lt_net_read_timeout lt) (lt_net_write_timeout lt) in
    mret (mk_share (<[link_idx := lt]> (share_links share)) (share_priority share) sv (modify_server_version share)).

(** ** Getting a connection *)

(** The handler notes its connection; the connection may be used for failover
    where the link can fail over. *)
Definition note_conn (base_link_idx : nat) (c : cid) : M session unit :=
  sp ← gets ses_spider;
  match sp with
  | None => mret tt
  | Some h =>
      modify (fun s => s <| ses_spider := Some (h <| ha_conns := <[base_link_idx := c]> (ha_conns h) |>) |>);;
      fo ← lift_opt (fun _ => spider_bit_is_set (conn_can_fo h) base_link_idx);
      when fo (in_world (updc c (fun n => n <| use_for_active_standby := true |>)))
  end.

(** [*conn->conn_key = *key] *)
Definition with_first_char (key : string) (k : string) : string :=
  match key, k with String a _, String _ r => String a r | _, _ => k end.

(** A new connection of the share: [need_mon] points into the handler, if there
    is one. *)
Definition create_session_conn (link_idx base_link_idx : nat) : M session (Z + cid) :=
  share ← gets ses_share;
  sp ← gets ses_spider;
  lt ← lift_opt (fun _ => share_links share !! link_idx);
  r ← in_world (spider_create_conn share (Z.of_nat link_idx) (Z.of_nat base_link_idx)
        (match sp with Some _ => Some (MonLink (Z.of_nat base_link_idx)) | None => None end));
  match r with
  | inl e => mret (inl e)
  | inr c =>
      in_world (updc c (fun n => n <| conn_key := with_first_char (lt_conn_key lt) (conn_key n) |>));;
      note_conn base_link_idx c;;
      mret (inr c)
  end.

(** [spider_get_conn_from_idle_connection].  With too many connections of the key
    the code waits until another thread returns one or the time is over; there is
    one thread here, so the wait ends with the error. *)
Definition spider_get_conn_from_idle_connection (key : string) (link_idx base_link_idx : nat) : M session (Z + cid) :=
  s ← gets id;
  if match w_ip_port (ses_world s) !! key with
     | Some n => Z.leb spider_param_max_connections n && Z.ltb 0 spider_param_max_connections
     | None => false
     end
  then mret (inl ER_SPIDER_CON_COUNT_ERROR)
  else create_session_conn link_idx base_link_idx.

(** A connection that the session does not have yet. *)
Definition new_session_conn (key : string) (link_idx base_link_idx : nat) : M session (Z + cid) :=
  if Z.testbit spider_param_conn_recycle_mode 0 || spider_param_conn_recycle_strict then
    c ← in_world (get_conn key);
    match c with
    | Some c => note_conn base_link_idx c;; mret (inr c)
    | None =>
        if negb (Z.eqb spider_param_max_connections 0)
        then spider_get_conn_from_idle_connection key link_idx base_link_idx
        else create_session_conn link_idx base_link_idx
    end
  else create_session_conn link_idx base_link_idx.

(** [conn->thd] and [conn->priority] are set, and the connection is put into the
    hash table; a failed insertion frees it. *)
Definition join_session (another : bool) (c : cid) : M session (Z + cid) :=
  share ← gets ses_share;
  in_world (updc c (fun n => n <| conn_thd := true |>));;
  modify (fun s => s <| ses_world := (ses_world s) <| w_links := alter (fun t => t <| priority := share_priority share |>) c (w_links (ses_world s)) |> |>);;
  conn ← in_world (getc c);
  oom ← in_world (outside env_oom);
  failed ← in_hash another (fun h => my_hash_insert oom h (c, conn_key conn));
  if (failed : bool) then in_world (spider_free_conn c);; mret (inl HA_ERR_OUT_OF_MEM)
  else
    when (negb another) (in_world (modify (fun w =>
      w <| w_trx := (w_trx w) <| trx_conn_hash := {[ c ]} ∪ trx_conn_hash (w_trx w) |> |>)));;
    mret (inr c).

(** What [spider_get_conn] does to the connection it returns. *)
Definition prepare_conn (link_idx base_link_idx : nat) (c : cid) : M session unit :=
  share ← gets ses_share;
  sp ← gets ses_spider;
  in_world (
    updc c (fun n => n <| World.link_idx := Z.of_nat base_link_idx |>);;
    conn ← getc c;
    when (queued_connect conn) (spider_conn_queue_connect_rewrite share c (Z.of_nat link_idx));;
    when (queued_ping conn && match sp with Some _ => false | None => true end)
      (updc c (fun n => n <| queued_ping := false |>));;
    updc c (fun n => n <| conn_share := Some share |>)).

(** The key of the link; the share's keys are brought up to date first. *)
Definition current_conn_key (link_idx : nat) : M session string :=
  share ← gets ses_share;
  v ← in_world (outside env_modify_version);
  when (negb (Z.eqb (modify_server_version share) v))
    (share ← in_world (spider_update_conn_keys share link_idx);
     modify (fun s => s <| ses_share := mk_share (share_links share) (share_priority share) (conn_key_version share) v |>));;
  share ← gets ses_share;
  lt ← lift_opt (fun _ => share_links share !! link_idx);
  mret (lt_conn_key lt).

Definition spider_get_conn (another : bool) (base_link_idx : nat) : M session (Z + cid) :=
  sp ← gets ses_spider;
  link_idx ← lift_opt (fun _ => match sp with Some h => conn_link_idx h !! base_link_idx | None => Some base_link_idx end);
  key ← current_conn_key link_idx;
  found ← in_hash another (fun h => (fun r => (r, h)) <$> my_hash_search h key);
  r ← match found with
      | Some (c, _) => note_conn base_link_idx c;; mret (inr c)
      | None =>
          r ← new_session_conn key link_idx base_link_idx;
          match r with inl e => mret (inl e) | inr c => join_session another c end
      end;
  match r with
  | inl e => mret (inl e)
  | inr c => prepare_conn link_idx base_link_idx c;; mret (inr c)
  end.

(** ** Returning connections *)

(** [spider_free_conn_from_trx], with the deletion from the hash table; the count
    of the loop. *)
Definition free_session_conn (trx_free : bool) (c : cid) (key : string) (roop_count : N) : M session N :=
  left ← in_world (spider_free_conn_from_trx c trx_free);
  if (left : bool) then in_hash false (fun h => my_hash_delete h (c, key));; mret roop_count
  else mret (N.succ roop_count).

(** The loops of [spider_free_trx_conn]: a connection with locked tables stays. *)
Definition free_trx_conn_round (trx_free : bool) (c : cid) (key : string) (roop_count : N) : M session N :=
  in_world (spider_conn_clear_queue_at_commit c);;
  conn ← in_world (getc c);
  if negb (Z.eqb (table_lock conn) 0) then mret (N.succ roop_count)
  else free_session_conn trx_free c key roop_count.

Fixpoint free_trx_conn_loop (fuel : nat) (trx_free : bool) (roop_count : N) : M session unit :=
  h ← gets trx_hash;
  match my_hash_element h roop_count with
  | None => mret tt
  | Some (c, key) =>
      match fuel with
      | O => ub
      | S fuel =>
          roop_count ← free_trx_conn_round trx_free c key roop_count;
          free_trx_conn_loop fuel trx_free roop_count
      end
  end.

Fixpoint keep_trx_conn_loop (fuel : nat) (roop_count : N) : M session unit :=
  h ← gets trx_hash;
  match my_hash_element h roop_count with
  | None => mret tt
  | Some (c, _) =>
      match fuel with
      | O => ub
      | S fuel =>
          in_world (spider_conn_clear_queue_at_commit c);;
          conn ← in_world (getc c);
          when (Z.eqb (table_lock conn) 0) (in_world (updc c (fun n => n <| error_mode := 1 |>)));;
          keep_trx_conn_loop fuel (N.succ roop_count)
      end
  end.

Definition spider_free_trx_conn (trx_free : bool) : M session unit :=
  h ← gets trx_hash;
  if trx_free || negb (Z.eqb spider_param_conn_recycle_mode 2) then
    free_trx_conn_loop (N.to_nat (records h)) trx_free 0%N;;
    in_world (modify (fun w => w <| w_trx := (w_trx w) <| trx_conn_adjustment := trx_conn_adjustment (w_trx w) + 1 |> |>))
  else keep_trx_conn_loop (N.to_nat (records h)) 0%N.
End Session.
