(* ===== verification/XaTrx.v ===== *)
(** * The distributed transaction

    storage/spider/spd_trx.cc: how a connection joins a transaction
    ([spider_internal_start_trx]), the two-phase commit
    ([spider_internal_xa_prepare], [spider_internal_xa_commit]), the rollback,
    and the decision of [spider_commit] and [spider_rollback] between them.

    The commit is presumed to need the coordinator's log only when
    [spider_ignore_xa_log] is off.  All participants but the last one of the
    join tree are prepared; the last one is committed in one phase, which
    decides the transaction; then the prepared ones are committed.

    Left out of [spider_commit] and [spider_rollback]: the release of the
    transaction's connections and table handlers after the transaction ended
    ([spider_free_trx_conn], [spider_reuse_trx_ha]) and memory accounting. *)

From stdpp Require Import base gmap list strings.
From Stdlib Require Import ZArith Lia.
From S2P Require Import Prelude ConnTree World SqlText ConnQueue DbXa SysTable ConnPool.
Local Open Scope spider_scope.
Local Open Scope Z_scope.

(** ** Walking the join tree *)

Definition tree_next (c : cid) : M world (option cid) :=
  lift_opt (fun w => spider_tree_next (w_links w) c).

Definition tree_first : M world (option cid) :=
  lift_opt (fun w => spider_tree_first (w_links w) (join_trx_top (w_trx w))).

(** [do { body } while ((conn = spider_tree_next(conn)))], left by an error that
    [body] returns. *)
Fixpoint tree_loop {S} (fuel : nat) (body : S -> cid -> M world (Z + S)) (s : S)
    (conn : option cid) : M world (Z + S) :=
  match conn, fuel with
  | None, _ => mret (inr s)
  | Some _, O => ub
  | Some c, Datatypes.S fuel' =>
      r ← body s c;
      match r with
      | inl e => mret (inl e)
      | inr s' => nx ← tree_next c; tree_loop fuel' body s' nx
      end
  end.

(** [if ((conn = spider_tree_first(trx->join_trx_top))) do ... while] *)
Definition for_each_joined {S} (body : S -> cid -> M world (Z + S)) (s : S) : M world (Z + S) :=
  conn ← tree_first;
  n ← gets (fun w => size (w_links w));
  tree_loop n body s conn.

(** The loop of the prepare, [while ((conn = next(conn)) && next(conn))]: the
    connection it stops at. *)
Fixpoint prepare_loop (fuel : nat) (body : cid -> M world Z) (c : cid) :
    M world (Z + option cid) :=
  match fuel with
  | O => ub
  | S fuel' =>
      e ← body c;
      if negb (Z.eqb e 0) then mret (inl e) else
      nx ← tree_next c;
      match nx with
      | None => mret (inr None)
      | Some c' =>
          nx' ← tree_next c';
          match nx' with
          | None => mret (inr (Some c'))
          | Some _ => prepare_loop fuel' body c'
          end
      end
  end.

Section Trx.
  Context `{env : Env, vars : Vars}.

(** ** Errors of connections in error mode *)

(** [SPIDER_BACKUP_DASTATUS] *)
Definition backup_dastatus : M world bool := gets (fun w => is_error (w_thd w)).

(** [SPIDER_CONN_RESTORE_DASTATUS_AND_RESET_ERROR_NUM] on [error_num]. *)
Definition restore_dastatus (da_status : bool) (c : cid) (error_num : Z) : M world Z :=
  conn ← getc c;
  if Z.eqb (error_mode conn) 0 then mret error_num else
  thd ← gets w_thd;
  when (negb da_status && is_error thd) clear_error;; mret 0.

(** [error_num] after [m]: 0, or its error if the connection is not in error
    mode. *)
Definition with_restore (da_status : bool) (c : cid) (m : M world Z) : M world Z :=
  e ← m; if Z.eqb e 0 then mret 0 else restore_dastatus da_status c e.

(** ** The end of a transaction on a connection *)

(** [spider_mysql_handler::unlock_tables] on [trx->tmp_spider] *)
Definition spider_db_unlock_tables (c : cid) : M world Z :=
  conn ← getc c;
  if negb (table_locked conn) then mret 0 else
  updc c (fun n => n <| table_locked := false |>);;
  upd_trx (fun t => t <| locked_connections := (locked_connections t - 1) mod 2 ^ 32 |>);;
  oom ← outside env_oom;
  if (oom : bool) then mret HA_ERR_OUT_OF_MEM else
  spider_conn_set_timeout c tmp_net_read_timeout tmp_net_write_timeout;;
  mysql_simple c [UnlockTables] MonTrx.

Definition end_trx_unlock (c : cid) : M world Z :=
  conn ← getc c;
  if Z.eqb (table_lock conn) 3 then
    updc c (fun n => n <| table_lock := 0 |> <| disable_reconnect := false |>);;
    if server_lost conn then mret 0 else
    e ← spider_db_unlock_tables c;
    mret (if Z.eqb e ER_SPIDER_REMOTE_SERVER_GONE_AWAY_NUM then 0 else e)
  else
    when (Z.eqb (table_lock conn) 0) (updc c (fun n => n <| disable_reconnect := false |>));;
    mret 0.

Definition spider_end_trx (c : cid) : M world Z :=
  error_num ← end_trx_unlock c;
  conn ← getc c;
  error_num ←
    (if Z.leb 0 (semi_trx_isolation conn) &&
        negb (Z.eqb (trx_isolation conn) (semi_trx_isolation conn)) &&
        negb (server_lost conn) && negb (queued_semi_trx_isolation conn) then
       e ← spider_db_set_trx_isolation c (trx_isolation conn) MonLocal;
       conn ← getc c;
       mret (if negb (disable_reconnect conn) &&
                Z.eqb e ER_SPIDER_REMOTE_SERVER_GONE_AWAY_NUM then 0 else e)
     else mret error_num);
  updc c (fun n => n <| semi_trx_isolation := -2 |>);;
  mret error_num.

Definition leave_trx (c : cid) : M world unit := updc c (fun n => n <| join_trx := 0 |>).

(** ** The log of the transaction *)

(** [trx->updated_in_this_trx || spider_param_xa_register_mode(thd) == 0], and
    the log is not ignored. *)
Definition xa_logged (trx : SPIDER_TRX) : bool :=
  (updated_in_this_trx trx || Z.eqb spider_param_xa_register_mode 0) &&
  negb spider_param_ignore_xa_log.

(** The rows the prepare writes: the transaction as NOT YET, then its members. *)
Definition log_members (x : XID) : M world Z :=
  da ← backup_dastatus;
  r ← for_each_joined
        (fun _ c => e ← with_restore da c (spider_insert_xa_member x c NOT_YET);
                    mret (if Z.eqb e 0 then inr tt else inl e)) tt;
  mret (match r with inl e => e | inr _ => 0 end).

Definition log_not_yet (trx : SPIDER_TRX) : M world Z :=
  if negb (xa_logged trx) then mret 0 else
  open_xa &&; spider_insert_xa (xid trx) NOT_YET &&;
  open_xa_member &&; log_members (xid trx).

Definition log_prepared (trx : SPIDER_TRX) : M world Z :=
  if negb (xa_logged trx) then mret 0 else
  open_xa &&; spider_update_xa (xid trx) PREPARED.

(** The check and the change of the status before phase two. *)
Definition log_decision (trx : SPIDER_TRX) (allowed : list xa_status) (st : xa_status) :
    M world Z :=
  let k := spider_store_xa_pk (xid trx) in
  open_xa &&;
  require_xa k (mret 0) &&;
  (if Z.eqb spider_param_force_commit 2 then mret 0 else
     e ← spider_check_sys_xa_status k allowed ER_SPIDER_XA_NOT_PREPARED_NUM;
     when (Z.eqb e ER_SPIDER_XA_NOT_PREPARED_NUM) (my_message e);; mret e) &&;
  spider_update_xa (xid trx) st.

(** The rows are deleted when every participant finished. *)
Definition log_delete (trx : SPIDER_TRX) : M world Z :=
  open_xa_member &&; spider_delete_xa_member (xid trx) &&;
  open_xa &&; spider_delete_xa (xid trx).

(** ** Phase one *)

(** One participant that is not the last. *)
Definition prepare_participant (da : bool) (x : XID) (c : cid) : M world Z :=
  conn ← getc c;
  if disable_xa conn then
    (if Z.eqb (table_lock conn) 3 then mret 0
     else with_restore da c (spider_db_rollback c)) &&;
    with_restore da c (spider_end_trx c) &&;
    (leave_trx c;; mret 0)
  else spider_db_xa_end_and_prepare c x.

(** All participants but the last are prepared, the last is committed.  Without
    a second participant the connection the loop stops at is NULL. *)
Definition prepare_participants (x : XID) : M world Z :=
  da ← backup_dastatus;
  conn ← tree_first;
  n ← gets (fun w => size (w_links w));
  r ← match conn with
      | None => mret (inr None)
      | Some c => prepare_loop n (prepare_participant da x) c
      end;
  match r with
  | inl e => mret e
  | inr None => ub
  | inr (Some c) => spider_db_xa_commit_one_phase c x
  end.

Definition spider_internal_xa_prepare (internal : bool) : M world Z :=
  trx ← gets w_trx;
  log_not_yet trx &&;
  prepare_participants (xid trx) &&;
  log_prepared trx &&;
  (when internal (upd_trx (fun t => t <| internal_xa_state := XA_PREPARED |>));;
   mret 0).

(** ** Phase two *)

(** [if (!error_num && tmp_error_num) error_num = v] *)
Definition keep_first (error_num tmp_error_num v : Z) : Z :=
  if Z.eqb error_num 0 && negb (Z.eqb tmp_error_num 0) then v else error_num.

(** A failed XA COMMIT counts unless it is forced. *)
Definition commit_error_counts (tmp_error_num : Z) : bool :=
  Z.eqb spider_param_force_commit 0 ||
  (Z.eqb spider_param_force_commit 1 && negb (Z.eqb tmp_error_num ER_XAER_NOTA)).

(** The result of the XA COMMIT; a failure is also written to the log of failed
    transactions. *)
Definition commit_error (da : bool) (x : XID) (error_num tmp : Z) (c : cid) : M world Z :=
  if Z.eqb tmp 0 then mret error_num else
  r ← (if commit_error_counts tmp then
         tmp ← restore_dastatus da c tmp;
         mret (keep_first error_num tmp ER_SPIDER_XA_TIMEOUT_NUM)
       else mret error_num);
  spider_sys_log_xa_failed x;; mret r.

Definition commit_participant (da : bool) (x : XID) (error_num : Z) (c : cid) :
    M world (Z + Z) :=
  conn ← getc c;
  if Z.eqb (join_trx conn) 0 then mret (inr error_num) else
  tmp ← spider_db_xa_commit c x;
  error_num ← commit_error da x error_num tmp c;
  tmp ← with_restore da c (spider_end_trx c);
  leave_trx c;;
  mret (inr (keep_first error_num tmp ER_SPIDER_XA_TIMEOUT_NUM)).

Definition forget_tree : M world unit :=
  upd_trx (fun t => t <| join_trx_top := None |>).

(** [trx->internal_xid_state.xa_state = XA_NOTR] *)
Definition xa_notr : M world unit :=
  upd_trx (fun t => t <| internal_xa_state := XA_NOTR |>).

(** A loop over the participants whose body never leaves it. *)
Definition all_joined {S} (body : S -> cid -> M world (Z + S)) (s : S) : M world S :=
  r ← for_each_joined body s;
  forget_tree;;
  match r with inl _ => ub | inr s' => mret s' end.

Definition spider_internal_xa_commit : M world Z :=
  trx ← gets w_trx;
  r ← ((if xa_logged trx then log_decision trx [PREPARED; COMMIT] COMMIT else mret 0) &&;
       (da ← backup_dastatus;
        error_num ← all_joined (commit_participant da (xid trx)) 0;
        if negb (Z.eqb error_num 0) then
          clear_error;; my_message ER_SPIDER_XA_TIMEOUT_NUM;; mret error_num
        else if xa_logged trx then log_delete trx else mret 0));
  xa_notr;; mret r.

Definition one_phase_participant (x : XID) (error_num : Z) (c : cid) : M world (Z + Z) :=
  conn ← getc c;
  if Z.eqb (join_trx conn) 0 then mret (inr error_num) else
  tmp ← spider_db_xa_commit_one_phase c x;
  let error_num := if Z.eqb tmp ER_XAER_NOTA then error_num
                   else keep_first error_num tmp ER_SPIDER_XA_TIMEOUT_NUM in
  tmp ← spider_end_trx c;
  leave_trx c;;
  mret (inr (keep_first error_num tmp ER_SPIDER_XA_TIMEOUT_NUM)).

Definition spider_internal_xa_commit_one_phase : M world Z :=
  trx ← gets w_trx;
  error_num ← all_joined (one_phase_participant (xid trx)) 0;
  when (negb (Z.eqb error_num 0)) (clear_error;; my_message ER_SPIDER_XA_TIMEOUT_NUM);;
  xa_notr;; mret error_num.

(** ** Rollback *)

Definition rollback_error_counts (tmp_error_num : Z) : bool :=
  Z.eqb spider_param_force_commit 0 ||
  (Z.eqb spider_param_force_commit 1 && negb (is_xa_nota_error tmp_error_num)).

(** [XA END], unless the transaction is prepared, then [XA ROLLBACK]. *)
Definition rollback_xa_branch (da prepared : bool) (x : XID) (c : cid) (error_num : Z) :
    M world Z :=
  error_num ←
    (if prepared then mret error_num else
       tmp ← spider_db_xa_end c x;
       if negb (Z.eqb tmp 0) &&
          (rollback_error_counts tmp || Z.eqb tmp ER_XAER_RMFAIL) then
         tmp ← restore_dastatus da c tmp; mret (keep_first error_num tmp tmp)
       else mret error_num);
  tmp ← spider_db_xa_rollback c x;
  if negb (Z.eqb tmp 0) && rollback_error_counts tmp then
    tmp ← restore_dastatus da c tmp; mret (keep_first error_num tmp tmp)
  else mret error_num.

Definition rollback_participant (da prepared : bool) (x : XID) (s : Z * bool) (c : cid) :
    M world (Z + (Z * bool)) :=
  let '(error_num, lost) := s in
  conn ← getc c;
  if Z.eqb (join_trx conn) 0 then mret (inr s) else
  error_num ←
    (if disable_xa conn then
       if negb (Z.eqb (table_lock conn) 3) && negb prepared && negb (server_lost conn) then
         tmp ← with_restore da c (spider_db_rollback c); mret (keep_first error_num tmp tmp)
       else mret error_num
     else if server_lost conn then mret error_num
     else rollback_xa_branch da prepared x c error_num);
  tmp ← with_restore da c (spider_end_trx c);
  leave_trx c;;
  conn ← getc c;
  mret (inr (keep_first error_num tmp tmp, lost || server_lost conn)).

Definition spider_internal_xa_rollback : M world Z :=
  trx ← gets w_trx;
  let logged := trx_xa_prepared trx && xa_logged trx in
  r ← ((if logged then log_decision trx [PREPARED; ROLLBACK] ROLLBACK else mret 0) &&;
       (da ← backup_dastatus;
        s ← all_joined (rollback_participant da (trx_xa_prepared trx) (xid trx)) (0, false);
        if negb (Z.eqb s.1 0) then mret s.1
        else if logged && negb s.2 then log_delete trx else mret 0));
  xa_notr;; mret r.

(** ** Commit without XA *)

Definition commit_plain (da : bool) (error_num : Z) (c : cid) : M world (Z + Z) :=
  conn ← getc c;
  tmp ← (if negb (Z.eqb (autocommit conn) 1) || trx_start conn
         then with_restore da c (spider_db_commit c) else mret 0);
  let error_num := if Z.eqb tmp 0 then error_num else tmp in
  tmp ← with_restore da c (spider_end_trx c);
  leave_trx c;;
  mret (inr (if Z.eqb tmp 0 then error_num else tmp)).

Definition rollback_plain (da : bool) (error_num : Z) (c : cid) : M world (Z + Z) :=
  conn ← getc c;
  tmp ← (if negb (server_lost conn) && (negb (Z.eqb (autocommit conn) 1) || trx_start conn)
         then with_restore da c (spider_db_rollback c) else mret 0);
  let error_num := if Z.eqb tmp 0 then error_num else tmp in
  tmp ← with_restore da c (spider_end_trx c);
  leave_trx c;;
  mret (inr (if Z.eqb tmp 0 then error_num else tmp)).

(** ** Starting *)

Definition spider_check_and_set_trx_isolation (c : cid) : M world Z :=
  thd ← gets w_thd; spider_conn_queue_trx_isolation c (thd_tx_isolation thd);; mret 0.

Definition spider_check_and_set_autocommit (c : cid) : M world Z :=
  thd ← gets w_thd; spider_conn_queue_autocommit c (negb (option_not_autocommit thd));; mret 0.

Definition spider_check_and_set_sql_log_off (c : cid) : M world Z :=
  when (negb (Z.eqb spider_param_internal_sql_log_off (-1)))
    (spider_conn_queue_sql_log_off c (negb (Z.eqb spider_param_internal_sql_log_off 0)));;
  mret 0.

Definition spider_check_and_set_time_zone (c : cid) : M world Z :=
  thd ← gets w_thd; spider_conn_queue_time_zone c (thd_time_zone thd);; mret 0.

(** [spider_xa_lock] and [spider_xa_unlock] return 0 at once. *)
Definition spider_xa_lock : M world Z := mret 0.

Definition spider_start_internal_consistent_snapshot (c : cid) (mon : mon_ref) : M world Z :=
  trx ← gets w_trx;
  if trx_consistent_snapshot trx then spider_db_consistent_snapshot c mon else mret 0.

(** The settings of a transaction that is not started yet. *)
Definition start_trx_settings : M world unit :=
  upd_trx (fun t =>
    if trx_started t || trx_consistent_snapshot t then t else
    t <| use_consistent_snapshot := spider_param_use_consistent_snapshot |>
      <| internal_xa := opt_spider_internal_xa |>
      <| internal_xa_snapshot := spider_param_internal_xa_snapshot |>).

(** Inner XA and consistent snapshots exclude each other below level 2. *)
Definition start_trx_snapshot (c : cid) (mon : mon_ref) : M world Z :=
  trx ← gets w_trx;
  if negb (trx_consistent_snapshot trx) then mret 0
  else if internal_xa trx && Z.ltb (internal_xa_snapshot trx) 2 then
    my_message ER_SPIDER_CANT_USE_BOTH_INNER_XA_AND_SNAPSHOT_NUM;;
    mret ER_SPIDER_CANT_USE_BOTH_INNER_XA_AND_SNAPSHOT_NUM
  else if negb (internal_xa trx) || Z.eqb (internal_xa_snapshot trx) 2 then
    spider_start_internal_consistent_snapshot c mon
  else mret 0.

(** An identifier of the server's own: the time and a counter, or the thread and
    the query; then the server id. *)
Definition make_xid : M world XID :=
  thd ← gets w_thd;
  g ← (if Z.eqb spider_param_internal_xa_id_type 0 then
         modify (fun w => if Z.eqb (w_gtrid w) (2 ^ 64 - 1) then w <| w_gtrid := 1 |> else w);;
         n ← gets w_gtrid;
         t ← outside env_timer;
         modify (fun w => w <| w_gtrid := (w_gtrid w + 1) mod 2 ^ 64 |>);;
         mret (fmt_hex t ++ fmt_hex n)
       else mret (fmt_hex (thread_id thd) ++ fmt_hex16 (query_id thd)));
  let b := fmt_hex (server_id thd) in
  mret (mk_XID (if Z.eqb opt_spider_auto_increment_mode_value 0 then 1
                else opt_spider_auto_increment_mode_value)
          (Z.of_nat (length g)) (Z.of_nat (length b)) (g ++ b)).

(** The first connection of the transaction decides whether it is an XA one. *)
Definition start_trx_first (is_select is_lock_tables : bool) : M world Z :=
  trx ← gets w_trx;
  if trx_started trx then mret 0 else
  thd ← gets w_thd;
  when (xa_state_active thd && spider_param_support_xa)
    (upd_trx (fun t => t <| trx_xa := true |> <| xid := thd_xid thd |>));;
  trx ← gets w_trx;
  (if negb (trx_xa trx) && internal_xa trx &&
      ((option_not_autocommit thd || option_begin thd) ||
       (Z.ltb 1 (sql_use_partition_count thd) && negb is_select)) &&
      (negb (trx_consistent_snapshot trx) || Z.eqb (internal_xa_snapshot trx) 3) &&
      negb is_lock_tables then
     x ← make_xid;
     upd_trx (fun t => t <| trx_xa := true |> <| xid := x |> <| internal_xa_state := XA_ACTIVE |>);;
     spider_xa_lock
   else upd_trx (fun t => t <| internal_xa := false |>);; mret 0) &&;
  (when (negb (trx_consistent_snapshot trx))
     (modify (fun w => w <| w_thd := (w_thd w) <| registered_stmt := true |>
        <| registered_all := registered_all (w_thd w) || option_not_autocommit thd || option_begin thd |> |>));;
   upd_trx (fun t => t <| trx_started := true |> <| trx_xa_prepared := false |>
                       <| updated_in_this_trx := false |>);;
   mret 0).

(** The backend session is in autocommit mode, or will be. *)
Definition backend_autocommit (n : SPIDER_CONN) : bool :=
  (negb (queued_autocommit n) && Z.eqb (autocommit n) 1) ||
  (queued_autocommit n && queued_autocommit_val n).

(** What is queued on the connection to start the transaction there. *)
Definition start_trx_queue (c : cid) : M world unit :=
  trx ← gets w_trx;
  thd ← gets w_thd;
  updc c (fun n => n <| semi_trx := false |>);;
  conn ← getc c;
  let semi := spider_param_sync_autocommit && Z.eqb (table_lock conn) 0 &&
              backend_autocommit conn && spider_param_semi_trx in
  if Z.eqb (table_lock conn) 3 then updc c (fun n => n <| disable_xa := true |>)
  else if trx_xa trx then
    when semi (updc c (fun n => n <| semi_trx := true |>));;
    spider_conn_queue_xa_start c;;
    updc c (fun n => n <| disable_xa := false |>)
  else if negb (trx_consistent_snapshot trx) && negb (option_begin thd) && semi then
    spider_conn_queue_start_transaction c;;
    updc c (fun n => n <| semi_trx := true |>)
  else if negb (trx_consistent_snapshot trx) && option_begin thd then
    spider_conn_queue_start_transaction c
  else mret tt.

(** [conn->join_trx = 1] and the insertion into the join tree. *)
Definition start_trx_join (c : cid) : M world unit :=
  updc c (fun n => n <| join_trx := 1 |>);;
  r ← lift_opt (fun w => tree_join (w_links w) (join_trx_top (w_trx w)) c);
  modify (fun w => w <| w_links := r.2 |> <| w_trx := (w_trx w) <| join_trx_top := r.1 |> |>).

Definition spider_internal_start_trx (is_select is_lock_tables : bool) (c : cid) (mon : mon_ref) :
    M world Z :=
  now ← outside env_time;
  conn ← getc c;
  when (server_lost conn || Z.leb spider_param_ping_interval_at_trx_start (now - ping_time conn))
    (spider_conn_queue_ping c);;
  updc c (fun n => n <| disable_reconnect := true |>);;
  start_trx_settings;;
  (spider_check_and_set_sql_log_off c &&;
   (if spider_param_sync_time_zone then spider_check_and_set_time_zone c else mret 0) &&;
   (if spider_param_sync_autocommit then spider_check_and_set_autocommit c else mret 0) &&;
   start_trx_snapshot c mon &&;
   start_trx_first is_select is_lock_tables &&;
   (start_trx_queue c;; start_trx_join c;; mret 0)).

(** ** The entry points *)

(** A commit whose outcome is unknown: the connections are given up, and the
    prepared branches stay on the backends.  The result of [spider_tree_delete]
    is not used. *)
Fixpoint free_prepared_loop (fuel : nat) (conn : option cid) : M world unit :=
  match conn, fuel with
  | None, _ => mret tt
  | Some _, O => ub
  | Some c, S fuel' =>
      conn_next ← tree_next c;
      r ← lift_opt (fun w => spider_tree_delete (w_links w) c (join_trx_top (w_trx w)));
      modify (fun w => w <| w_links := r.2 |>
                         <| w_trx := (w_trx w) <| trx_conn_hash := trx_conn_hash (w_trx w) ∖ {[ c ]} |> |>);;
      spider_free_conn c;;
      free_prepared_loop fuel' conn_next
  end.

Definition spider_free_prepared_trx : M world unit :=
  conn ← tree_first;
  n ← gets (fun w => size (w_links w));
  free_prepared_loop n conn;;
  when (bool_decide (is_Some conn)) forget_tree.

(** [all || !thd_test_options(thd, OPTION_NOT_AUTOCOMMIT | OPTION_BEGIN)] *)
Definition ends_trx (all : bool) (thd : THD) : bool :=
  all || negb (option_not_autocommit thd || option_begin thd).

Definition trx_ended : M world unit :=
  upd_trx (fun t => t <| trx_started := false |> <| updated_in_this_trx := false |>).

(** The propagation of a kill; TRUE if the connection itself is killed. *)
Definition rollback_kill : M world bool :=
  thd ← gets w_thd;
  if Z.eqb (last_killed thd) 0 then mret false else
  for_each_joined (fun _ c => spider_send_kill c (last_killed thd);; mret (inr tt)) tt;;
  (if Z.leb 12 (last_killed thd) then forget_tree;; mret true else mret false).

(** [spider_rollback] up to the release of the connections. *)
Definition rollback_trx (all : bool) : M world Z :=
  killed ← rollback_kill;
  if (killed : bool) then mret 0 else
  thd ← gets w_thd;
  error_num ←
    (if negb (ends_trx all thd) then mret 0 else
     trx ← gets w_trx;
     error_num ←
       (if negb (trx_started trx) then mret 0 else
        error_num ←
          (if trx_xa trx then
             e ← spider_internal_xa_rollback;
             upd_trx (fun t => t <| trx_xa := false |> <| join_trx_top := None |>);; mret e
           else
             da ← backup_dastatus; all_joined (rollback_plain da) 0);
        trx_ended;; mret error_num);
     upd_trx (fun t => t <| trx_consistent_snapshot := false |>);; mret error_num);
  thd ← gets w_thd;
  when (negb all && spider_param_trans_rollback && is_error thd)
    (modify (fun w => w <| w_thd := (w_thd w) <| marked_rollback := true |> |>));;
  mret error_num.

(** The XA part of [spider_commit]; [None] is its early return. *)
Definition commit_internal_xa (all : bool) : M world (Z + Z) :=
  num ← lift_opt (fun w => spider_tree_num (w_links w) (join_trx_top (w_trx w)));
  if Z.eqb num 1 then
    e1 ← spider_internal_xa_commit_one_phase;
    e2 ← spider_internal_xa_commit;
    mret (inr (if Z.eqb e2 0 then e1 else e2))
  else
    e ← spider_internal_xa_prepare true;
    if negb (Z.eqb e 0) then
      (if Z.eqb e ER_SPIDER_XA_TIMEOUT_NUM then spider_free_prepared_trx
       else rollback_trx all;; mret tt);;
      mret (inl e)
    else
      upd_trx (fun t => t <| trx_xa_prepared := true |>);;
      e2 ← spider_internal_xa_commit;
      mret (inr e2).

(** [spider_commit] up to the release of the connections. *)
Definition commit_trx (all : bool) : M world Z :=
  thd ← gets w_thd;
  if negb (ends_trx all thd) then mret 0 else
  trx ← gets w_trx;
  r ← (if negb (trx_started trx) then mret (inr 0) else
       r ← (if trx_xa trx then
              r ← (if internal_xa trx && negb (trx_xa_prepared trx)
                   then commit_internal_xa all else mret (inr 0));
              match r with
              | inl e => mret (inl e)
              | inr e => upd_trx (fun t => t <| trx_xa := false |> <| join_trx_top := None |>);; mret (inr e)
              end
            else
              da ← backup_dastatus; e ← all_joined (commit_plain da) 0; mret (inr e));
       match r with
       | inl e => mret (inl e)
       | inr e => trx_ended;; mret (inr e)
       end);
  match r with
  | inl e => mret e
  | inr e => upd_trx (fun t => t <| trx_consistent_snapshot := false |>);; mret e
  end.
End Trx.
