(* ===== verification/Example.v ===== *)
(** * A concrete session

    Two participants of an XA transaction on two backends, with the default
    settings: the input on which the theorems are instantiated. *)

From stdpp Require Import base gmap list strings.
From Stdlib Require Import ZArith Lia.
From S2P Require Import Prelude ConnTree World ConnQueue DbXa SysTable ConnPool XaTrx.
Local Open Scope spider_scope.
Local Open Scope Z_scope.

(** Backends that acknowledge everything, unless [stmt] says otherwise. *)
Definition example_env (stmt engine : nat -> Z) : Env := {|
  env_stmt := stmt;
  env_connect := fun _ => 0;
  env_killed := fun _ => false;
  env_server_found := fun _ => true;
  env_tz := fun _ => None;
  env_charset_found := fun _ => true;
  env_oom := fun _ => false;
  env_engine := engine;
  env_time := fun _ => 1000;
  env_thread_id := fun _ => 7;
  env_modify_version := fun _ => 0;
  env_server_version := fun _ => 0;
  env_timer := fun _ => 5
|}.

(** Settings for concrete runs. They are not the defaults of the server: commits
    are not forced ([spider_force_commit] is 0, not 2), for instance. The kind of
    the identifiers of transactions, whether the log is ignored, and the number of
    columns of its member table vary. *)
Definition example_vars_id (id_type : Z) (ignore_log : bool) (member_cols : Z) : Vars := {|
  spider_param_dry_access := false;
  spider_param_ignore_autocommit := false;
  spider_param_with_begin_commit := false;
  spider_param_sync_autocommit := true;
  spider_param_sync_time_zone := false;
  spider_param_semi_trx := true;
  spider_param_support_xa := true;
  spider_param_use_consistent_snapshot := false;
  spider_param_internal_xa_snapshot := 0;
  spider_param_internal_xa_id_type := id_type;
  spider_param_internal_sql_log_off := -1;
  spider_param_ping_interval_at_trx_start := 3600;
  spider_param_force_commit := 0;
  spider_param_ignore_xa_log := ignore_log;
  spider_param_xa_register_mode := 0;
  spider_param_conn_recycle_mode := 1;
  spider_param_conn_recycle_strict := false;
  spider_param_remote_autocommit := -1;
  spider_param_remote_sql_log_off := -1;
  spider_param_remote_trx_isolation := -1;
  spider_param_remote_time_zone := false;
  spider_param_remote_access_charset := false;
  spider_param_connect_error_interval := 1;
  spider_param_connect_timeout := fun v => v;
  spider_param_net_read_timeout := fun v => v;
  spider_param_net_write_timeout := fun v => v;
  spider_param_connect_retry_count := 2;
  spider_param_max_connections := 0;
  spider_param_trans_rollback := false;
  spider_param_error_when_flush_server := false;
  spider_param_idle_conn_recycle_interval := 3600;
  tmp_net_read_timeout := 600;
  tmp_net_write_timeout := 600;
  sys_xa_fields := 5;
  sys_xa_member_fields := member_cols;
  opt_spider_internal_xa := true;
  opt_spider_auto_increment_mode_value := 0
|}.

Definition example_vars : bool -> Z -> Vars := example_vars_id 0.

(** A connection whose branch of the XA transaction was started. *)
Definition example_conn (host : string) : SPIDER_CONN :=
  conn_zero <| tgt_host := host |> <| tgt_port := 3306 |> <| conn_key := host |>
    <| join_trx := 1 |> <| semi_trx_isolation := -2 |> <| db_conn := true |>
    <| need_mon := Some MonLocal |> <| conn_thd := true |>.

Definition example_xid : XID := mk_XID 1 2 1 [97; 98; 99].

Definition example_trx (top : option cid) (hash : gset cid) : SPIDER_TRX :=
  mk_trx true true false false false true 0 true example_xid XA_ACTIVE hash 0 0 top.

Definition example_thd : THD :=
  mk_thd false 1 true true false null_xid 1 None 0 1 1 false false 0 0 false.

(** Two participants, 1 and 2, of equal priority. *)
Definition example_world : world :=
  mk_world (list_to_map [(1%positive, example_conn "a"); (2%positive, example_conn "b")])
    (list_to_map [(1%positive, mk_tnode None None None (Some 2%positive) 0);
                  (2%positive, mk_tnode (Some 1%positive) None None None 0)])
    (example_trx (Some 1%positive) {[ 1%positive; 2%positive ]}) example_thd [] [] [] 1 ∅ ∅ ∅ 0 [] 0%nat.

(** One participant. *)
Definition example_single : world :=
  mk_world (list_to_map [(1%positive, example_conn "a")])
    (list_to_map [(1%positive, mk_tnode None None None None 0)])
    (example_trx (Some 1%positive) {[ 1%positive ]}) example_thd [] [] [] 1 ∅ ∅ ∅ 0 [] 0%nat.

Abbreviation ok_env := (example_env (fun _ => 0) (fun _ => 0)).
Abbreviation plain_vars := (example_vars true 19).
