(* ===== verification/XidTheorems.v ===== *)
(** * The identifiers of distributed transactions

    The XIDs the engine makes for transactions of its own ([make_xid], in
    [spider_internal_start_trx] of spd_trx.cc) and their primary key in the XA
    log tables ([spider_store_xa_pk] of spd_sys_table.cc). *)

From stdpp Require Import base gmap list strings.
From Stdlib Require Import ZArith Lia.
From S2P Require Import Prelude ConnTree World SqlText ConnQueue DbXa SysTable ConnPool XaTrx Example.
Local Open Scope spider_scope.
Local Open Scope Z_scope.

(** ** Hexadecimal digits *)

Lemma dig_lower_byte d : 0 <= d < 16 -> is_byte (dig_lower d).
Proof. unfold is_byte, dig_lower. destruct (Z.ltb_spec d 10); lia. Qed.

Lemma hex_digits_bytes fuel n acc : Forall is_byte acc -> Forall is_byte (hex_digits_loop fuel n acc).
Proof.
  revert n acc. induction fuel as [|fuel IH]; intros n acc Ha; [done|]. simpl.
  pose proof (dig_lower_byte (n mod 16) ltac:(apply Z.mod_pos_bound; lia)). destruct (_ =? _); [by constructor|]. apply IH. by constructor.
Qed.

Definition u64 (n : Z) : Prop := 0 <= n < 2 ^ 64.

Lemma fmt_hex_length n : u64 n -> (1 <= length (fmt_hex n) <= 16)%nat.
Proof.
  intros Hn. split; [apply (hex_digits_loop_more 16 n []); lia|].
  apply (hex_digits_loop_length 16 n [] 15); [done|lia|apply Hn].
Qed.

Lemma fmt_hex_bytes n : Forall is_byte (fmt_hex n).
Proof. apply hex_digits_bytes. constructor. Qed.

Lemma fmt_hex16_length n : u64 n -> length (fmt_hex16 n) = 16%nat.
Proof. intros Hn. unfold fmt_hex16. rewrite length_app, length_replicate. pose proof (fmt_hex_length n Hn). lia. Qed.

Lemma fmt_hex16_bytes n : Forall is_byte (fmt_hex16 n).
Proof. apply Forall_app. split; [|apply fmt_hex_bytes]. apply Forall_replicate. unfold is_byte. lia. Qed.

Lemma digits_val_zeros k l : digits_val 0 (replicate k 48 ++ l) = digits_val 0 l.
Proof. induction k as [|k IH]; [done|]. exact IH. Qed.

Lemma fmt_hex_val n : u64 n -> digits_val 0 (fmt_hex n) = n.
Proof. intros Hn. unfold fmt_hex. by rewrite hex_digits_loop_val. Qed.

Lemma fmt_hex16_inj a b : u64 a -> u64 b -> fmt_hex16 a = fmt_hex16 b -> a = b.
Proof.
  intros Ha Hb E. rewrite <- (fmt_hex_val a Ha), <- (fmt_hex_val b Hb).
  rewrite <- (digits_val_zeros (16 - length (fmt_hex a)) (fmt_hex a)), <- (digits_val_zeros (16 - length (fmt_hex b)) (fmt_hex b)).
  unfold fmt_hex16 in E. by rewrite E.
Qed.

(** ** Making an XID *)

Section Make.
  Context `{env : Env, vars : Vars}.

(** The numbers an XID is made of are unsigned 64-bit ones. *)
Record xid_numbers (w : world) : Prop := {
  xn_gtrid : u64 (w_gtrid w);
  xn_timer : u64 (env_timer (w_tick w));
  xn_thread : u64 (thread_id (w_thd w));
  xn_query : u64 (query_id (w_thd w));
  xn_server : u64 (server_id (w_thd w)) }.

(** The counter, which skips the largest number. *)
Definition xid_counter (w : world) : Z := if Z.eqb (w_gtrid w) (2 ^ 64 - 1) then 1 else w_gtrid w.

Definition xid_gtrid (w : world) : list Z :=
  if Z.eqb spider_param_internal_xa_id_type 0
  then fmt_hex (env_timer (w_tick w)) ++ fmt_hex (xid_counter w)
  else fmt_hex (thread_id (w_thd w)) ++ fmt_hex16 (query_id (w_thd w)).

Definition xid_of (w : world) : XID :=
  let g := xid_gtrid w in let b := fmt_hex (server_id (w_thd w)) in
  mk_XID (if Z.eqb opt_spider_auto_increment_mode_value 0 then 1 else opt_spider_auto_increment_mode_value)
    (Z.of_nat (length g)) (Z.of_nat (length b)) (g ++ b).

Lemma make_xid_run w : exists w', make_xid w = Some (xid_of w, w').
Proof.
  unfold make_xid, xid_of, xid_gtrid, xid_counter. mrun. destruct (Z.eqb spider_param_internal_xa_id_type 0); mrun; [|by eexists].
  destruct (Z.eqb (w_gtrid w) (2 ^ 64 - 1)); mrun; by eexists.
Qed.

Lemma xid_counter_u64 w : xid_numbers w -> u64 (xid_counter w).
Proof. intros [H _ _ _ _]. unfold xid_counter, u64 in *. destruct (_ =? _); lia. Qed.

Lemma xid_gtrid_length w : xid_numbers w -> (2 <= length (xid_gtrid w) <= 32)%nat.
Proof.
  intros Hn. pose proof (xid_counter_u64 w Hn) as Hc. destruct Hn as [_ H2 H3 H4 _]. unfold xid_gtrid.
  destruct (_ =? _); rewrite length_app, ?fmt_hex16_length by done.
  - pose proof (fmt_hex_length _ H2). pose proof (fmt_hex_length _ Hc). lia.
  - pose proof (fmt_hex_length _ H3). lia.
Qed.

(** An XID of the engine's own is well formed and within the limits of XA:
    a global part of at most 32 bytes, a branch part of at most 16, both printed
    with their terminating zero inside the 128 bytes of the structure. *)
Theorem make_xid_well_formed w :
  xid_numbers w -> 0 <= opt_spider_auto_increment_mode_value < 2 ^ 63 ->
  exists x w', make_xid w = Some (x, w') /\ xid_wf x /\ 2 <= gtrid_length x <= 32 /\ 1 <= bqual_length x <= 16 /\
    Z.of_nat (length (xid_data x)) = gtrid_length x + bqual_length x /\ Z.of_nat (length (xid_data x)) + 1 <= 128 /\ 1 <= formatID x.
Proof.
  intros Hn Hm. destruct (make_xid_run w) as [w' E]. exists (xid_of w), w'. pose proof (xid_gtrid_length w Hn) as Hg.
  pose proof (fmt_hex_length _ (xn_server _ Hn)) as Hb. unfold xid_of. simpl. rewrite length_app.
  split; [done|]. split; [|split_and!; try lia; destruct (Z.eqb_spec opt_spider_auto_increment_mode_value 0); lia].
  split; simpl; try lia.
  - destruct (Z.eqb_spec opt_spider_auto_increment_mode_value 0); lia.
  - rewrite length_app. lia.
  - apply Forall_app. split; [|apply fmt_hex_bytes]. unfold xid_gtrid. destruct (_ =? _); apply Forall_app; split; apply fmt_hex_bytes || apply fmt_hex16_bytes.
Qed.

Lemma xid_of_inj w1 w2 : xid_numbers w1 -> xid_numbers w2 -> xid_of w1 = xid_of w2 ->
  xid_gtrid w1 = xid_gtrid w2 /\ server_id (w_thd w1) = server_id (w_thd w2).
Proof.
  intros H1 H2 E. unfold xid_of in E. injection E as El _ Ed. apply Nat2Z.inj in El.
  apply app_inj_1 in Ed as [Eg Eb]; [|done]. split; [done|]. apply fmt_hex_inj in Eb; [done|apply H1|apply H2].
Qed.

(** C31. Two XIDs are the same only if server, thread and query are the same, with
    identifiers by query ([spider_internal_xa_id_type] 1); with identifiers by
    time, only if server, time and counter are the same, provided the two times
    have the same number of digits, for the counter is printed right behind the
    time. *)
Theorem xid_unique w1 w2 x w1' w2' :
  xid_numbers w1 -> xid_numbers w2 ->
  make_xid w1 = Some (x, w1') -> make_xid w2 = Some (x, w2') ->
  server_id (w_thd w1) = server_id (w_thd w2) /\
  (spider_param_internal_xa_id_type <> 0 ->
    thread_id (w_thd w1) = thread_id (w_thd w2) /\ query_id (w_thd w1) = query_id (w_thd w2)) /\
  (spider_param_internal_xa_id_type = 0 ->
    length (fmt_hex (env_timer (w_tick w1))) = length (fmt_hex (env_timer (w_tick w2))) ->
    env_timer (w_tick w1) = env_timer (w_tick w2) /\ xid_counter w1 = xid_counter w2).
Proof.
  intros H1 H2 E1 E2. destruct (make_xid_run w1) as [v1 F1], (make_xid_run w2) as [v2 F2].
  rewrite E1 in F1. rewrite E2 in F2. injection F1 as F1 _. injection F2 as F2 _.
  destruct (xid_of_inj w1 w2 H1 H2) as [Eg Es]; [congruence|]. unfold xid_gtrid in Eg. split_and!; [done| |].
  - intros Ht. rewrite (proj2 (Z.eqb_neq _ _) Ht) in Eg.
    apply app_inj_2 in Eg as [Et Eq]; [|by rewrite !fmt_hex16_length by apply H1 || apply H2].
    split; [apply fmt_hex_inj in Et|apply fmt_hex16_inj in Eq]; done || apply H1 || apply H2.
  - intros Ht Hl. rewrite Ht in Eg. simpl in Eg. apply app_inj_1 in Eg as [Et Ec]; [|done].
    apply fmt_hex_inj in Et; [|apply H1|apply H2]. apply fmt_hex_inj in Ec; [done|by apply xid_counter_u64..].
Qed.
End Make.

(** ** The primary key in the log *)

(** Two XIDs of at most 128 bytes whose branch parts have the same length
    and which have the same primary key in [mysql.spider_xa] are the same. *)
Theorem xa_pk_determines x y :
  xid_wf x -> xid_wf y -> gtrid_length x + bqual_length x <= 128 -> gtrid_length y + bqual_length y <= 128 ->
  - 2 ^ 31 <= formatID x < 2 ^ 31 -> - 2 ^ 31 <= formatID y < 2 ^ 31 -> bqual_length x = bqual_length y ->
  spider_store_xa_pk x = spider_store_xa_pk y ->
  formatID x = formatID y /\ gtrid x = gtrid y /\ bqual x = bqual y.
Proof.
  intros Hx Hy Hlx Hly Hfx Hfy Hb E. unfold spider_store_xa_pk, int_column in E. injection E as Ed Ef Eg.
  pose proof Hx as [_ X1 X2 X3 _]. pose proof Hy as [_ Y1 Y2 Y3 _].
  split; [lia|]. assert (gtrid_length x = gtrid_length y) as Hg by lia. clear Ef Eg Hfx Hfy.
  set (n := Z.to_nat (gtrid_length x + bqual_length x)) in *. rewrite <- Hg, <- Hb in *. fold n in Ed. unfold binary_column in Ed.
  rewrite !take_take, (Nat.min_r 128 n) in Ed by lia.
  apply app_inj_1 in Ed as [Ed _]; [|rewrite !length_take; lia]. unfold gtrid, bqual. rewrite <- Hg, <- Hb.
  assert (Hsplit : forall d : list Z, take (Z.to_nat (gtrid_length x)) d = take (Z.to_nat (gtrid_length x)) (take n d) /\
    take (Z.to_nat (bqual_length x)) (drop (Z.to_nat (gtrid_length x)) d) = drop (Z.to_nat (gtrid_length x)) (take n d)).
  { intros d. split; [rewrite take_take; f_equal; lia|]. replace n with (Z.to_nat (gtrid_length x) + Z.to_nat (bqual_length x))%nat by lia.
    by rewrite <- take_drop_commute. }
  destruct (Hsplit (xid_data x)) as [-> ->], (Hsplit (xid_data y)) as [-> ->]. by rewrite Ed.
Qed.

(** C37. The length of the branch part is not in the key: two different XIDs, of
    which one has a trailing zero byte in its branch part, have the same row. *)
Theorem xa_pk_ambiguous :
  exists x y, xid_wf x /\ xid_wf y /\ spider_db_append_xid_str x <> spider_db_append_xid_str y /\ spider_store_xa_pk x = spider_store_xa_pk y.
Proof.
  exists (mk_XID 1 1 1 [97; 98]), (mk_XID 1 1 2 [97; 98; 0]). split_and!.
  - split; simpl; try lia. repeat constructor; unfold is_byte; lia.
  - split; simpl; try lia. repeat constructor; unfold is_byte; lia.
  - by vm_compute.
  - by vm_compute.
Qed.

(** ** On concrete inputs *)

Lemma example_numbers (w : world) :
  w = example_world \/ w = example_single -> xid_numbers (env := ok_env) w.
Proof. intros [-> | ->]; split; unfold u64; simpl; lia. Qed.

Lemma make_xid_well_formed_witness :
  exists x w', make_xid (env := ok_env) (vars := plain_vars) example_world = Some (x, w') /\ xid_wf x /\
    2 <= gtrid_length x <= 32 /\ 1 <= bqual_length x <= 16 /\
    Z.of_nat (length (xid_data x)) = gtrid_length x + bqual_length x /\ Z.of_nat (length (xid_data x)) + 1 <= 128 /\ 1 <= formatID x.
Proof. apply (make_xid_well_formed (env := ok_env) (vars := plain_vars) example_world); [apply example_numbers; by left|simpl; lia]. Defined.

(** Identifiers by query and identifiers by time. *)
Lemma xid_unique_witness :
  (server_id (w_thd example_world) = server_id (w_thd example_single) /\
   thread_id (w_thd example_world) = thread_id (w_thd example_single) /\
   query_id (w_thd example_world) = query_id (w_thd example_single)) /\
  @env_timer ok_env (w_tick example_world) = @env_timer ok_env (w_tick example_single) /\
  xid_counter example_world = xid_counter example_single.
Proof.
  split.
  - destruct (make_xid_run (env := ok_env) (vars := example_vars_id 1 true 19) example_world) as [w1 E1].
    destruct (make_xid_run (env := ok_env) (vars := example_vars_id 1 true 19) example_single) as [w2 E2].
    destruct (xid_unique (env := ok_env) (vars := example_vars_id 1 true 19) example_world example_single _ w1 w2
      (example_numbers _ (or_introl eq_refl)) (example_numbers _ (or_intror eq_refl)) E1 E2) as (H & H' & _). auto.
  - destruct (make_xid_run (env := ok_env) (vars := example_vars_id 0 true 19) example_world) as [w1 E1].
    destruct (make_xid_run (env := ok_env) (vars := example_vars_id 0 true 19) example_single) as [w2 E2].
    destruct (xid_unique (env := ok_env) (vars := example_vars_id 0 true 19) example_world example_single _ w1 w2
      (example_numbers _ (or_introl eq_refl)) (example_numbers _ (or_intror eq_refl)) E1 E2) as (_ & _ & H). by apply H.
Defined.

Lemma xa_pk_determines_witness :
  gtrid example_xid = gtrid (mk_XID 1 2 1 [97; 98; 99; 100]) /\ bqual example_xid = bqual (mk_XID 1 2 1 [97; 98; 99; 100]).
Proof.
  apply (xa_pk_determines example_xid (mk_XID 1 2 1 [97; 98; 99; 100])); try done.
  - split; simpl; try lia. repeat constructor; unfold is_byte; lia.
  - split; simpl; try lia. repeat constructor; unfold is_byte; lia.
Defined.
