(* ===== verification/PoolTheorems.v ===== *)
(** * The connection pool

    The connections of the pool and their counters: whatever sequence of
    creations, returns, reuses and recycling rounds runs, no function works on a
    connection that was freed, and the counters count the connections. *)

From stdpp Require Import base gmap list strings.
From Stdlib Require Import ZArith Lia.
From S2P Require Import Prelude ConnTree World ConnQueue ConnPool Example.
Local Open Scope spider_scope.
Local Open Scope Z_scope.

(** ** Running on a world *)

Lemma runs_getc c n w (Q : SPIDER_CONN -> world -> Prop) :
  w_conns w !! c = Some n -> Q n w -> runs (getc c) w Q.
Proof. intros Hc HQ. exists n, w. split; [|done]. unfold getc. by rewrite Hc. Qed.

Lemma runs_updc c n f w (Q : unit -> world -> Prop) :
  w_conns w !! c = Some n -> Q tt (w <| w_conns := <[c := f n]> (w_conns w) |>) -> runs (updc c f) w Q.
Proof. intros Hc HQ. eexists tt, _. split; [|exact HQ]. unfold updc. by rewrite Hc. Qed.

Lemma runs_outside {A} (f : nat -> A) w (Q : A -> world -> Prop) :
  Q (f (w_tick w)) (w <| w_tick := S (w_tick w) |>) -> runs (outside f) w Q.
Proof. intros HQ. eexists _, _. by split. Qed.

Ltac runs_step :=
  match goal with
  | |- runs (mret _) _ _ => apply runs_ret
  | |- runs (_ ≫= _) _ _ => apply runs_bind
  | |- runs (gets _) _ _ => apply runs_gets
  | |- runs (modify _) _ _ => apply runs_modify
  | |- runs (emit _) _ _ => apply runs_modify
  | |- runs (my_message _) _ _ => apply runs_modify
  | |- runs (outside _) _ _ => apply runs_outside
  | |- runs (getc _) _ _ => eapply runs_getc; [simpl; first [eassumption|apply lookup_insert_eq]|]
  | |- runs (updc _ _) _ _ => eapply runs_updc; [simpl; first [eassumption|apply lookup_insert_eq]|]
  | |- runs (when _ _) _ _ => apply runs_when; intros ?
  | |- runs (if ?b then _ else _) _ _ => destruct b eqn:?
  end; simpl.
Ltac runs_all := repeat runs_step.

(** ** The pool as a function of keys *)

Section Pool.
  Context `{env : Env, vars : Vars}.

Definition pooled (w : world) (k : string) : list cid := default [] (w_pool w !! k).

(** What the invariant does not look at may change. *)
Definition same_counts (w w' : world) : Prop := w_conns w' = w_conns w /\ w_ip_port w' = w_ip_port w.

Lemma runs_put_conn c n w : w_conns w !! c = Some n ->
  runs (put_conn c) w (fun failed w' => same_counts w w' /\
    forall k, pooled w' k = if negb failed && bool_decide (k = conn_key n) then pooled w k ++ [c] else pooled w k).
Proof.
  intros Hc. unfold put_conn. do 5 runs_step.
  destruct (w_pool w !! conn_key n) as [q|] eqn:E; runs_all; (split; [by split|]); intros k; unfold pooled; simpl; try done.
  all: destruct (decide (k = conn_key n)) as [->|Hk];
    [rewrite ?bool_decide_true, E by done|rewrite ?bool_decide_false by done].
  all: rewrite ?lookup_insert_eq, ?lookup_insert_ne by done; done.
Qed.

Lemma runs_get_conn k w :
  runs (get_conn k) w (fun r w' => same_counts w w' /\ r = last (pooled w k) /\
    forall k', pooled w' k' = if bool_decide (k' = k) then take (pred (length (pooled w k))) (pooled w k) else pooled w k').
Proof.
  unfold get_conn. do 2 runs_step. unfold pooled. destruct (w_pool w !! k) as [q|] eqn:E; runs_all; simpl; (split_and!; [by split|done|]); intros k'.
  - destruct (decide (k' = k)) as [->|Hk]; [by rewrite bool_decide_true, lookup_insert_eq|].
    by rewrite bool_decide_false, lookup_insert_ne.
  - destruct (decide (k' = k)) as [->|Hk]; [by rewrite bool_decide_true, E|by rewrite bool_decide_false].
Qed.

(** A connection that is returned to the pool is the one a later request for
    its key gets, and the pool is as before then: the connections of a key are
    reused last in, first out. *)
Theorem pool_returns_last c n w w1 :
  w_conns w !! c = Some n -> put_conn c w = Some (false, w1) ->
  exists w2, get_conn (conn_key n) w1 = Some (Some c, w2) /\ w_conns w2 = w_conns w /\
    forall k, default [] (w_pool w2 !! k) = default [] (w_pool w !! k).
Proof.
  intros Hc Hput. destruct (runs_put_conn c n w Hc) as (f & w' & E & [E1 E2] & Hp). rewrite Hput in E. injection E as <- <-.
  destruct (runs_get_conn (conn_key n) w1) as (r & w2 & E & [E3 E4] & -> & Hg). exists w2. simpl in Hp.
  assert (pooled w1 (conn_key n) = pooled w (conn_key n) ++ [c]) as Hq by (by rewrite Hp, bool_decide_true).
  rewrite Hq, last_snoc in E. split_and!; [done|congruence|]. intros k. change (pooled w2 k = pooled w k). rewrite Hg, Hq.
  destruct (decide (k = conn_key n)) as [->|Hk]; [|by rewrite bool_decide_false, Hp, bool_decide_false].
  rewrite bool_decide_true, length_app by done. simpl. rewrite Nat.add_1_r. simpl. by rewrite take_app_length.
Qed.

(** ** Counting connections *)

(** The connections that are counted under a key. *)
Definition counted (conns : gmap cid SPIDER_CONN) (k : string) : nat :=
  size (filter (fun e => ip_port_conn e.2 = Some k) conns).

Lemma counted_delete conns c n k : conns !! c = Some n ->
  counted conns k = ((if decide (ip_port_conn n = Some k) then 1 else 0) + counted (delete c conns) k)%nat.
Proof.
  intros Hc. unfold counted. rewrite <- (insert_delete_id conns c n Hc) at 1. rewrite map_filter_insert. simpl.
  destruct (decide (ip_port_conn n = Some k)).
  - rewrite map_size_insert_None; [done|]. apply map_lookup_filter_None_2. left. apply lookup_delete_eq.
  - by rewrite delete_delete_eq.
Qed.

Lemma counted_insert conns c n k : conns !! c = None ->
  counted (<[c := n]> conns) k = ((if decide (ip_port_conn n = Some k) then 1 else 0) + counted conns k)%nat.
Proof. intros Hc. rewrite (counted_delete _ c n k (lookup_insert_eq _ _ _)). by rewrite delete_insert_id. Qed.

Lemma counted_update conns c n n' k : conns !! c = Some n -> ip_port_conn n' = ip_port_conn n ->
  counted (<[c := n']> conns) k = counted conns k.
Proof.
  intros Hc E. rewrite (counted_delete _ c n' k (lookup_insert_eq _ _ _)), (counted_delete conns c n k Hc), E.
  by rewrite delete_insert_eq.
Qed.

(** ** The invariant *)

(** [held] are the connections a session works on; they are not in the pool. *)
Record pool_ok (held : gset cid) (w : world) : Prop := {
  po_live : forall k c, c ∈ pooled w k -> c ∉ held /\ exists n, w_conns w !! c = Some n /\ conn_key n = k;
  po_nodup : forall k, NoDup (pooled w k);
  po_held : forall c, c ∈ held -> is_Some (w_conns w !! c);
  po_count : forall k, default 0 (w_ip_port w !! k) = Z.of_nat (counted (w_conns w) k);
  po_max : spider_param_max_connections <> 0 -> forall k, default 0 (w_ip_port w !! k) <= spider_param_max_connections }.

Lemma pool_ok_ext held w w' : same_counts w w' -> w_pool w' = w_pool w -> pool_ok held w -> pool_ok held w'.
Proof. intros [E1 E2] E3 [H1 H2 H3 H4 H5]. split; unfold pooled in *; rewrite ?E1, ?E2, ?E3; done. Qed.

Lemma pool_ok_mono held held' w : held' ⊆ held -> pool_ok held w -> pool_ok held' w.
Proof.
  intros Hs [H1 H2 H3 H4 H5]. split; [|done|by intros c Hc; apply H3, Hs|done..].
  intros k c Hc. destruct (H1 k c Hc) as [Hh Hn]. split; [|done]. intros Hc'. by apply Hh, Hs.
Qed.

(** A held connection may be changed, as long as it is counted under the same key. *)
Lemma pool_ok_updc held c n f w : c ∈ held -> w_conns w !! c = Some n -> ip_port_conn (f n) = ip_port_conn n ->
  pool_ok held w -> pool_ok held (w <| w_conns := <[c := f n]> (w_conns w) |>).
Proof.
  intros Hh Hc Hf [H1 H2 H3 H4 H5]. split; simpl; [|done| | |done].
  - intros k c' Hc'. destruct (H1 k c' Hc') as (Hn & n' & Hn' & Hk). split; [done|]. exists n'. split; [|done].
    by rewrite lookup_insert_ne by (intros ->; done).
  - intros c' Hc'. destruct (decide (c' = c)) as [->|Hne]; [rewrite lookup_insert_eq; by eexists|].
    rewrite lookup_insert_ne by done. by apply H3.
  - intros k. by rewrite (counted_update _ c n).
Qed.

(** ** The operations keep it *)

Lemma free_conn_effect c n w : w_conns w !! c = Some n ->
  runs (spider_free_conn c) w (fun _ w' => w_conns w' = delete c (w_conns w) /\ w_pool w' = w_pool w /\
    w_ip_port w' = match ip_port_conn n with
                   | None => w_ip_port w
                   | Some k => alter (fun n => if Z.ltb 0 n then n - 1 else n) k (w_ip_port w)
                   end).
Proof.
  intros Hc. unfold spider_free_conn, spider_free_conn_alloc, spider_db_disconnect, mysql_disconnect.
  do 3 runs_step. destruct (ip_port_conn n) as [k|]; runs_all; split_and!; try done; by rewrite delete_insert_eq.
Qed.

Lemma runs_free_conn held c w : c ∈ held -> pool_ok held w ->
  runs (spider_free_conn c) w (fun _ => pool_ok (held ∖ {[ c ]})).
Proof.
  intros Hh Hok. destruct (po_held _ _ Hok c Hh) as [n Hc]. eapply runs_conseq; [by apply free_conn_effect|].
  intros u w' (E1 & E2 & E3). destruct Hok as [H1 H2 H3 H4 H5].
  assert (Hcount : forall k, default 0 (w_ip_port w' !! k) =
    default 0 (w_ip_port w !! k) - (if decide (ip_port_conn n = Some k) then 1 else 0)).
  { intros k. pose proof (H4 k) as Hk. rewrite (counted_delete _ c n k Hc) in Hk. rewrite E3. destruct (ip_port_conn n) as [k'|]; [|rewrite decide_False by done; lia].
    destruct (decide (Some k' = Some k)) as [[= ->]|Hne]; [|rewrite lookup_alter_ne by congruence; lia].
    rewrite lookup_alter_eq. destruct (w_ip_port w !! k) as [m|]; simpl in *; [|lia]. destruct (Z.ltb_spec 0 m); lia. }
  split; unfold pooled in *; rewrite ?E1, ?E2.
  - intros k c' Hc'. destruct (H1 k c' Hc') as (Hn & n' & Hn' & Hk). split; [set_solver|]. exists n'. split; [|done].
    rewrite lookup_delete_ne by (intros ->; done). done.
  - done.
  - intros c' Hc'. rewrite lookup_delete_ne by set_solver. apply H3. set_solver.
  - intros k. rewrite Hcount, H4, (counted_delete _ c n k Hc). destruct (decide _); lia.
  - intros Hm k. rewrite Hcount. specialize (H5 Hm k). destruct (decide _); lia.
Qed.

Lemma runs_put held c w : c ∈ held -> pool_ok held w ->
  runs (put_conn c) w (fun failed => pool_ok (if failed then held else held ∖ {[ c ]})).
Proof.
  intros Hh Hok. destruct (po_held _ _ Hok c Hh) as [n Hc]. eapply runs_conseq; [by apply runs_put_conn|].
  intros failed w' [[E1 E2] Hp]. destruct Hok as [H1 H2 H3 H4 H5].
  assert (Hnot : forall k, c ∉ pooled w k) by (intros k Hk; by destruct (H1 k c Hk)).
  split; rewrite ?E1, ?E2; [|..|done|done].
  - intros k c' Hc'. rewrite Hp in Hc'. destruct failed; simpl in Hc'; [by apply H1|].
    destruct (bool_decide_reflect (k = conn_key n)) as [->|]; [|destruct (H1 k c' Hc'); split; [set_solver|done]].
    apply elem_of_app in Hc' as [Hc'|Hc']; [destruct (H1 _ c' Hc'); split; [set_solver|done]|].
    apply list_elem_of_singleton in Hc' as ->. split; [set_solver|]. by exists n.
  - intros k. rewrite Hp. destruct (negb failed && bool_decide (k = conn_key n)); [|done].
    apply NoDup_app. split_and!; [done| |apply NoDup_singleton]. intros c' Hc' ->%list_elem_of_singleton. by apply (Hnot k).
  - intros c' Hc'. apply H3. destruct failed; set_solver.
Qed.

Lemma runs_get held k w : pool_ok held w ->
  runs (get_conn k) w (fun r w' => match r with
                                   | Some c => c ∉ held /\ pool_ok (held ∪ {[ c ]}) w'
                                   | None => pool_ok held w'
                                   end).
Proof.
  intros Hok. eapply runs_conseq; [apply runs_get_conn|]. intros r w' ([E1 E2] & -> & Hp). destruct Hok as [H1 H2 H3 H4 H5].
  pose proof (H2 k) as Hnd. pose proof (H1 k) as Hin. destruct (pooled w k) as [|c q _] eqn:E using rev_ind.
  - simpl in *. split; rewrite ?E1, ?E2; try done; intros k'; rewrite Hp; (destruct (bool_decide_reflect (k' = k)) as [->|]; [|auto]).
    + intros c Hc. by apply not_elem_of_nil in Hc.
    + constructor.
  - rewrite last_snoc. rewrite length_app, Nat.add_1_r in Hp. simpl in Hp. rewrite take_app_length in Hp.
    apply NoDup_app in Hnd as (Hnq & Hdis & _). destruct (Hin c) as (Hch & n & Hn & Hk); [set_solver|].
    split; [done|]. split; rewrite ?E1, ?E2; try done.
    + intros k' c' Hc'. rewrite Hp in Hc'. destruct (bool_decide_reflect (k' = k)) as [->|Hne].
      * destruct (Hin c') as [Hh He]; [set_solver|]. split; [|done]. intros [?| ->%elem_of_singleton]%elem_of_union; [done|].
        apply (Hdis c Hc'). set_solver.
      * destruct (H1 k' c' Hc') as [Hh (n' & Hn' & Hk')]. split; [|by exists n']. intros [?| ->%elem_of_singleton]%elem_of_union; [done|]. congruence.
    + intros k'. rewrite Hp. by destruct (bool_decide (k' = k)).
    + intros c' [?| ->%elem_of_singleton]%elem_of_union; [by apply H3|by eexists].
Qed.

Lemma runs_upd held c f w (Q : unit -> world -> Prop) :
  c ∈ held -> (forall n, ip_port_conn (f n) = ip_port_conn n) -> pool_ok held w ->
  (forall w', pool_ok held w' -> Q tt w') -> runs (updc c f) w Q.
Proof.
  intros Hh Hf Hok H. destruct (po_held _ _ Hok c Hh) as [n Hc]. eapply runs_updc; [done|]. apply H. by apply pool_ok_updc.
Qed.

Lemma runs_look held c w (Q : SPIDER_CONN -> world -> Prop) :
  c ∈ held -> pool_ok held w -> (forall n, w_conns w !! c = Some n -> Q n w) -> runs (getc c) w Q.
Proof. intros Hh Hok H. destruct (po_held _ _ Hok c Hh) as [n Hc]. eapply runs_getc; [done|]. by apply H. Qed.

(** A step that does not touch the connections, the pool or the counters. *)
Ltac quiet_step :=
  match goal with
  | |- pool_ok ?h (_ <| w_tick := _ |>) => eapply (pool_ok_ext h); [| |eassumption]; [by split|reflexivity]
  | |- pool_ok ?h _ => eapply (pool_ok_ext h); [| |eassumption]; [by split|reflexivity]
  end.

Lemma runs_check_version held c w : c ∈ held -> pool_ok held w ->
  runs (check_server_version c) w (fun _ => pool_ok held).
Proof.
  intros Hh Hok. unfold check_server_version. do 5 runs_step; [|quiet_step].
  runs_step. runs_step. set (w1 := w <| w_tick := _ |> <| w_tick := _ |>). assert (pool_ok held w1) as Hok1 by quiet_step.
  runs_step. eapply (runs_look held); [done..|]. intros n Hn. runs_step; [|done].
  runs_step. eapply (runs_upd held); [done|done|done|]. intros w2 Hok2. runs_step; [runs_step; quiet_step|done].
Qed.

Lemma runs_return held c tf w : c ∈ held -> pool_ok held w ->
  runs (spider_free_conn_from_trx c tf) w (fun left => pool_ok (if left then held ∖ {[ c ]} else held)).
Proof.
  intros Hh Hok. unfold spider_free_conn_from_trx, spider_conn_clear_queue.
  runs_step. eapply (runs_upd held); [done|done|done|]. intros w1 Hok1.
  runs_step. eapply (runs_upd held); [done|done|done|]. intros w2 Hok2.
  runs_step. eapply runs_conseq; [by apply (runs_check_version held)|]. intros u w3 Hok3.
  runs_step. eapply (runs_look held); [done..|]. intros n Hn. runs_step; [|by runs_step].
  runs_step. eapply (runs_upd held); [done|done|done|]. intros w4 Hok4.
  do 4 runs_step. set (w5 := w4 <| w_trx := _ |>). assert (pool_ok held w5) as Hok5 by quiet_step.
  runs_step.
  - runs_step. eapply (runs_upd held); [done|done|done|]. intros w6 Hok6.
    runs_step. eapply runs_conseq; [by apply (runs_put held)|]. intros failed w7 Hok7.
    runs_step. runs_step; [|subst failed; by runs_step]. subst failed. eapply runs_conseq; [by apply (runs_free_conn held)|].
    intros v w8 Hok8. by runs_step.
  - runs_step. eapply runs_conseq; [by apply (runs_free_conn held)|]. intros v w8 Hok8. by runs_step.
Qed.

(** What freeing and taking a connection leave alone. *)
Lemma free_conn_frame c n w : w_conns w !! c = Some n ->
  runs (spider_free_conn c) w (fun _ w' => w_conns w' = delete c (w_conns w) /\ w_trx w' = w_trx w /\ w_pool w' = w_pool w).
Proof.
  intros Hc. unfold spider_free_conn, spider_free_conn_alloc, spider_db_disconnect, mysql_disconnect.
  do 3 runs_step. destruct (ip_port_conn n) as [k|]; runs_all; by rewrite ?delete_insert_eq.
Qed.

Lemma get_conn_frame k w : runs (get_conn k) w (fun _ w' => w_conns w' = w_conns w /\ w_trx w' = w_trx w).
Proof. unfold get_conn. do 2 runs_step. destruct (w_pool w !! k); runs_all; done. Qed.

Lemma runs_poll held w : pool_ok held w -> forall q, (forall c, c ∈ q -> is_Some (w_conns w !! c)) -> forall w1,
  w_conns w1 = w_conns w -> w_pool w1 = w_pool w -> w_ip_port w1 = w_ip_port w ->
  w_trx w1 = w_trx w -> runs (poll_last_visited q) w1 (fun _ w' =>
    w_conns w' = w_conns w /\ w_pool w' = w_pool w /\ w_ip_port w' = w_ip_port w /\ w_trx w' = w_trx w).
Proof.
  intros Hok. induction q as [|c q IH]; intros Hq w1 E1 E2 E3 E4; simpl; [by runs_step|].
  destruct (Hq c) as [n Hn]; [by left|]. runs_step. eapply runs_getc; [by rewrite E1|]. do 3 runs_step.
  eapply runs_conseq; [apply IH; [intros c' Hc'; apply Hq; by right|done..]|]. intros ks w2 (F1 & F2 & F3 & F4). by runs_step.
Qed.

(** The connections a session holds are left alone. *)
Lemma runs_recycle held w : pool_ok held w -> runs spider_conn_recycle_round w (fun _ w' =>
  pool_ok held w' /\ (forall c, c ∈ held -> w_conns w' !! c = w_conns w !! c) /\ w_trx w' = w_trx w).
Proof.
  intros Hok. unfold spider_conn_recycle_round. do 3 runs_step.
  set (I := fun w' => w_conns w' = w_conns w /\ w_pool w' = w_pool w /\ w_ip_port w' = w_ip_port w /\ w_trx w' = w_trx w).
  eapply runs_conseq; [apply (runs_foldM I); [|done]|].
  - intros [k q] acc w1 Hx%elem_of_map_to_list (F1 & F2 & F3 & F4). runs_step. eapply runs_conseq; [eapply (runs_poll held w Hok); [|done..]|].
    + intros c Hc. destruct (po_live _ _ Hok k c) as (_ & n & Hn & _); [unfold pooled; by rewrite Hx|by rewrite Hn].
    + intros ks w2 HI. by runs_step.
  - intros keys w1 (F1 & F2 & F3 & F4). assert (pool_ok held w1) as Hok1 by (by eapply (pool_ok_ext held w)).
    unfold recycle_keys. apply runs_iterM; [|split_and!; [done|by rewrite F1|done]]. intros k w2 _ (Hok2 & G1 & G2). runs_step.
    eapply runs_conseq; [apply runs_and; [by apply (runs_get held)|apply get_conn_frame]|].
    intros [c|] w3 [Hok3 [E1 E2]]; [|runs_step; by rewrite E1, E2]. destruct Hok3 as [Hc Hok3].
    destruct (po_held _ _ Hok3 c) as [n Hn]; [set_solver +|].
    eapply runs_conseq; [apply runs_and; [apply (runs_free_conn (held ∪ {[ c ]})); [set_solver +|done]|by apply (free_conn_frame c n)]|].
    intros u w4 (Hok4 & E3 & E4 & _). replace held with ((held ∪ {[ c ]}) ∖ {[ c ]}) at 1 by set_solver +Hc.
    split_and!; [done| |by rewrite E4, E2]. intros d Hd. rewrite E3, E1, lookup_delete_ne by congruence. by apply G1.
Qed.

(** The limit is an unsigned number. *)
Context (max_nonneg : 0 <= spider_param_max_connections).

Lemma count_conn_effect c n w : w_conns w !! c = Some n ->
  runs (count_conn c) w (fun r w' => w_conns w' = w_conns w /\ w_pool w' = w_pool w /\
    match r with
    | (true, Some k) => k = conn_key n /\ w_ip_port w' = <[k := default 0 (w_ip_port w !! k) + 1]> (w_ip_port w) /\
        (spider_param_max_connections <> 0 -> default 0 (w_ip_port w !! k) + 1 <= spider_param_max_connections)
    | _ => w_ip_port w' = w_ip_port w
    end).
Proof.
  intros Hc. unfold count_conn, add_ipport_conn. do 4 runs_step. destruct (w_ip_port w !! conn_key n) as [m|] eqn:E; simpl.
  - runs_step; [by runs_step|]. runs_all. rewrite E. simpl. split_and!; try done. intros Hm.
    apply andb_false_iff in Heqb as [Hb|Hb]; [|apply Z.leb_gt in Hb; lia]. apply negb_false_iff, Z.eqb_eq in Hb. done.
  - runs_all; split_and!; try done; rewrite E; simpl; try done. lia.
Qed.

Lemma pool_ok_new held c n w : w_conns w !! c = None -> ip_port_conn n = None -> pool_ok held w ->
  pool_ok (held ∪ {[ c ]}) (w <| w_conns := <[c := n]> (w_conns w) |>).
Proof.
  intros Hc Hn [H1 H2 H3 H4 H5]. split; simpl; [|done| | |done].
  - intros k c' Hc'. destruct (H1 k c' Hc') as (Hh & n' & Hn' & Hk). assert (c' <> c) as Hne by congruence. split; [set_solver|].
    exists n'. by rewrite lookup_insert_ne.
  - intros c' [Hc'| ->%elem_of_singleton]%elem_of_union; [|rewrite lookup_insert_eq; by eexists].
    destruct (decide (c' = c)) as [->|]; [rewrite lookup_insert_eq; by eexists|]. rewrite lookup_insert_ne by done. by apply H3.
  - intros k. rewrite counted_insert, Hn, decide_False by done. apply H4.
Qed.

Lemma pool_ok_drop held c n w : c ∉ held -> w_conns w !! c = Some n -> ip_port_conn n = None -> pool_ok (held ∪ {[ c ]}) w ->
  pool_ok held (w <| w_conns := delete c (w_conns w) |>).
Proof.
  intros Hh Hc Hn [H1 H2 H3 H4 H5]. split; simpl; [|done| | |done].
  - intros k c' Hc'. destruct (H1 k c' Hc') as (Hh' & n' & Hn' & Hk). split; [set_solver|]. exists n'.
    rewrite lookup_delete_ne by set_solver. done.
  - intros c' Hc'. rewrite lookup_delete_ne by set_solver. apply H3. set_solver.
  - intros k. rewrite H4, (counted_delete _ c n k Hc), Hn, decide_False by done. done.
Qed.

Lemma pool_ok_counted held c n n' k w : c ∈ held -> w_conns w !! c = Some n -> ip_port_conn n = None -> ip_port_conn n' = Some k ->
  (spider_param_max_connections <> 0 -> default 0 (w_ip_port w !! k) + 1 <= spider_param_max_connections) -> pool_ok held w ->
  pool_ok held (w <| w_conns := <[c := n']> (w_conns w) |> <| w_ip_port := <[k := default 0 (w_ip_port w !! k) + 1]> (w_ip_port w) |>).
Proof.
  intros Hh Hc Hn Hn' Hm [H1 H2 H3 H4 H5]. split; simpl; [|done|..].
  - intros k' c' Hc'. destruct (H1 k' c' Hc') as (Hh' & n2 & Hn2 & Hk). split; [done|]. exists n2.
    by rewrite lookup_insert_ne by (intros ->; done).
  - intros c' Hc'. destruct (decide (c' = c)) as [->|]; [rewrite lookup_insert_eq; by eexists|]. rewrite lookup_insert_ne by done. by apply H3.
  - intros k'. specialize (H4 k'). rewrite (counted_delete _ c n k' Hc), Hn, decide_False in H4 by done.
    rewrite (counted_delete _ c n' k' (lookup_insert_eq _ _ _)), Hn', delete_insert_eq. destruct (decide (Some k = Some k')) as [[= ->]|Hne].
    + rewrite lookup_insert_eq. simpl. lia.
    + rewrite lookup_insert_ne by congruence. lia.
  - intros Hmax k'. destruct (decide (k' = k)) as [->|]; [rewrite lookup_insert_eq; simpl; by apply Hm|]. rewrite lookup_insert_ne by done. by apply H5.
Qed.

Lemma meta_info_effect c n w : w_conns w !! c = Some n ->
  runs (spider_add_conn_meta_info c) w (fun _ w' => same_counts w w' /\ w_pool w' = w_pool w).
Proof. intros Hc. unfold spider_add_conn_meta_info. runs_all; by repeat split. Qed.

(** [None]: an error; the connection then is not known to the caller, even
    where it was not freed. *)
Lemma runs_create held share idx base mon w : is_Some (share_links share !! Z.to_nat idx) -> pool_ok held w ->
  runs (spider_create_conn share idx base mon) w (fun r w' => match r with
    | inr c => c ∉ held /\ pool_ok (held ∪ {[ c ]}) w'
    | inl _ => pool_ok held w'
    end).
Proof.
  intros [lt Hlt] Hok. unfold spider_create_conn. rewrite Hlt. do 3 runs_step; [runs_step; quiet_step|].
  do 7 runs_step. set (c := fresh (dom (w_conns w))). assert (w_conns w !! c = None) as Hc by (apply not_elem_of_dom, is_fresh).
  assert (c ∉ held) as Hch by (intros Hin; destruct (po_held _ _ Hok c Hin); congruence).
  runs_step. runs_step. set (n := new_conn _ _ _ _ _ _). set (w1 := _ <| w_links := _ |>).
  assert (pool_ok (held ∪ {[ c ]}) w1) as Hok1.
  { eapply (pool_ok_ext _ (w <| w_conns := <[c := n]> (w_conns w) |>)); [by split|done|]. by apply pool_ok_new. }
  assert (w_conns w1 !! c = Some n) as Hc1 by apply lookup_insert_eq.
  eapply runs_conseq; [by apply (count_conn_effect c n)|]. intros [[] [k|]] w2 (E1 & E2 & E3).
  - destruct E3 as (-> & E3 & Hm). do 2 runs_step. rewrite <- E1 in Hc1. runs_step. runs_step. set (n' := n <| current_key_version := _ |> <| ip_port_conn := _ |> <| last_visited := _ |>).
    set (w3 := _ <| w_conns := <[c := n']> _ |>).
    assert (pool_ok (held ∪ {[ c ]}) w3) as Hok3.
    { eapply (pool_ok_ext _ _ w3); [| |apply (pool_ok_counted _ c n n' (conn_key n) w1); [set_solver|by rewrite <- E1|done|done|exact Hm|exact Hok1]].
      - split; simpl; [by rewrite E1|done].
      - done. }
    runs_step. eapply runs_conseq; [apply (meta_info_effect c n'); apply lookup_insert_eq|]. intros ok w4 [E4 E5].
    assert (pool_ok (held ∪ {[ c ]}) w4) as Hok4 by (by eapply pool_ok_ext).
    runs_step. destruct ok; [done|]. eapply pool_ok_mono; [|exact Hok4]. set_solver.
  - runs_step. split; [done|]. by eapply pool_ok_ext.
  - do 3 runs_step. eapply (pool_ok_ext held (w2 <| w_conns := delete c (w_conns w2) |>)); [by split|done|].
    eapply pool_ok_drop; [done|by rewrite E1|done|]. by eapply pool_ok_ext.
  - do 3 runs_step. eapply (pool_ok_ext held (w2 <| w_conns := delete c (w_conns w2) |>)); [by split|done|].
    eapply pool_ok_drop; [done|by rewrite E1|done|]. by eapply pool_ok_ext.
Qed.

(** ** Sequences of operations *)

Inductive pool_op :=
| PCreate (share : SPIDER_SHARE) (idx base : Z) (mon : option mon_ref)
| PGet (key : string)
| PReturn (c : cid) (trx_free : bool)
| PRecycle.

(** A session works only on the connections it holds, and on links of its
    tables. *)
Definition op_allowed (held : gset cid) (o : pool_op) : Prop :=
  match o with
  | PCreate share idx _ _ => is_Some (share_links share !! Z.to_nat idx)
  | PReturn c _ => c ∈ held
  | _ => True
  end.

Definition run_pool_op (held : gset cid) (o : pool_op) : M world (gset cid) :=
  match o with
  | PCreate share idx base mon =>
      r ← spider_create_conn share idx base mon;
      mret (match r with inr c => held ∪ {[ c ]} | inl _ => held end)
  | PGet key => r ← get_conn key; mret (match r with Some c => held ∪ {[ c ]} | None => held end)
  | PReturn c tf => left ← spider_free_conn_from_trx c tf; mret (if (left : bool) then held ∖ {[ c ]} else held)
  | PRecycle => spider_conn_recycle_round;; mret held
  end.

Lemma run_pool_op_ok held o w : op_allowed held o -> pool_ok held w -> runs (run_pool_op held o) w (fun held' => pool_ok held').
Proof.
  intros Ha Hok. destruct o as [share idx base mon|key|c tf|]; cbn [run_pool_op]; apply runs_bind.
  - eapply runs_conseq; [by apply (runs_create held)|]. intros [e|c] w' H; runs_step; [done|apply H].
  - eapply runs_conseq; [by apply (runs_get held)|]. intros [c|] w' H; runs_step; [apply H|done].
  - eapply runs_conseq; [by apply (runs_return held)|]. intros left w' H. by runs_step.
  - eapply runs_conseq; [by apply (runs_recycle held)|]. intros u w' [H _]. by runs_step.
Qed.

(** The states of a session and the pool. *)
Inductive pool_reach : gset cid -> world -> Prop :=
| pool_start w : w_conns w = ∅ -> w_pool w = ∅ -> w_ip_port w = ∅ -> pool_reach ∅ w
| pool_next held w o held' w' :
    pool_reach held w -> op_allowed held o -> run_pool_op held o w = Some (held', w') -> pool_reach held' w'.

Lemma pool_reach_ok held w : pool_reach held w -> pool_ok held w.
Proof.
  induction 1 as [w E1 E2 E3|held w o held' w' _ IH Ha Hr].
  - split; unfold pooled, counted; rewrite ?E1, ?E2, ?E3.
    + intros k c. rewrite lookup_empty. simpl. intros []%not_elem_of_nil.
    + intros k. rewrite lookup_empty. constructor.
    + intros c []%elem_of_empty.
    + intros k. rewrite lookup_empty, map_filter_empty. done.
    + intros Hm k. rewrite lookup_empty. simpl. lia.
  - destruct (run_pool_op_ok held o w Ha IH) as (h1 & w1 & E & Hok). rewrite Hr in E. by injection E as <- <-.
Qed.

(** Whatever sequence of creations, returns, reuses and recycling rounds
    came before, the next one returns and works only on connections that were not
    freed; a connection is never in the pool twice, nor in the pool while a
    session holds it; and the counter of a connection key is the number of the
    open connections of the key, which never exceeds spider_max_connections. *)
Theorem pool_connections_accounted held w o :
  pool_reach held w -> op_allowed held o ->
  exists held' w', run_pool_op held o w = Some (held', w') /\
    (forall k c, c ∈ pooled w' k -> c ∉ held' /\ is_Some (w_conns w' !! c)) /\ (forall k, NoDup (pooled w' k)) /\
    (forall c, c ∈ held' -> is_Some (w_conns w' !! c)) /\
    (forall k, default 0 (w_ip_port w' !! k) = Z.of_nat (counted (w_conns w') k)) /\
    (spider_param_max_connections <> 0 -> forall k, Z.of_nat (counted (w_conns w') k) <= spider_param_max_connections).
Proof.
  intros Hr Ha. destruct (run_pool_op_ok held o w Ha (pool_reach_ok _ _ Hr)) as (held' & w' & E & [H1 H2 H3 H4 H5]).
  exists held', w'. split_and!; [done| |done|done|done|].
  - intros k c Hc. destruct (H1 k c Hc) as (Hh & n & Hn & _). by rewrite Hn.
  - intros Hm k. rewrite <- H4. by apply H5.
Qed.
End Pool.

(** ** Examples *)

(** The time is 5000; connections are idle after an hour. *)
Definition idle_env : Env := {|
  env_stmt := fun _ => 0; env_connect := fun _ => 0; env_killed := fun _ => false;
  env_server_found := fun _ => true; env_tz := fun _ => None; env_charset_found := fun _ => true;
  env_oom := fun _ => false; env_engine := fun _ => 0; env_time := fun _ => 5000; env_thread_id := fun _ => 7;
  env_modify_version := fun _ => 0; env_server_version := fun _ => 0; env_timer := fun _ => 5 |}.

(** Connection 1 was used last at 10, connection 2 at 4999; 2 was returned later. *)
Definition idle_world : world := example_world
  <| w_conns := list_to_map [(1%positive, (example_conn "a") <| last_visited := 10 |>);
                             (2%positive, (example_conn "a") <| last_visited := 4999 |>)] |>
  <| w_pool := {[ "a"%string := [1%positive; 2%positive] ]} |>.

(** A recycling round frees the connection that was used last, not the idle
    one: of two pooled connections of a key, of which one was idle for more than
    the interval, the other one is freed and the idle one stays. *)
Theorem recycle_frees_other :
  exists w, @spider_conn_recycle_round idle_env plain_vars idle_world = Some (tt, w) /\
    is_Some (w_conns w !! 1%positive) /\ w_conns w !! 2%positive = None /\ w_pool w !! "a"%string = Some [1%positive].
Proof. eexists. split; [vm_compute; reflexivity|]. split; [by eexists|]. by vm_compute. Qed.

Lemma pool_returns_last_witness :
  exists w1 w2, @put_conn ok_env 1%positive example_world = Some (false, w1) /\
    get_conn "a" w1 = Some (Some 1%positive, w2) /\ w_conns w2 = w_conns example_world /\
    forall k, default [] (w_pool w2 !! k) = default [] (w_pool example_world !! k).
Proof.
  eexists. destruct (@pool_returns_last ok_env 1%positive (example_conn "a") example_world
    (example_world <| w_tick := 2%nat |> <| w_pool := {[ "a"%string := [1%positive] ]} |>)) as (w2 & H).
  - reflexivity.
  - vm_compute. reflexivity.
  - exists w2. split; [vm_compute; reflexivity|]. exact H.
Defined.

Definition empty_world : world := example_world <| w_conns := ∅ |> <| w_links := ∅ |>.

Definition example_link : link_target := mk_link_target (Some "srv"%string) "a" "h" 3306 10 600 600.
Definition example_share : SPIDER_SHARE := mk_share [example_link] 0 0 0.

Lemma pool_connections_accounted_witness :
  exists held' w', @run_pool_op ok_env plain_vars ∅ (PCreate example_share 0 0 None) empty_world = Some (held', w') /\
    (forall k c, c ∈ pooled w' k -> c ∉ held' /\ is_Some (w_conns w' !! c)) /\ (forall k, NoDup (pooled w' k)) /\
    (forall c, c ∈ held' -> is_Some (w_conns w' !! c)) /\
    (forall k, default 0 (w_ip_port w' !! k) = Z.of_nat (counted (w_conns w') k)) /\
    (@spider_param_max_connections plain_vars <> 0 ->
     forall k, Z.of_nat (counted (w_conns w') k) <= @spider_param_max_connections plain_vars).
Proof.
  apply (@pool_connections_accounted ok_env plain_vars).
  - vm_compute. discriminate.
  - by apply pool_start.
  - by eexists.
Defined.
