(* ===== verification/SessionTheorems.v ===== *)
(** * The connections of a session stay accounted for

    The hash tables of a session (SessionConns) and the pool (ConnPool) agree:
    a record of a table is a live connection with the key it is filed under, one
    connection per key, and none of them is in the pool.  [spider_get_conn],
    [spider_free_trx_conn] and the recycling thread keep this; the proofs combine
    the lemmas of the hash table (HashOps) with those of the pool (PoolTheorems). *)

From Stdlib Require Import NArith Lia.
From stdpp Require Import base numbers gmap list strings pretty.
From S2P Require Import Prelude HashTable HashOps HashTheorems Collation CollationTheorems ConnTree World Links.
From S2P Require Import ConnQueue ConnPool SessionConns Example PoolTheorems.
From Stdlib Require Import ZArith.
Local Open Scope spider_scope.
Local Open Scope Z_scope.

(** ** Running in a session *)

Lemma runs_in_world {A} (m : M world A) s (Q : A -> session -> Prop) :
  runs m (ses_world s) (fun a w => Q a (s <| ses_world := w |>)) -> runs (in_world m) s Q.
Proof. intros (a & w & E & HQ). eexists a, _. split; [|exact HQ]. unfold in_world. by rewrite E. Qed.

Lemma runs_in_world_bind {A B} (m : M world A) (g : A -> M world B) s (Q : B -> session -> Prop) :
  runs (in_world m) s (fun a s' => runs (in_world (g a)) s' Q) -> runs (in_world (m ≫= g)) s Q.
Proof.
  intros (a & s1 & E1 & b & s2 & E2 & HQ). exists b, s2. split; [|done]. unfold in_world in *.
  destruct (m (ses_world s)) as [[a' w]|] eqn:Em; [|done]. injection E1 as -> <-. rewrite (bind_eq _ _ _ _ _ Em). simpl in E2.
  by destruct (g a w) as [[b' w']|].
Qed.

Lemma runs_in_world_when (b : bool) (m : M world unit) s (Q : unit -> session -> Prop) :
  (b = true -> runs (in_world m) s Q) -> (b = false -> Q tt s) -> runs (in_world (when b m)) s Q.
Proof. intros H1 H2. destruct b; [by apply H1|]. exists tt, s. split; [|by apply H2]. by destruct s. Qed.

(** The table a flag selects. *)
Definition tab (another : bool) (s : session) : conn_hash := if another then trx_another_hash s else trx_hash s.
Definition set_tab (another : bool) (h : conn_hash) (s : session) : session :=
  if another then s <| trx_another_hash := h |> else s <| trx_hash := h |>.

Lemma runs_in_hash {A} another (g : conn_hash -> option (A * conn_hash)) s a h (Q : A -> session -> Prop) :
  g (tab another s) = Some (a, h) -> Q a (set_tab another h s) -> runs (in_hash another g) s Q.
Proof. intros E HQ. eexists a, _. split; [|exact HQ]. unfold in_hash. unfold tab in E. rewrite E. by destruct another. Qed.

Section Session.
  Context `{env : Env, vars : Vars} `{!HashKey string, !HashKeyLaws string}.
  (** The tables compare keys byte by byte (their charset is utf8_bin). *)
  Context (key_bin : forall k k' : string, key_same k k' = true -> k = k').
  Context (max_nonneg : 0 <= spider_param_max_connections).

(** ** What the operations of the pool leave alone *)

Definition others (c : cid) (w w' : world) : Prop :=
  (forall d, d <> c -> w_conns w' !! d = w_conns w !! d) /\
  trx_conn_hash (w_trx w') = trx_conn_hash (w_trx w).

Lemma put_conn_trx c n w : w_conns w !! c = Some n -> runs (put_conn c) w (fun _ w' => w_trx w' = w_trx w).
Proof. intros Hc. unfold put_conn. do 5 runs_step. destruct (w_pool w !! conn_key n); runs_all; done. Qed.

Lemma put_conn_frame c n w : w_conns w !! c = Some n ->
  runs (put_conn c) w (fun failed w' => w_conns w' = w_conns w /\ w_trx w' = w_trx w /\
    (forall k d, d ∈ pooled w k -> d ∈ pooled w' k) /\ (failed = false -> c ∈ pooled w' (conn_key n))).
Proof.
  intros Hc. eapply runs_conseq; [apply runs_and; [by apply (runs_put_conn c n)|by apply (put_conn_trx c n)]|].
  intros failed w' [[[E _] Hp] Ht]. split_and!; [done|done|..].
  - intros k d Hd. rewrite Hp. destruct (negb failed && _); [|done]. by apply elem_of_app; left.
  - intros ->. rewrite Hp. rewrite bool_decide_true by done. apply elem_of_app. right. by apply list_elem_of_singleton.
Qed.

Lemma count_conn_frame c n w : w_conns w !! c = Some n ->
  runs (count_conn c) w (fun _ w' => w_conns w' = w_conns w /\ w_trx w' = w_trx w).
Proof.
  intros Hc. unfold count_conn, add_ipport_conn. do 4 runs_step. destruct (w_ip_port w !! conn_key n); runs_all; done.
Qed.

Lemma meta_info_frame c n w : w_conns w !! c = Some n ->
  runs (spider_add_conn_meta_info c) w (fun _ w' => w_conns w' = w_conns w /\ w_trx w' = w_trx w).
Proof. intros Hc. unfold spider_add_conn_meta_info. runs_all; done. Qed.

(** A new connection has the key of its link. *)
Lemma create_frame share idx base mon lt w : share_links share !! Z.to_nat idx = Some lt ->
  runs (spider_create_conn share idx base mon) w (fun r w' =>
    trx_conn_hash (w_trx w') = trx_conn_hash (w_trx w) /\
    (forall d n, w_conns w !! d = Some n -> w_conns w' !! d = Some n) /\
    forall c, r = inr c -> exists n, w_conns w' !! c = Some n /\ conn_key n = lt_conn_key lt).
Proof.
  intros Hlt. unfold spider_create_conn. rewrite Hlt. do 3 runs_step; [by runs_step|].
  do 9 runs_step. set (c := fresh (dom (w_conns w))). assert (w_conns w !! c = None) as Hc by (apply not_elem_of_dom, is_fresh).
  assert (Hne : forall d n, w_conns w !! d = Some n -> d <> c) by congruence.
  set (n := new_conn _ _ _ _ _ _). eapply runs_conseq; [apply (count_conn_frame c n), lookup_insert_eq|].
  intros [[] [k|]] w2 [E1 E2]; simpl in E1, E2.
  - do 2 runs_step. eapply runs_bind, (runs_updc _ n); [simpl; rewrite E1; apply lookup_insert_eq|].
    runs_step. eapply runs_conseq; [eapply meta_info_frame, lookup_insert_eq|]. intros ok w3 [E3 E4]; simpl in E3, E4.
    runs_step. rewrite E4, E2, E3, E1. split_and!; [done|..].
    + intros d n' Hd. by rewrite !lookup_insert_ne by (symmetry; by eapply Hne).
    + intros c' Hr. destruct ok; [|done]. injection Hr as <-. rewrite lookup_insert_eq. by eexists.
  - runs_step. rewrite E2, E1. split_and!; [done|..].
    + intros d n' Hd. by rewrite !lookup_insert_ne by (symmetry; by eapply Hne).
    + intros c' [= <-]. rewrite lookup_insert_eq. by eexists.
  - runs_all. rewrite E1, E2, delete_insert_id by done. done.
  - runs_all. rewrite E1, E2, delete_insert_id by done. done.
Qed.

(** Returning a connection; one that nothing is open on leaves the transaction. *)
Record returned (c : cid) (n : SPIDER_CONN) (tf left : bool) (w w' : world) : Prop := {
  rt_others : forall d, d <> c -> w_conns w' !! d = w_conns w !! d;
  rt_trx : trx_conn_hash (w_trx w') = if left then trx_conn_hash (w_trx w) ∖ {[ c ]} else trx_conn_hash (w_trx w);
  rt_kept : left = false -> exists n', w_conns w' !! c = Some n' /\ conn_key n' = conn_key n;
  rt_pool : forall k d, d ∈ pooled w k -> d ∈ pooled w' k;
  rt_gone : left = true -> w_conns w' !! c = None \/ c ∈ pooled w' (with_first_char0 (conn_key n));
  rt_left : tf = true \/ spider_param_conn_recycle_mode <> 2 /\ opened_handlers n = 0 -> left = true }.

Lemma check_version_frame c n w : w_conns w !! c = Some n ->
  runs (check_server_version c) w (fun _ w' => (exists lost, w_conns w' = <[c := n <| server_lost := lost |>]> (w_conns w)) /\
    w_trx w' = w_trx w /\ w_pool w' = w_pool w).
Proof.
  intros Hc. assert (Hid : <[c := n <| server_lost := server_lost n |>]> (w_conns w) = w_conns w).
  { rewrite <- (insert_id _ _ _ Hc) at 2. by destruct n. }
  unfold check_server_version. runs_all; (split; [|done]); first [by exists true|by exists (server_lost n)].
Qed.

Lemma return_frame c n tf w : w_conns w !! c = Some n ->
  runs (spider_free_conn_from_trx c tf) w (fun left w' => returned c n tf left w w').
Proof.
  intros Hc. unfold spider_free_conn_from_trx, spider_conn_clear_queue. do 4 runs_step. rewrite insert_insert_eq.
  set (n1 := _ <| error_mode := 1 |>). runs_step. eapply runs_conseq; [apply (check_version_frame c n1), lookup_insert_eq|].
  intros u w1 ([lost E1] & E2 & E2p); simpl in E1, E2, E2p. rewrite insert_insert_eq in E1. set (n2 := n1 <| server_lost := lost |>) in *.
  assert (Hc1 : w_conns w1 !! c = Some n2) by (rewrite E1; apply lookup_insert_eq).
  assert (conn_key n2 = conn_key n /\ opened_handlers n2 = opened_handlers n) as [Hk Ho].
  { unfold n2, n1, conn_clear_queue. simpl. by destruct (queued_trx_start n). }
  runs_step. runs_step. runs_step.
  - do 5 runs_step.
    assert (Hfin : forall w2, (forall d, d <> c -> w_conns w2 !! d = w_conns w !! d) ->
      (forall k d, d ∈ pooled w k -> d ∈ pooled w2 k) ->
      (w_conns w2 !! c = None \/ c ∈ pooled w2 (with_first_char0 (conn_key n))) ->
      w_trx w2 = (w_trx w) <| trx_conn_hash := trx_conn_hash (w_trx w) ∖ {[ c ]} |> -> returned c n tf true w w2).
    { intros w2 Ho2 Hp Hg E. by split; [|rewrite E|..]. }
    do 2 runs_step.
    + do 3 runs_step. eapply runs_conseq; [eapply put_conn_frame, lookup_insert_eq|].
      intros failed w2 (E3 & E4 & Hp & Hf); simpl in E3, E4. rewrite E1, ?insert_insert_eq in E3. rewrite E2 in E4.
      assert (Hp' : forall k d, d ∈ pooled w k -> d ∈ pooled w2 k).
      { intros k d Hd. apply Hp. unfold pooled in *. simpl. by rewrite E2p. }
      runs_step. runs_step.
      * eapply runs_conseq; [eapply free_conn_frame; rewrite E3; apply lookup_insert_eq|]. intros v w3 (E5 & E6 & E7). runs_step.
        rewrite E3, delete_insert_eq in E5. apply Hfin; [|unfold pooled; by rewrite E7|left; by rewrite E5, lookup_delete_eq|by rewrite E6, E4].
        intros d Hd. by rewrite E5, lookup_delete_ne.
      * runs_step. apply Hfin; [|done|right; subst failed; by apply Hf|done]. intros d Hd. by rewrite E3, lookup_insert_ne.
    + runs_step. eapply runs_conseq; [eapply free_conn_frame, lookup_insert_eq|]. intros v w3 (E5 & E6 & E7); simpl in E5, E6, E7. runs_step.
      rewrite E1, insert_insert_eq, delete_insert_eq in E5.
      apply Hfin; [|unfold pooled; by rewrite E7, E2p|left; by rewrite E5, lookup_delete_eq|by rewrite E6, E2].
      intros d Hd. by rewrite E5, lookup_delete_ne.
  - runs_step. split; [|by rewrite E2|by intros _; exists n2|unfold pooled; by rewrite E2p|done|].
    + intros d Hd. rewrite E1. by rewrite lookup_insert_ne.
    + intros Hl. exfalso. apply orb_false_iff in Heqb as [Ht Hb]. destruct Hl as [?|[Hm Hn]]; [congruence|].
      simpl in Hb. rewrite ?Ho, Hn in Hb. apply Z.eqb_neq in Hm. rewrite Hm, orb_true_r in Hb. done.
Qed.

(** ** The invariant *)

Definition members (s : session) : list (cid * string) := elements (trx_hash s) ++ elements (trx_another_hash s).
Definition held (s : session) : gset cid := list_to_set (members s).*1.

(** [x] are the connections the session works on that are not yet in a table. *)
Record ses_inv (x : gset cid) (s : session) : Prop := {
  si_ok : forall b, hash_ok (tab b s);
  si_key : forall b d, h_key (tab b s) d = d.2;
  si_keys : forall b, NoDup (elements (tab b s)).*2;
  si_cids : NoDup (members s).*1;
  si_live : forall c k, (c, k) ∈ members s -> exists n, w_conns (ses_world s) !! c = Some n /\ conn_key n = k;
  si_pool : pool_ok (held s ∪ x) (ses_world s);
  si_new : x ## held s;
  si_trx : trx_conn_hash (w_trx (ses_world s)) = list_to_set (elements (trx_hash s)).*1 }.

Lemma elem_of_held s c : c ∈ held s <-> exists k, (c, k) ∈ members s.
Proof.
  unfold held. rewrite elem_of_list_to_set, list_elem_of_fmap. split.
  - intros ([c' k] & -> & H). by exists k.
  - intros [k H]. by exists (c, k).
Qed.

Lemma held_cons s s' c k : members s' ≡ₚ (c, k) :: members s -> held s' = {[ c ]} ∪ held s.
Proof. intros E. unfold held. rewrite E. done. Qed.

Lemma held_tables s s' : (forall b, tab b s' = tab b s) -> held s' = held s.
Proof. intros E. unfold held, members. pose proof (E true) as E1. pose proof (E false) as E2. simpl in *. by rewrite E1, E2. Qed.

Lemma tab_members b s d : d ∈ elements (tab b s) -> d ∈ members s.
Proof. unfold members. rewrite elem_of_app. destruct b; auto. Qed.

Lemma tab_held b s c k : (c, k) ∈ elements (tab b s) -> c ∈ held s.
Proof. intros H. apply elem_of_held. exists k. by eapply tab_members. Qed.

Lemma set_cons_diff (X : gset cid) c : c ∉ X -> ({[ c ]} ∪ X) ∖ {[ c ]} = X.
Proof. set_solver. Qed.

Lemma single_disjoint (X : gset cid) c : c ∉ X -> {[ c ]} ## X.
Proof. set_solver. Qed.

(** The world changes, the tables do not. *)
Lemma si_world x x' s w' : ses_inv x s ->
  (forall c n, c ∈ held s -> w_conns (ses_world s) !! c = Some n -> exists n', w_conns w' !! c = Some n' /\ conn_key n' = conn_key n) ->
  trx_conn_hash (w_trx w') = trx_conn_hash (w_trx (ses_world s)) -> pool_ok (held s ∪ x') w' -> x' ## held s ->
  ses_inv x' (s <| ses_world := w' |>).
Proof.
  intros [H1 H2 H3 H4 H5 H6 H7 H8] Hl Ht Hp Hx. split; [exact H1|exact H2|exact H3|exact H4| |exact Hp|exact Hx|exact (eq_trans Ht H8)].
  intros c k Hc. destruct (H5 c k Hc) as (n & Hn & <-). apply (Hl c n); [|done]. apply elem_of_held. by eexists.
Qed.

Lemma si_upd x s c (g : SPIDER_CONN -> SPIDER_CONN) (Q : unit -> session -> Prop) :
  c ∈ held s ∪ x -> (forall n, ip_port_conn (g n) = ip_port_conn n) ->
  (forall n, w_conns (ses_world s) !! c = Some n -> conn_key (g n) = conn_key n) -> ses_inv x s ->
  (forall n, w_conns (ses_world s) !! c = Some n ->
     let s' := s <| ses_world := (ses_world s) <| w_conns := <[c := g n]> (w_conns (ses_world s)) |> |> in ses_inv x s' -> Q tt s') ->
  runs (in_world (updc c g)) s Q.
Proof.
  intros Hc Hg Hk Hok HQ. destruct (po_held _ _ (si_pool _ _ Hok) c Hc) as [n Hn]. apply runs_in_world. eapply runs_updc; [done|].
  apply HQ; [done|]. eapply si_world; [done| |done| |apply Hok].
  - intros d n' Hd Hn'. simpl. destruct (decide (d = c)) as [->|Hne]; [|rewrite lookup_insert_ne by done; by exists n'].
    rewrite lookup_insert_eq. exists (g n). rewrite (Hk n Hn). split; [done|congruence].
  - apply pool_ok_updc; [done..|apply Hok].
Qed.

(** A step that touches neither the connections nor the pool. *)
Lemma si_quiet x s w' : ses_inv x s -> same_counts (ses_world s) w' -> w_pool w' = w_pool (ses_world s) ->
  trx_conn_hash (w_trx w') = trx_conn_hash (w_trx (ses_world s)) -> ses_inv x (s <| ses_world := w' |>).
Proof.
  intros Hok Hs Hp Ht. eapply si_world; [done| |done|by eapply pool_ok_ext; [..|apply Hok]|apply Hok].
  intros c n _ Hn. destruct Hs as [-> _]. by exists n.
Qed.

(** A record enters a table, or leaves the table of the transaction. *)
Lemma si_enter b c n h' s w' : ses_inv {[ c ]} s -> w_conns (ses_world s) !! c = Some n ->
  (forall d, d ∈ elements (tab b s) -> d.2 <> conn_key n) ->
  hash_ok h' -> h_key h' = h_key (tab b s) -> elements h' ≡ₚ (c, conn_key n) :: elements (tab b s) ->
  same_counts (ses_world s) w' -> w_pool w' = w_pool (ses_world s) ->
  trx_conn_hash (w_trx w') = (if b then trx_conn_hash (w_trx (ses_world s)) else {[ c ]} ∪ trx_conn_hash (w_trx (ses_world s))) ->
  ses_inv ∅ ((set_tab b h' s) <| ses_world := w' |>).
Proof.
  intros [H1 H2 H3 H4 H5 H6 H7 H8] Hn Hnew Hok Hkey Hel Hs Hp Ht. set (s' := _ <| ses_world := w' |>).
  assert (tab b s' = h') as Eb by (by destruct b). assert (tab (negb b) s' = tab (negb b) s) as En by (by destruct b).
  assert (members s' ≡ₚ (c, conn_key n) :: members s) as Em.
  { unfold members. destruct b; simpl in *; rewrite Hel; solve_Permutation. }
  pose proof (held_cons _ _ _ _ Em) as Eh.
  assert (forall b', b' = b \/ b' = negb b) as Hb by (intros []; destruct b; auto).
  split; [..|by rewrite union_empty_r_L, Eh, (union_comm_L {[ c ]}); eapply pool_ok_ext|set_solver +|].
  - intros b'. destruct (Hb b') as [->| ->]; rewrite ?Eb, ?En; auto.
  - intros b' d. destruct (Hb b') as [->| ->]; rewrite ?Eb, ?En; [rewrite Hkey|]; auto.
  - intros b'. destruct (Hb b') as [->| ->]; rewrite ?Eb, ?En; [|auto]. rewrite Hel. csimpl. apply NoDup_cons. split; [|auto].
    intros ([c' k'] & E & Hd)%list_elem_of_fmap. by apply (Hnew _ Hd).
  - rewrite Em. csimpl. apply NoDup_cons. split; [|done]. intros Hin. apply (H7 c); [by apply elem_of_singleton|].
    unfold held. by rewrite elem_of_list_to_set.
  - intros d k. destruct Hs as [E _]. change (ses_world s') with w'. rewrite Em, E. intros [[= -> ->]|Hd]%elem_of_cons; [by exists n|auto].
  - change (ses_world s') with w'. rewrite Ht. destruct b; [done|]. change (trx_hash s') with h'. rewrite Hel. csimpl. by rewrite H8.
Qed.

Lemma si_leave c k h' s w' : ses_inv ∅ s -> elements (trx_hash s) ≡ₚ (c, k) :: elements h' ->
  hash_ok h' -> h_key h' = h_key (trx_hash s) ->
  (forall d, d <> c -> w_conns w' !! d = w_conns (ses_world s) !! d) -> pool_ok (held s ∖ {[ c ]}) w' ->
  trx_conn_hash (w_trx w') = trx_conn_hash (w_trx (ses_world s)) ∖ {[ c ]} ->
  ses_inv ∅ (s <| ses_world := w' |> <| trx_hash := h' |>).
Proof.
  intros [H1 H2 H3 H4 H5 H6 H7 H8] Hel Hok Hkey Ho Hp Ht. set (s' := _ <| trx_hash := h' |>).
  assert (members s ≡ₚ (c, k) :: members s') as Em by (unfold members; simpl; by rewrite Hel).
  rewrite Em in H4. apply NoDup_cons in H4 as [Hc H4].
  assert (c ∉ held s') as Hch by (unfold held; by rewrite elem_of_list_to_set).
  assert (held s ∖ {[ c ]} = held s') as Eh.
  { rewrite (held_cons _ _ _ _ Em). by apply set_cons_diff. }
  split; [..|by rewrite union_empty_r_L, <- Eh|set_solver +|].
  - intros []; [apply (H1 true)|done].
  - intros [] d; [apply (H2 true)|]. simpl. rewrite Hkey. apply (H2 false).
  - intros []; [apply (H3 true)|]. specialize (H3 false). simpl in *. rewrite Hel in H3. by apply NoDup_cons in H3 as [_ H3].
  - done.
  - intros d j Hd. change (ses_world s') with w'. rewrite Ho; [apply H5; rewrite Em; by right|].
    intros ->. apply Hch, elem_of_held. by exists j.
  - change (ses_world s') with w'. change (trx_hash s') with h'. rewrite Ht, H8, Hel. csimpl.
    assert (c ∉ (list_to_set (elements h').*1 : gset cid)) ; [|by apply set_cons_diff]. rewrite elem_of_list_to_set. intros ([c' j] & -> & Hd)%list_elem_of_fmap. apply Hch, (tab_held false s' c' j). done.
Qed.

(** ** Getting a connection *)

(** The tables and the share stay. *)
Definition tables_kept (s s' : session) : Prop :=
  (forall b, tab b s' = tab b s) /\ ses_share s' = ses_share s.

Definition has_key (s : session) (c : cid) (k : string) : Prop :=
  exists n, w_conns (ses_world s) !! c = Some n /\ conn_key n = k.

Definition can_note (base : nat) (s : session) : Prop :=
  match ses_spider s with Some h => is_Some (spider_bit_is_set (conn_can_fo h) base) | None => True end.

Lemma note_ok x s base c k : ses_inv x s -> can_note base s -> c ∈ held s ∪ x -> has_key s c k ->
  runs (note_conn base c) s (fun _ s' => ses_inv x s' /\ tables_kept s s' /\ has_key s' c k).
Proof.
  intros Hok Hnote Hc Hk. unfold note_conn. do 2 runs_step. unfold can_note in Hnote. destruct (ses_spider s) as [h|]; [|by runs_step].
  do 2 runs_step. destruct Hnote as [fo Hfo]. set (s1 := s <| ses_spider := _ |>). apply runs_bind. exists fo, s1. split; [by unfold lift_opt; rewrite Hfo|].
  assert (ses_inv x s1) as Hok1 by (destruct Hok; by split). runs_step; [|done].
  eapply (si_upd x s1); [done|done|done|done|]. intros n Hn s2 Hok2. split_and!; [done|by split; [intros []|]|].
  eexists. split; [apply lookup_insert_eq|]. destruct Hk as (n' & Hn' & <-). change (w_conns (ses_world s1)) with (w_conns (ses_world s)) in Hn.
  simpl. congruence.
Qed.

Lemma with_first_char_same k : with_first_char k k = k.
Proof. by destruct k. Qed.

(** A new connection of the session, before it is in a table. *)
Definition got (key : string) (s : session) (r : Z + cid) (s' : session) : Prop :=
  tables_kept s s' /\
  match r with
  | inl _ => ses_inv ∅ s'
  | inr c => ses_inv {[ c ]} s' /\ has_key s' c key
  end.

Lemma got_noted key s s1 base c : ses_inv {[ c ]} s1 -> tables_kept s s1 -> has_key s1 c key -> can_note base s1 ->
  runs (note_conn base c ;; mret (inr c)) s1 (got key s).
Proof.
  intros Hok [Ht Hs] Hk Hnote. runs_step. eapply runs_conseq; [apply (note_ok {[ c ]} s1 base c key); [done|done|set_solver +|done]|].
  intros u s2 (Hok2 & [Ht2 Hs2] & Hk2). runs_step. split; [|done]. split; [intros b; by rewrite Ht2|by rewrite Hs2].
Qed.

Lemma create_ok s link base lt : ses_inv ∅ s -> can_note base s -> share_links (ses_share s) !! link = Some lt ->
  runs (create_session_conn link base) s (got (lt_conn_key lt) s).
Proof.
  intros Hok Hnote Hlt. unfold create_session_conn. do 4 runs_step. apply runs_bind. exists lt, s. split; [by unfold lift_opt; rewrite Hlt|].
  apply runs_bind, runs_in_world. pose proof (si_pool _ _ Hok) as Hp. rewrite union_empty_r_L in Hp.
  eapply runs_conseq; [apply runs_and; [apply (runs_create max_nonneg (held s)); [rewrite Nat2Z.id; by eexists|exact Hp]|apply (create_frame _ _ _ _ lt); by rewrite Nat2Z.id]|].
  intros [e|c] w' [Hr (Ht & Ho & Hn)].
  - runs_step. split; [by split; [intros []|]|]. eapply si_world; [done| |done|by rewrite union_empty_r_L|set_solver +].
    intros c n _ Hc. exists n. split; [by apply Ho|done].
  - destruct Hr as [Hc Hp']. destruct (Hn c eq_refl) as (n & Hcn & Hkn).
    assert (ses_inv {[ c ]} (s <| ses_world := w' |>)) as Hok1.
    { eapply si_world; [done| |done|done|by apply single_disjoint]. intros d n' _ Hd. exists n'. split; [by apply Ho|done]. }
    runs_step. eapply (si_upd {[ c ]}); [set_solver +|done| |done|].
    + intros n' Hn'. simpl in *. rewrite Hcn in Hn'. injection Hn' as <-. by rewrite Hkn, with_first_char_same.
    + intros n' Hn' s2 Hok2. simpl in Hn'. apply got_noted; [done|by split; [intros []|]| |done].
      eexists. split; [apply lookup_insert_eq|]. simpl. rewrite Hcn in Hn'. injection Hn' as <-. by rewrite Hkn, with_first_char_same.
Qed.

Lemma idle_ok s key link base lt : ses_inv ∅ s -> can_note base s -> share_links (ses_share s) !! link = Some lt ->
  runs (spider_get_conn_from_idle_connection key link base) s (got (lt_conn_key lt) s).
Proof.
  intros Hok Hnote Hlt. unfold spider_get_conn_from_idle_connection. do 2 runs_step. runs_step; [|by apply create_ok].
  runs_step. by split; [split; [intros []|]|].
Qed.

Lemma new_ok s link base lt : ses_inv ∅ s -> can_note base s -> share_links (ses_share s) !! link = Some lt ->
  runs (new_session_conn (lt_conn_key lt) link base) s (got (lt_conn_key lt) s).
Proof.
  intros Hok Hnote Hlt. unfold new_session_conn. runs_step; [|by apply create_ok]. apply runs_bind, runs_in_world.
  pose proof (si_pool _ _ Hok) as Hp. rewrite union_empty_r_L in Hp.
  eapply runs_conseq; [apply runs_and; [by apply (runs_get (held s))|apply runs_and; [apply runs_get_conn|apply get_conn_frame]]|].
  intros [c|] w' (Hr & (Hs & Hl & _) & Ec & Et).
  - destruct Hr as [Hc Hp']. destruct (po_live _ _ Hp (lt_conn_key lt) c) as (_ & n & Hn & Hk); [by apply last_Some_elem_of|].
    apply got_noted; [|by split; [intros []|]|exists n; simpl; by rewrite Ec|done].
    eapply si_world; [done| |by rewrite Et|done|by apply single_disjoint]. intros d n' _ Hd. exists n'. by rewrite Ec.
  - set (s1 := s <| ses_world := w' |>). assert (ses_inv ∅ s1) as Hok1.
    { eapply si_world; [done| |by rewrite Et|by rewrite union_empty_r_L|set_solver +]. intros d n' _ Hd. exists n'. by rewrite Ec. }
    runs_step; (eapply runs_conseq; [first [by apply (idle_ok s1)|by apply (create_ok s1)]|]); intros r s2 [[Ht Hsh] Hg];
      (split; [split; [intros b; rewrite Ht; by destruct b|done]|done]).
Qed.

Lemma insert_oom (h : conn_hash) d : hash_ok h -> my_hash_insert true h d = Some (true, h).
Proof.
  intros Hok. unfold my_hash_insert. destruct (search_ok h (h_key h d) Hok) as (r & Hr & _). unfold my_hash_search in Hr.
  destruct (h_unique h); [|done]. change (my_hash_search_using_hash_value h (hash_function (h_key h d)) (h_key h d)) with (my_hash_search h (h_key h d)).
  unfold my_hash_search. rewrite Hr. by destruct r.
Qed.

(** The connection enters the table; out of memory, it is freed. *)
Definition joined (b : bool) (key : string) (s : session) (r : Z + cid) (s' : session) : Prop :=
  ses_inv ∅ s' /\ ses_share s' = ses_share s /\ tab (negb b) s' = tab (negb b) s /\
  match r with
  | inl _ => tab b s' = tab b s
  | inr c => c ∉ held s /\ elements (tab b s') ≡ₚ (c, key) :: elements (tab b s)
  end.

Lemma join_failed b key c s s1 : ses_inv {[ c ]} s1 -> tables_kept s s1 ->
  runs (in_world (spider_free_conn c) ;; mret (inl HA_ERR_OUT_OF_MEM)) s1 (joined b key s).
Proof.
  intros Hok [Ht Hs]. apply runs_bind, runs_in_world. destruct (po_held _ _ (si_pool _ _ Hok) c) as [n Hn]; [set_solver +|].
  eapply runs_conseq; [apply runs_and; [apply (runs_free_conn (held s1 ∪ {[ c ]})); [set_solver +|apply Hok]|by apply (free_conn_frame c n)]|].
  intros u w' (Hp & Ec & Et & _). assert (c ∉ held s1) as Hc by (intros Hc; apply (si_new _ _ Hok c); [set_solver +|done]).
  runs_step. rewrite (union_comm_L (held s1)), set_cons_diff in Hp by done. split_and!; [|done|rewrite <- Ht; by destruct b|rewrite <- Ht; by destruct b].
  eapply si_world; [done| |by rewrite Et|by rewrite union_empty_r_L|set_solver +].
  intros d n' Hd Hn'. exists n'. rewrite Ec, lookup_delete_ne by congruence. done.
Qed.

Lemma join_ok b s c key : ses_inv {[ c ]} s -> has_key s c key -> (forall d, d ∈ elements (tab b s) -> d.2 <> key) ->
  (records (tab b s) < NO_RECORD)%N -> runs (join_session b c) s (joined b key s).
Proof.
  intros Hok Hk Hnew Hmax. unfold join_session. do 3 runs_step. eapply (si_upd {[ c ]}); [set_solver +|done|done|done|].
  intros n0 Hn0 s1 Hok1. assert (has_key s1 c key) as Hk1.
  { destruct Hk as (n & Hn & <-). eexists. split; [apply lookup_insert_eq|]. simpl. congruence. }
  assert (tables_kept s s1) as Ht1 by (by split; [intros []|]). clearbody s1. clear n0 Hn0 Hk.
  do 2 runs_step. set (s2 := s1 <| ses_world := _ |>). assert (ses_inv {[ c ]} s2) as Hok2 by (by apply si_quiet).
  destruct Hk1 as (n & Hn & <-). apply runs_bind, runs_in_world. eapply runs_getc; [exact Hn|].
  apply runs_bind, runs_in_world, runs_outside. set (s3 := s2 <| ses_world := _ |> <| ses_world := _ |>).
  assert (ses_inv {[ c ]} s3) as Hok3 by (by apply (si_quiet {[ c ]} s2)).
  assert (forall b, tab b s3 = tab b s) as Ht by (intros b'; rewrite <- (proj1 Ht1); by destruct b'). runs_step.
  destruct (env_oom _).
  { eapply runs_in_hash; [apply insert_oom; by destruct Hok3|]. apply join_failed; [by destruct Hok3, b; split|].
    destruct Ht1 as [_ Hs]. split; [|by destruct b]. intros b'. rewrite <- Ht. by destruct b, b'. }
  destruct (insert_ok (tab b s3) (c, conn_key n)) as (r & h' & E & Hok' & Ekey & _ & _ & _ & Hr); [apply Hok3|by rewrite Ht|].
  eapply runs_in_hash; [exact E|]. destruct r.
  - apply join_failed; [destruct Hr as [-> _]; by destruct Hok3, b; split|]. destruct Hr as [-> _].
    destruct Ht1 as [_ Hs]. split; [|by destruct b]. intros b'. rewrite <- Ht. by destruct b, b'.
  - destruct Hr as [Hel _]. apply runs_bind.
    assert (Hin : forall w', same_counts (ses_world s3) w' -> w_pool w' = w_pool (ses_world s3) ->
      trx_conn_hash (w_trx w') = (if b then trx_conn_hash (w_trx (ses_world s3)) else {[ c ]} ∪ trx_conn_hash (w_trx (ses_world s3))) ->
      joined b (conn_key n) s (inr c) ((set_tab b h' s3) <| ses_world := w' |>)).
    { intros w' Hs Hp Htr. split_and!; [|destruct b; apply Ht1|rewrite <- Ht; by destruct b| |rewrite <- (Ht b), <- Hel; by destruct b].
      2:{ intros Hc. by apply (si_new _ _ Hok c); [apply elem_of_singleton|]. }
      eapply si_enter; try done. by rewrite Ht. }
    runs_step; (destruct b; try done).
    + apply runs_in_world, runs_modify, runs_ret, Hin; done.
    + apply runs_ret. exact (Hin (ses_world s3) ltac:(by split) eq_refl eq_refl).
Qed.

Lemma prepare_ok s link base c : ses_inv ∅ s -> c ∈ held s ->
  runs (prepare_conn link base c) s (fun _ s' => ses_inv ∅ s' /\ tables_kept s s').
Proof.
  intros Hok Hc. unfold prepare_conn, spider_conn_queue_connect_rewrite. do 4 runs_step.
  assert (Hc' : c ∈ held s ∪ ∅) by (by rewrite union_empty_r_L). apply runs_in_world_bind.
  eapply (si_upd ∅ s); [done..|]. intros n Hn s1 Hok1. apply runs_in_world_bind, runs_in_world.
  eapply runs_getc; [apply lookup_insert_eq|]. set (n1 := n <| link_idx := _ |>).
  assert (Hlast : forall s2 sh, ses_inv ∅ s2 -> tables_kept s s2 -> c ∈ held s2 ∪ ∅ ->
    runs (in_world (updc c (fun n => n <| conn_share := sh |>))) s2 (fun _ s' => ses_inv ∅ s' /\ tables_kept s s')).
  { intros s2 sh Hok2 [Ht Hs] Hc2. eapply (si_upd ∅ s2); [done..|]. intros n2 Hn2 s3 Hok3.
    split; [done|]. split; [intros b; rewrite <- Ht; by destruct b|done]. }
  assert (Hmid : forall s2 sh (b : bool), ses_inv ∅ s2 -> tables_kept s s2 -> c ∈ held s2 ∪ ∅ ->
    runs (in_world (when b (updc c (fun n => n <| queued_ping := false |>)) ;; updc c (fun n => n <| conn_share := sh |>))) s2
      (fun _ s' => ses_inv ∅ s' /\ tables_kept s s')).
  { intros s2 sh b Hok2 [Ht Hs] Hc2. apply runs_in_world_bind, runs_in_world_when; intros _; [|by apply Hlast].
    eapply (si_upd ∅ s2); [done..|]. intros n2 Hn2 s3 Hok3. apply Hlast; [done| |done].
    split; [intros b'; rewrite <- Ht; by destruct b'|done]. }
  apply runs_in_world_bind, runs_in_world_when; intros _; [|by apply Hmid; [|split; [intros []|]|]].
  eapply (si_upd ∅ s1); [done..|]. intros n2 Hn2 s3 Hok3. apply Hmid; [done| |done]. by split; [intros []|].
Qed.

(** The link of a share has the name of a server. *)
Definition link_named (s : session) (link : nat) : Prop :=
  exists lt name, share_links (ses_share s) !! link = Some lt /\ lt_server_name lt = Some name.

Lemma current_key_ok x s link : ses_inv x s -> link_named s link ->
  runs (current_conn_key link) s (fun key s' => ses_inv x s' /\ (forall b, tab b s' = tab b s) /\ ses_spider s' = ses_spider s /\
    exists lt, share_links (ses_share s') !! link = Some lt /\ lt_conn_key lt = key).
Proof.
  intros Hok (lt & name & Hlt & Hname). unfold current_conn_key. do 3 runs_step. apply runs_in_world, runs_outside.
  set (s1 := s <| ses_world := _ |>). assert (ses_inv x s1) as Hok1 by (by apply si_quiet).
  assert (Hend : forall s2 lt', ses_inv x s2 -> (forall b, tab b s2 = tab b s) -> ses_spider s2 = ses_spider s ->
    share_links (ses_share s2) !! link = Some lt' ->
    runs (share ← gets ses_share; lt ← lift_opt (fun _ => share_links share !! link); mret (lt_conn_key lt)) s2 (fun key s' =>
      ses_inv x s' /\ (forall b, tab b s' = tab b s) /\ ses_spider s' = ses_spider s /\
      exists lt, share_links (ses_share s') !! link = Some lt /\ lt_conn_key lt = key)).
  { intros s2 lt' Hok2 Ht Hsp Hl. do 2 runs_step. apply runs_bind. exists lt', s2. split; [by unfold lift_opt; rewrite Hl|]. runs_step. split_and!; [done..|by exists lt']. }
  apply runs_bind, runs_when; intros _; [|by apply (Hend s1 lt); [|intros []|..]].
  apply runs_bind, runs_in_world. unfold spider_update_conn_keys. apply runs_bind. exists lt, (ses_world s1).
  split; [by unfold lift_opt; rewrite Hlt|]. apply runs_bind. exists name, (ses_world s1). split; [by unfold lift_opt; rewrite Hname|].
  apply runs_bind, runs_outside. set (w2 := (ses_world s1) <| w_tick := _ |>). assert (ses_inv x (s1 <| ses_world := w2 |>)) as Hok2 by (by apply (si_quiet x s1)).
  runs_step; apply runs_ret, runs_modify.
  - eapply Hend; [destruct Hok2; by split|by intros []|done|exact Hlt].
  - eapply Hend; [destruct Hok2; by split|by intros []|done|]. simpl. apply list_lookup_insert_eq. by eapply lookup_lt_Some.
Qed.

(** The handler's link. *)
Definition link_of_handler (s : session) (base : nat) : option nat :=
  match ses_spider s with Some h => conn_link_idx h !! base | None => Some base end.

(** The result of [spider_get_conn]: a connection in the table under the key of
    the link, the one that was there or a new one. *)
Definition get_result (b : bool) (link : nat) (s : session) (r : Z + cid) (s' : session) : Prop :=
  ses_inv ∅ s' /\ tab (negb b) s' = tab (negb b) s /\
  match r with
  | inl _ => tab b s' = tab b s
  | inr c => exists lt, share_links (ses_share s') !! link = Some lt /\
      if decide (lt_conn_key lt ∈ (elements (tab b s)).*2)
      then (c, lt_conn_key lt) ∈ elements (tab b s) /\ tab b s' = tab b s
      else c ∉ held s /\ elements (tab b s') ≡ₚ (c, lt_conn_key lt) :: elements (tab b s)
  end.

Lemma get_ok b s base link : ses_inv ∅ s -> link_of_handler s base = Some link -> can_note base s -> link_named s link ->
  (records (tab b s) < NO_RECORD)%N -> runs (spider_get_conn b base) s (get_result b link s).
Proof.
  intros Hok Hl Hnote Hnamed Hmax. unfold spider_get_conn. do 2 runs_step. apply runs_bind. exists link, s.
  split; [unfold lift_opt; unfold link_of_handler in Hl; by rewrite Hl|]. runs_step.
  eapply runs_conseq; [by apply (current_key_ok ∅)|]. intros key s1 (Hok1 & Ht1 & Hsp1 & lt & Hlt & <-). apply runs_bind.
  destruct (search_ok (tab b s1) (lt_conn_key lt)) as (r & Er & Hr); [apply Hok1|].
  eapply runs_in_hash; [by rewrite Er|]. assert (set_tab b (tab b s1) s1 = s1) as -> by (by destruct b, s1).
  assert (Hnote1 : can_note base s1) by (unfold can_note; by rewrite Hsp1). apply runs_bind. destruct r as [[c k]|].
  - destruct Hr as [Hin Hk%key_bin]. rewrite (si_key _ _ Hok1) in Hk. simpl in Hk. subst k. runs_step.
    eapply runs_conseq; [apply (note_ok ∅ s1 base c (lt_conn_key lt)); [done..| |]|].
    + rewrite union_empty_r_L. by eapply tab_held.
    + eapply si_live; [done|]. by eapply tab_members.
    + intros u s2 (Hok2 & [Ht2 Hs2] & _). runs_step. runs_step. rewrite <- Ht2 in Hin.
      eapply runs_conseq; [apply prepare_ok; [done|by eapply tab_held]|]. intros v s3 (Hok3 & [Ht3 Hs3]). runs_step.
      split_and!; [done|by rewrite Ht3, Ht2, Ht1|]. exists lt. rewrite Hs3, Hs2. split; [done|]. rewrite Ht2, Ht1 in Hin.
      rewrite decide_True by (apply list_elem_of_fmap; by exists (c, lt_conn_key lt)). by rewrite Ht3, Ht2, Ht1.
  - assert (Hnew : forall d, d ∈ elements (tab b s1) -> d.2 <> lt_conn_key lt).
    { intros d Hd E. specialize (Hr d Hd). rewrite (si_key _ _ Hok1), E, key_same_refl in Hr. done. }
    runs_step. eapply runs_conseq; [by apply (new_ok s1 link base lt)|]. intros [e|c] s2 [[Ht2 Hs2] Hg].
    { do 2 runs_step. split_and!; [done|by rewrite Ht2, Ht1|by rewrite Ht2, Ht1]. }
    destruct Hg as [Hok2 Hk2]. eapply runs_conseq; [apply (join_ok b s2 c (lt_conn_key lt)); [done|done|by rewrite Ht2|by rewrite Ht2, Ht1]|].
    intros [e|c'] s3 (Hok3 & Hs3 & Hn3 & Hj); [|destruct Hj as [Hc' Hj]].
    { runs_step. split_and!; [done|by rewrite Hn3, Ht2, Ht1|by rewrite Hj, Ht2, Ht1]. }
    runs_step. eapply runs_conseq; [apply prepare_ok; [done|]|].
    + apply (tab_held b s3 c' (lt_conn_key lt)). rewrite Hj. left.
    + intros v s4 (Hok4 & [Ht4 Hs4]). runs_step. split_and!; [done|by rewrite Ht4, Hn3, Ht2, Ht1|]. exists lt. rewrite Hs4, Hs3, Hs2.
      split; [done|]. rewrite decide_False.
      * rewrite Ht4, Hj, Ht2, Ht1. split; [|done]. rewrite <- (held_tables s s2); [done|]. intros b'. by rewrite Ht2, Ht1.
      * rewrite list_elem_of_fmap. intros (d & E & Hd). rewrite <- Ht1 in Hd. by apply (Hnew d Hd).
Qed.

(** ** Returning the connections *)

(** A connection the session can give up at the end of its transaction. *)
Definition idle (tf : bool) (s : session) (c : cid) : Prop :=
  exists n, w_conns (ses_world s) !! c = Some n /\ table_lock n = 0 /\
    (tf = true \/ spider_param_conn_recycle_mode <> 2 /\ opened_handlers n = 0).

(** The connection is closed, or in the pool. *)
Definition given_up (s : session) (c : cid) : Prop :=
  w_conns (ses_world s) !! c = None \/ exists k, c ∈ pooled (ses_world s) k.

(** A round of the loop that the record [(c, k)] is at. *)
Record round (tf : bool) (c : cid) (k : string) (i : N) (s : session) (i' : N) (s' : session) : Prop := {
  rd_inv : ses_inv ∅ s';
  rd_another : trx_another_hash s' = trx_another_hash s;
  rd_others : forall d, d <> c -> w_conns (ses_world s') !! d = w_conns (ses_world s) !! d;
  rd_pool : forall j d, d ∈ pooled (ses_world s) j -> d ∈ pooled (ses_world s') j;
  rd_step : i' = N.succ i /\ trx_hash s' = trx_hash s /\ ~ idle tf s c \/
            i' = i /\ elements (trx_hash s) ≡ₚ (c, k) :: elements (trx_hash s') /\ given_up s' c }.

Lemma free_round_ok tf s c k i : ses_inv ∅ s -> (c, k) ∈ elements (trx_hash s) -> runs (free_trx_conn_round tf c k i) s (round tf c k i s).
Proof.
  intros Hok Hin. unfold free_trx_conn_round, spider_conn_clear_queue_at_commit. runs_step.
  assert (Hq : forall n, let n' := conn_clear_queue_at_commit n in ip_port_conn n' = ip_port_conn n /\ conn_key n' = conn_key n /\
    table_lock n' = table_lock n /\ opened_handlers n' = opened_handlers n).
  { intros n. unfold conn_clear_queue_at_commit. by destruct (queued_trx_start n). }
  assert (Hch : c ∈ held s) by (by apply (tab_held false s c k)).
  eapply (si_upd ∅ s); [by rewrite union_empty_r_L|apply Hq|intros n _; apply Hq|done|]. intros n Hn s1 Hok1.
  destruct (Hq n) as (_ & Hqk & Hql & Hqo). set (n1 := conn_clear_queue_at_commit n) in *.
  assert (Hn1 : w_conns (ses_world s1) !! c = Some n1) by apply lookup_insert_eq.
  assert (Ho1 : forall d, d <> c -> w_conns (ses_world s1) !! d = w_conns (ses_world s) !! d).
  { intros d Hd. simpl. by rewrite lookup_insert_ne. }
  runs_step. apply runs_in_world. eapply runs_getc; [exact Hn1|]. change (s1 <| ses_world := ses_world s1 |>) with s1.
  assert (Hidle : idle tf s c -> table_lock n1 = 0 /\ (tf = true \/ spider_param_conn_recycle_mode <> 2 /\ opened_handlers n1 = 0)).
  { intros (n' & Hn' & Hl & Ho). rewrite Hn in Hn'. injection Hn' as <-. rewrite Hql, Hqo. done. }
  runs_step.
  { runs_step. split; [done..|]. left. split_and!; [done..|]. intros [Hl _]%Hidle. by rewrite Hl in Heqb. }
  unfold free_session_conn. runs_step. apply runs_in_world. pose proof (si_pool _ _ Hok1) as Hp. rewrite union_empty_r_L in Hp.
  eapply runs_conseq; [apply runs_and; [apply (runs_return (held s1) c tf); [by apply (tab_held false s1 c k)|done]|by apply (return_frame c n1)]|].
  intros left w' [Hp' [R1 R2 R3 R4 R5 R6]]. destruct left.
  - runs_step. destruct (delete_ok (trx_hash s1) (c, k)) as (r & h' & E & Hok' & Ek & _ & _ & Hr); [apply (si_ok _ _ Hok1 false)|].
    destruct r; [by destruct Hr|]. destruct Hr as [Hel _]. eapply runs_in_hash; [exact E|]. runs_step.
    split; [by eapply si_leave|done|intros d Hd; simpl; by rewrite R1, Ho1|done|right]. split_and!; [done|done|].
    destruct (R5 eq_refl) as [?|?]; [by left|right; by eexists].
  - runs_step. split; [|done|intros d Hd; simpl; by rewrite R1, Ho1|done|left]; [|split_and!; [done..|]].
    + eapply si_world; [done| |done|by rewrite union_empty_r_L|set_solver +]. intros d m _ Hm.
      destruct (decide (d = c)) as [->|Hd]; [|exists m; by rewrite R1]. destruct (R3 eq_refl) as (m' & Hm' & Hk'). exists m'. split; [done|].
      rewrite Hk'. congruence.
    + intros [_ Hi]%Hidle. by specialize (R6 Hi).
Qed.

(** What a sequence of rounds does. *)
Record freed (s s' : session) : Prop := {
  fd_inv : ses_inv ∅ s';
  fd_another : trx_another_hash s' = trx_another_hash s;
  fd_less : forall d, d ∈ elements (trx_hash s') -> d ∈ elements (trx_hash s);
  fd_others : forall d, d ∉ (elements (trx_hash s)).*1 -> w_conns (ses_world s') !! d = w_conns (ses_world s) !! d;
  fd_pool : forall j d, d ∈ pooled (ses_world s) j -> d ∈ pooled (ses_world s') j;
  fd_gone : forall d, d ∈ elements (trx_hash s) -> d ∈ elements (trx_hash s') \/ given_up s' d.1 }.

Lemma freed_refl s : ses_inv ∅ s -> freed s s.
Proof. intros Hok. split; try done. by left. Qed.

Lemma trx_cids s : ses_inv ∅ s -> NoDup (elements (trx_hash s)).*1.
Proof. intros Hok. pose proof (si_cids _ _ Hok) as H. unfold members in H. rewrite fmap_app in H. by apply NoDup_app in H as [H _]. Qed.

Lemma freed_round tf c k i s i' s1 s' : ses_inv ∅ s -> (c, k) ∈ elements (trx_hash s) -> round tf c k i s i' s1 -> freed s1 s' -> freed s s'.
Proof.
  intros Hok Hin [R1 R2 R3 R4 R5] [F1 F2 F3 F4 F5 F6]. assert (Hc : c ∈ (elements (trx_hash s)).*1) by (apply list_elem_of_fmap; by exists (c, k)).
  destruct R5 as [(-> & E & _)|(-> & Hel & Hg)].
  - rewrite E in *. split; [done|by rewrite F2|done| |auto|done]. intros d Hd. rewrite F4, R3 by (done || congruence). done.
  - pose proof (trx_cids s Hok) as Hnd. rewrite Hel in Hnd. apply NoDup_cons in Hnd as [Hc1 _].
    split; [done|by rewrite F2|..|auto|].
    + intros d Hd. rewrite Hel. right. by apply F3.
    + intros d Hd. assert (d ∉ (elements (trx_hash s1)).*1 /\ d <> c) as [Hd1 Hne].
      { rewrite Hel in Hd. csimpl in Hd. by apply not_elem_of_cons in Hd as [? ?]. }
      by rewrite F4, R3.
    + intros d Hd. rewrite Hel in Hd. apply elem_of_cons in Hd as [->|Hd]; [|by apply F6]. right. destruct Hg as [Hg|[j Hg]].
      * left. simpl. rewrite F4; done.
      * right. exists j. by apply F5.
Qed.

Lemma free_loop_ok tf fuel : forall i s, ses_inv ∅ s -> (N.to_nat (records (trx_hash s) - i) <= fuel)%nat ->
  runs (free_trx_conn_loop fuel tf i) s (fun _ s' => freed s s' /\
    (i = 0%N -> (forall d, d ∈ elements (trx_hash s) -> idle tf s d.1) -> elements (trx_hash s') = [])).
Proof.
  induction fuel as [|fuel IH]; intros i s Hok Hf; pose proof (si_ok _ _ Hok false) as Hh; simpl in Hh.
  - cbn [free_trx_conn_loop]. do 2 runs_step. rewrite element_out by lia. runs_step. split; [by apply freed_refl|].
    intros -> _. apply elements_empty; [apply Hh|lia].
  - cbn [free_trx_conn_loop]. do 2 runs_step. destruct (decide (records (trx_hash s) <= i)%N) as [Hi|Hi].
    { rewrite element_out by done. runs_step. split; [by apply freed_refl|]. intros -> _. apply elements_empty; [apply Hh|lia]. }
    destruct (element_in (trx_hash s) i Hh) as ([c k] & -> & Hin); [lia|]. runs_step.
    eapply runs_conseq; [by apply free_round_ok|]. intros i' s1 Hr. pose proof Hr as [R1 R2 R3 R4 R5].
    pose proof (elements_length _ (ok_shape _ Hh)) as L. pose proof (elements_length _ (ok_shape _ (si_ok _ _ R1 false))) as L1. simpl in L1.
    eapply runs_conseq; [apply IH; [done|]|].
    + destruct R5 as [(-> & -> & _)|(-> & Hel & _)]; [lia|]. rewrite Hel in L. simpl in L. lia.
    + intros u s' [Hfd He]. split; [by eapply freed_round|]. intros -> Hidle.
      destruct R5 as [(_ & _ & Hn)|(-> & Hel & _)]; [by destruct (Hn (Hidle _ Hin))|]. apply He; [done|].
      pose proof (trx_cids s Hok) as Hnd. rewrite Hel in Hnd. apply NoDup_cons in Hnd as [Hc1 _].
      intros d Hd. destruct (Hidle d) as (n & Hn & H); [rewrite Hel; by right|]. exists n. rewrite R3; [done|].
      intros <-. apply Hc1. apply list_elem_of_fmap. by exists d.
Qed.

Lemma keep_loop_ok fuel : forall i s, ses_inv ∅ s -> (N.to_nat (records (trx_hash s) - i) <= fuel)%nat ->
  runs (keep_trx_conn_loop fuel i) s (fun _ s' => ses_inv ∅ s' /\ forall b, tab b s' = tab b s).
Proof.
  induction fuel as [|fuel IH]; intros i s Hok Hf; pose proof (si_ok _ _ Hok false) as Hh; simpl in Hh; cbn [keep_trx_conn_loop]; do 2 runs_step.
  { rewrite element_out by lia. by runs_step. }
  destruct (decide (records (trx_hash s) <= i)%N) as [Hi|Hi]; [rewrite element_out by done; by runs_step|].
  destruct (element_in (trx_hash s) i Hh) as ([c k] & -> & Hin); [lia|]. runs_step.
  assert (Hq : forall n, let n' := conn_clear_queue_at_commit n in ip_port_conn n' = ip_port_conn n /\ conn_key n' = conn_key n).
  { intros n. unfold conn_clear_queue_at_commit. by destruct (queued_trx_start n). }
  assert (Hch : c ∈ held s ∪ ∅) by (rewrite union_empty_r_L; by apply (tab_held false s c k)).
  eapply (si_upd ∅ s); [done|apply Hq|intros n _; apply Hq|done|]. intros n Hn s1 Hok1.
  runs_step. apply runs_in_world. eapply runs_getc; [apply lookup_insert_eq|]. change (s1 <| ses_world := ses_world s1 |>) with s1.
  assert (Hnext : forall s2, ses_inv ∅ s2 -> (forall b, tab b s2 = tab b s) ->
    runs (keep_trx_conn_loop fuel (N.succ i)) s2 (fun _ s' => ses_inv ∅ s' /\ forall b, tab b s' = tab b s)).
  { intros s2 Hok2 Ht2. pose proof (Ht2 false) as E. simpl in E.
    eapply runs_conseq; [apply IH; [done|rewrite E; lia]|]. intros u s' [Hok' Ht']. split; [done|]. intros b. by rewrite Ht', Ht2. }
  runs_step. runs_step; [|apply Hnext; [done|by intros []]].
  eapply (si_upd ∅ s1); [done|done|done|done|]. intros n2 Hn2 s2 Hok2. apply Hnext; [done|]. by intros [].
Qed.

(** The count of adjustments is not part of the invariant. *)
Lemma freed_world s s' w : freed s s' -> w_conns w = w_conns (ses_world s') -> w_pool w = w_pool (ses_world s') ->
  w_ip_port w = w_ip_port (ses_world s') -> trx_conn_hash (w_trx w) = trx_conn_hash (w_trx (ses_world s')) ->
  freed s (s' <| ses_world := w |>).
Proof.
  intros [F1 F2 F3 F4 F5 F6] Ec Ep Ei Et. split; [by apply si_quiet; [|split|..]|done|done|..]; simpl; unfold given_up, pooled in *; simpl;
    rewrite ?Ec, ?Ep; done.
Qed.

(** The first loop of [spider_free_trx_conn] runs. *)
Lemma free_all_ok tf s : ses_inv ∅ s -> tf = true \/ spider_param_conn_recycle_mode <> 2 ->
  runs (spider_free_trx_conn tf) s (fun _ s' => freed s s' /\
    ((forall d, d ∈ elements (trx_hash s) -> idle tf s d.1) -> elements (trx_hash s') = [])).
Proof.
  intros Hok Hm. unfold spider_free_trx_conn. do 2 runs_step.
  assert (tf || negb (spider_param_conn_recycle_mode =? 2) = true) as ->.
  { destruct Hm as [->|Hm]; [done|]. apply Z.eqb_neq in Hm. rewrite Hm. apply orb_true_r. }
  runs_step. eapply runs_conseq; [apply (free_loop_ok tf); [done|lia]|]. intros u s' [Hf He].
  apply runs_in_world, runs_modify. split; [by apply freed_world|]. by apply He.
Qed.

(** ** Sequences of operations *)

Lemma recycle_ok s : ses_inv ∅ s -> runs (in_world spider_conn_recycle_round) s (fun _ => ses_inv ∅).
Proof.
  intros Hok. apply runs_in_world. pose proof (si_pool _ _ Hok) as Hp. rewrite union_empty_r_L in Hp.
  eapply runs_conseq; [by apply (runs_recycle (held s))|]. intros u w' (Hp' & Hc & Ht).
  eapply si_world; [done| |by rewrite Ht|by rewrite union_empty_r_L|set_solver +]. intros c n Hh Hn. exists n. by rewrite Hc.
Qed.

Lemma free_ok tf s : ses_inv ∅ s -> runs (spider_free_trx_conn tf) s (fun _ => ses_inv ∅).
Proof.
  intros Hok. unfold spider_free_trx_conn. do 2 runs_step. runs_step.
  - runs_step. eapply runs_conseq; [apply (free_loop_ok tf); [done|lia]|]. intros u s' [Hf _].
    apply runs_in_world, runs_modify. eapply fd_inv, freed_world; done.
  - eapply runs_conseq; [apply keep_loop_ok; [done|lia]|]. by intros u s' [? _].
Qed.

(** What a session does: a table's handler asks for a connection, the connections
    are returned, and the recycling thread runs. *)
Inductive session_op :=
| SGet (share : SPIDER_SHARE) (sp : option ha_spider) (another : bool) (base : nat)
| SFree (trx_free : bool)
| SRecycle.

Definition on_table (share : SPIDER_SHARE) (sp : option ha_spider) (s : session) : session :=
  s <| ses_share := share |> <| ses_spider := sp |>.

(** The link belongs to the share and has a server; the tables are not full. *)
Definition session_op_allowed (s : session) (o : session_op) : Prop :=
  match o with
  | SGet share sp another base =>
      let s := on_table share sp s in
      (exists link, link_of_handler s base = Some link /\ link_named s link) /\ can_note base s /\
      (records (tab another s) < NO_RECORD)%N
  | _ => True
  end.

Definition run_session_op (o : session_op) : M session unit :=
  match o with
  | SGet share sp another base => modify (on_table share sp);; spider_get_conn another base;; mret tt
  | SFree tf => spider_free_trx_conn tf
  | SRecycle => in_world spider_conn_recycle_round
  end.

Lemma on_table_ok share sp s : ses_inv ∅ s -> ses_inv ∅ (on_table share sp s).
Proof. intros Hok. destruct Hok. by split. Qed.

Lemma run_session_op_ok s o : ses_inv ∅ s -> session_op_allowed s o -> runs (run_session_op o) s (fun _ => ses_inv ∅).
Proof.
  intros Hok Ha. destruct o as [share sp another base|tf|]; cbn [run_session_op]; [|by apply free_ok|by apply recycle_ok].
  destruct Ha as ((link & Hl & Hn) & Hnote & Hmax). do 3 runs_step.
  eapply runs_conseq; [apply get_ok; [by apply on_table_ok|done..]|]. intros r s' (Hok' & _). by runs_step.
Qed.

(** A session starts with empty tables and nothing in the pool. *)
Inductive session_reach : session -> Prop :=
| session_start w share sp :
    w_conns w = ∅ -> w_pool w = ∅ -> w_ip_port w = ∅ -> trx_conn_hash (w_trx w) = ∅ ->
    session_reach (mk_session w (my_hash_init2 snd false false) (my_hash_init2 snd false false) share sp)
| session_next s o s' :
    session_reach s -> session_op_allowed s o -> run_session_op o s = Some (tt, s') -> session_reach s'.

Lemma session_reach_ok s : session_reach s -> ses_inv ∅ s.
Proof.
  induction 1 as [w share sp E1 E2 E3 E4|s o s' _ IH Ha Hr].
  - destruct (init_ok (snd : cid * string -> string) false false) as [Hok He].
    assert (Hm : members (mk_session w (my_hash_init2 snd false false) (my_hash_init2 snd false false) share sp) = [])
      by (unfold members; simpl; by rewrite He).
    split; [by intros []|by intros []|intros []; simpl; rewrite He; constructor|rewrite Hm; constructor| | |set_solver +|simpl; by rewrite He].
    + intros c k. rewrite Hm. by intros []%not_elem_of_nil.
    + assert (Hh : forall c, c ∉ held (mk_session w (my_hash_init2 snd false false) (my_hash_init2 snd false false) share sp) ∪ ∅).
      { intros c. unfold held. rewrite Hm. set_solver +. }
      split; simpl; unfold pooled, counted; rewrite ?E1, ?E2, ?E3.
      * intros k c. rewrite lookup_empty. simpl. by intros []%not_elem_of_nil.
      * intros k. rewrite lookup_empty. constructor.
      * intros c Hc. by apply Hh in Hc.
      * intros k. rewrite lookup_empty, map_filter_empty. done.
      * intros Hm' k. rewrite lookup_empty. simpl. done.
  - destruct (run_session_op_ok s o IH Ha) as (u & s1 & E & Hok). rewrite Hr in E. by injection E as _ <-.
Qed.
End Session.

(** ** With the collation of the tables *)

Section Claims.
  Context `{env : Env, vars : Vars} (max_nonneg : 0 <= spider_param_max_connections).

Lemma utf8_bin_eq (k k' : string) : key_same k k' = true -> k = k'.
Proof. apply utf8_bin_same. Qed.

(** C6. Whatever a session did before (getting connections for its tables,
    returning them, recycling rounds in between), its next operation works only on
    connections that were not freed, and afterwards: a record of a hash table of
    the session is an open connection with the key it is filed under and is not in
    the pool; a table has one connection per key and no connection is filed twice;
    the connections the transaction works on are those of its table; pooled
    connections are open and have the key of their pool; and the counter of a key
    is the number of its open connections, within spider_max_connections. *)
Theorem session_connections_accounted s o :
  session_reach s -> session_op_allowed s o ->
  exists s', run_session_op o s = Some (tt, s') /\
    let w := ses_world s' in
    (forall b c k, (c, k) ∈ elements (tab b s') ->
       (exists n, w_conns w !! c = Some n /\ conn_key n = k) /\ forall j, c ∉ pooled w j) /\
    (forall b, NoDup (elements (tab b s')).*2) /\ NoDup (elements (trx_hash s') ++ elements (trx_another_hash s')).*1 /\
    trx_conn_hash (w_trx w) = list_to_set (elements (trx_hash s')).*1 /\
    (forall j c, c ∈ pooled w j -> exists n, w_conns w !! c = Some n /\ conn_key n = j) /\ (forall j, NoDup (pooled w j)) /\
    (forall j, default 0 (w_ip_port w !! j) = Z.of_nat (counted (w_conns w) j)) /\
    (spider_param_max_connections <> 0 -> forall j, Z.of_nat (counted (w_conns w) j) <= spider_param_max_connections).
Proof.
  intros Hr Ha. destruct (run_session_op_ok utf8_bin_eq max_nonneg s o) as ([] & s' & E & Hok); [by apply session_reach_ok; [apply utf8_bin_eq|..]|done|].
  exists s'. split; [done|]. destruct Hok as [H1 H2 H3 H4 H5 [P1 P2 P3 P4 P5] H7 H8]. split_and!; [|done|done|done| |done|done|].
  - intros b c k Hc. split; [by apply H5, (tab_members b)|]. intros j Hj. destruct (P1 j c Hj) as [Hn _]. apply Hn, elem_of_union_l.
    by apply (tab_held b s' c k).
  - intros j c Hc. by destruct (P1 j c Hc).
  - intros Hm j. rewrite <- P4. by apply P5.
Qed.

(** C23. [spider_get_conn] returns, with an error that leaves the tables as they
    were, or with a connection that is then filed under the key of the link: the
    connection of this key that the session had, if there was one, and otherwise
    one that it did not hold, from the pool or new. *)
Theorem session_gets_connection s share sp another base link :
  session_reach s -> session_op_allowed s (SGet share sp another base) ->
  link_of_handler (on_table share sp s) base = Some link ->
  exists r s', spider_get_conn another base (on_table share sp s) = Some (r, s') /\
    match r with
    | inl _ => tab another s' = tab another s
    | inr c => exists lt, share_links (ses_share s') !! link = Some lt /\
        if decide (lt_conn_key lt ∈ (elements (tab another s)).*2)
        then (c, lt_conn_key lt) ∈ elements (tab another s) /\ tab another s' = tab another s
        else c ∉ held s /\ elements (tab another s') ≡ₚ (c, lt_conn_key lt) :: elements (tab another s)
    end.
Proof.
  intros Hr ((link' & Hl' & Hn) & Hnote & Hmax) Hl. rewrite Hl in Hl'. injection Hl' as <-.
  destruct (get_ok utf8_bin_eq max_nonneg another (on_table share sp s) base link) as (r & s' & E & _ & _ & Hres);
    [by apply on_table_ok, session_reach_ok; [apply utf8_bin_eq|..]|done..|].
  exists r, s'. split; [done|]. destruct r as [e|c]; [rewrite Hres; by destruct another|]. destruct Hres as (lt & Hlt & Hc). exists lt.
  split; [done|]. by destruct another.
Qed.

(** C24. At the end of the session ([trx_free]), or of a transaction unless
    [spider_conn_recycle_mode] is 2 (connections then stay with the session), when no
    table is locked and no handler is open, all connections of the transaction's
    table are given up: the table is empty, and each connection is closed or in
    the pool.  No other connection is touched. *)
Theorem session_connections_released s tf :
  session_reach s -> tf = true \/ spider_param_conn_recycle_mode <> 2 ->
  (forall d, d ∈ elements (trx_hash s) -> idle tf s d.1) ->
  exists s', spider_free_trx_conn tf s = Some (tt, s') /\
    elements (trx_hash s') = [] /\ trx_conn_hash (w_trx (ses_world s')) = ∅ /\ trx_another_hash s' = trx_another_hash s /\
    (forall d, d ∈ elements (trx_hash s) -> given_up s' d.1) /\
    (forall c, c ∉ (elements (trx_hash s)).*1 -> w_conns (ses_world s') !! c = w_conns (ses_world s) !! c).
Proof.
  intros Hr Hm Hidle. assert (Hok : ses_inv ∅ s) by (by apply session_reach_ok; [apply utf8_bin_eq|..]).
  destruct (free_all_ok utf8_bin_eq max_nonneg tf s Hok Hm) as ([] & s' & E & [F1 F2 F3 F4 F5 F6] & He). exists s'. specialize (He Hidle).
  split_and!; [done|done| |done| |done].
  - by rewrite (si_trx _ _ F1), He.
  - intros d Hd. destruct (F6 d Hd) as [Hd'|]; [|done]. rewrite He in Hd'. by apply not_elem_of_nil in Hd'.
Qed.
End Claims.

(** ** Examples *)

(** Three tables, at three servers. *)
Definition link_to (name key : string) : link_target := mk_link_target (Some name) key "h" 3306 10 600 600.
Definition one_link (name key : string) : SPIDER_SHARE := mk_share [link_to name key] 0 0 0.
Definition table_at (n : nat) : SPIDER_SHARE :=
  match n with
  | O => one_link "SPT1" "0SPT1#0"
  | 1%nat => one_link "node2" "0node2#0"
  | _ => one_link "s1" "0s1#0"
  end.

Definition new_session : session :=
  mk_session (empty_world <| w_trx := (w_trx empty_world) <| trx_conn_hash := ∅ |> |>) (my_hash_init2 snd false false) (my_hash_init2 snd false false) (table_at 0) None.

Definition session_after (m : M session unit) (s : session) : session :=
  match m s with Some (_, s') => s' | None => s end.

Definition get_link (n : nat) : session_op := SGet (table_at n) None false 0.

Definition with_one : session := session_after (@run_session_op ok_env plain_vars utf8_bin_key (get_link 0)) new_session.

Lemma get_link_allowed n : session_op_allowed new_session (get_link n).
Proof.
  split_and!; [|done|done]. exists O. split; [done|]. destruct n as [|[|n]]; by eexists _, _.
Qed.

Lemma new_session_reach : @session_reach ok_env plain_vars utf8_bin_key new_session.
Proof. by apply session_start. Qed.

Lemma with_one_reach : @session_reach ok_env plain_vars utf8_bin_key with_one.
Proof.
  eapply session_next; [apply new_session_reach|apply (get_link_allowed 0)|]. vm_compute. reflexivity.
Qed.

Lemma session_connections_accounted_witness :
  exists s', @run_session_op ok_env plain_vars utf8_bin_key (get_link 0) new_session = Some (tt, s') /\
    hash_records (trx_hash s') = [(1%positive, "0SPT1#0"%string)].
Proof.
  destruct (@session_connections_accounted ok_env plain_vars ltac:(by vm_compute) new_session (get_link 0)
    new_session_reach (get_link_allowed 0)) as (s' & E & _).
  exists s'. split; [exact E|]. vm_compute in E. injection E as <-. vm_compute. reflexivity.
Defined.

Lemma session_gets_connection_witness :
  exists r s', @spider_get_conn ok_env plain_vars utf8_bin_key false 0 (on_table (table_at 0) None with_one) = Some (r, s') /\
    r = inr 1%positive /\ tab false s' = tab false with_one.
Proof.
  assert (session_op_allowed with_one (get_link 0)) as Ha.
  { split_and!; [exists 0%nat; split; [done|by eexists _, _]|done|by vm_compute]. }
  destruct (@session_gets_connection ok_env plain_vars ltac:(by vm_compute) with_one (table_at 0) None false 0 0
    with_one_reach Ha eq_refl) as (r & s' & E & H).
  exists r, s'. split; [exact E|]. vm_compute in E. injection E as <- <-. destruct H as (lt & [= <-] & H). split; [reflexivity|].
  destruct (decide _) as [Hd|Hd]; [apply H|]. exfalso. apply Hd. vm_compute. left.
Defined.

Lemma session_connections_released_witness :
  exists s', @spider_free_trx_conn ok_env plain_vars utf8_bin_key false with_one = Some (tt, s') /\
    elements (trx_hash s') = [] /\ given_up s' 1%positive.
Proof.
  assert (elements (trx_hash with_one) = [(1%positive, "0SPT1#0"%string)]) as El by (vm_compute; reflexivity).
  destruct (@session_connections_released ok_env plain_vars ltac:(by vm_compute) with_one false with_one_reach) as (s' & E & H1 & _ & _ & H2 & _).
  - right. by vm_compute.
  - rewrite El. intros d ->%list_elem_of_singleton. eexists. split; [vm_compute; reflexivity|]. split; [done|]. right. split; [by vm_compute|done].
  - exists s'. split_and!; [exact E|exact H1|]. apply (H2 (1%positive, "0SPT1#0"%string)). rewrite El. left.
Defined.

(** The three connections, of which the first has locked tables. *)
Definition with_lock : session :=
  session_after (in_world (updc 1%positive (fun n => n <| table_lock := 1 |>)))
    (session_after (@run_session_op ok_env plain_vars utf8_bin_key (get_link 2))
      (session_after (@run_session_op ok_env plain_vars utf8_bin_key (get_link 1)) with_one)).

(** C36. When a connection stays because its tables are locked, the loop that
    returns the connections can pass over another one: with connections to the
    servers SPT1 (locked), node2 and s1, the end of the transaction returns the one
    to s1 and leaves the idle one to node2 in the transaction's table, although
    nothing is open on it.  The deletion from the hash table moves its record below
    the index the loop goes on from. *)
Theorem release_skips_connection :
  hash_records (trx_hash with_lock) = [(1%positive, "0SPT1#0"); (3%positive, "0s1#0"); (2%positive, "0node2#0")]%string /\
  @idle plain_vars false with_lock 2%positive /\
  exists s', @spider_free_trx_conn ok_env plain_vars utf8_bin_key false with_lock = Some (tt, s') /\
    (2%positive, "0node2#0"%string) ∈ hash_records (trx_hash s') /\ length (hash_records (trx_hash s')) = 2%nat.
Proof.
  split; [vm_compute; reflexivity|]. split.
  - eexists. split; [vm_compute; reflexivity|]. split; [done|]. right. split; [by vm_compute|done].
  - eexists. split; [vm_compute; reflexivity|]. split; [|done]. vm_compute. left.
Qed.
