(* ===== verification/ConnWp.v ===== *)
(** * Reasoning about one connection

    Every function of ConnQueue and DbXa works on one connection [c], the
    session's THD and transaction record, the monitoring flags, the trace and the
    clock.  [loc] is that part of the world and [put c l w] the world [w] with it;
    [wp c m l Q] says that [m] started in [put c l w] returns, changes nothing
    else, and ends in a part that satisfies [Q].  So everything outside the part
    is framed once and for all ([wp_frame]). *)

From stdpp Require Import base gmap list strings.
From Stdlib Require Import ZArith Lia.
From S2P Require Import Prelude ConnTree World ConnQueue.
Local Open Scope spider_scope.
Local Open Scope Z_scope.

Record loc := mk_loc {
  l_conn : SPIDER_CONN;
  l_thd : THD;
  l_trx : SPIDER_TRX;
  l_mons : list (mon_ref * Z);
  l_evs : list event;
  l_tick : nat
}.

#[export] Instance eta_loc : Eta loc := fun l =>
  mk_loc (l_conn l) (l_thd l) (l_trx l) (l_mons l) (l_evs l) (l_tick l).

Definition put (c : cid) (l : loc) (w : world) : world :=
  w <| w_conns := <[c := l_conn l]> (w_conns w) |> <| w_thd := l_thd l |>
    <| w_trx := l_trx l |> <| w_mons := l_mons l |>
    <| w_trace := w_trace w ++ l_evs l |> <| w_tick := l_tick l |>.

(** The part of a world, with no events yet. *)
Definition loc_of (n : SPIDER_CONN) (w : world) : loc :=
  mk_loc n (w_thd w) (w_trx w) (w_mons w) [] (w_tick w).

Lemma put_loc_of c n w : w_conns w !! c = Some n -> put c (loc_of n w) w = w.
Proof.
  intros Hc. unfold put, loc_of. destruct w; simpl in *.
  by rewrite insert_id, app_nil_r by done.
Qed.

Definition wp {A} (c : cid) (m : M world A) (l : loc) (Q : A -> loc -> Prop) : Prop :=
  forall w, exists a l', m (put c l w) = Some (a, put c l' w) /\ Q a l'.

Section Rules.
  Context (c : cid).

Lemma wp_ret {A} (a : A) l (Q : A -> loc -> Prop) : Q a l -> wp c (mret a) l Q.
Proof. intros H w. by exists a, l. Qed.

Lemma wp_bind {A B} (m : M world A) (k : A -> M world B) l (Q : B -> loc -> Prop) :
  wp c m l (fun a l' => wp c (k a) l' Q) -> wp c (m ≫= k) l Q.
Proof.
  intros H w. destruct (H w) as (a & l' & Hm & Hk). destruct (Hk w) as (b & l'' & Hb & HQ).
  exists b, l''. split; [|done]. by rewrite (bind_eq _ _ _ _ _ Hm).
Qed.

Lemma wp_conseq {A} (m : M world A) l (Q Q' : A -> loc -> Prop) :
  wp c m l Q -> (forall a l', Q a l' -> Q' a l') -> wp c m l Q'.
Proof. intros H HQ w. destruct (H w) as (a & l' & ? & ?). exists a, l'. auto. Qed.

Lemma wp_andthen (m k : M world Z) l (Q : Z -> loc -> Prop) :
  wp c m l (fun e l' => if Z.eqb e 0 then wp c k l' Q else Q e l') -> wp c (andthen m k) l Q.
Proof.
  intros H. apply wp_bind. eapply wp_conseq; [exact H|]. intros e l'. simpl.
  destruct (Z.eqb e 0); [done|]. apply wp_ret.
Qed.

Lemma wp_getc l (Q : SPIDER_CONN -> loc -> Prop) : Q (l_conn l) l -> wp c (getc c) l Q.
Proof.
  intros H w. exists (l_conn l), l. split; [|done]. unfold getc. simpl. by rewrite lookup_insert_eq.
Qed.

Lemma wp_updc f l (Q : unit -> loc -> Prop) :
  Q tt (l <| l_conn := f (l_conn l) |>) -> wp c (updc c f) l Q.
Proof.
  intros H w. exists tt, (l <| l_conn := f (l_conn l) |>). split; [|done].
  unfold updc. simpl. rewrite lookup_insert_eq. unfold put. simpl. by rewrite insert_insert_eq.
Qed.

Lemma wp_outside {A} (f : nat -> A) l (Q : A -> loc -> Prop) :
  Q (f (l_tick l)) (l <| l_tick := S (l_tick l) |>) -> wp c (outside f) l Q.
Proof.
  intros H w. exists (f (l_tick l)), (l <| l_tick := S (l_tick l) |>). split; [|exact H].
  unfold outside, put. simpl. reflexivity.
Qed.

Lemma wp_emit ev l (Q : unit -> loc -> Prop) :
  Q tt (l <| l_evs := l_evs l ++ [ev] |>) -> wp c (emit ev) l Q.
Proof.
  intros H w. exists tt, (l <| l_evs := l_evs l ++ [ev] |>). split; [|done].
  unfold emit, modify, put. simpl. by rewrite <- (assoc_L (++)).
Qed.

Lemma wp_thd l (Q : THD -> loc -> Prop) : Q (l_thd l) l -> wp c (gets w_thd) l Q.
Proof. intros H w. by exists (l_thd l), l. Qed.

Lemma wp_trx l (Q : SPIDER_TRX -> loc -> Prop) : Q (l_trx l) l -> wp c (gets w_trx) l Q.
Proof. intros H w. by exists (l_trx l), l. Qed.

Lemma wp_upd_trx f l (Q : unit -> loc -> Prop) :
  Q tt (l <| l_trx := f (l_trx l) |>) -> wp c (upd_trx f) l Q.
Proof. intros H w. by eexists _, (l <| l_trx := f (l_trx l) |>). Qed.

Lemma wp_my_message e l (Q : unit -> loc -> Prop) :
  Q tt (l <| l_thd := (l_thd l) <| is_error := true |> |>) -> wp c (my_message e) l Q.
Proof. intros H w. by eexists _, (l <| l_thd := (l_thd l) <| is_error := true |> |>). Qed.

Lemma wp_clear_error l (Q : unit -> loc -> Prop) :
  Q tt (l <| l_thd := (l_thd l) <| is_error := false |> |>) -> wp c clear_error l Q.
Proof. intros H w. by eexists _, (l <| l_thd := (l_thd l) <| is_error := false |> |>). Qed.

Lemma wp_write_need_mon v r l (Q : unit -> loc -> Prop) :
  need_mon (l_conn l) = Some r -> Q tt (l <| l_mons := (r, v) :: l_mons l |>) ->
  wp c (write_need_mon c v) l Q.
Proof.
  intros Hr H. apply wp_bind, wp_getc. rewrite Hr. intros w.
  by exists tt, (l <| l_mons := (r, v) :: l_mons l |>).
Qed.

Lemma wp_when b (m : M world unit) l (Q : unit -> loc -> Prop) :
  (b = true -> wp c m l Q) -> (b = false -> Q tt l) -> wp c (when b m) l Q.
Proof. intros H1 H2. destruct b; simpl; [auto|]. apply wp_ret. auto. Qed.

(** Two specifications of the same run. *)
Lemma put_inj l1 l2 w : put c l1 w = put c l2 w -> l1 = l2.
Proof.
  intros H. assert (l_conn l1 = l_conn l2) as E1.
  { pose proof (f_equal (fun w => w_conns w !! c) H) as E. simpl in E.
    rewrite !lookup_insert_eq in E. by injection E. }
  pose proof (app_inv_head _ _ _ (f_equal w_trace H : w_trace w ++ l_evs l1 = w_trace w ++ l_evs l2)) as E2.
  pose proof (f_equal w_thd H) as E3. pose proof (f_equal w_trx H) as E4.
  pose proof (f_equal w_mons H) as E5. pose proof (f_equal w_tick H) as E6.
  destruct l1, l2; simpl in *. congruence.
Qed.

Lemma wp_and {A} (m : M world A) l (Q1 Q2 : A -> loc -> Prop) :
  wp c m l Q1 -> wp c m l Q2 -> wp c m l (fun a l' => Q1 a l' /\ Q2 a l').
Proof.
  intros H1 H2 w. destruct (H1 w) as (a1 & l1 & E1 & ?). destruct (H2 w) as (a2 & l2 & E2 & ?).
  rewrite E1 in E2. apply (inj Some), pair_equal_spec in E2 as [<- E2]. apply put_inj in E2 as <-. by exists a1, l1.
Qed.

(** The rest of the world is untouched. *)
Lemma wp_frame {A} (m : M world A) w n (Q : A -> loc -> Prop) :
  w_conns w !! c = Some n -> wp c m (loc_of n w) Q ->
  exists a l', m w = Some (a, put c l' w) /\ Q a l'.
Proof. intros Hc H. specialize (H w). by rewrite put_loc_of in H. Qed.
End Rules.

(** The conditions of branches as propositions. *)
Ltac bool_norm :=
  repeat match goal with
  | H : negb _ = true |- _ => apply negb_true_iff in H
  | H : negb _ = false |- _ => apply negb_false_iff in H
  | H : Z.eqb _ _ = true |- _ => apply Z.eqb_eq in H
  | H : Z.eqb _ _ = false |- _ => apply Z.eqb_neq in H
  | H : _ && _ = true |- _ => apply andb_true_iff in H as [? ?]
  | H : _ || _ = false |- _ => apply orb_false_iff in H as [? ?]
  end.

(** One step of symbolic execution. *)
Ltac wp_step :=
  match goal with
  | |- wp _ (mret _) _ _ => apply wp_ret
  | |- wp _ (_ ≫= _) _ _ => apply wp_bind
  | |- wp _ (andthen _ _) _ _ => apply wp_andthen
  | |- wp ?c (getc ?c) _ _ => apply wp_getc
  | |- wp ?c (updc ?c _) _ _ => apply wp_updc
  | |- wp _ (outside _) _ _ => apply wp_outside
  | |- wp _ (emit _) _ _ => apply wp_emit
  | |- wp _ (gets w_thd) _ _ => apply wp_thd
  | |- wp _ (gets w_trx) _ _ => apply wp_trx
  | |- wp _ (upd_trx _) _ _ => apply wp_upd_trx
  | |- wp _ (my_message _) _ _ => apply wp_my_message
  | |- wp _ clear_error _ _ => apply wp_clear_error
  | |- wp ?c (spider_mta_conn_mutex_lock ?c) _ _ => apply wp_updc
  | |- wp ?c (spider_mta_conn_mutex_unlock ?c) _ _ => apply wp_updc
  | |- wp ?c (write_need_mon ?c _) _ _ => eapply wp_write_need_mon; [eassumption|]
  | |- wp _ (when _ _) _ _ => apply wp_when; intros ?; bool_norm
  | |- wp _ (if ?b then _ else _) _ _ => destruct b eqn:?; bool_norm
  | |- if ?b then wp _ _ _ _ else _ => destruct b eqn:?; bool_norm
  end; simpl.
Ltac wp_run := repeat wp_step.
