(* ===== verification/ConnSpec.v ===== *)
(** * What the connection functions do

    Specifications, in the sense of ConnWp, of connecting, sending the queued
    settings, querying and the error numbers.  [conn_ok] is the invariant of a
    connection between two calls; [core] are the fields of a connection that
    these functions never change, [ext c S] says that only events of [c] with
    statements in [S] were added. *)

From stdpp Require Import base gmap list strings.
From Stdlib Require Import ZArith Lia.
From S2P Require Import Prelude ConnTree World ConnQueue DbXa ConnWp.
Local Open Scope spider_scope.
Local Open Scope Z_scope.

(** ** Invariant and frame *)

Definition core (n : SPIDER_CONN) :=
  (join_trx n, disable_xa n, table_lock n, table_locked n, error_mode n, tgt_host n,
   tgt_port n, conn_key n, use_for_active_standby n, is_xa_commit_one_phase n,
   ip_port_conn n, disable_reconnect n, ignore_dup_key n, semi_trx n, conn_share n).

(** The fields that connecting leaves alone besides [core]. *)
Definition qview (n : SPIDER_CONN) :=
  (in_before_query n, mta_conn_mutex_lock_already n, mta_conn_mutex_unlock_later n, need_mon n,
   (queued_connect n, queued_ping n, queued_connect_share n, queued_connect_link_idx n),
   (queued_trx_isolation n, queued_trx_isolation_val n,
    queued_semi_trx_isolation n, queued_semi_trx_isolation_val n),
   (queued_autocommit n, queued_autocommit_val n, queued_sql_log_off n, queued_sql_log_off_val n),
   (queued_time_zone n, queued_time_zone_val n, queued_trx_start n,
    queued_xa_start n, queued_xa_start_xid n)).

Lemma qview_mon n n' : qview n' = qview n -> need_mon n' = need_mon n.
Proof. unfold qview. congruence. Qed.

Lemma qview_connect n n' : qview n' = qview n -> queued_connect n' = queued_connect n.
Proof. unfold qview. congruence. Qed.

Lemma qview_xa_start n n' : qview n' = qview n -> queued_xa_start n' = queued_xa_start n.
Proof. unfold qview. congruence. Qed.

(** The queued values can be sent. *)
Record queue_ok (n : SPIDER_CONN) : Prop := {
  qk_handle : queued_connect n || server_lost n || db_conn n = true;
  qk_share : queued_connect n = true ->
    is_Some (queued_connect_share n ≫= fun s => share_links s !! Z.to_nat (queued_connect_link_idx n));
  qk_tz : queued_time_zone n = true -> is_Some (queued_time_zone_val n);
  qk_iso : queued_trx_isolation n = true -> 0 <= queued_trx_isolation_val n <= 3;
  qk_semi : queued_semi_trx_isolation n = true -> 0 <= queued_semi_trx_isolation_val n <= 3;
  qk_xid : queued_xa_start n = true -> queued_xa_start_xid n = true
}.

(** A connection no function is working on; [later] is TRUE within a rollback. *)
Record conn_okb (later : bool) (n : SPIDER_CONN) : Prop := {
  ok_before : in_before_query n = false;
  ok_lock : mta_conn_mutex_lock_already n = false;
  ok_later : mta_conn_mutex_unlock_later n = later;
  ok_pending : pending n = [];
  ok_queue : queue_ok n
}.

Abbreviation conn_ok := (conn_okb false).

(** The statements that only set up the session. *)
Definition session_stmt (s : stmt) : Prop :=
  match s with
  | SetIsolation _ | SetAutocommit _ | SetSqlLogOff _ | SetTimeZone _
  | StartTransaction | XaStart _ => True
  | _ => False
  end.

Definition ev_in (c : cid) (S : stmt -> Prop) (ev : event) : Prop :=
  match ev with
  | EvConnect c' _ | EvDisconnect c' => c' = c
  | EvStmt c' s _ => c' = c /\ S s
  | EvLogFailed _ => True
  | _ => False
  end.

(** What was queued stays sent. *)
Definition settled (n n' : SPIDER_CONN) : Prop :=
  (queued_connect n = false -> queued_connect n' = false) /\
  (queued_xa_start n = false -> queued_xa_start n' = false).

(** The session: the transaction record up to the count of locked connections,
    and the THD up to its error state. *)
Definition sess (t : SPIDER_TRX) (d : THD) :=
  ((trx_started t, trx_xa t, trx_consistent_snapshot t, trx_xa_prepared t,
    use_consistent_snapshot t, internal_xa t, internal_xa_snapshot t, updated_in_this_trx t,
    xid t, internal_xa_state t, trx_conn_hash t, trx_conn_adjustment t, join_trx_top t),
   (query_id d, option_not_autocommit d, option_begin d, xa_state_active d, thd_xid d,
    thd_tx_isolation d, thd_time_zone d, sql_use_partition_count d, thread_id d, server_id d,
    registered_stmt d, registered_all d, last_killed d, current_global_server_version d,
    marked_rollback d)).

Definition lsess (l : loc) := sess (l_trx l) (l_thd l).

Record ext (c : cid) (S : stmt -> Prop) (l l' : loc) : Prop := {
  ext_core : core (l_conn l') = core (l_conn l);
  ext_settled : settled (l_conn l) (l_conn l');
  ext_sess : lsess l' = lsess l;
  ext_evs : exists t, l_evs l' = l_evs l ++ t /\ Forall (ev_in c S) t
}.

Lemma settled_refl n : settled n n.
Proof. by split. Qed.

Lemma settled_trans n1 n2 n3 : settled n1 n2 -> settled n2 n3 -> settled n1 n3.
Proof. intros [??] [??]. split; auto. Qed.

Lemma ext_refl c S l : ext c S l l.
Proof. split; [done|apply settled_refl|done|]. exists []. by rewrite app_nil_r. Qed.

Lemma ext_trans c S l1 l2 l3 : ext c S l1 l2 -> ext c S l2 l3 -> ext c S l1 l3.
Proof.
  intros [C1 D1 T1 (t1 & E1 & F1)] [C2 D2 T2 (t2 & E2 & F2)]. split.
  - by rewrite C2.
  - by eapply settled_trans.
  - by rewrite T2.
  - exists (t1 ++ t2). rewrite E2, E1, <- (assoc_L (++)). split; [done|by apply Forall_app].
Qed.

Lemma ev_in_mono c (S S' : stmt -> Prop) ev : (forall s, S s -> S' s) -> ev_in c S ev -> ev_in c S' ev.
Proof. intros H. destruct ev; simpl; try done. intros [??]; auto. Qed.

Lemma ext_mono c (S S' : stmt -> Prop) l l' :
  (forall s, S s -> S' s) -> ext c S l l' -> ext c S' l l'.
Proof.
  intros H [C D T (t & E & F)]. split; [done..|]. exists t. split; [done|].
  eapply Forall_impl; [exact F|]. intros ev. by apply ev_in_mono.
Qed.

(** A change that keeps [core], the queue flags and the trace, or adds an event. *)
Lemma ext_quiet c S l l' :
  core (l_conn l') = core (l_conn l) -> settled (l_conn l) (l_conn l') -> lsess l' = lsess l ->
  l_evs l' = l_evs l -> ext c S l l'.
Proof. intros ?? HT ?. split; [done|done|done|]. exists []. by rewrite app_nil_r. Qed.

Lemma ext_event c (S : stmt -> Prop) l l' ev :
  core (l_conn l') = core (l_conn l) -> settled (l_conn l) (l_conn l') -> lsess l' = lsess l ->
  l_evs l' = l_evs l ++ [ev] -> ev_in c S ev -> ext c S l l'.
Proof. intros ?? HT ??. split; [done|done|done|]. exists [ev]. split; [done|]. by repeat constructor. Qed.

#[export] Hint Resolve ext_refl settled_refl : spider_db.

(** Splits the relation of a straight-line piece of code. *)
Ltac ext_now :=
  first [ apply ext_refl
        | apply ext_quiet; [reflexivity|by split|reflexivity|reflexivity]
        | eapply ext_event; [reflexivity|by split|reflexivity|reflexivity|by simpl] ].

Section Specs.
  Context `{env : Env, vars : Vars} (c : cid).

(** ** Connecting *)

(** Connecting changes neither the core nor the queue. *)
Definition keeps (l l' : loc) : Prop :=
  ext c session_stmt l l' /\ qview (l_conn l') = qview (l_conn l) /\
  server_lost (l_conn l') = server_lost (l_conn l) /\
  (pending (l_conn l) = [] -> pending (l_conn l') = []).

Lemma keeps_trans l1 l2 l3 : keeps l1 l2 -> keeps l2 l3 -> keeps l1 l3.
Proof.
  intros (E1 & Q1 & S1 & P1) (E2 & Q2 & S2 & P2).
  split_and!; [by eapply ext_trans|by rewrite Q2|by rewrite S2|auto].
Qed.

Lemma wp_disconnect l (Q : unit -> loc -> Prop) :
  (forall l', keeps l l' -> db_conn (l_conn l') = false -> l_thd l' = l_thd l -> Q tt l') ->
  wp c (mysql_disconnect c) l Q.
Proof.
  intros H. unfold mysql_disconnect. wp_run.
  - apply H; [split_and!; [ext_now|done..]|done|done].
  - apply H; [split_and!; [ext_now|done..]|done|done].
Qed.

Lemma wp_db_disconnect l (Q : unit -> loc -> Prop) :
  (forall l', keeps l l' -> db_conn (l_conn l') = false -> l_thd l' = l_thd l -> Q tt l') ->
  wp c (spider_db_disconnect c) l Q.
Proof.
  intros H. unfold spider_db_disconnect. wp_run.
  - by apply wp_disconnect.
  - apply H; [split_and!; [ext_now|done..]|done|done].
Qed.

Lemma wp_connect_failed e l (Q : Z -> loc -> Prop) :
  is_Some (need_mon (l_conn l)) ->
  (forall r l', keeps l l' -> r <> 0 -> Q r l') ->
  wp c (connect_failed c e) l Q.
Proof.
  intros [m Hm] H. unfold connect_failed. wp_run;
    apply H; try done; (split_and!; [ext_now|done..]).
Qed.

(** A step that keeps, after what was kept before. *)
Ltac keeps_now := first [assumption | split_and!; [ext_now|reflexivity|reflexivity|done]].
Ltac keeps_chain :=
  first [ keeps_now
        | match goal with
          | K : keeps _ _ |- keeps _ _ =>
              eapply keeps_trans; [|eapply keeps_trans; [exact K|keeps_now]]; keeps_now
          end ].

(** A connect that returns 0 leaves an open handle without an error. *)
Lemma wp_mysql_connect retry l (Q : Z -> loc -> Prop) :
  is_Some (need_mon (l_conn l)) ->
  (forall r l', keeps l l' ->
     (r = 0 -> db_conn (l_conn l') = true /\ last_errno (l_conn l') = 0) -> Q r l') ->
  wp c (mysql_connect c retry) l Q.
Proof.
  revert l Q. induction retry as [|retry IH]; intros l Q Hm H; cbn [mysql_connect]; wp_run;
    try (apply H; [keeps_chain|done]).
  all: apply wp_disconnect; intros l1 K1 _ _; wp_run;
    try (apply H; [keeps_chain|done]).
  all: assert (need_mon (l_conn l1) = need_mon (l_conn l)) as Hm1 by
    (destruct K1 as (_ & K1 & _); unfold qview in K1; simpl in K1; congruence).
  all: try (apply IH; simpl; [by rewrite Hm1|]; intros r l2 K2 H2; apply H; [|done]).
  all: try (apply wp_connect_failed; simpl; [by rewrite Hm1|]; intros r l2 K2 H2; apply H; [|done]).
  all: eapply keeps_trans; [|exact K2]; keeps_chain.
Qed.

Lemma wp_reset_parameter l (Q : Z -> loc -> Prop) :
  (forall r l', keeps l l' -> Q r l') -> wp c (spider_reset_conn_setted_parameter c) l Q.
Proof. intros H. unfold spider_reset_conn_setted_parameter. wp_run; apply H; keeps_chain. Qed.

Lemma keeps_need_mon l l' : keeps l l' -> need_mon (l_conn l') = need_mon (l_conn l).
Proof. intros (_ & K & _). unfold qview in K. congruence. Qed.

Lemma wp_connect_target lt l (Q : Z -> loc -> Prop) :
  is_Some (need_mon (l_conn l)) ->
  (forall r l', keeps l l' ->
     (r = 0 -> db_conn (l_conn l') = true /\ last_errno (l_conn l') = 0) -> Q r l') ->
  wp c (db_connect_target c lt) l Q.
Proof.
  intros Hm H. unfold db_connect_target. wp_run; [by apply H; [keeps_chain|]|].
  apply wp_reset_parameter. intros r1 l1 K1. wp_run.
  { apply H; [keeps_chain|]. intros ->. done. }
  apply wp_mysql_connect.
  { by rewrite (keeps_need_mon _ _ K1). }
  intros r2 l2 K2 H2. assert (K12 : keeps l l2) by (eapply keeps_trans; [|exact K2]; keeps_chain).
  wp_run.
  - unfold record_connect_error. wp_run; apply H; try keeps_chain; by intros ->.
  - apply H; [keeps_chain|]. intros _. by apply H2.
Qed.

(** [spider_db_connect] of the share queued on the connection. *)
Lemma wp_db_connect share idx l (Q : Z -> loc -> Prop) :
  is_Some (need_mon (l_conn l)) ->
  is_Some (share ≫= fun s => share_links s !! Z.to_nat idx) ->
  (forall r l', keeps l l' ->
     (r = 0 -> db_conn (l_conn l') = true /\ last_errno (l_conn l') = 0) -> Q r l') ->
  wp c (spider_db_connect share c idx) l Q.
Proof.
  intros Hm [lt Hlt] H. unfold spider_db_connect. rewrite Hlt.
  destruct (lt_server_name lt).
  - wp_run.
    + by apply wp_connect_target.
    + by apply H; [keeps_chain|].
    + by apply H; [keeps_chain|].
    + apply wp_connect_target; [done|]. intros r l' K Hr. apply H; [|done].
      eapply keeps_trans; [|exact K]. keeps_chain.
  - destruct Hm as [m Hm]. wp_run. apply H; [keeps_chain|done].
Qed.

End Specs.
