(* ===== verification/QuerySpec.v ===== *)
(** * What the query functions do

    Specifications of [exec_query], [spider_db_errorno], [next_result],
    [spider_db_conn_queue_action], [spider_db_before_query] and
    [spider_db_query], and of the statement methods of DbXa built on them. *)

From stdpp Require Import base gmap list strings.
From Stdlib Require Import ZArith Lia.
From S2P Require Import Prelude ConnTree World ConnQueue DbXa ConnWp ConnSpec.
Local Open Scope spider_scope.
Local Open Scope Z_scope.

Section Specs.
  Context `{env : Env, vars : Vars} (c : cid).

(** ** Recorded settings *)

(** The settings recorded for the backend session. *)
Definition settings (n : SPIDER_CONN) :=
  (autocommit n, sql_log_off n, time_zone n, trx_isolation n).

(** What is recorded after the queue of [n] was sent. *)
Definition settings_done (thd : THD) (n : SPIDER_CONN) :=
  (if queued_autocommit n then if queued_autocommit_val n || spider_param_ignore_autocommit then 1 else 0
   else autocommit n,
   if queued_sql_log_off n then if queued_sql_log_off_val n then 1 else 0 else sql_log_off n,
   if queued_time_zone n then queued_time_zone_val n else time_zone n,
   if needs_semi_trx_isolation n then thd_tx_isolation thd
   else if queued_trx_isolation n && negb (queued_semi_trx_isolation n) then queued_trx_isolation_val n
   else trx_isolation n).

(** The steps of [queue_done]. *)
Definition done1 (n : SPIDER_CONN) : SPIDER_CONN :=
  if needs_trx_isolation n then n <| trx_isolation := queued_trx_isolation_val n |> else n.
Definition done2 (thd : THD) (n : SPIDER_CONN) : SPIDER_CONN :=
  if needs_semi_trx_isolation n
  then n <| semi_trx_isolation := queued_semi_trx_isolation_val n |>
         <| trx_isolation := thd_tx_isolation thd |> else n.
Definition done3 (n : SPIDER_CONN) : SPIDER_CONN :=
  if queued_autocommit n
  then n <| autocommit := if queued_autocommit_val n || spider_param_ignore_autocommit then 1 else 0 |> else n.
Definition done4 (n : SPIDER_CONN) : SPIDER_CONN :=
  if queued_sql_log_off n
  then n <| sql_log_off := if queued_sql_log_off_val n then 1 else 0 |> else n.
Definition done5 (n : SPIDER_CONN) : SPIDER_CONN :=
  if needs_time_zone n then n <| time_zone := queued_time_zone_val n |> else n.

Lemma queue_done_steps thd n :
  queue_done thd n = conn_clear_queue (done5 (done4 (done3 (done2 thd (done1 n))))).
Proof. reflexivity. Qed.

Lemma settings_done5 n : settings (conn_clear_queue (done5 n)) =
  (autocommit n, sql_log_off n, if needs_time_zone n then queued_time_zone_val n else time_zone n, trx_isolation n).
Proof. unfold done5. by destruct (needs_time_zone n). Qed.

(** The fields [f] that a step leaves alone. *)
Lemma view_if {A} (f : SPIDER_CONN -> A) (b : bool) n n' :
  (b = true -> f n' = f n) -> f (if b then n' else n) = f n.
Proof. destruct b; auto. Qed.

Definition zview (n : SPIDER_CONN) :=
  (queued_sql_log_off n, queued_sql_log_off_val n, queued_time_zone n, queued_time_zone_val n, time_zone n).

Lemma zview_steps thd n : zview (done3 (done2 thd (done1 n))) = zview n.
Proof.
  etransitivity; [apply view_if; reflexivity|]. etransitivity; [apply view_if; reflexivity|].
  by apply view_if.
Qed.

Lemma done4_other n : (autocommit (done4 n), trx_isolation (done4 n)) = (autocommit n, trx_isolation n) /\
  zview (done4 n) = zview n.
Proof. unfold done4. by destruct (queued_sql_log_off n). Qed.

Definition aview (n : SPIDER_CONN) :=
  (queued_autocommit n, queued_autocommit_val n, autocommit n, sql_log_off n).

Lemma aview_steps thd n : aview (done2 thd (done1 n)) = aview n.
Proof. etransitivity; [apply view_if; reflexivity|]. by apply view_if. Qed.

Lemma isolation_steps thd n : trx_isolation (done3 (done2 thd (done1 n))) =
  if needs_semi_trx_isolation n then thd_tx_isolation thd
  else if queued_trx_isolation n && negb (queued_semi_trx_isolation n) then queued_trx_isolation_val n
  else trx_isolation n.
Proof.
  etransitivity; [apply view_if; reflexivity|]. unfold done2, done1, needs_trx_isolation, needs_semi_trx_isolation.
  destruct (queued_semi_trx_isolation n) eqn:Hs; cbn [negb andb].
  - rewrite !andb_false_r. cbn [andb]. rewrite Hs. cbn [andb]. by destruct (Z.eqb _ _).
  - rewrite !andb_true_r. destruct (queued_trx_isolation n); cbn [andb]; [|by rewrite Hs].
    destruct (Z.eqb_spec (queued_trx_isolation_val n) (trx_isolation n)) as [->|]; cbn [negb]; [by rewrite Hs|].
    simpl. by rewrite Hs.
Qed.

Lemma queue_done_settings thd n : settings (queue_done thd n) = settings_done thd n.
Proof.
  rewrite queue_done_steps, settings_done5.
  set (n3 := done3 (done2 thd (done1 n))).
  destruct (done4_other n3) as [[= -> ->] E4]. pose proof (zview_steps thd n) as Z3. fold n3 in Z3.
  pose proof (eq_trans E4 Z3) as Z4. unfold settings_done. rewrite <- (isolation_steps thd n). fold n3. f_equal.
  assert (sql_log_off (done4 n3) = if queued_sql_log_off n then if queued_sql_log_off_val n then 1 else 0 else sql_log_off n) as ->.
  { transitivity (if queued_sql_log_off n3 then if queued_sql_log_off_val n3 then 1 else 0 else sql_log_off n3).
    - unfold done4. by destruct (queued_sql_log_off n3).
    - injection Z3 as -> -> _ _ _. destruct (queued_sql_log_off n); [done|].
      transitivity (sql_log_off (done2 thd (done1 n))); [by apply view_if|]. by injection (aview_steps thd n). }
  assert (autocommit n3 = if queued_autocommit n
    then if queued_autocommit_val n || spider_param_ignore_autocommit then 1 else 0 else autocommit n) as ->.
  { pose proof (aview_steps thd n) as E. unfold n3, done3. injection E as -> -> E _.
    by destruct (queued_autocommit n). }
  f_equal. unfold needs_time_zone. injection Z4 as _ _ -> -> ->. destruct (queued_time_zone n); [|done]. cbn [andb].
  by destruct (bool_decide_reflect (queued_time_zone_val n = time_zone n)).
Qed.

Lemma settings_done_eq thd n n' :
  qview n' = qview n -> settings n' = settings n -> settings_done thd n' = settings_done thd n.
Proof.
  unfold qview, settings. intros [= _ _ _ _ _ _ _ _ E1 E2 E3 E4 E5 E6 E7 E8 E9 E10 _ _ _] [= S1 S2 S3 S4].
  unfold settings_done, needs_semi_trx_isolation. by rewrite E1, E2, E3, E4, E5, E6, E7, E8, E9, E10, S1, S2, S3, S4.
Qed.

(** ** Queries and their errors *)

(** The error number [spider_db_errorno] makes of a connection's state. *)
Definition errorno_value (n : SPIDER_CONN) : Z :=
  if server_lost n then ER_SPIDER_REMOTE_SERVER_GONE_AWAY_NUM
  else let e := last_errno n in
  if Z.eqb e 0 then 0
  else if is_server_gone_error e then ER_SPIDER_REMOTE_SERVER_GONE_AWAY_NUM
  else if ignore_dup_key n && is_dup_entry_error e then HA_ERR_FOUND_DUPP_KEY
  else if is_xa_nota_error e && Z.eqb spider_param_force_commit 1 then e
  else if is_xa_commit_one_phase n then ER_SPIDER_XA_TIMEOUT_NUM
  else e.

(** The connection failed: it is lost, or its last statement was refused. *)
Definition failed (n : SPIDER_CONN) : Prop := server_lost n = true \/ last_errno n <> 0.

Lemma not_failed n : ~ failed n <-> server_lost n = false /\ last_errno n = 0.
Proof.
  unfold failed. split.
  - intros H. split.
    + destruct (server_lost n); [|done]. exfalso. apply H. by left.
    + destruct (Z.eq_dec (last_errno n) 0); [done|]. exfalso. apply H. by right.
  - intros [-> ->] [?|?]; done.
Qed.

Lemma errorno_value_0 n : errorno_value n = 0 <-> ~ failed n.
Proof.
  unfold errorno_value, failed. destruct (server_lost n); [naive_solver|].
  destruct (Z.eqb_spec (last_errno n) 0) as [->|H]; [naive_solver|].
  split; [|intros Hf; naive_solver].
  repeat case_match; try done; naive_solver.
Qed.

(** Reading the error: nothing is sent; a gone connection is closed. *)
Record errorno_post (S : stmt -> Prop) (l l' : loc) : Prop := {
  ep_ext : ext c S l l';
  ep_qview : qview (l_conn l') = qview (l_conn l);
  ep_failed : failed (l_conn l) -> failed (l_conn l');
  ep_lost : server_lost (l_conn l) = true -> server_lost (l_conn l') = true;
  ep_handle : server_lost (l_conn l') = false -> db_conn (l_conn l') = db_conn (l_conn l);
  ep_ok : ~ failed (l_conn l) -> server_lost (l_conn l') = false /\ last_errno (l_conn l') = 0 /\
            pending (l_conn l') = pending (l_conn l) /\ l_evs l' = l_evs l;
  ep_evs : exists t, l_evs l' = l_evs l ++ t /\ Forall (fun ev => ev = EvDisconnect c) t;
  ep_pending : pending (l_conn l) = [] -> pending (l_conn l') = []
}.

Lemma wp_errorno S l (Q : Z -> loc -> Prop) :
  is_Some (need_mon (l_conn l)) ->
  (forall l', errorno_post S l l' -> Q (errorno_value (l_conn l)) l') ->
  wp c (spider_db_errorno c) l Q.
Proof.
  intros [m Hm] H. unfold failed in *.
  assert (Hq : forall l', ext c S l l' -> qview (l_conn l') = qview (l_conn l) ->
    (failed (l_conn l) -> failed (l_conn l')) ->
    server_lost (l_conn l') = server_lost (l_conn l) -> last_errno (l_conn l') = last_errno (l_conn l) ->
    pending (l_conn l') = pending (l_conn l) -> db_conn (l_conn l') = db_conn (l_conn l) ->
    l_evs l' = l_evs l -> errorno_post S l l').
  { intros l' E Qv F Hs He Hp Hd Hev. split; try done.
    - by rewrite Hs.
    - intros [Hn1 Hn2]%not_failed. by rewrite Hs, He.
    - exists []. by rewrite app_nil_r.
    - by rewrite Hp. }
  unfold spider_db_errorno, errorno_unlock, errorno_value in *. wp_run.
  all: try (apply H, Hq; [ext_now|reflexivity|done|done|reflexivity..]; done).
  unfold spider_db_disconnect, mysql_disconnect. wp_run; apply H; clear H Hq.
  all: split; [ext_now|reflexivity|by left|done|done| | |done].
  all: try (intros [_ ?]%not_failed; congruence).
  all: first [by eexists [_]; split; [reflexivity|by constructor] | by exists []; rewrite app_nil_r].
Qed.

(** A statement that is sent. *)
Record sent (s : stmt) (e : Z) (rest : list stmt) (l l' : loc) : Prop := {
  st_core : core (l_conn l') = core (l_conn l);
  st_qview : qview (l_conn l') = qview (l_conn l);
  st_set : settings (l_conn l') = settings (l_conn l);
  st_lost : server_lost (l_conn l') = server_lost (l_conn l);
  st_db : db_conn (l_conn l') = true;
  st_errno : last_errno (l_conn l') = e;
  st_pending : pending (l_conn l') = if Z.eqb e 0 then rest else [];
  st_sess : lsess l' = lsess l;
  st_evs : l_evs l' = l_evs l ++ [EvStmt c s e];
  st_env : exists k, e = env_stmt k
}.

Lemma wp_exec_query s rest l (Q : Z -> loc -> Prop) :
  db_conn (l_conn l) = true ->
  (spider_param_dry_access = true -> Q 0 l) ->
  (forall e l', spider_param_dry_access = false -> sent s e rest l l' ->
     Q (if Z.eqb e 0 then 0 else 1) l') ->
  wp c (exec_query c (s :: rest)) l Q.
Proof.
  intros Hd H0 H1. unfold exec_query, mysql_real_query. destruct spider_param_dry_access eqn:Hdry.
  { wp_run. auto. }
  do 3 wp_step. rewrite Hd. simpl. wp_run; apply H1; try done; split; simpl; try done; eauto.
Qed.

Lemma wp_next_result S l (Q : Z -> loc -> Prop) :
  is_Some (need_mon (l_conn l)) ->
  (db_conn (l_conn l) = false ->
     Q ER_SPIDER_UNKNOWN_NUM (l <| l_thd := (l_thd l) <| is_error := true |> |>)) ->
  (db_conn (l_conn l) = true -> pending (l_conn l) = [] ->
     Q (-1) (l <| l_conn := (l_conn l) <| last_errno := 0 |> |>)) ->
  (forall s rest l', pending (l_conn l) = s :: rest -> sent s 0 rest l l' -> Q 0 l') ->
  (forall s rest e l1 l', pending (l_conn l) = s :: rest -> e <> 0 -> sent s e rest l l1 ->
     errorno_post S l1 l' -> Q (errorno_value (l_conn l1)) l') ->
  wp c (next_result c) l Q.
Proof.
  intros Hm H0 H1 H2 H3. unfold next_result. wp_run; [by apply H0|].
  destruct (pending (l_conn l)) as [|s rest] eqn:Hp; wp_run; [by apply H1| |].
  - eapply H2; [done|]. split; simpl; try done; eauto. by rewrite Heqb0.
  - apply (wp_errorno S); [done|]. intros l' Hl'.
    eapply (H3 s rest (env_stmt (l_tick l))); [done|done| |exact Hl'].
    split; simpl; try done; eauto. by apply Z.eqb_neq in Heqb0 as ->.
Qed.

(** What makes the error numbers exact: the client library's error numbers are
    unsigned, no allocation fails, statements are really sent. *)
Context (stmt_nonneg : forall k, 0 <= env_stmt k).
Context (no_oom : forall k, env_oom k = false).
Context (no_dry : spider_param_dry_access = false).

Lemma errorno_value_pos n : 0 <= last_errno n -> failed n -> 0 < errorno_value n.
Proof.
  intros Hn Hf. unfold errorno_value. destruct Hf as [-> | Hf]; [done|].
  destruct (server_lost n); [done|]. rewrite (proj2 (Z.eqb_neq _ _) Hf).
  repeat case_match; try done; lia.
Qed.

Lemma sent_ext S s e rest l l' : S s -> sent s e rest l l' -> ext c S l l'.
Proof.
  intros HS [C Qv _ L D E P T V _]. split; [done| |done|].
  - unfold settled. by rewrite (qview_connect _ _ Qv), (qview_xa_start _ _ Qv).
  - exists [EvStmt c s e]. split; [done|]. by repeat constructor.
Qed.

(** The statements that waited were all executed. *)
Record drained (q : list stmt) (l l' : loc) : Prop := {
  dr_core : core (l_conn l') = core (l_conn l);
  dr_qview : qview (l_conn l') = qview (l_conn l);
  dr_set : settings (l_conn l') = settings (l_conn l);
  dr_lost : server_lost (l_conn l') = server_lost (l_conn l);
  dr_db : db_conn (l_conn l') = true;
  dr_errno : last_errno (l_conn l') = 0;
  dr_pending : pending (l_conn l') = [];
  dr_sess : lsess l' = lsess l;
  dr_evs : l_evs l' = l_evs l ++ map (fun s => EvStmt c s 0) q
}.

(** One of them was refused, or the connection broke. *)
Record refused (S : stmt -> Prop) (l l' : loc) : Prop := {
  rf_ext : ext c S l l';
  rf_qview : qview (l_conn l') = qview (l_conn l);
  rf_failed : failed (l_conn l');
  rf_db : server_lost (l_conn l') = false -> db_conn (l_conn l') = true;
  rf_pending : pending (l_conn l') = []
}.

Lemma wp_drain (S : stmt -> Prop) q fuel l (Q : Z -> loc -> Prop) :
  (length q < fuel)%nat -> Forall S q -> pending (l_conn l) = q ->
  db_conn (l_conn l) = true -> last_errno (l_conn l) = 0 ->
  is_Some (need_mon (l_conn l)) ->
  (forall l', drained q l l' -> Q (-1) l') ->
  (forall r l', 0 < r -> refused S l l' -> Q r l') ->
  wp c (drain_results fuel c) l Q.
Proof.
  revert q l. induction fuel as [|fuel IH]; intros q l Hf HS Hp Hd He Hm H1 H2; [lia|].
  cbn [drain_results]. wp_step. wp_step. rewrite He. simpl. wp_step.
  apply (wp_next_result S); [done|congruence|..].
  - intros _ Hq. simpl. wp_run. apply H1. rewrite Hq in Hp. subst q.
    split; simpl; try done. by rewrite app_nil_r.
  - intros s rest l1 Hq Hl1. simpl. rewrite Hq in Hp. subst q.
    destruct Hl1 as [C Qv St L D E P T V K] eqn:Heq.
    apply Forall_cons in HS as [HSs HS].
    apply (IH rest); try done; [simpl in Hf; lia| | |].
    + by rewrite (qview_mon _ _ Qv).
    + intros l' [C' Qv' St' L' D' E' P' T' V']. apply H1. split; try congruence.
      rewrite V', V, <- (assoc_L (++)). done.
    + intros r l' Hr [X' Qv' F' D' P']. apply H2; [done|]. split; [|congruence|done..].
      eapply ext_trans; [|exact X']. by eapply sent_ext.
  - intros s rest e l1 l' Hq He' Hl1 [X Qv F L D O V P].
    assert (failed (l_conn l1)) as Hfl by (right; by rewrite (st_errno _ _ _ _ _ Hl1)).
    assert (0 < errorno_value (l_conn l1)).
    { apply errorno_value_pos; [|done]. rewrite (st_errno _ _ _ _ _ Hl1).
      destruct (st_env _ _ _ _ _ Hl1) as [k ->]. done. }
    destruct (Z.eqb_spec (errorno_value (l_conn l1)) 0); [lia|]. wp_run.
    apply H2; [done|]. split.
    + eapply ext_trans; [|exact X]. eapply sent_ext; [|exact Hl1].
      rewrite Hq in Hp. subst q. by apply Forall_cons in HS as [??].
    + rewrite Qv. apply (st_qview _ _ _ _ _ Hl1).
    + auto.
    + intros Hl. rewrite (D Hl). apply (st_db _ _ _ _ _ Hl1).
    + apply P. rewrite (st_pending _ _ _ _ _ Hl1). by rewrite (proj2 (Z.eqb_neq _ _) He').
Qed.

(** ** The queued settings *)

Definition opt_stmt (b : bool) (s : stmt) : list stmt := if b then [s] else [].

(** The statements that bring the session to the queued settings. *)
Definition queue_stmts (n : SPIDER_CONN) (thd : THD) (x : XID) : list stmt :=
  opt_stmt (needs_trx_isolation n) (SetIsolation (queued_trx_isolation_val n)) ++
  opt_stmt (needs_semi_trx_isolation n) (SetIsolation (queued_semi_trx_isolation_val n)) ++
  opt_stmt (needs_autocommit n)
    (SetAutocommit (queued_autocommit_val n || spider_param_ignore_autocommit)) ++
  opt_stmt (needs_sql_log_off n) (SetSqlLogOff (queued_sql_log_off_val n)) ++
  opt_stmt (needs_time_zone n) (SetTimeZone (default 0 (queued_time_zone_val n))) ++
  opt_stmt (queued_trx_start n && trx_transmit_begin_commit thd) StartTransaction ++
  opt_stmt (queued_xa_start n) (XaStart x).

Lemma opt_stmt_session b s : session_stmt s -> Forall session_stmt (opt_stmt b s).
Proof. intros ?. destruct b; simpl; auto. Qed.

Lemma queue_stmts_session n thd x : Forall session_stmt (queue_stmts n thd x).
Proof. unfold queue_stmts. repeat (apply Forall_app; split); by apply opt_stmt_session. Qed.

Definition set_tick (k : nat) (l : loc) : loc := l <| l_tick := k |>.

Lemma set_tick_id l : set_tick (l_tick l) l = l.
Proof. by destruct l. Qed.

Lemma wp_append_stmt s k l (Q : Z + stmt -> loc -> Prop) :
  (forall k', Q (inr s) (set_tick k' l)) -> wp c (append_stmt s) (set_tick k l) Q.
Proof. intros H. unfold append_stmt. wp_run. rewrite no_oom. apply H. Qed.

Lemma wp_append_isolation v k l (Q : Z + stmt -> loc -> Prop) :
  0 <= v <= 3 ->
  (forall k', Q (inr (SetIsolation v)) (set_tick k' l)) ->
  wp c (append_trx_isolation v) (set_tick k l) Q.
Proof.
  intros Hv H. unfold append_trx_isolation. wp_step. apply wp_append_stmt. intros k'. simpl.
  destruct (Z.leb_spec 0 v), (Z.leb_spec v 3); try lia. simpl. wp_run. apply H.
Qed.

Lemma wp_queue_append q cond ap s k l (Q : Z + list stmt -> loc -> Prop) :
  (cond = true -> forall Q', (forall k', Q' (inr s) (set_tick k' l)) -> wp c ap (set_tick k l) Q') ->
  (forall k', Q (inr (q ++ opt_stmt cond s)) (set_tick k' l)) ->
  wp c (queue_append (inr q) cond ap) (set_tick k l) Q.
Proof.
  intros Ha H. unfold queue_append. destruct cond; simpl in *.
  - wp_step. apply Ha; [done|]. intros k'. wp_run. apply H.
  - wp_run. specialize (H k). by rewrite app_nil_r in H.
Qed.

(** Without allocation failures the text is exactly [queue_stmts]. *)
Lemma wp_queue_sql n thd l (Q : Z + list stmt -> loc -> Prop) :
  queue_ok n -> (forall k, Q (inr (queue_stmts n thd (xid (l_trx l)))) (set_tick k l)) ->
  wp c (queue_sql n thd) l Q.
Proof.
  intros [_ _ Htz Hiso Hsemi Hxid] H. unfold queue_sql. rewrite <- (set_tick_id l).
  apply wp_bind. eapply wp_queue_append.
  { intros Hc Q' HQ'. apply wp_append_isolation; [|done].
    unfold needs_trx_isolation in Hc. bool_norm. auto. }
  intros k1. apply wp_bind. eapply wp_queue_append.
  { intros Hc Q' HQ'. apply wp_append_isolation; [|done].
    unfold needs_semi_trx_isolation in Hc. bool_norm. auto. }
  intros k2. apply wp_bind. eapply wp_queue_append.
  { intros _ Q' HQ'. by apply wp_append_stmt. }
  intros k3. apply wp_bind. eapply wp_queue_append.
  { intros _ Q' HQ'. by apply wp_append_stmt. }
  intros k4. apply wp_bind. eapply (wp_queue_append _ _ _ (SetTimeZone (default 0 (queued_time_zone_val n)))).
  { intros Hc Q' HQ'. unfold needs_time_zone in Hc. bool_norm. destruct Htz as [z Hz]; [done|].
    rewrite Hz in *. by apply wp_append_stmt. }
  intros k5. apply wp_bind. eapply wp_queue_append.
  { intros _ Q' HQ'. by apply wp_append_stmt. }
  intros k6. eapply wp_queue_append.
  { intros Hc Q' HQ'. rewrite (Hxid Hc). wp_step. wp_step. by apply wp_append_stmt. }
  intros k7. unfold queue_stmts in H. rewrite <- !(assoc_L (++)). apply H.
Qed.

(** The fields that belong to the caller of the query functions. *)
Definition fview (n : SPIDER_CONN) :=
  (in_before_query n, mta_conn_mutex_lock_already n, mta_conn_mutex_unlock_later n, need_mon n).

Lemma qview_fview n n' : qview n' = qview n -> fview n' = fview n.
Proof. unfold qview, fview. congruence. Qed.

Lemma fview_mon n n' : fview n' = fview n -> need_mon n' = need_mon n.
Proof. unfold fview. congruence. Qed.

Lemma queue_ok_qview n n' :
  qview n' = qview n -> queued_connect n || server_lost n' || db_conn n' = true ->
  queue_ok n -> queue_ok n'.
Proof.
  intros Hq Hh [_ H2 H3 H4 H5 H6]. unfold qview in Hq. injection Hq as E1 E2 E3 E4 E5 E6 E7 E8 E9 E10
    E11 E12 E13 E14 E15 E16 E17 E18 E19 E20 E21.
  split.
  - by rewrite E5.
  - by rewrite E5, E7, E8.
  - by rewrite E17, E18.
  - by rewrite E9, E10.
  - by rewrite E11, E12.
  - by rewrite E20, E21.
Qed.

(** The queue was sent: the session has the queued settings. *)
Record acted (l l' : loc) : Prop := {
  ac_ext : ext c session_stmt l l';
  ac_fview : fview (l_conn l') = fview (l_conn l);
  ac_ok : queue_ok (l_conn l');
  ac_connect : queued_connect (l_conn l') = false;
  ac_xa_start : queued_xa_start (l_conn l') = false;
  ac_lost : server_lost (l_conn l') = false;
  ac_db : db_conn (l_conn l') = true;
  ac_pending : pending (l_conn l) = [] -> pending (l_conn l') = [];
  ac_evs : queued_connect (l_conn l) = false ->
    l_evs l' = l_evs l ++ map (fun s => EvStmt c s 0) (queue_stmts (l_conn l) (l_thd l) (xid (l_trx l))) /\
    settings (l_conn l') = settings_done (l_thd l) (l_conn l)
}.

Record not_acted (l l' : loc) : Prop := {
  na_ext : ext c session_stmt l l';
  na_fview : fview (l_conn l') = fview (l_conn l);
  na_ok : queue_ok (l_conn l');
  na_failed : failed (l_conn l');
  na_pending : pending (l_conn l) = [] -> pending (l_conn l') = []
}.

(** [queue_done] changes only what was set and the queue. *)
Definition done_view (n : SPIDER_CONN) :=
  (core n, fview n, queued_connect n, server_lost n, db_conn n, pending n).

Lemma queue_done_view thd n : done_view (queue_done thd n) = done_view n.
Proof.
  unfold queue_done. etransitivity; [reflexivity|].
  do 5 (etransitivity; [apply (view_if done_view); reflexivity|]). reflexivity.
Qed.

Lemma queue_done_fields thd n :
  core (queue_done thd n) = core n /\ fview (queue_done thd n) = fview n /\
  queued_connect (queue_done thd n) = queued_connect n /\
  server_lost (queue_done thd n) = server_lost n /\ db_conn (queue_done thd n) = db_conn n /\
  pending (queue_done thd n) = pending n.
Proof.
  pose proof (queue_done_view thd n) as H. split_and!.
  - exact (f_equal (fun v => v.1.1.1.1.1) H).
  - exact (f_equal (fun v => v.1.1.1.1.2) H).
  - exact (f_equal (fun v => v.1.1.1.2) H).
  - exact (f_equal (fun v => v.1.1.2) H).
  - exact (f_equal (fun v => v.1.2) H).
  - exact (f_equal (fun v => v.2) H).
Qed.

Lemma queue_done_xa thd n : queued_xa_start (queue_done thd n) = false.
Proof. reflexivity. Qed.

#[local] Opaque queue_done.
#[local] Arguments drain_results : simpl never.

Lemma queue_done_ok thd n : queued_connect n = false -> server_lost n || db_conn n = true ->
  queue_ok (queue_done thd n).
Proof.
  intros Hc Hh. destruct (queue_done_fields thd n) as (_ & _ & Hvc & Hvl & Hvd & _). split; try done.
  - rewrite Hvc, Hvl, Hvd, Hc. by destruct (server_lost n).
  - by rewrite Hvc, Hc.
Qed.

(** The bookkeeping at the end of a queue that was sent. *)
Lemma acted_done l l' n1 :
  l_conn l' = queue_done (l_thd l) n1 ->
  core n1 = core (l_conn l) -> qview n1 = qview (l_conn l) -> settings n1 = settings (l_conn l) ->
  queued_connect (l_conn l) = false ->
  server_lost n1 = false -> db_conn n1 = true ->
  (pending (l_conn l) = [] -> pending n1 = []) -> lsess l' = lsess l ->
  l_evs l' = l_evs l ++ map (fun s => EvStmt c s 0) (queue_stmts (l_conn l) (l_thd l) (xid (l_trx l))) ->
  acted l l'.
Proof.
  intros Hn HC HQ HS Hc0 Hl Hd HP HT HE.
  destruct (queue_done_fields (l_thd l) n1) as (Hv1 & Hv2 & Hvc & Hvl & Hvd & Hvp).
  pose proof (queue_done_xa (l_thd l) n1) as Hvx. pose proof (qview_fview _ _ HQ) as HF.
  assert (queued_connect n1 = false) as Hc by (by rewrite (qview_connect _ _ HQ)).
  split; try congruence.
  - split; [congruence|split; congruence|done|].
    eexists. split; [exact HE|]. apply Forall_map. eapply Forall_impl; [apply queue_stmts_session|].
    intros s Hs. by split.
  - rewrite Hn. apply queue_done_ok; [done|]. by rewrite Hd, orb_true_r.
  - rewrite Hn, Hvp. exact HP.
  - intros _. split; [exact HE|]. rewrite Hn, queue_done_settings. by apply settings_done_eq.
Qed.

Lemma wp_queue_send l (Q : Z -> loc -> Prop) :
  queue_ok (l_conn l) -> queued_connect (l_conn l) = false -> is_Some (need_mon (l_conn l)) ->
  (forall l', acted l l' -> Q 0 l') ->
  (forall r l', r <> 0 -> not_acted l l' -> Q r l') ->
  wp c (queue_action_send c) l Q.
Proof.
  intros Hok Hc Hm H1 H2. unfold queue_action_send. do 3 wp_step.
  { wp_run. apply H2; [done|]. split; [ext_now|done|done|by left|done]. }
  assert (db_conn (l_conn l) = true) as Hd.
  { pose proof (qk_handle _ Hok) as Hh. by rewrite Hc, Heqb in Hh. }
  do 4 wp_step. apply wp_bind, wp_queue_sql; [done|]. intros k. simpl (l_trx _).
  destruct (queue_stmts (l_conn l) (l_thd l) (xid (l_trx l))) as [|s rest] eqn:Hq.
  { wp_run. apply H1. eapply acted_done; [reflexivity|reflexivity|reflexivity|done..|].
    simpl. by rewrite Hq, app_nil_r. }
  pose proof (queue_stmts_session (l_conn l) (l_thd l) (xid (l_trx l))) as HS. rewrite Hq in HS.
  apply Forall_cons in HS as [HS1 HS2].
  wp_step. apply wp_exec_query; [done|congruence|]. intros e l1 _ Hs. simpl.
  destruct (Z.eqb_spec e 0) as [->|He]; simpl.
  - apply wp_bind. destruct Hs as [C Qv St L D E P T V K] eqn:Hs'; clear Hs'.
    eapply (wp_drain session_stmt rest); [simpl; lia|done|done|done|done| |..].
    { by rewrite (qview_mon _ _ Qv). }
    + intros l2 [C' Qv' St' L' D' E' P' T' V']. simpl. wp_run. apply H1. eapply acted_done; [reflexivity|..]; try congruence.
      * rewrite C'. exact C.
      * rewrite Qv'. exact Qv.
      * rewrite St'. exact St.
      * rewrite L', L. exact Heqb.
      * exact (eq_trans T' T).
      * simpl. rewrite V', V, Hq, <- (assoc_L (++)). done.
    + intros r l2 Hr [X Qv' F D' P']. destruct (Z.ltb_spec 0 r); [|lia]. wp_run. apply H2; [lia|].
      assert (qview (l_conn l2) = qview (l_conn l)) as Qv2 by (rewrite Qv'; exact Qv). split.
      * eapply ext_trans; [|eapply ext_trans; [by eapply sent_ext|exact X]]. ext_now.
      * by apply qview_fview.
      * eapply queue_ok_qview; [exact Qv2| |done]. rewrite Hc. simpl.
        destruct (server_lost (l_conn l2)); [done|]. by apply D'.
      * done.
      * done.
  - wp_run. apply H2; [done|]. split.
    + eapply ext_trans; [|by eapply sent_ext]. ext_now.
    + by apply qview_fview, (st_qview _ _ _ _ _ Hs).
    + eapply (queue_ok_qview (l_conn l)); [exact (st_qview _ _ _ _ _ Hs)| |done].
      rewrite (st_db _ _ _ _ _ Hs). apply orb_true_r.
    + right. by rewrite (st_errno _ _ _ _ _ Hs).
    + intros _. rewrite (st_pending _ _ _ _ _ Hs). by rewrite (proj2 (Z.eqb_neq _ _) He).
Qed.

Lemma wp_queue_action l (Q : Z -> loc -> Prop) :
  queue_ok (l_conn l) -> is_Some (need_mon (l_conn l)) ->
  (forall l', acted l l' -> Q 0 l') ->
  (forall r l', r <> 0 -> not_acted l l' -> Q r l') ->
  wp c (spider_db_conn_queue_action c) l Q.
Proof.
  intros Hok Hm H1 H2.
  (* sending from a state after the connect and the ping *)
  assert (Hsend : forall l1, ext c session_stmt l l1 -> fview (l_conn l1) = fview (l_conn l) ->
    queue_ok (l_conn l1) -> queued_connect (l_conn l1) = false ->
    (pending (l_conn l) = [] -> pending (l_conn l1) = []) ->
    (queued_connect (l_conn l) = false -> l_evs l1 = l_evs l /\
       queue_stmts (l_conn l1) (l_thd l1) (xid (l_trx l1)) = queue_stmts (l_conn l) (l_thd l) (xid (l_trx l)) /\
       settings_done (l_thd l1) (l_conn l1) = settings_done (l_thd l) (l_conn l)) ->
    wp c (queue_action_send c) l1 Q).
  { intros l1 X F Hok1 Hc HP HE. apply wp_queue_send; [done|done| |..].
    - by rewrite (fview_mon _ _ F).
    - intros l' [X' F' O' A1 A2 A3 A4 A5 A6]. apply H1. split; try done.
      + by eapply ext_trans.
      + congruence.
      + auto.
      + intros Hq. destruct (HE Hq) as (E1 & E2 & E3). destruct (A6 Hc) as [-> ->]. by rewrite E1, E2.
    - intros r l' Hr [X' F' O' Fa P']. apply H2; [done|].
      split; try done; [by eapply ext_trans|congruence|auto]. }
  unfold spider_db_conn_queue_action, spider_db_ping. do 4 wp_step.
  - apply wp_bind, wp_db_connect; [done|by apply (qk_share _ Hok)|].
    intros r l1 (X & Qv & L & P) Hr. destruct (Z.eqb_spec r 0) as [->|Hn].
    + destruct (Hr eq_refl) as [Hd He].
      wp_run; apply Hsend; simpl; try done; try (intros; congruence).
      all: try (eapply ext_trans; [exact X|]; apply ext_quiet; done).
      all: try (exact (qview_fview _ _ Qv)).
      all: apply (queue_ok_qview _ (l_conn l1)) in Hok as [_ _ O3 O4 O5 O6];
        [by split|exact Qv|by rewrite Heqb].
    + wp_run; try done. apply H2; [done|]. split.
      * eapply ext_trans; [exact X|]. apply ext_quiet; done.
      * exact (qview_fview _ _ Qv).
      * eapply (queue_ok_qview (l_conn l)); [exact Qv| |done]. simpl. by rewrite orb_true_r.
      * by left.
      * exact P.
  - wp_run; apply Hsend; simpl; try done; try ext_now.
    by destruct Hok; split.
Qed.

(** ** Before a query and the query itself *)

(** The connection is ready for a query: everything queued is sent. *)
Record ready (mon : mon_ref) (l l' : loc) : Prop := {
  rd_ext : ext c session_stmt l l';
  rd_fview : fview (l_conn l') = (false, false, mta_conn_mutex_unlock_later (l_conn l), Some mon);
  rd_ok : queue_ok (l_conn l');
  rd_connect : queued_connect (l_conn l') = false;
  rd_xa_start : queued_xa_start (l_conn l') = false;
  rd_lost : server_lost (l_conn l') = false;
  rd_db : db_conn (l_conn l') = true;
  rd_pending : pending (l_conn l) = [] -> pending (l_conn l') = [];
  rd_evs : queued_connect (l_conn l) = false ->
    l_evs l' = l_evs l ++ map (fun s => EvStmt c s 0) (queue_stmts (l_conn l) (l_thd l) (xid (l_trx l))) /\
    settings (l_conn l') = settings_done (l_thd l) (l_conn l)
}.

Record not_ready (mon : mon_ref) (l l' : loc) : Prop := {
  nr_ext : ext c session_stmt l l';
  nr_fview : fview (l_conn l') = (false, false, mta_conn_mutex_unlock_later (l_conn l), Some mon);
  nr_ok : queue_ok (l_conn l');
  nr_failed : failed (l_conn l');
  nr_pending : pending (l_conn l) = [] -> pending (l_conn l') = []
}.

Lemma wp_before_query mon l (Q : Z -> loc -> Prop) :
  mta_conn_mutex_lock_already (l_conn l) = false -> queue_ok (l_conn l) ->
  (forall l', ready mon l l' -> Q 0 l') ->
  (forall r l', r <> 0 -> not_ready mon l l' -> Q r l') ->
  wp c (spider_db_before_query c mon) l Q.
Proof.
  intros Hk Hok H1 H2. unfold spider_db_before_query. wp_run; [|congruence].
  apply wp_queue_action; [by destruct Hok; split|done|..].
  - intros l' [X F O A1 A2 A3 A4 A5 A6]. wp_run. rewrite A3. apply H1.
    split; simpl; try done.
    + eapply ext_trans; [|eapply ext_trans; [exact X|]]; apply ext_quiet; done.
    + unfold fview in *. simpl in *. congruence.
    + by destruct O; split.
  - intros r l' Hr [X F O Fa P]. wp_run. rewrite (proj2 (Z.eqb_neq r 0) Hr). simpl. apply H2; [done|]. split; simpl.
    + eapply ext_trans; [|eapply ext_trans; [exact X|]]; apply ext_quiet; done.
    + unfold fview in *. simpl in *. congruence.
    + by destruct O; split.
    + done.
    + done.
Qed.

(** A query is sent on a ready connection, or the connection failed before. *)
Lemma wp_db_query s rest mon l (Q : Z -> loc -> Prop) :
  in_before_query (l_conn l) = false ->
  mta_conn_mutex_lock_already (l_conn l) = false -> queue_ok (l_conn l) ->
  (forall r l', r <> 0 -> not_ready mon l l' -> Q r l') ->
  (forall l1 e l', ready mon l l1 -> sent s e rest l1 l' -> Q (if Z.eqb e 0 then 0 else 1) l') ->
  wp c (spider_db_query c (s :: rest) mon) l Q.
Proof.
  intros Hb Hk Hok H1 H2. unfold spider_db_query. do 2 wp_step. rewrite Hb. wp_step.
  apply wp_before_query; [done|done|..].
  - intros l1 R. simpl. apply wp_exec_query; [apply (rd_db _ _ _ R)|congruence|].
    intros e l' _ S. by eapply H2.
  - intros r l1 Hr N. wp_run; [by apply H1|done].
Qed.
End Specs.
