(* ===== verification/StmtSpec.v ===== *)
(** * What the transaction statements do

    Specifications of the methods of DbXa: a statement that returns 0 was
    acknowledged by the backend, after exactly the queued settings; one that
    returns an error was not acknowledged. *)

From stdpp Require Import base gmap list strings.
From Stdlib Require Import ZArith Lia.
From S2P Require Import Prelude ConnTree World ConnQueue DbXa ConnWp ConnSpec QuerySpec.
Local Open Scope spider_scope.
Local Open Scope Z_scope.

(** The statements [ss] were acknowledged, in order. *)
Definition acks (c : cid) (ss : list stmt) : list event := map (fun s => EvStmt c s 0) ss.

Definition among (ss : list stmt) (s : stmt) : Prop := session_stmt s \/ s ∈ ss.

Lemma not_in_events c (S : stmt -> Prop) s e t :
  Forall (ev_in c S) t -> ~ S s -> EvStmt c s e ∉ t.
Proof. intros H Hs Hin. rewrite Forall_forall in H. by apply H in Hin as [_ ?]. Qed.

(** [conn_ok] after an assignment to fields it does not mention. *)
Ltac conn_ok_upd H :=
  destruct H as [? ? ? ? [? ? ? ? ? ?]]; split; [done|done|done|done|by split].

Section Specs.
  Context `{env : Env, vars : Vars} (c : cid).
  Context (stmt_nonneg : forall k, 0 <= env_stmt k).
  Context (no_oom : forall k, env_oom k = false).
  Context (no_dry : spider_param_dry_access = false).

Record did (ss : list stmt) (s : stmt) (r : Z) (l l' : loc) : Prop := {
  di_ok : conn_ok (l_conn l');
  di_ext : ext c (among ss) l l';
  di_ack : r = 0 -> exists t0, l_evs l' = l_evs l ++ t0 ++ acks c ss /\
    Forall (ev_in c session_stmt) t0 /\
    (queued_connect (l_conn l) = false -> t0 = acks c (queue_stmts (l_conn l) (l_thd l) (xid (l_trx l))));
  di_nack : r <> 0 -> ~ session_stmt s -> exists t, l_evs l' = l_evs l ++ t /\ EvStmt c s 0 ∉ t
}.

Lemma errorno_conn_ok b S l l' :
  errorno_post c S l l' -> conn_okb b (l_conn l) -> conn_okb b (l_conn l').
Proof.
  intros [X Qv F L D O V P] [B1 B2 B3 B4 B5]. pose proof (qview_fview _ _ Qv) as Fv.
  unfold fview in Fv. split; try congruence; [auto|].
  eapply queue_ok_qview; [exact Qv| |done]. pose proof (qk_handle _ B5) as Hh.
  destruct (queued_connect (l_conn l)); [done|]. simpl in *.
  destruct (server_lost (l_conn l')) eqn:Hl; [done|]. simpl.
  rewrite (D eq_refl). destruct (server_lost (l_conn l)); [|done]. by specialize (L eq_refl).
Qed.

(** The connection as [spider_db_query] leaves it. *)
Lemma not_ready_ok b mon l l' :
  conn_okb b (l_conn l) -> not_ready c mon l l' ->
  conn_okb b (l_conn l') /\ need_mon (l_conn l') = Some mon.
Proof.
  intros [B1 B2 B3 B4 B5] [X F O Fa P]. unfold fview in F. rewrite B3 in F.
  split; [|congruence]. split; try congruence; auto.
Qed.

Lemma sent_ok b mon s e rest l l1 l2 :
  conn_okb b (l_conn l) -> ready c mon l l1 -> sent c s e rest l1 l2 -> (e = 0 -> rest = []) ->
  conn_okb b (l_conn l2).
Proof.
  intros [B1 B2 B3 B4 B5] R S Hr. pose proof (qview_fview _ _ (st_qview _ _ _ _ _ _ S)) as Fv.
  pose proof (rd_fview _ _ _ _ R) as F. unfold fview in *. rewrite B3 in F. split; try congruence.
  - rewrite (st_pending _ _ _ _ _ _ S). destruct (Z.eqb_spec e 0); auto.
  - eapply queue_ok_qview; [apply (st_qview _ _ _ _ _ _ S)| |apply (rd_ok _ _ _ _ R)].
    rewrite (st_db _ _ _ _ _ _ S). apply orb_true_r.
Qed.

(** The second statement of a query after the first was acknowledged. *)
Lemma ready_ok_sent b mon s s' e rest l l1 l2 l3 :
  conn_okb b (l_conn l) -> ready c mon l l1 -> sent c s 0 rest l1 l2 -> sent c s' e [] l2 l3 ->
  conn_okb b (l_conn l3).
Proof.
  intros [B1 B2 B3 B4 B5] R S S'.
  assert (qview (l_conn l3) = qview (l_conn l1)) as Qv.
  { by rewrite (st_qview _ _ _ _ _ _ S'), (st_qview _ _ _ _ _ _ S). }
  pose proof (qview_fview _ _ Qv) as Fv.
  pose proof (rd_fview _ _ _ _ R) as F. unfold fview in *. rewrite B3 in F. split; try congruence.
  - rewrite (st_pending _ _ _ _ _ _ S'). by destruct (Z.eqb e 0).
  - eapply queue_ok_qview; [exact Qv| |apply (rd_ok _ _ _ _ R)].
    rewrite (st_db _ _ _ _ _ _ S'). apply orb_true_r.
Qed.

Lemma sent_mon mon s e rest l l1 l2 :
  ready c mon l l1 -> sent c s e rest l1 l2 -> need_mon (l_conn l2) = Some mon.
Proof.
  intros R S. rewrite (qview_mon _ _ (st_qview _ _ _ _ _ _ S)).
  pose proof (rd_fview _ _ _ _ R) as F. unfold fview in F. congruence.
Qed.

Lemma ext_nack S s l l' :
  ext c S l l' -> ~ S s -> exists t, l_evs l' = l_evs l ++ t /\ EvStmt c s 0 ∉ t.
Proof. intros [_ _ _ (t & E & F)] Hs. exists t. split; [done|]. by eapply not_in_events. Qed.

Lemma nack_trans s l1 l2 l3 :
  (exists t, l_evs l2 = l_evs l1 ++ t /\ EvStmt c s 0 ∉ t) ->
  (exists t, l_evs l3 = l_evs l2 ++ t /\ EvStmt c s 0 ∉ t) ->
  exists t, l_evs l3 = l_evs l1 ++ t /\ EvStmt c s 0 ∉ t.
Proof.
  intros (t1 & E1 & H1) (t2 & E2 & H2). exists (t1 ++ t2). rewrite E2, E1, <- (assoc_L (++)).
  split; [done|]. rewrite elem_of_app. tauto.
Qed.

Lemma sent_nack s s' e rest l l' :
  sent c s' e rest l l' -> (s' = s -> e <> 0) ->
  exists t, l_evs l' = l_evs l ++ t /\ EvStmt c s 0 ∉ t.
Proof.
  intros S H. exists [EvStmt c s' e]. split; [apply (st_evs _ _ _ _ _ _ S)|].
  rewrite list_elem_of_singleton. intros [= -> <-]. by apply H.
Qed.

(** A session statement is among [ss]. *)
Lemma ext_session ss l l' : ext c session_stmt l l' -> ext c (among ss) l l'.
Proof. apply ext_mono. by left. Qed.

(** A query that failed, then [spider_db_errorno]: an error, and nothing but
    session statements and refused statements of [s :: rest] were answered. *)
Record broke (b : bool) (mon : mon_ref) (s : stmt) (r : Z) (l l' : loc) : Prop := {
  br_ok : conn_okb b (l_conn l');
  br_ext : ext c (among [s]) l l';
  br_mon : need_mon (l_conn l') = Some mon;
  br_r : r <> 0;
  br_nack : forall s', ~ session_stmt s' -> exists t, l_evs l' = l_evs l ++ t /\ EvStmt c s' 0 ∉ t
}.

Lemma wp_query_errorno b s rest mon l (Q : Z -> loc -> Prop) (k : Z -> M world Z) :
  conn_okb b (l_conn l) ->
  (forall l1 l2, ready c mon l l1 -> sent c s 0 rest l1 l2 -> wp c (k 0) l2 Q) ->
  (forall e l2, e <> 0 -> is_Some (need_mon (l_conn l2)) ->
     (forall l', errorno_post c session_stmt l2 l' -> broke b mon s (errorno_value (l_conn l2)) l l') ->
     wp c (k e) l2 Q) ->
  wp c (spider_db_query c (s :: rest) mon ≫= k) l Q.
Proof.
  intros Hok H0 H1. wp_step.
  apply wp_db_query; [done|done|done|apply Hok|apply Hok|apply Hok|..].
  - intros r l1 Hr N. destruct (not_ready_ok _ _ _ _ Hok N) as [Hok1 Hm].
    apply H1; [done|by rewrite Hm|]. intros l' P.
    assert (ext c session_stmt l l') as X by
      (eapply ext_trans; [apply (nr_ext _ _ _ _ N)|apply (ep_ext _ _ _ _ P)]).
    split.
    + by eapply errorno_conn_ok.
    + by apply ext_session.
    + by rewrite (qview_mon _ _ (ep_qview _ _ _ _ P)).
    + intros Hv%errorno_value_0. apply Hv, (nr_failed _ _ _ _ N).
    + intros s' Hs'. by eapply ext_nack.
  - intros l1 e l2 R S. destruct (Z.eqb_spec e 0) as [->|He]; [by eapply H0|].
    pose proof (sent_mon _ _ _ _ _ _ _ R S) as Hm. apply H1; [done|by rewrite Hm|]. intros l' P.
    split.
    + eapply errorno_conn_ok; [exact P|]. by eapply sent_ok.
    + eapply ext_trans; [apply ext_session, (rd_ext _ _ _ _ R)|].
      eapply ext_trans; [eapply sent_ext; [|exact S]|apply ext_session, (ep_ext _ _ _ _ P)].
      right. by apply list_elem_of_here.
    + by rewrite (qview_mon _ _ (ep_qview _ _ _ _ P)).
    + intros Hv%errorno_value_0. apply Hv. right. by rewrite (st_errno _ _ _ _ _ _ S).
    + intros s' Hs. eapply nack_trans; [by eapply ext_nack; [apply (rd_ext _ _ _ _ R)|]|].
      eapply nack_trans; [by eapply sent_nack; [exact S|]|].
      by eapply ext_nack; [apply (ep_ext _ _ _ _ P)|].
Qed.

(** What was sent before and with an acknowledged statement. *)
Lemma ready_sent_acks mon s rest l l1 l2 :
  ready c mon l l1 -> sent c s 0 rest l1 l2 ->
  exists t0, l_evs l2 = l_evs l ++ t0 ++ acks c [s] /\ Forall (ev_in c session_stmt) t0 /\
    (queued_connect (l_conn l) = false -> t0 = acks c (queue_stmts (l_conn l) (l_thd l) (xid (l_trx l)))).
Proof.
  intros R S. destruct (rd_ext _ _ _ _ R) as [_ _ _ (t & E & F)]. exists t. split_and!; [|done|].
  - by rewrite (st_evs _ _ _ _ _ _ S), E, <- (assoc_L (++)).
  - intros Hc. apply (app_inv_head (l_evs l)). rewrite <- E. apply (proj1 (rd_evs _ _ _ _ R Hc)).
Qed.

(** The statement methods that send one query. *)
Lemma wp_mysql_simple s mon l :
  conn_ok (l_conn l) -> wp c (mysql_simple c [s] mon) l (fun r l' => did [s] s r l l').
Proof.
  intros Hok. unfold mysql_simple. apply (wp_query_errorno false); [done|..].
  - intros l1 l2 R S. simpl. wp_run. pose proof (ready_sent_acks _ _ _ _ _ _ R S) as Ha.
    pose proof (sent_ok _ _ _ _ _ _ _ _ Hok R S (fun _ => eq_refl)) as Hok2.
    split; [conn_ok_upd Hok2| |by intros _|done].
    eapply ext_trans; [by apply ext_session, (rd_ext _ _ _ _ R)|].
    eapply ext_trans; [eapply sent_ext; [|exact S]|ext_now]. right. by apply list_elem_of_here.
  - intros e l2 He Hm B. rewrite (proj2 (Z.eqb_neq e 0) He). simpl.
    apply (wp_errorno _ session_stmt); [done|]. intros l' [B1 B2 B3 B4 B5]%B. split; auto; done.
Qed.

(** The methods that send two statements. *)
Lemma wp_mysql_two s1 s2 mon l :
  s1 <> s2 -> conn_ok (l_conn l) ->
  wp c (mysql_two_statements c s1 s2 mon) l (fun r l' => did [s1; s2] s2 r l l').
Proof.
  intros Hs12 Hok. unfold mysql_two_statements. apply (wp_query_errorno false); [done|..].
  - intros l1 l2 R S. simpl. wp_step. wp_step. wp_step.
    destruct (ready_sent_acks _ _ _ _ _ _ R S) as (t0 & Ha & Hb & Hc).
    pose proof (sent_mon _ _ _ _ _ _ _ R S) as Hm.
    pose proof (st_pending _ _ _ _ _ _ S) as Hp. simpl in Hp.
    assert (ext c (among [s1; s2]) l l2) as X2.
    { eapply ext_trans; [by apply ext_session, (rd_ext _ _ _ _ R)|].
      eapply sent_ext; [|exact S]. right. by apply list_elem_of_here. }
    assert (Hin : s2 ∈ [s1; s2]) by set_solver.
    apply (wp_next_result _ session_stmt); rewrite ?Hm; [done|..].
    + intros Hd. by rewrite (st_db _ _ _ _ _ _ S) in Hd.
    + by rewrite Hp.
    + intros s' rest' l' Hp' S'. rewrite Hp in Hp'. injection Hp' as <- <-. wp_run.
      pose proof (ready_ok_sent _ _ _ _ _ _ _ _ _ _ Hok R S S') as Hok'.
      split; [conn_ok_upd Hok'| | |done].
      * eapply ext_trans; [exact X2|]. eapply ext_trans; [eapply sent_ext; [|exact S']|ext_now].
        by right.
      * intros _. exists t0. split_and!; [|done|done]. simpl.
        rewrite (st_evs _ _ _ _ _ _ S'), Ha. by rewrite <- !(assoc_L (++)).
    + intros s' rest' e l3 l' Hp' He S' P. rewrite Hp in Hp'. injection Hp' as <- <-. wp_run.
      assert (errorno_value (l_conn l3) <> 0) as Hne.
      { intros Hv%errorno_value_0. apply Hv. right. by rewrite (st_errno _ _ _ _ _ _ S'). }
      split; [| |done|].
      * pose proof (errorno_conn_ok false _ _ _ P (ready_ok_sent _ _ _ _ _ _ _ _ _ _ Hok R S S')) as Hok'.
        conn_ok_upd Hok'.
      * eapply ext_trans; [exact X2|]. eapply ext_trans; [eapply sent_ext; [|exact S']|]. { by right. }
        eapply ext_trans; [apply ext_session, (ep_ext _ _ _ _ P)|ext_now].
      * intros _ Hs. eapply nack_trans; [by eapply ext_nack; [apply (rd_ext _ _ _ _ R)|]|].
        eapply nack_trans; [by eapply sent_nack; [exact S|]|].
        eapply nack_trans; [by eapply sent_nack; [exact S'|]|].
        eapply ext_nack; [eapply ext_trans; [apply (ep_ext _ _ _ _ P)|ext_now]|done].
  - intros e l2 He Hm B. rewrite (proj2 (Z.eqb_neq e 0) He). simpl. wp_step.
    apply (wp_errorno _ session_stmt); [done|]. intros l3 [B1 B2 B3 B4 B5]%B. wp_step.
    rewrite (proj2 (Z.eqb_neq _ 0) B4). simpl.
    assert (Hfin : forall l', conn_ok (l_conn l') -> ext c session_stmt l3 l' ->
      did [s1; s2] s2 (errorno_value (l_conn l2)) l l').
    { intros l' Hok' X'. split; [done| |done|].
      - eapply ext_trans; [|by apply ext_session]. eapply ext_mono; [|exact B2].
        intros s [?|?]; [by left|right; set_solver].
      - intros _ Hs. eapply nack_trans; [by apply B5|]. by eapply ext_nack. }
    apply (wp_next_result _ session_stmt); rewrite ?B3; [done|..].
    + intros _. wp_run. apply Hfin; [conn_ok_upd B1|ext_now].
    + intros _ _. wp_run. apply Hfin; [conn_ok_upd B1|ext_now].
    + intros s' rest l' Hp. by rewrite (ok_pending _ _ B1) in Hp.
    + intros s' rest e' l4 l' Hp. by rewrite (ok_pending _ _ B1) in Hp.
Qed.

(** ** Rollback and commit *)

Lemma did_quiet ss s l l' :
  conn_ok (l_conn l') -> ext c (among ss) l l' -> l_evs l' = l_evs l -> forall r, r <> 0 -> did ss s r l l'.
Proof.
  intros Hok X E r Hr. split; [done|done|done|]. intros _ _. exists []. rewrite app_nil_r.
  split; [done|]. by apply not_elem_of_nil.
Qed.

(** Only statements of [S] were sent, and the connection is usable. *)
Record kept (S : stmt -> Prop) (l l' : loc) : Prop := {
  kp_ok : conn_ok (l_conn l');
  kp_ext : ext c S l l'
}.

(** A rollback returns 0 also when the connection was lost, which ends the
    transaction there. *)
Lemma wp_mysql_rollback mon l :
  conn_ok (l_conn l) ->
  wp c (mysql_rollback c mon) l
    (fun r l' => kept (among [Rollback]) l l').
Proof.
  intros Hok. unfold mysql_rollback. wp_step. wp_step.
  assert (X0 : ext c (among [Rollback]) l
    (l <| l_conn := (l_conn l) <| mta_conn_mutex_unlock_later := true |> |>)) by ext_now.
  assert (Hfin : forall l' l'', conn_okb true (l_conn l') -> ext c (among [Rollback]) l l' ->
    l_conn l'' = (l_conn l') <| mta_conn_mutex_unlock_later := false |> <| mta_file_pos := false |> ->
    lsess l'' = lsess l' -> l_evs l'' = l_evs l' ->
    kept (among [Rollback]) l l'').
  { intros l' l'' Hok' X' E1 E2 E3. split; [rewrite E1; conn_ok_upd Hok'|].
    eapply ext_trans; [exact X'|]. apply ext_quiet; by rewrite ?E1. }
  apply (wp_query_errorno true); [conn_ok_upd Hok|..].
  - intros l1 l2 R S. simpl. wp_run. eapply Hfin; [| |reflexivity..].
    + eapply sent_ok; [|exact R|exact S|done]. conn_ok_upd Hok.
    + eapply ext_trans; [exact X0|]. eapply ext_trans; [apply ext_session, (rd_ext _ _ _ _ R)|].
      eapply sent_ext; [|exact S]. right. by apply list_elem_of_here.
  - intros e l2 He Hm B. rewrite (proj2 (Z.eqb_neq e 0) He). simpl. do 3 wp_step.
    apply wp_bind, (wp_errorno _ session_stmt); [done|]. intros l3 [B1 B2 B3 B4 B5]%B.
    assert (ext c (among [Rollback]) l l3) as X3 by (by eapply ext_trans).
    wp_run; (eapply Hfin; [exact B1|exact X3|reflexivity..]).
Qed.

Lemma wp_mysql_commit mon l :
  conn_ok (l_conn l) ->
  wp c (mysql_commit c mon) l
    (fun r l' => kept (among [Commit]) l l').
Proof.
  intros Hok. unfold mysql_commit. wp_run.
  - eapply wp_conseq; [by apply wp_mysql_simple|]. intros r l' D. split; apply D.
  - split; [conn_ok_upd Hok|ext_now].
Qed.
End Specs.

Section Client.
  Context `{env : Env, vars : Vars}.

(** The client library reports unsigned error numbers, no allocation fails, and
    statements are really sent ([spider_dry_access] is off). *)
Record client_ok : Prop := {
  ck_nonneg : forall k, 0 <= env_stmt k;
  ck_oom : forall k, env_oom k = false;
  ck_dry : spider_param_dry_access = false
}.
End Client.
