(* ===== verification/ConnTheorems.v ===== *)
(** * Theorems on one connection

    What the engine records of a backend session against what the backend was
    told; lost connections; the attempts of a connect. *)

From stdpp Require Import base gmap list strings.
From Stdlib Require Import ZArith Lia.
From S2P Require Import Prelude ConnTree World ConnQueue DbXa SysTable ConnPool XaTrx Example ConnWp ConnSpec QuerySpec StmtSpec.
Local Open Scope spider_scope.
Local Open Scope Z_scope.

(** ** The session at the backend *)

Record session := mk_session {
  s_autocommit : bool;
  s_sql_log_off : bool;
  s_time_zone : Z;
  s_isolation : Z
}.

(** The effect of a statement the backend acknowledged. *)
Definition apply_stmt (b : session) (s : stmt) : session :=
  match s with
  | SetIsolation v => mk_session (s_autocommit b) (s_sql_log_off b) (s_time_zone b) v
  | SetAutocommit on => mk_session on (s_sql_log_off b) (s_time_zone b) (s_isolation b)
  | SetSqlLogOff on => mk_session (s_autocommit b) on (s_time_zone b) (s_isolation b)
  | SetTimeZone z => mk_session (s_autocommit b) (s_sql_log_off b) z (s_isolation b)
  | _ => b
  end.

Definition replay (c : cid) (b : session) (evs : list event) : session :=
  fold_left (fun b ev => match ev with
                         | EvStmt c' s e => if bool_decide (c' = c) && Z.eqb e 0 then apply_stmt b s else b
                         | _ => b
                         end) evs b.

(** A recorded value is -1 (NULL for the time zone) or the one of the session. *)
Record agrees (n : SPIDER_CONN) (b : session) : Prop := {
  ag_autocommit : autocommit n = -1 \/ autocommit n = Z.b2z (s_autocommit b);
  ag_sql_log_off : sql_log_off n = -1 \/ sql_log_off n = Z.b2z (s_sql_log_off b);
  ag_time_zone : time_zone n = None \/ time_zone n = Some (s_time_zone b);
  ag_isolation : trx_isolation n = -1 \/ trx_isolation n = s_isolation b
}.

(** The session has what is queued. *)
Record requested (n : SPIDER_CONN) (b : session) : Prop := {
  rq_autocommit : queued_autocommit n = true -> s_autocommit b = queued_autocommit_val n;
  rq_sql_log_off : queued_sql_log_off n = true -> s_sql_log_off b = queued_sql_log_off_val n;
  rq_time_zone : queued_time_zone n = true -> queued_time_zone_val n = Some (s_time_zone b);
  rq_isolation : queued_trx_isolation n = true -> s_isolation b = queued_trx_isolation_val n
}.

Section Session.
  Context `{env : Env, vars : Vars}.

Lemma replay_stmts c ss : forall b, replay c b (map (fun s => EvStmt c s 0) ss) = fold_left apply_stmt ss b.
Proof.
  induction ss as [|s ss IH]; intros b; [done|]. cbn [map]. unfold replay in *. cbn [fold_left].
  rewrite bool_decide_true by done. apply IH.
Qed.

Lemma fold_queue n thd x b : fold_left apply_stmt (queue_stmts n thd x) b =
  mk_session
    (if needs_autocommit n then queued_autocommit_val n || spider_param_ignore_autocommit else s_autocommit b)
    (if needs_sql_log_off n then queued_sql_log_off_val n else s_sql_log_off b)
    (if needs_time_zone n then default 0 (queued_time_zone_val n) else s_time_zone b)
    (if needs_semi_trx_isolation n then queued_semi_trx_isolation_val n
     else if needs_trx_isolation n then queued_trx_isolation_val n else s_isolation b).
Proof.
  unfold queue_stmts, opt_stmt. rewrite !fold_left_app. destruct b.
  destruct (needs_trx_isolation n), (needs_semi_trx_isolation n), (needs_autocommit n), (needs_sql_log_off n), (needs_time_zone n),
    (queued_trx_start n && trx_transmit_begin_commit thd), (queued_xa_start n); reflexivity.
Qed.

(** A flag that is sent if the recorded value is another one. *)
Lemma flag_agrees (q v b : bool) (rec : Z) :
  rec = -1 \/ rec = Z.b2z b ->
  let b' := if q && ((v && negb (Z.eqb rec 1)) || (negb v && negb (Z.eqb rec 0))) then v else b in
  ((if q then if v then 1 else 0 else rec) = -1 \/ (if q then if v then 1 else 0 else rec) = Z.b2z b') /\
  (q = true -> b' = v).
Proof.
  intros H. destruct q; simpl; [|done]. destruct v, b; simpl in *; destruct H as [-> | ->]; simpl; auto.
Qed.

(** The session after the queue was sent. *)
Lemma queue_agrees n n' thd x b :
  spider_param_ignore_autocommit = false -> queue_ok n -> queued_semi_trx_isolation n = false ->
  agrees n b -> settings n' = settings_done thd n ->
  let b' := fold_left apply_stmt (queue_stmts n thd x) b in agrees n' b' /\ requested n b'.
Proof.
  intros Hig Hq Hsemi [A1 A2 A3 A4] Hs. rewrite fold_queue, Hig. cbv zeta. unfold settings, settings_done in Hs.
  assert (needs_semi_trx_isolation n = false) as Hns by (unfold needs_semi_trx_isolation; by rewrite Hsemi).
  rewrite Hns, Hsemi, Hig in Hs. injection Hs as E1 E2 E3 E4. rewrite Hns.
  unfold needs_autocommit, needs_sql_log_off, needs_time_zone, needs_trx_isolation. rewrite Hig, Hsemi. simpl.
  rewrite !orb_false_r in *. rewrite !andb_true_r in *.
  destruct (flag_agrees (queued_autocommit n) (queued_autocommit_val n) _ _ A1) as [F1 F2].
  destruct (flag_agrees (queued_sql_log_off n) (queued_sql_log_off_val n) _ _ A2) as [F3 F4].
  split; split; simpl; rewrite ?E1, ?E2, ?E3, ?E4; try done.
  - destruct (queued_time_zone n) eqn:Eq; simpl; [|done]. right. destruct (qk_tz _ Hq Eq) as [z Hz]. rewrite Hz.
    destruct (bool_decide_reflect (Some z = time_zone n)) as [E|E]; simpl; [|done]. rewrite E. destruct A3; congruence.
  - destruct (queued_trx_isolation n) eqn:Eq; simpl; [|done]. right.
    destruct (Z.eqb_spec (queued_trx_isolation_val n) (trx_isolation n)) as [E|E]; simpl; [|done].
    pose proof (qk_iso _ Hq Eq). destruct A4; lia.
  - intros Eq. rewrite Eq. simpl. destruct (qk_tz _ Hq Eq) as [z Hz]. rewrite Hz.
    destruct (bool_decide_reflect (Some z = time_zone n)) as [E|E]; simpl; [|done]. rewrite E. destruct A3; congruence.
  - intros Eq. rewrite Eq. simpl. destruct (Z.eqb_spec (queued_trx_isolation_val n) (trx_isolation n)) as [E|E]; simpl; [|done].
    pose proof (qk_iso _ Hq Eq). destruct A4; lia.
Qed.

(** ** Healthy backends *)

Lemma done_lost thd n : server_lost (queue_done thd n) = server_lost n.
Proof. pose proof (queue_done_view thd n) as H. unfold done_view in H. congruence. Qed.

#[local] Opaque queue_done.

Lemma live_drain c q fuel : (forall k, env_stmt k = 0) -> forall l,
  (length q < fuel)%nat -> pending (l_conn l) = q -> db_conn (l_conn l) = true -> last_errno (l_conn l) = 0 ->
  wp c (drain_results fuel c) l (fun r l' => r = -1 /\ server_lost (l_conn l') = server_lost (l_conn l)).
Proof.
  intros Hack. revert q. induction fuel as [|fuel IH]; intros q l Hf Hp Hd He; [lia|]. cbn [drain_results].
  wp_step. wp_step. rewrite He. simpl. unfold next_result. do 3 wp_step. rewrite Hd. simpl. do 2 wp_step. rewrite Hp.
  destruct q as [|s q]; wp_run; [done| |by rewrite Hack in *].
  eapply wp_conseq; [apply (IH q); simpl in *; try done; lia|]. by intros r l' [-> ->].
Qed.

Lemma live_queue_send c l :
  (forall k, env_stmt k = 0) -> client_ok -> queue_ok (l_conn l) -> queued_connect (l_conn l) = false ->
  server_lost (l_conn l) = false ->
  wp c (queue_action_send c) l (fun r l' => r = 0 /\ server_lost (l_conn l') = false).
Proof.
  intros Hack [Hn Hoom Hdry] Hok Hc Hl. unfold queue_action_send. do 2 wp_step. rewrite Hl.
  assert (db_conn (l_conn l) = true) as Hd by (pose proof (qk_handle _ Hok) as Hh; by rewrite Hc, Hl in Hh).
  do 4 wp_step. apply wp_bind, wp_queue_sql; [done..|]. intros k. simpl (l_trx _).
  destruct (queue_stmts (l_conn l) (l_thd l) (xid (l_trx l))) as [|s rest] eqn:Hq.
  { wp_run. split; [done|]. by rewrite done_lost. }
  wp_step. apply wp_exec_query; [done|congruence|]. intros e l1 _ Hs. destruct (st_env _ _ _ _ _ _ Hs) as [k' K].
  rewrite Hack in K. subst e. destruct Hs as [C Qv St L D E P T V _]. cbn [negb Z.eqb]. apply wp_bind.
  eapply wp_conseq; [exact (live_drain c rest (S (length (s :: rest))) Hack l1 ltac:(simpl; lia) P D E)|].
  simpl. intros r l' [-> Hl']. simpl. wp_run. split; [done|]. by rewrite done_lost, Hl', L.
Qed.

Lemma live_before_query c mon l :
  (forall k, env_stmt k = 0) -> client_ok -> queue_ok (l_conn l) -> mta_conn_mutex_lock_already (l_conn l) = false ->
  queued_connect (l_conn l) = false -> server_lost (l_conn l) = false ->
  wp c (spider_db_before_query c mon) l (fun r _ => r = 0).
Proof.
  intros Hack Hk Hok Hm Hc Hl. unfold spider_db_before_query. wp_run; [|congruence].
  unfold spider_db_conn_queue_action, spider_db_ping. do 2 wp_step. simpl (queued_connect _). rewrite Hc. wp_run.
  all: eapply wp_conseq; [apply live_queue_send; [done|done|destruct Hok; by split|done|done]|].
  all: intros r l' [-> Hl']; wp_run; by rewrite Hl'.
Qed.

#[local] Transparent queue_done.

(** C22. Before a query, [spider_db_before_query] brings the backend session to
    what was queued: if what is recorded of the session agreed with it, it
    returns 0 only when the session has every queued setting, in what the backend
    acknowledged, and what is recorded agrees again; and it does return 0 when the
    backend acknowledges every statement and the connection is not lost. No connect
    and no isolation level for semi-transactions is queued, and autocommit is not
    ignored ([spider_ignore_autocommit] off). *)
Theorem session_settings_agree c n w mon b :
  client_ok -> w_conns w !! c = Some n -> conn_ok n -> queued_connect n = false -> queued_semi_trx_isolation n = false ->
  spider_param_ignore_autocommit = false -> agrees n b ->
  exists r w' n' evs, spider_db_before_query c mon w = Some (r, w') /\ w_conns w' !! c = Some n' /\
    w_trace w' = w_trace w ++ evs /\ Forall (ev_in c session_stmt) evs /\
    (r = 0 -> agrees n' (replay c b evs) /\ requested n (replay c b evs) /\ queue_ok n' /\ server_lost n' = false) /\
    ((forall k, env_stmt k = 0) -> server_lost n = false -> r = 0).
Proof.
  intros Hk Hc Hok Hqc Hsemi Hig Ha. destruct Hk as [Hn Hoom Hdry] eqn:HK. clear HK. pose proof (ok_queue _ _ Hok) as Hq.
  destruct (wp_frame c (spider_db_before_query c mon) w n (fun r l' =>
    Forall (ev_in c session_stmt) (l_evs l') /\
    (r = 0 -> agrees (l_conn l') (replay c b (l_evs l')) /\ requested n (replay c b (l_evs l')) /\
              queue_ok (l_conn l') /\ server_lost (l_conn l') = false)) Hc) as (r & l' & E & H1 & H2).
  - apply wp_before_query; [done..|exact (ok_lock _ _ Hok)|done| |].
    + intros l' R. destruct (ext_evs _ _ _ _ (rd_ext _ _ _ _ R)) as (t & Et & Ft). destruct (rd_evs _ _ _ _ R Hqc) as [Ev Hs].
      simpl in Et. rewrite Et. split; [done|]. intros _. rewrite Ev in Et. simpl in Et. rewrite <- Et, replay_stmts.
      destruct (queue_agrees _ _ _ (xid (w_trx w)) _ Hig Hq Hsemi Ha Hs). split_and!; [done..|apply R|apply R].
    + intros r l' Hr N. destruct (ext_evs _ _ _ _ (nr_ext _ _ _ _ N)) as (t & Et & Ft). simpl in Et. by rewrite Et.
  - exists r, (put c l' w), (l_conn l'), (l_evs l'). split_and!; [done|apply lookup_insert_eq|done|done|done|].
    intros Hack Hl.
    destruct (wp_frame c (spider_db_before_query c mon) w n _ Hc (live_before_query c mon (loc_of n w) Hack Hk Hq (ok_lock _ _ Hok) Hqc Hl))
      as (r' & l'' & E' & Hr). rewrite E in E'. by injection E' as -> _.
Qed.

(** ** Lost connections *)

(** No statement is sent on a lost connection: a query on it fails with
    CR_SERVER_GONE_ERROR, it stays lost and keeps what is queued, until a connect
    is queued for it. *)
Theorem lost_connection_sends_nothing c n w q mon :
  w_conns w !! c = Some n -> server_lost n = true -> queued_connect n = false -> in_before_query n = false ->
  exists w' n', spider_db_query c q mon w = Some (CR_SERVER_GONE_ERROR, w') /\ w_conns w' !! c = Some n' /\
    server_lost n' = true /\ queued_xa_start n' = queued_xa_start n /\ queued_trx_start n' = queued_trx_start n /\
    settings n' = settings n /\ w_trace w' = w_trace w /\ w_tick w' = w_tick w.
Proof.
  intros Hc Hl Hqc Hb.
  destruct (wp_frame c (spider_db_query c q mon) w n (fun r l' => r = CR_SERVER_GONE_ERROR /\ l_evs l' = [] /\
    server_lost (l_conn l') = true /\ queued_xa_start (l_conn l') = queued_xa_start n /\
    queued_trx_start (l_conn l') = queued_trx_start n /\ settings (l_conn l') = settings n /\ l_tick l' = w_tick w) Hc)
    as (r & l' & E & -> & H1 & H2 & H3 & H4 & H5 & H6).
  - unfold spider_db_query, spider_db_before_query, spider_db_conn_queue_action, queue_action_send, spider_db_ping. wp_run; simpl in *; congruence || done.
  - exists (put c l' w), (l_conn l'). split_and!; [done|apply lookup_insert_eq|done..| |done]. simpl. by rewrite H1, app_nil_r.
Qed.

(** ** Connecting *)

Definition is_attempt (ev : event) : bool := match ev with EvConnect _ _ => true | _ => false end.
Definition attempts (evs : list event) : nat := length (List.filter is_attempt evs).

(** What a connect does to the handle: the events are attempts and closes of this
    connection, and a failed connect leaves no open handle behind. *)
Record connected (c : cid) (bound : nat) (r : Z) (l l' : loc) (evs : list event) : Prop := {
  cn_evs : l_evs l' = l_evs l ++ evs;
  cn_bound : (attempts evs <= bound)%nat;
  cn_events : Forall (fun ev => ev = EvDisconnect c \/ exists e, ev = EvConnect c e /\ (e = 0 -> r = 0)) evs;
  cn_done : r = 0 -> db_conn (l_conn l') = true /\ last_errno (l_conn l') = 0 /\
              (spider_param_dry_access = false -> last evs = Some (EvConnect c 0));
  cn_failed : r <> 0 -> db_conn (l_conn l) = false -> db_conn (l_conn l') = false }.

Lemma connected_quiet c bound r l l' :
  r <> 0 -> l_evs l' = l_evs l -> db_conn (l_conn l') = db_conn (l_conn l) -> connected c bound r l l' [].
Proof. intros Hr He Hd. split; simpl; rewrite ?app_nil_r; try done; [unfold attempts; simpl; lia|congruence]. Qed.

(** A failed attempt, and what follows it. *)
Lemma connected_after c bound r e l l1 l' evs :
  e <> 0 -> l_evs l1 = (l_evs l ++ [EvConnect c e]) ++ [EvDisconnect c] -> db_conn (l_conn l1) = false ->
  connected c bound r l1 l' evs -> connected c (S bound) r l l' (EvConnect c e :: EvDisconnect c :: evs).
Proof.
  intros He Hl Hd [C1 C2 C3 C4 C5]. split.
  - by rewrite C1, Hl, <- !(assoc_L (++)).
  - unfold attempts in *. simpl. lia.
  - constructor; [right; by exists e|]. constructor; [by left|done].
  - intros Hr. destruct (C4 Hr) as (? & ? & Hlast). split_and!; [done..|]. intros Hdry. specialize (Hlast Hdry). by destruct evs.
  - intros Hr _. by apply C5.
Qed.

Lemma wp_failed c e l : is_Some (need_mon (l_conn l)) ->
  wp c (connect_failed c e) l (fun r l' => r <> 0 /\ l_evs l' = l_evs l /\ l_conn l' = l_conn l).
Proof. intros [m Hm]. unfold connect_failed. wp_run; by split_and!. Qed.

Lemma connected_ok c bound l l' evs :
  l_evs l' = l_evs l ++ evs -> db_conn (l_conn l') = true -> last_errno (l_conn l') = 0 ->
  evs = [] /\ spider_param_dry_access = true \/ evs = [EvConnect c 0] -> connected c (S bound) 0 l l' evs.
Proof.
  intros E1 E2 E3 E4. split; try done.
  - destruct E4 as [[-> _]| ->]; unfold attempts; simpl; lia.
  - destruct E4 as [[-> _]| ->]; [constructor|]. constructor; [right; by exists 0|constructor].
  - intros _. split_and!; [done..|]. destruct E4 as [[_ ->]| ->]; done.
Qed.

Lemma wp_connect_attempts c retry : forall l,
  is_Some (need_mon (l_conn l)) ->
  wp c (mysql_connect c retry) l (fun r l' => exists evs, connected c (S retry) r l l' evs).
Proof.
  induction retry as [|retry IH]; intros l Hm; cbn [mysql_connect]; unfold mysql_disconnect; wp_run;
    try (exists []; by apply connected_quiet);
    try (eexists; eapply connected_ok; simpl; [symmetry; apply app_nil_r|done|done|by left]);
    try (eexists; eapply connected_ok; simpl; [reflexivity|done|done|right; congruence]);
    try match goal with |- exists _, connected _ _ _ _ ?l2 _ =>
      eexists; eapply (connected_after _ _ _ _ _ l2 l2); [done|reflexivity|done|by apply connected_quiet] end.
  all: eapply wp_conseq; [first [apply wp_failed; exact Hm|apply IH; exact Hm]|]; simpl; intros r l'.
  all: try (intros (Hr & He & Hc); eexists; eapply (connected_after _ _ _ _ _ l' l'); [|exact He|by rewrite Hc|by apply connected_quiet]; done).
  all: intros [evs Hevs]; eexists; eapply connected_after; [| | |exact Hevs]; done.
Qed.

(** A connect makes at most one attempt more than the retry count, ends
    with an open handle after an acknowledged attempt if it returns 0, and leaves
    no open handle behind if it fails. *)
Theorem connect_attempts_bounded c n w retry :
  w_conns w !! c = Some n -> is_Some (need_mon n) ->
  exists r w' n' evs, mysql_connect c retry w = Some (r, w') /\ w_conns w' !! c = Some n' /\ w_trace w' = w_trace w ++ evs /\
    (attempts evs <= S retry)%nat /\
    (r = 0 -> db_conn n' = true /\ (spider_param_dry_access = false -> last evs = Some (EvConnect c 0))) /\
    (r <> 0 -> EvConnect c 0 ∉ evs /\ (db_conn n = false -> db_conn n' = false)).
Proof.
  intros Hc Hm. destruct (wp_frame c (mysql_connect c retry) w n _ Hc (wp_connect_attempts c retry (loc_of n w) Hm)) as (r & l' & E & evs & [C1 C2 C3 C4 C5]).
  exists r, (put c l' w), (l_conn l'), evs. split_and!; [done|apply lookup_insert_eq|simpl in *; by rewrite C1|done|naive_solver|].
  intros Hr. split; [|by apply C5]. intros Hin. apply (proj1 (Forall_forall _ _) C3) in Hin. naive_solver.
Qed.
End Session.

(** ** Examples *)

(** Autocommit is on, the isolation level is 2; level 1 and no autocommit are queued. *)
Definition session_conn : SPIDER_CONN :=
  (example_conn "a") <| autocommit := 1 |> <| trx_isolation := 2 |> <| sql_log_off := -1 |> <| time_zone := None |>
    <| queued_trx_isolation := true |> <| queued_trx_isolation_val := 1 |>
    <| queued_autocommit := true |> <| queued_autocommit_val := false |>.

Definition session_world : world := example_single <| w_conns := {[ 1%positive := session_conn ]} |>.

Definition session_start : session := mk_session true false 0 2.

(** A queue that is sent only in part: the first queued setting is
    acknowledged, the second one is refused.  Nothing of it is recorded, so a
    later request for the recorded value is not sent although the session has
    another one. *)
Theorem partial_queue_diverges :
  exists w n, (e ← @spider_db_before_query (example_env (fun k => if Nat.eqb k 4 then 1205 else 0) (fun _ => 0)) plain_vars 1%positive MonLocal;
         spider_conn_queue_trx_isolation 1%positive 2;;
         e' ← @spider_db_before_query (example_env (fun _ => 0) (fun _ => 0)) plain_vars 1%positive MonLocal;
         mret (e, e')) session_world = Some ((1205, 0), w) /\
    w_conns w !! 1%positive = Some n /\ trx_isolation n = 2 /\ queued_trx_isolation n = false /\
    s_isolation (replay 1%positive session_start (w_trace w)) = 1.
Proof. eexists _, _. split; [vm_compute; reflexivity|]. split; [vm_compute; reflexivity|]. by vm_compute. Qed.

Section Witnesses.
Local Instance example_env_ok : Env := ok_env.
Local Instance example_vars_ok : Vars := plain_vars.

Lemma session_conn_ok : conn_ok session_conn.
Proof.
  split; try reflexivity. split; try reflexivity; try discriminate; intros _; vm_compute; split; discriminate.
Qed.

(** The backend acknowledges: 0 is returned, and the session has the queued
    isolation level and autocommit mode. *)
Lemma session_settings_agree_witness :
  exists w' n' evs, spider_db_before_query 1%positive MonLocal session_world = Some (0, w') /\
    w_conns w' !! 1%positive = Some n' /\ w_trace w' = w_trace session_world ++ evs /\
    agrees n' (replay 1%positive session_start evs) /\ requested session_conn (replay 1%positive session_start evs) /\
    queue_ok n' /\ server_lost n' = false.
Proof.
  destruct (session_settings_agree 1%positive session_conn session_world MonLocal session_start)
    as (r & w' & n' & evs & E & Hc & Ht & _ & Hr & Hlive); try reflexivity.
  - by split.
  - apply session_conn_ok.
  - split; vm_compute; auto.
  - assert (r = 0) as -> by (apply Hlive; reflexivity).
    exists w', n', evs. split; [exact E|]. split; [exact Hc|]. split; [exact Ht|]. exact (Hr eq_refl).
Defined.

Definition lost_world : world := example_single <| w_conns := {[ 1%positive := (example_conn "a") <| server_lost := true |> ]} |>.

Lemma lost_connection_sends_nothing_witness :
  exists w' n', spider_db_query 1%positive [Commit] MonLocal lost_world = Some (CR_SERVER_GONE_ERROR, w') /\
    w_conns w' !! 1%positive = Some n' /\ server_lost n' = true /\
    queued_xa_start n' = queued_xa_start ((example_conn "a") <| server_lost := true |>) /\
    queued_trx_start n' = queued_trx_start ((example_conn "a") <| server_lost := true |>) /\
    settings n' = settings ((example_conn "a") <| server_lost := true |>) /\
    w_trace w' = w_trace lost_world /\ w_tick w' = w_tick lost_world.
Proof.
  apply (lost_connection_sends_nothing 1%positive ((example_conn "a") <| server_lost := true |>) lost_world [Commit] MonLocal); reflexivity.
Defined.

(** Three refused attempts, with two retries. *)
Definition refusing_env : Env := {|
  env_stmt := fun _ => 0; env_connect := fun _ => CR_CONN_HOST_ERROR; env_killed := fun _ => false;
  env_server_found := fun _ => true; env_tz := fun _ => None; env_charset_found := fun _ => true;
  env_oom := fun _ => false; env_engine := fun _ => 0; env_time := fun _ => 1000; env_thread_id := fun _ => 7;
  env_modify_version := fun _ => 0; env_server_version := fun _ => 0; env_timer := fun _ => 5 |}.

Lemma connect_attempts_bounded_witness :
  exists r w' n' evs, @mysql_connect refusing_env plain_vars 1%positive 2 example_single = Some (r, w') /\
    w_conns w' !! 1%positive = Some n' /\ w_trace w' = w_trace example_single ++ evs /\
    (attempts evs <= 3)%nat /\
    (r = 0 -> db_conn n' = true /\ (@spider_param_dry_access plain_vars = false -> last evs = Some (EvConnect 1%positive 0))) /\
    (r <> 0 -> EvConnect 1%positive 0 ∉ evs /\ (db_conn (example_conn "a") = false -> db_conn n' = false)).
Proof. apply (@connect_attempts_bounded refusing_env plain_vars 1%positive (example_conn "a") example_single 2); [reflexivity|by eexists]. Defined.
End Witnesses.
