(* ===== verification/PartSpec.v ===== *)
(** * What a participant of the transaction does

    Specifications, for one connection, of the [spider_db_xa_*] functions, of
    [spider_end_trx] and of the bodies of the loops over the participants. *)

From stdpp Require Import base gmap list strings.
From Stdlib Require Import ZArith Lia.
From S2P Require Import Prelude ConnTree World ConnQueue DbXa SysTable ConnPool XaTrx.
From S2P Require Import ConnWp ConnSpec QuerySpec StmtSpec.
Local Open Scope spider_scope.
Local Open Scope Z_scope.

(** The fields that say how the connection takes part in the transaction. *)
Definition pview (n : SPIDER_CONN) :=
  (join_trx n, disable_xa n, is_xa_commit_one_phase n, conn_key n, tgt_host n, tgt_port n,
   ip_port_conn n, error_mode n).

(** Statement [s] was acknowledged on [c], or never was, between [l] and [l']. *)
Definition acked (c : cid) (s : stmt) (l l' : loc) : Prop :=
  exists t, l_evs l' = l_evs l ++ t /\ EvStmt c s 0 ∈ t.
Definition nacked (c : cid) (s : stmt) (l l' : loc) : Prop :=
  exists t, l_evs l' = l_evs l ++ t /\ EvStmt c s 0 ∉ t.

Record stays (c : cid) (S : stmt -> Prop) (l l' : loc) : Prop := {
  sy_ok : conn_ok (l_conn l');
  sy_pview : pview (l_conn l') = pview (l_conn l);
  sy_settled : settled (l_conn l) (l_conn l');
  sy_sess : lsess l' = lsess l;
  sy_evs : exists t, l_evs l' = l_evs l ++ t /\ Forall (ev_in c S) t
}.

Lemma kept_stays c S l l' : kept c S l l' -> stays c S l l'.
Proof.
  intros [O [C D T E]]. split; try done. unfold core in C. unfold pview. congruence.
Qed.

Lemma stays_refl c S l : conn_ok (l_conn l) -> stays c S l l.
Proof.
  intros H. split; [done|done|apply settled_refl|done|].
  exists []. by rewrite app_nil_r.
Qed.

Lemma stays_trans c S l1 l2 l3 : stays c S l1 l2 -> stays c S l2 l3 -> stays c S l1 l3.
Proof.
  intros [O1 P1 D1 T1 (t1 & E1 & F1)] [O2 P2 D2 T2 (t2 & E2 & F2)]. split.
  - done.
  - by rewrite P2.
  - by eapply settled_trans.
  - by rewrite T2.
  - exists (t1 ++ t2). rewrite E2, E1, <- (assoc_L (++)). split; [done|by apply Forall_app].
Qed.

Lemma stays_mono c (S S' : stmt -> Prop) l l' :
  (forall s, S s -> S' s) -> stays c S l l' -> stays c S' l l'.
Proof.
  intros H [O P D T (t & E & F)]. split; try done. exists t. split; [done|].
  eapply Forall_impl; [exact F|]. intros ev. by apply ev_in_mono.
Qed.

(** Assignments outside the fields above. *)
Lemma stays_quiet c S l l' :
  conn_ok (l_conn l') -> pview (l_conn l') = pview (l_conn l) ->
  settled (l_conn l) (l_conn l') -> lsess l' = lsess l -> l_evs l' = l_evs l ->
  stays c S l l'.
Proof. intros ?????. split; try done. exists []. by rewrite app_nil_r. Qed.

(** [stays] after assignments, from [H : conn_ok _] before them. *)
Ltac stays_upd H :=
  apply stays_quiet; [conn_ok_upd H|reflexivity|by split|reflexivity|reflexivity].

Section Participants.
  Context `{env : Env, vars : Vars} (c : cid).
  Context (stmt_nonneg : forall k, 0 <= env_stmt k).
  Context (no_oom : forall k, env_oom k = false).
  Context (no_dry : spider_param_dry_access = false).

Lemma did_stays ss s r l l' : did c ss s r l l' -> stays c (among ss) l l'.
Proof. intros D. apply kept_stays. split; apply D. Qed.

Lemma did_acked ss s r l l' : did c ss s r l l' -> r = 0 -> s ∈ ss -> acked c s l l'.
Proof.
  intros D Hr Hs. destruct (di_ack _ _ _ _ _ _ D Hr) as (t0 & E & _ & _).
  exists (t0 ++ acks c ss). split; [done|]. apply elem_of_app. right.
  apply list_elem_of_fmap. by exists s.
Qed.

(** ** The statements of the protocol *)

Lemma wp_xa_end_and_prepare x l :
  conn_ok (l_conn l) ->
  wp c (spider_db_xa_end_and_prepare c x) l (fun r l' =>
    stays c (among [XaEnd x; XaPrepare x]) l l' /\
    (r = 0 -> xa_sendable (l_conn l) = true -> acked c (XaPrepare x) l l')).
Proof.
  intros Hok. unfold spider_db_xa_end_and_prepare. wp_run.
  - unfold refuse_failover. wp_run. split; [stays_upd Hok|done].
  - eapply wp_conseq; [by apply wp_mysql_two|]. intros r l' D.
    split; [exact (did_stays _ _ _ _ _ D)|]. intros Hr _. eapply did_acked; [exact D|done|].
    apply list_elem_of_further, list_elem_of_here.
  - split; [by apply stays_refl|done].
Qed.

(** The connection a one-phase commit is sent on. *)
Definition one_phase_conn (l : loc) : loc :=
  if xa_sendable (l_conn l)
  then l <| l_conn := (l_conn l) <| is_xa_commit_one_phase := true |> |> else l.

Lemma wp_xa_commit_one_phase x l :
  conn_ok (l_conn l) ->
  wp c (spider_db_xa_commit_one_phase c x) l (fun r l' =>
    stays c (among [XaEnd x; XaCommitOnePhase x]) (one_phase_conn l) l' /\
    (r = 0 -> xa_sendable (l_conn l) = true -> acked c (XaCommitOnePhase x) l l') /\
    (r <> 0 -> nacked c (XaCommitOnePhase x) l l') /\
    (xa_sendable (l_conn l) = false -> l' = l)).
Proof.
  intros Hok. unfold spider_db_xa_commit_one_phase, one_phase_conn. wp_run.
  - eapply wp_conseq; [apply wp_mysql_two; [done..|conn_ok_upd Hok]|]. intros r l' D. split_and!.
    + exact (did_stays _ _ _ _ _ D).
    + intros Hr _. eapply did_acked in D; [exact D|done|]. apply list_elem_of_further, list_elem_of_here.
    + intros Hr. exact (di_nack _ _ _ _ _ _ D Hr (fun H => H)).
    + done.
  - split_and!; [by apply stays_refl|done..].
Qed.

Lemma wp_xa_commit x l :
  conn_ok (l_conn l) ->
  wp c (spider_db_xa_commit c x) l (fun r l' =>
    stays c (among [XaCommit x]) l l' /\
    (is_xa_commit_one_phase (l_conn l) = true -> r = 0 /\ l' = l) /\
    (r = 0 -> is_xa_commit_one_phase (l_conn l) = false -> xa_sendable (l_conn l) = true ->
       acked c (XaCommit x) l l')).
Proof.
  intros Hok. unfold spider_db_xa_commit. wp_run.
  - eapply wp_conseq; [by apply wp_mysql_simple|]. intros r l' D. split_and!.
    + exact (did_stays _ _ _ _ _ D).
    + congruence.
    + intros Hr _ _. eapply did_acked; [exact D|done|]. apply list_elem_of_here.
  - split_and!; [by apply stays_refl|done|]. intros _ Hf Hs. by rewrite Hf, Hs in Heqb.
Qed.

Lemma wp_xa_end x l :
  conn_ok (l_conn l) ->
  wp c (spider_db_xa_end c x) l (fun r l' => stays c (among [XaEnd x]) l l').
Proof.
  intros Hok. unfold spider_db_xa_end. wp_run; [|by apply stays_refl].
  eapply wp_conseq; [by apply wp_mysql_simple|]. intros r l' D. exact (did_stays _ _ _ _ _ D).
Qed.

Lemma wp_xa_rollback x l :
  conn_ok (l_conn l) ->
  wp c (spider_db_xa_rollback c x) l (fun r l' =>
    stays c (among [XaRollback x]) l l' /\
    (r = 0 -> xa_sendable (l_conn l) = true -> acked c (XaRollback x) l l')).
Proof.
  intros Hok. unfold spider_db_xa_rollback. wp_run; [|by split; [apply stays_refl|]].
  eapply wp_conseq; [by apply wp_mysql_simple|]. intros r l' D.
  split; [exact (did_stays _ _ _ _ _ D)|]. intros Hr _.
  eapply did_acked; [exact D|done|]. apply list_elem_of_here.
Qed.

Lemma wp_db_rollback l :
  conn_ok (l_conn l) ->
  wp c (spider_db_rollback c) l (fun r l' => stays c (among [Rollback]) l l').
Proof.
  intros Hok. unfold spider_db_rollback. wp_run.
  - eapply wp_conseq; [by apply wp_mysql_rollback|]. intros r l' K. pose proof (kp_ok _ _ _ _ K) as Hok'.
    apply kept_stays in K. wp_run; [done|]. eapply stays_trans; [exact K|]. stays_upd Hok'.
  - stays_upd Hok.
Qed.

Lemma wp_db_commit l :
  conn_ok (l_conn l) ->
  wp c (spider_db_commit c) l (fun r l' => stays c (among [Commit]) l l').
Proof.
  intros Hok. unfold spider_db_commit. wp_run.
  - unfold refuse_failover. wp_run. stays_upd Hok.
  - eapply wp_conseq; [by apply wp_mysql_commit|]. intros r l' K. pose proof (kp_ok _ _ _ _ K) as Hok'.
    apply kept_stays in K. wp_run; [done|]. eapply stays_trans; [exact K|]. stays_upd Hok'.
  - stays_upd Hok.
Qed.

(** ** The end of the transaction on a connection *)

Lemma wp_unlock_tables l :
  conn_ok (l_conn l) ->
  wp c (spider_db_unlock_tables c) l (fun r l' => stays c (among [UnlockTables]) l l').
Proof.
  intros Hok. unfold spider_db_unlock_tables, spider_conn_set_timeout.
  wp_run; [by apply stays_refl|stays_upd Hok|].
  match goal with |- wp _ _ ?l1 _ => assert (stays c (among [UnlockTables]) l l1) as K end.
  { apply stays_quiet; [|by repeat case_match|by split; repeat case_match|done|done].
    repeat case_match; conn_ok_upd Hok. }
  eapply wp_conseq; [apply wp_mysql_simple; [done..|apply K]|]. intros r l' D.
  eapply stays_trans; [exact K|]. exact (did_stays _ _ _ _ _ D).
Qed.

Lemma wp_end_trx_unlock l :
  conn_ok (l_conn l) ->
  wp c (end_trx_unlock c) l (fun r l' => stays c (among [UnlockTables]) l l').
Proof.
  intros Hok. unfold end_trx_unlock. wp_run; [stays_upd Hok| |stays_upd Hok|by apply stays_refl].
  match goal with |- wp _ _ ?l1 _ => assert (stays c (among [UnlockTables]) l l1) as K end.
  { stays_upd Hok. }
  eapply wp_conseq; [apply wp_unlock_tables, K|]. intros r l' K'. wp_run. by eapply stays_trans.
Qed.

Lemma wp_end_trx l :
  conn_ok (l_conn l) ->
  wp c (spider_end_trx c) l (fun r l' => stays c (among [UnlockTables]) l l').
Proof.
  intros Hok. unfold spider_end_trx. wp_step.
  eapply wp_conseq; [by apply wp_end_trx_unlock|]. intros r l1 K1. pose proof (sy_ok _ _ _ _ K1) as Hok1.
  wp_run; [|eapply stays_trans; [exact K1|stays_upd Hok1]].
  unfold spider_db_set_trx_isolation, mysql_set_trx_isolation. wp_run;
    [|eapply stays_trans; [exact K1|stays_upd Hok1]].
  eapply wp_conseq; [by apply wp_mysql_simple|]. intros r2 l2 D.
  assert (stays c (among [UnlockTables]) l l2) as K2.
  { eapply stays_trans; [exact K1|]. eapply stays_mono; [|exact (did_stays _ _ _ _ _ D)].
    intros s [Hs| ->%list_elem_of_singleton]; by left. }
  pose proof (sy_ok _ _ _ _ K2) as Hok2. wp_run. eapply stays_trans; [exact K2|stays_upd Hok2].
Qed.

(** The restored error state: no event, the connection is the same. *)
Lemma wp_restore da e l :
  wp c (restore_dastatus da c e) l (fun r l' =>
    (error_mode (l_conn l) = 0 -> r = e) /\ l_conn l' = l_conn l /\ lsess l' = lsess l /\ l_evs l' = l_evs l).
Proof. unfold restore_dastatus. wp_run; split_and!; done. Qed.

Lemma restored_stays S l l1 l' :
  stays c S l l1 -> l_conn l' = l_conn l1 -> lsess l' = lsess l1 -> l_evs l' = l_evs l1 ->
  stays c S l l'.
Proof. intros [O P D T E] H1 H2 H3. split; by rewrite ?H1, ?H2, ?H3. Qed.

Lemma wp_with_restore da S m l :
  wp c m l (fun r l' => stays c S l l') ->
  wp c (with_restore da c m) l (fun r l' => stays c S l l').
Proof.
  intros H. unfold with_restore. wp_step. eapply wp_conseq; [exact H|]. intros r l1 K. wp_run; [done|].
  eapply wp_conseq; [apply wp_restore|]. intros r' l2 (_ & H1 & H2 & H3).
  eapply restored_stays; [exact K|done..].
Qed.

(** ** The bodies of the loops *)

(** What is left of [stays] once the connection left the transaction. *)
Record went (S : stmt -> Prop) (l l' : loc) : Prop := {
  wn_ok : conn_ok (l_conn l');
  wn_sess : lsess l' = lsess l;
  wn_evs : exists t, l_evs l' = l_evs l ++ t /\ Forall (ev_in c S) t
}.

Lemma stays_went S l l' : stays c S l l' -> went S l l'.
Proof. intros [O _ _ T E]. by split. Qed.

Lemma went_trans S l1 l2 l3 : went S l1 l2 -> went S l2 l3 -> went S l1 l3.
Proof.
  intros [_ T1 (t1 & E1 & F1)] [O2 T2 (t2 & E2 & F2)]. split; [done|by rewrite T2|].
  exists (t1 ++ t2). rewrite E2, E1, <- (assoc_L (++)). split; [done|by apply Forall_app].
Qed.

Lemma went_mono (S S' : stmt -> Prop) l l' : (forall s, S s -> S' s) -> went S l l' -> went S' l l'.
Proof.
  intros H [O T (t & E & F)]. split; [done|done|]. exists t. split; [done|].
  eapply Forall_impl; [exact F|]. intros ev. by apply ev_in_mono.
Qed.

Lemma among_mono ss ss' s : ss ⊆ ss' -> among ss s -> among ss' s.
Proof. intros H [?|?]; [by left|right; by apply H]. Qed.

Lemma stays_among ss ss' l l' : ss ⊆ ss' -> stays c (among ss) l l' -> stays c (among ss') l l'.
Proof. intros H. apply stays_mono. intros s. by apply among_mono. Qed.

Lemma leave_went S l l1 :
  went S l l1 -> went S l (l1 <| l_conn := (l_conn l1) <| join_trx := 0 |> |>).
Proof. intros [O T E]. split; [|done|done]. conn_ok_upd O. Qed.

Lemma acked_mono s l1 l2 l3 S :
  acked c s l1 l2 -> went S l2 l3 -> acked c s l1 l3.
Proof.
  intros (t1 & E1 & H1) [_ _ (t2 & E2 & _)]. exists (t1 ++ t2).
  rewrite E2, E1, <- (assoc_L (++)). split; [done|]. apply elem_of_app. by left.
Qed.

(** Phase one on a participant that is not the last. *)
Definition prepare_stmts (x : XID) : list stmt := [XaEnd x; XaPrepare x; Rollback; UnlockTables].

Lemma wp_prepare_participant da x l :
  conn_ok (l_conn l) ->
  wp c (prepare_participant da x c) l (fun r l' =>
    went (among (prepare_stmts x)) l l' /\
    (disable_xa (l_conn l) = false -> stays c (among (prepare_stmts x)) l l') /\
    (r = 0 -> disable_xa (l_conn l) = false -> xa_sendable (l_conn l) = true ->
       acked c (XaPrepare x) l l')).
Proof.
  intros Hok. unfold prepare_participant. do 3 wp_step.
  - assert (Hend : forall l1, went (among (prepare_stmts x)) l l1 ->
      wp c (with_restore da c (spider_end_trx c) &&; (leave_trx c;; mret 0)) l1
        (fun r l' => went (among (prepare_stmts x)) l l')).
    { intros l1 K1. wp_step.
      eapply wp_conseq; [apply wp_with_restore, wp_end_trx; [done..|apply K1]|]. intros r l2 K2.
      assert (went (among (prepare_stmts x)) l l2) as K.
      { eapply went_trans; [exact K1|]. apply stays_went.
        eapply stays_among; [|exact K2]. unfold prepare_stmts. set_solver. }
      unfold leave_trx. wp_run; [by apply leave_went|done]. }
    eapply wp_conseq; [|intros r l' K; split_and!; [exact K|congruence|congruence]].
    wp_step. destruct (Z.eqb_spec (table_lock (l_conn l)) 3).
    + wp_step. apply Hend, stays_went, stays_refl. done.
    + eapply wp_conseq; [by apply wp_with_restore, wp_db_rollback|]. intros r l1 K1.
      assert (went (among (prepare_stmts x)) l l1) as K1'.
      { apply stays_went. eapply stays_among; [|exact K1]. unfold prepare_stmts. set_solver. }
      wp_step; [by apply Hend|done].
  - eapply wp_conseq; [by apply wp_xa_end_and_prepare|]. intros r l' [K Ha].
    assert (stays c (among (prepare_stmts x)) l l') as K'.
    { eapply stays_among; [|exact K]. unfold prepare_stmts. set_solver. }
    split_and!; [by apply stays_went|done|]. auto.
Qed.

(** [keep_first] is 0 only if both errors are. *)
Lemma keep_first_0 e tmp v : v <> 0 -> keep_first e tmp v = 0 -> e = 0 /\ tmp = 0.
Proof.
  unfold keep_first. intros Hv. destruct (Z.eqb_spec e 0), (Z.eqb_spec tmp 0); simpl; intros; lia.
Qed.

Lemma wp_log_failed x l :
  conn_ok (l_conn l) ->
  wp c (spider_sys_log_xa_failed x) l (fun r l' => stays c (among []) l l').
Proof.
  intros Hok. unfold spider_sys_log_xa_failed, sys_table_row. wp_run; try stays_upd Hok.
  split; [done|done|apply settled_refl|done|]. eexists [_]. split; [done|].
  by repeat constructor.
Qed.

(** The end of a participant's part: [spider_end_trx], then it leaves. *)
Lemma wp_finish S da e v l l1 :
  went S l l1 -> S UnlockTables -> (forall s, session_stmt s -> S s) ->
  wp c (tmp ← with_restore da c (spider_end_trx c);
        leave_trx c;;
        mret (M := M world) (inr (A := Z) (keep_first e tmp v))) l1
    (fun r l' => (exists tmp, r = inr (keep_first e tmp v)) /\ went S l l' /\ join_trx (l_conn l') = 0).
Proof.
  intros K HU HS. wp_step.
  eapply wp_conseq; [apply wp_with_restore, wp_end_trx; [done..|apply K]|]. intros tmp l2 K2.
  unfold leave_trx. wp_run. split_and!; [by eexists| |done]. apply leave_went.
  eapply went_trans; [exact K|]. apply stays_went. eapply stays_mono; [|exact K2].
  intros s [?| ->%list_elem_of_singleton]; auto.
Qed.

Lemma wp_commit_error da x err tmp l :
  conn_ok (l_conn l) ->
  wp c (commit_error da x err tmp c) l (fun e l' =>
    stays c (among []) l l' /\
    (e = 0 -> err = 0 /\ (error_mode (l_conn l) = 0 -> spider_param_force_commit = 0 -> tmp = 0))).
Proof.
  intros Hok. unfold commit_error.
  assert (Hlog : forall e l1, stays c (among []) l l1 ->
    (e = 0 -> err = 0 /\ (error_mode (l_conn l) = 0 -> spider_param_force_commit = 0 -> tmp = 0)) ->
    wp c (spider_sys_log_xa_failed x;; mret e) l1 (fun e l' => stays c (among []) l l' /\
      (e = 0 -> err = 0 /\ (error_mode (l_conn l) = 0 -> spider_param_force_commit = 0 -> tmp = 0)))).
  { intros e l1 K1 He. wp_step. eapply wp_conseq; [apply wp_log_failed, K1|]. intros r l2 K2. wp_step.
    split; [by eapply stays_trans|done]. }
  wp_step; [wp_step; split; [by apply stays_refl|done]|].
  wp_step. destruct (commit_error_counts tmp) eqn:Hc.
  - wp_step. eapply wp_conseq; [apply wp_restore|]. intros r l1 (Hr & H1 & H2 & H3). wp_step.
    apply Hlog; [eapply restored_stays; [by apply stays_refl|done..]|].
    intros [-> Hr0]%keep_first_0; [|done]. split; [done|]. intros Hm _. by rewrite <- Hr.
  - wp_step. apply Hlog; [by apply stays_refl|]. intros ->. split; [done|]. intros _ Hf.
    unfold commit_error_counts in Hc. by rewrite Hf in Hc.
Qed.

(** Phase two. *)
Lemma wp_commit_participant da x err l :
  conn_ok (l_conn l) ->
  wp c (commit_participant da x err c) l (fun r l' => exists e', r = inr e' /\
    went (among (if is_xa_commit_one_phase (l_conn l) then [UnlockTables] else [XaCommit x; UnlockTables])) l l' /\
    join_trx (l_conn l') = 0 /\
    (e' = 0 -> err = 0 /\
       (join_trx (l_conn l) <> 0 -> is_xa_commit_one_phase (l_conn l) = false ->
        xa_sendable (l_conn l) = true -> error_mode (l_conn l) = 0 -> spider_param_force_commit = 0 ->
        acked c (XaCommit x) l l'))).
Proof.
  intros Hok. unfold commit_participant. set (S := among _). do 3 wp_step.
  { wp_step. exists err. split_and!; [done|by apply stays_went, stays_refl|done|]. intros ->. by split. }
  wp_step. eapply wp_conseq; [by apply wp_xa_commit|]. intros tmp l1 (K & Hflag & Hack). simpl.
  assert (K1 : stays c S l l1).
  { unfold S. destruct (is_xa_commit_one_phase (l_conn l)).
    - destruct (Hflag eq_refl) as [_ ->]. by apply stays_refl.
    - eapply stays_among; [|exact K]. set_solver. }
  apply wp_bind. eapply wp_conseq; [apply wp_commit_error, K1|]. intros e2 l2 [K2 He2].
  eapply wp_conseq; [apply (wp_finish S _ _ _ l1)|].
  - apply stays_went. eapply stays_mono; [|exact K2]. intros s [?|?]; [by left|set_solver].
  - right. destruct (is_xa_commit_one_phase (l_conn l)); set_solver.
  - by left.
  - intros r l' ([t ->] & Kw & Hj). eexists.
    split_and!; [done|eapply went_trans; [apply stays_went, K1|exact Kw]|done|].
    intros [-> _]%keep_first_0; [|done]. destruct He2 as [-> Ht]; [done|]. split; [done|].
    intros _ Hf Hs Hm Hfc. eapply acked_mono; [|exact Kw]. apply Hack; try done. apply Ht; [|done].
    pose proof (sy_pview _ _ _ _ K1) as P. unfold pview in P. congruence.
Qed.

(** ** Rollback and the commits without a prepare *)

Definition rollback_stmts (x : XID) : list stmt := [XaEnd x; XaRollback x; Rollback; UnlockTables].

(** The error of a step that counts: kept if it is the first. *)
Lemma wp_restore_keep da e tmp S l l0 :
  stays c S l0 l ->
  wp c (tmp ← restore_dastatus da c tmp; mret (keep_first e tmp tmp)) l (fun r l' =>
    stays c S l0 l' /\ l_evs l' = l_evs l /\
    (r = 0 -> e = 0 /\ (error_mode (l_conn l) = 0 -> tmp = 0))).
Proof.
  intros K. wp_step. eapply wp_conseq; [apply wp_restore|]. intros r l1 (Hr & H1 & H2 & H3). wp_step.
  split_and!; [eapply restored_stays; [exact K|done..]|done|].
  unfold keep_first. destruct (Z.eqb_spec e 0) as [->|He], (Z.eqb_spec r 0) as [->|Hr0]; simpl; try done.
  intros _. split; [done|]. intros Hm. by rewrite Hr.
Qed.

(** The step itself, with its error counted; [A] is what it achieves. *)
Lemma wp_counted (m : M world Z) da e (counts : Z -> bool) S (A : loc -> Prop) l l0 :
  wp c m l (fun r l' => stays c S l0 l' /\ pview (l_conn l') = pview (l_conn l) /\ (r = 0 -> A l')) ->
  wp c (tmp ← m; if negb (Z.eqb tmp 0) && counts tmp then
          tmp ← restore_dastatus da c tmp; mret (keep_first e tmp tmp)
        else mret e) l (fun r l' =>
    stays c S l0 l' /\
    (r = 0 -> e = 0 /\ (error_mode (l_conn l) = 0 -> (forall t, counts t = true) -> A l'))).
Proof.
  intros H. wp_step. eapply wp_conseq; [exact H|]. intros tmp l1 (K & P & Ha). simpl.
  destruct (Z.eqb_spec tmp 0) as [->|Ht]; simpl; [wp_step; split; [done|]; intros ->; split; [done|]; auto|].
  destruct (counts tmp) eqn:Hc.
  - eapply wp_conseq; [by apply wp_restore_keep|]. intros r l2 (K2 & E2 & Hr). split; [done|].
    intros ->. destruct (Hr eq_refl) as [-> He]. split; [done|]. intros Hm _. exfalso. apply Ht, He.
    unfold pview in P. congruence.
  - wp_step. split; [done|]. intros ->. split; [done|]. intros _ Hall. by rewrite Hall in Hc.
Qed.

(** XA ROLLBACK was acknowledged if it had to be sent and its errors count. *)
Definition rb_acked (x : XID) (l l' : loc) : Prop :=
  error_mode (l_conn l) = 0 -> spider_param_force_commit = 0 -> xa_sendable (l_conn l) = true ->
  acked c (XaRollback x) l l'.

Lemma acked_after S s l l1 l2 : stays c S l l1 -> acked c s l1 l2 -> acked c s l l2.
Proof.
  intros [_ _ _ _ (t1 & E1 & _)] (t2 & E2 & Hin). exists (t1 ++ t2).
  rewrite E2, E1, <- (assoc_L (++)). split; [done|]. apply elem_of_app. by right.
Qed.

Lemma wp_rollback_stmt da x e l l1 :
  stays c (among (rollback_stmts x)) l l1 ->
  wp c (tmp ← spider_db_xa_rollback c x;
        if negb (Z.eqb tmp 0) && rollback_error_counts tmp then
          tmp ← restore_dastatus da c tmp; mret (keep_first e tmp tmp)
        else mret e) l1
    (fun r l' => stays c (among (rollback_stmts x)) l l' /\ (r = 0 -> e = 0 /\ rb_acked x l l')).
Proof.
  intros K1. eapply wp_conseq; [eapply (wp_counted _ da e rollback_error_counts (among (rollback_stmts x))
    (fun l' => xa_sendable (l_conn l) = true -> acked c (XaRollback x) l l') l1 l)|].
  - eapply wp_conseq; [apply wp_xa_rollback; [done..|apply K1]|]. intros tmp l2 [K2 Ha]. split_and!.
    + eapply stays_trans; [exact K1|]. eapply stays_among; [|exact K2]. unfold rollback_stmts. set_solver.
    + apply K2.
    + intros Ht Hs. eapply acked_after; [exact K1|]. apply Ha; [done|]. unfold xa_sendable in *. bool_norm.
      destruct (sy_settled _ _ _ _ K1) as [S1 S2]. rewrite S1, S2; done.
  - intros r l' [K Hr]. split; [done|]. intros Hr0. destruct (Hr Hr0) as [H1 H2]. split; [done|].
    intros Hm Hf Hs. apply H2; [| |done].
    + pose proof (sy_pview _ _ _ _ K1) as P. unfold pview in P. congruence.
    + intros t. unfold rollback_error_counts. by rewrite Hf.
Qed.

Lemma wp_rollback_branch da prepared x e l :
  conn_ok (l_conn l) ->
  wp c (rollback_xa_branch da prepared x c e) l (fun r l' =>
    stays c (among (rollback_stmts x)) l l' /\ (r = 0 -> e = 0 /\ rb_acked x l l')).
Proof.
  intros Hok. unfold rollback_xa_branch. wp_step.
  destruct prepared; [wp_step; by apply wp_rollback_stmt, stays_refl|].
  wp_step. eapply wp_conseq; [by apply wp_xa_end|]. intros tmp l1 K1.
  assert (stays c (among (rollback_stmts x)) l l1) as K.
  { eapply stays_among; [|exact K1]. unfold rollback_stmts. set_solver. }
  simpl. destruct (negb (Z.eqb tmp 0) && _).
  - eapply wp_conseq; [by apply wp_restore_keep|]. intros e1 l2 (K2 & _ & He1).
    eapply wp_conseq; [by apply wp_rollback_stmt|]. intros r l' [K' Hr]. split; [done|].
    intros Hr0. destruct (Hr Hr0) as [Hr1 ?]. split; [by apply He1|done].
  - wp_step. by apply wp_rollback_stmt.
Qed.

Lemma wp_rollback_participant da prepared x st l :
  conn_ok (l_conn l) ->
  wp c (rollback_participant da prepared x st c) l (fun r l' => exists st', r = inr st' /\
    went (among (rollback_stmts x)) l l' /\ join_trx (l_conn l') = 0 /\
    (st'.1 = 0 -> st.1 = 0 /\ (join_trx (l_conn l) <> 0 -> disable_xa (l_conn l) = false ->
       server_lost (l_conn l) = false -> rb_acked x l l'))).
Proof.
  intros Hok. unfold rollback_participant. destruct st as [e lost]. do 3 wp_step.
  { wp_step. exists (e, lost). split_and!; [done|by apply stays_went, stays_refl|done|].
    intros H. split; [done|]. congruence. }
  apply wp_bind. eapply wp_conseq with (Q := fun r l' => stays c (among (rollback_stmts x)) l l' /\
    (r = 0 -> e = 0 /\ (disable_xa (l_conn l) = false -> server_lost (l_conn l) = false -> rb_acked x l l'))).
  { wp_run; try (split; [by apply stays_refl|]; intros ->; split; [done|]; congruence).
    - eapply wp_conseq; [by apply wp_with_restore, wp_db_rollback|]. intros r l1 K1. wp_step. split.
      + eapply stays_among; [|exact K1]. unfold rollback_stmts. set_solver.
      + unfold keep_first. destruct (Z.eqb_spec e 0) as [->|]; [|done]. intros _. split; [done|]. congruence.
    - eapply wp_conseq; [by apply wp_rollback_branch|]. intros r l1 [K Hr]. split; [done|].
      intros Hr0. destruct (Hr Hr0). by split. }
  intros e1 l1 [K1 He1]. wp_step.
  eapply wp_conseq; [apply wp_with_restore, wp_end_trx; [done..|apply K1]|]. intros tmp l2 K2.
  unfold leave_trx. wp_run.
  assert (went (among (rollback_stmts x)) l1 l2) as W2.
  { apply stays_went. eapply stays_among; [|exact K2]. unfold rollback_stmts. set_solver. }
  eexists. split_and!; [done| |done|].
  - apply leave_went. eapply went_trans; [apply stays_went, K1|exact W2].
  - simpl. unfold keep_first. destruct (Z.eqb_spec e1 0) as [->|]; simpl; [|done].
    intros _. destruct (He1 eq_refl) as [-> Ha]. split; [done|]. intros _ Hd Hs Hm Hf Hx.
    eapply acked_mono; [|apply leave_went, W2]. by apply Ha.
Qed.

(** The one-phase commit of a transaction with a single participant. *)
Lemma wp_one_phase_participant x err l :
  conn_ok (l_conn l) ->
  wp c (one_phase_participant x err c) l (fun r l' => exists e', r = inr e' /\
    went (among [XaEnd x; XaCommitOnePhase x; UnlockTables]) l l' /\ join_trx (l_conn l') = 0).
Proof.
  intros Hok. unfold one_phase_participant. do 3 wp_step.
  { wp_step. exists err. split_and!; [done|by apply stays_went, stays_refl|done]. }
  wp_step. eapply wp_conseq; [by apply wp_xa_commit_one_phase|]. intros tmp l1 (K & _ & _ & _).
  assert (went (among [XaEnd x; XaCommitOnePhase x; UnlockTables]) l l1) as K1.
  { eapply stays_among in K; [|shelve]. apply stays_went in K as [O T E]. unfold one_phase_conn in *.
    by destruct (xa_sendable (l_conn l)). Unshelve. set_solver. }
  wp_step. eapply wp_conseq; [apply wp_end_trx; [done..|apply K1]|]. intros r l2 K2.
  unfold leave_trx. wp_run. eexists. split_and!; [done| |done]. apply leave_went.
  eapply went_trans; [exact K1|]. apply stays_went. eapply stays_among; [|exact K2]. set_solver.
Qed.

(** Transactions without XA. *)
Lemma wp_commit_plain da err l :
  conn_ok (l_conn l) ->
  wp c (commit_plain da err c) l (fun r l' =>
    (exists e', r = inr e') /\ went (among [Commit; UnlockTables]) l l' /\ join_trx (l_conn l') = 0).
Proof.
  intros Hok. unfold commit_plain. do 2 wp_step. apply wp_bind.
  eapply wp_conseq with (Q := fun r l' => stays c (among [Commit; UnlockTables]) l l').
  { wp_run; [|by apply stays_refl].
    eapply wp_conseq; [by apply wp_with_restore, wp_db_commit|]. intros r l1 K1.
    eapply stays_among; [|exact K1]. set_solver. }
  intros e1 l1 K1. wp_step.
  eapply wp_conseq; [apply wp_with_restore, wp_end_trx; [done..|apply K1]|]. intros tmp l2 K2.
  unfold leave_trx. wp_run. split_and!; [by eexists| |done]. apply leave_went, stays_went.
  eapply stays_trans; [exact K1|]. eapply stays_among; [|exact K2]. set_solver.
Qed.

Lemma wp_rollback_plain da err l :
  conn_ok (l_conn l) ->
  wp c (rollback_plain da err c) l (fun r l' =>
    (exists e', r = inr e') /\ went (among [Rollback; UnlockTables]) l l' /\ join_trx (l_conn l') = 0).
Proof.
  intros Hok. unfold rollback_plain. do 2 wp_step. apply wp_bind.
  eapply wp_conseq with (Q := fun r l' => stays c (among [Rollback; UnlockTables]) l l').
  { wp_run; [|by apply stays_refl].
    eapply wp_conseq; [by apply wp_with_restore, wp_db_rollback|]. intros r l1 K1.
    eapply stays_among; [|exact K1]. set_solver. }
  intros e1 l1 K1. wp_step.
  eapply wp_conseq; [apply wp_with_restore, wp_end_trx; [done..|apply K1]|]. intros tmp l2 K2.
  unfold leave_trx. wp_run. split_and!; [by eexists| |done]. apply leave_went, stays_went.
  eapply stays_trans; [exact K1|]. eapply stays_among; [|exact K2]. set_solver.
Qed.
End Participants.
