(* ===== verification/XaSpec.v ===== *)
(** * The phases of the transaction

    From one connection to the whole world: the loops over the participants,
    phase one, phase two and the rollback.  The join tree is used only through
    its interface [JoinOrder]. *)

From stdpp Require Import base gmap list strings.
From Stdlib Require Import ZArith Lia.
From S2P Require Import Prelude ConnTree World ConnQueue DbXa SysTable ConnPool XaTrx.
From S2P Require Import ConnWp ConnSpec QuerySpec StmtSpec PartSpec.
Local Open Scope spider_scope.
Local Open Scope Z_scope.

(** ** Steps of the world *)

(** [ev] is an event of one of [cs] with a statement in [S], or of the log. *)
Definition ev_of (cs : list cid) (S : stmt -> Prop) (ev : event) : Prop :=
  match ev with
  | EvConnect c _ | EvDisconnect c => c ∈ cs
  | EvStmt c s _ => c ∈ cs /\ S s
  | _ => True
  end.

Definition wsess (w : world) := sess (w_trx w) (w_thd w).

(** Only the connections [cs] worked, with statements in [S]. *)
Record wstep (cs : list cid) (S : stmt -> Prop) (w w' : world) : Prop := {
  ws_links : w_links w' = w_links w;
  ws_sess : wsess w' = wsess w;
  ws_frame : forall c, c ∉ cs -> w_conns w' !! c = w_conns w !! c;
  ws_ok : forall c, c ∈ cs -> (exists n, w_conns w !! c = Some n /\ conn_ok n) ->
    exists n, w_conns w' !! c = Some n /\ conn_ok n;
  ws_trace : exists t, w_trace w' = w_trace w ++ t /\ Forall (ev_of cs S) t
}.

(** A step that only writes the log. *)
Abbreviation wlog := (wstep [] (fun _ => False)).

(** An event after [w]. *)
Definition since (w w' : world) (ev : event) : Prop :=
  exists t, w_trace w' = w_trace w ++ t /\ ev ∈ t.

Lemma ev_of_mono cs cs' (S S' : stmt -> Prop) ev :
  cs ⊆ cs' -> (forall s, S s -> S' s) -> ev_of cs S ev -> ev_of cs' S' ev.
Proof. intros H1 H2. destruct ev; simpl; auto. intros [??]; auto. Qed.

Lemma wstep_refl cs S w : wstep cs S w w.
Proof. split; try done. exists []. by rewrite app_nil_r. Qed.

Lemma wstep_mono cs cs' (S S' : stmt -> Prop) w w' :
  cs ⊆ cs' -> (forall s, S s -> S' s) -> wstep cs S w w' -> wstep cs' S' w w'.
Proof.
  intros H1 H2 [L T F O (t & E & Ft)]. split; [done|done|..].
  - intros c Hc. apply F. set_solver.
  - intros c Hc (n & Hn & Hok). destruct (decide (c ∈ cs)) as [Hin|Hin]; [by apply O; eauto|].
    exists n. by rewrite F.
  - exists t. split; [done|]. eapply Forall_impl; [exact Ft|]. intros ev. by apply ev_of_mono.
Qed.

Lemma wstep_trans cs S w1 w2 w3 : wstep cs S w1 w2 -> wstep cs S w2 w3 -> wstep cs S w1 w3.
Proof.
  intros [L1 T1 F1 O1 (t1 & E1 & H1)] [L2 T2 F2 O2 (t2 & E2 & H2)]. split.
  - by rewrite L2.
  - by rewrite T2.
  - intros c Hc. by rewrite F2, F1.
  - auto.
  - exists (t1 ++ t2). rewrite E2, E1, <- (assoc_L (++)). split; [done|by apply Forall_app].
Qed.

Lemma since_trace cs S w w' w'' ev : since w w' ev -> wstep cs S w' w'' -> since w w'' ev.
Proof.
  intros (t1 & E1 & H1) [_ _ _ _ (t2 & E2 & _)]. exists (t1 ++ t2).
  rewrite E2, E1, <- (assoc_L (++)). split; [done|]. apply elem_of_app. by left.
Qed.

Lemma since_before cs S w0 w w' ev : wstep cs S w0 w -> since w w' ev -> since w0 w' ev.
Proof.
  intros [_ _ _ _ (t1 & E1 & _)] (t2 & E2 & H2). exists (t1 ++ t2).
  rewrite E2, E1, <- (assoc_L (++)). split; [done|]. apply elem_of_app. by right.
Qed.

Lemma wstep_stmt cs S w w' c s e : wstep cs S w w' -> since w w' (EvStmt c s e) -> S s.
Proof.
  intros [_ _ _ _ (t & E & F)] (t' & E' & H). rewrite E in E'. apply app_inv_head in E' as <-.
  rewrite Forall_forall in F. by apply F in H as [_ ?].
Qed.

Lemma since_split w0 w w' ev :
  (exists t, w_trace w = w_trace w0 ++ t) -> (exists t, w_trace w' = w_trace w ++ t) ->
  since w0 w' ev -> since w0 w ev \/ since w w' ev.
Proof.
  intros (t1 & E1) (t2 & E2) (t & E & H). rewrite E2, E1, <- (assoc_L (++)) in E.
  apply app_inv_head in E as <-. apply elem_of_app in H as [H|H]; [left; by exists t1|right; by exists t2].
Qed.

Lemma wstep_ext cs S w w' : wstep cs S w w' -> exists t, w_trace w' = w_trace w ++ t.
Proof. intros [_ _ _ _ (t & E & _)]. by exists t. Qed.

(** One connection's step is a step of the world. *)
Lemma went_wstep c S n w l' :
  w_conns w !! c = Some n -> went c S (loc_of n w) l' -> wstep [c] S w (put c l' w).
Proof.
  intros Hn [O T (t & E & F)]. split; simpl; try done.
  - intros c' Hc'. rewrite lookup_insert_ne; [done|]. set_solver.
  - intros c' ->%list_elem_of_singleton _. exists (l_conn l'). by rewrite lookup_insert_eq.
  - exists (l_evs l'). split; [done|]. rewrite E. simpl. eapply Forall_impl; [exact F|].
    intros ev. destruct ev; simpl; try done; set_solver.
Qed.

Lemma acked_since c s n w l' :
  acked c s (loc_of n w) l' -> since w (put c l' w) (EvStmt c s 0).
Proof. intros (t & E & H). exists t. simpl. by rewrite E. Qed.

Lemma nacked_since c s n w l' :
  nacked c s (loc_of n w) l' -> ~ since w (put c l' w) (EvStmt c s 0).
Proof.
  intros (t & E & H) (t' & E' & H'). simpl in E'. rewrite E in E'. apply app_inv_head in E'.
  by rewrite <- E' in H'.
Qed.

Lemma wlog_conns w w' c : wlog w w' -> w_conns w' !! c = w_conns w !! c.
Proof. intros W. apply (ws_frame _ _ _ _ W). set_solver. Qed.

Lemma quiet_wlog w w' :
  w_links w' = w_links w -> w_conns w' = w_conns w -> wsess w' = wsess w ->
  w_trace w' = w_trace w -> wlog w w'.
Proof.
  intros H1 H2 H3 H4. split; [done|done|by rewrite H2|set_solver|].
  exists []. by rewrite app_nil_r.
Qed.

(** The connections [cs] exist and can be used. *)
Definition parts_ok (w : world) (cs : list cid) : Prop :=
  forall c, c ∈ cs -> exists n, w_conns w !! c = Some n /\ conn_ok n.

Lemma wstep_parts cs' S w w' cs : wstep cs' S w w' -> parts_ok w cs -> parts_ok w' cs.
Proof.
  intros W P c Hc. destruct (P c Hc) as (n & Hn & Hok).
  destruct (decide (c ∈ cs')) as [Hin|Hin]; [apply (ws_ok _ _ _ _ W c Hin); eauto|].
  exists n. by rewrite (ws_frame _ _ _ _ W c Hin).
Qed.

Lemma app_subset_r {A} (l k : list A) : k ⊆ l ++ k.
Proof. intros x Hx. apply elem_of_app. by right. Qed.

Lemma app_subset_l {A} (l k : list A) : l ⊆ l ++ k.
Proof. intros x Hx. apply elem_of_app. by left. Qed.

(** A step of the participants [dn], then one of [c]. *)
Lemma wstep_snoc dn c S w w1 w2 :
  wstep dn S w w1 -> wstep [c] S w1 w2 -> wstep (dn ++ [c]) S w w2.
Proof.
  intros H1 H2. eapply wstep_trans.
  - eapply wstep_mono; [apply app_subset_l|by intros s|exact H1].
  - eapply wstep_mono; [apply app_subset_r|by intros s|exact H2].
Qed.

(** ** Loops over the participants *)

Section Loops.
  Context `{JO : JoinOrder walks}.

Lemma tree_next_walks xs x ys w top :
  walks (w_links w) top (xs ++ x :: ys) -> tree_next x w = Some (head ys, w).
Proof. intros H. unfold tree_next, lift_opt. by rewrite (walks_next _ _ _ _ _ H). Qed.

Lemma tree_first_walks cs w :
  walks (w_links w) (join_trx_top (w_trx w)) cs -> tree_first w = Some (head cs, w).
Proof. intros H. unfold tree_first, lift_opt. by rewrite (walks_first _ _ _ H). Qed.

(** The invariant is indexed by the participants already visited. *)
Lemma tree_loop_rule {A} (body : A -> cid -> M world (Z + A)) (I : list cid -> A -> world -> Prop)
    (E : Z -> world -> Prop) L top cs :
  walks L top cs ->
  (forall dn c rest a w, cs = dn ++ c :: rest -> w_links w = L -> I dn a w ->
     exists r w', body a c w = Some (r, w') /\ w_links w' = L /\
       match r with inl e => E e w' | inr a' => I (dn ++ [c]) a' w' end) ->
  forall fuel dn rest a w, cs = dn ++ rest -> (length rest <= fuel)%nat -> w_links w = L -> I dn a w ->
  exists r w', tree_loop fuel body a (head rest) w = Some (r, w') /\ w_links w' = L /\
    match r with inl e => E e w' | inr a' => I cs a' w' end.
Proof.
  intros Hw Hbody. induction fuel as [|fuel IH]; intros dn [|c rest] a w Hcs Hlen HL HI;
    try (simpl in Hlen; lia).
  1,2: exists (inr a), w; rewrite app_nil_r in Hcs; subst dn; by split_and!.
  destruct (Hbody dn c rest a w Hcs HL HI) as (r & w1 & Hb & HL1 & Hr).
  cbn [tree_loop head]. rewrite (bind_eq _ _ _ _ _ Hb). destruct r as [e|a'].
  { exists (inl e), w1. by split_and!. }
  rewrite (bind_eq _ _ _ _ _ (tree_next_walks dn c rest w1 top ltac:(rewrite HL1, <- Hcs; exact Hw))).
  apply (IH (dn ++ [c])); [by rewrite <- (assoc_L (++))|simpl in Hlen; lia|done|done].
Qed.

Lemma for_each_rule {A} (body : A -> cid -> M world (Z + A)) (I : list cid -> A -> world -> Prop)
    (E : Z -> world -> Prop) cs a w :
  walks (w_links w) (join_trx_top (w_trx w)) cs ->
  (forall dn c rest a w', cs = dn ++ c :: rest -> w_links w' = w_links w -> I dn a w' ->
     exists r w'', body a c w' = Some (r, w'') /\ w_links w'' = w_links w /\
       match r with inl e => E e w'' | inr a' => I (dn ++ [c]) a' w'' end) ->
  I [] a w ->
  exists r w', for_each_joined body a w = Some (r, w') /\ w_links w' = w_links w /\
    match r with inl e => E e w' | inr a' => I cs a' w' end.
Proof.
  intros Hw Hbody HI. unfold for_each_joined.
  rewrite (bind_eq _ _ _ _ _ (tree_first_walks _ _ Hw)), (bind_eq _ _ _ _ _ (gets_eq _ w)).
  eapply (tree_loop_rule body I E _ _ cs Hw Hbody _ []); [done| |done|done].
  by apply (walks_size _ _ _ Hw).
Qed.

(** The loop of the prepare stops at the last participant. *)
Lemma prepare_loop_rule (body : cid -> M world Z) (I : list cid -> world -> Prop)
    (E : Z -> world -> Prop) L top cs :
  walks L top cs ->
  (forall dn c rest w, cs = dn ++ c :: rest -> rest <> [] -> w_links w = L -> I dn w ->
     exists e w', body c w = Some (e, w') /\ w_links w' = L /\
       (e <> 0 -> E e w') /\ (e = 0 -> I (dn ++ [c]) w')) ->
  forall fuel dn c rest w, cs = dn ++ c :: rest -> rest <> [] -> (length rest <= fuel)%nat ->
  w_links w = L -> I dn w ->
  exists r w', prepare_loop fuel body c w = Some (r, w') /\ w_links w' = L /\
    match r with
    | inl e => e <> 0 /\ E e w'
    | inr o => exists init z, cs = init ++ [z] /\ o = Some z /\ I init w'
    end.
Proof.
  intros Hw Hbody. induction fuel as [|fuel IH]; intros dn c rest w Hcs Hne Hlen HL HI.
  { destruct rest; [done|simpl in Hlen; lia]. }
  destruct (Hbody dn c rest w Hcs Hne HL HI) as (e & w1 & Hb & HL1 & He & H0).
  cbn [prepare_loop]. rewrite (bind_eq _ _ _ _ _ Hb).
  destruct (Z.eqb_spec e 0) as [->|Hn]; simpl.
  2: { exists (inl e), w1. split_and!; auto. }
  specialize (H0 eq_refl). destruct rest as [|c' rest]; [done|].
  rewrite (bind_eq _ _ _ _ _ (tree_next_walks dn c (c' :: rest) w1 top ltac:(rewrite HL1, <- Hcs; exact Hw))).
  assert (Hcs' : cs = (dn ++ [c]) ++ c' :: rest) by (by rewrite <- (assoc_L (++))).
  simpl. rewrite (bind_eq _ _ _ _ _ (tree_next_walks _ c' rest w1 top ltac:(rewrite HL1, <- Hcs'; exact Hw))).
  destruct rest as [|c'' rest]; simpl.
  - exists (inr (Some c')), w1. split_and!; [done|done|]. by exists (dn ++ [c]), c'.
  - apply (IH (dn ++ [c]) c' (c'' :: rest)); [done|done|simpl in *; lia|done|done].
Qed.
End Loops.

(** ** The log tables *)

Section Log.
  Context `{env : Env, vars : Vars}.

(** The functions whose step only writes the log. *)
Definition logs {A} (m : M world A) : Prop := forall w, exists r w', m w = Some (r, w') /\ wlog w w'.

Lemma logs_ret {A} (a : A) : logs (mret a).
Proof. intros w. exists a, w. split; [done|apply wstep_refl]. Qed.

Lemma logs_bind {A B} (m : M world A) (k : A -> M world B) :
  logs m -> (forall a, logs (k a)) -> logs (m ≫= k).
Proof.
  intros Hm Hk w. destruct (Hm w) as (a & w1 & E1 & W1). destruct (Hk a w1) as (b & w2 & E2 & W2).
  exists b, w2. rewrite (bind_eq _ _ _ _ _ E1). split; [done|by eapply wstep_trans].
Qed.

Lemma logs_andthen (m k : M world Z) : logs m -> logs k -> logs (m &&; k).
Proof. intros Hm Hk. apply logs_bind; [done|]. intros e. destruct (Z.eqb e 0); [done|apply logs_ret]. Qed.

Lemma logs_gets {A} (f : world -> A) : logs (gets f).
Proof. intros w. exists (f w), w. split; [done|apply wstep_refl]. Qed.

Lemma logs_outside {A} (f : nat -> A) : logs (outside f).
Proof. intros w. eexists _, _. split; [reflexivity|by apply quiet_wlog]. Qed.

Lemma logs_message e : logs (my_message e).
Proof. intros w. eexists _, _. split; [reflexivity|by apply quiet_wlog]. Qed.

Lemma logs_clear : logs clear_error.
Proof. intros w. eexists _, _. split; [reflexivity|by apply quiet_wlog]. Qed.

Lemma logs_xa f : logs (modify (fun w => w <| w_xa := f w |>)).
Proof. intros w. eexists _, _. split; [reflexivity|by apply quiet_wlog]. Qed.

Lemma logs_member f : logs (modify (fun w => w <| w_xa_member := f w |>)).
Proof. intros w. eexists _, _. split; [reflexivity|by apply quiet_wlog]. Qed.

Lemma logs_emit ev : ev_of [] (fun _ => False) ev -> logs (emit ev).
Proof.
  intros H w. eexists _, _. split; [reflexivity|]. split; try done. exists [ev]. split; [done|].
  by repeat constructor.
Qed.

Ltac logs_auto :=
  repeat first
    [ apply logs_ret | apply logs_gets | apply logs_outside | apply logs_message | apply logs_clear
    | apply logs_xa | apply logs_member | apply logs_emit; exact I
    | apply logs_andthen | apply logs_bind; [|intros ?]
    | match goal with
      | |- logs (if ?b then _ else _) => destruct b
      | |- logs (when ?b _) => destruct b; simpl
      end ].

Lemma logs_open f n : logs (spider_open_sys_table f n).
Proof. unfold spider_open_sys_table. logs_auto. Qed.

Lemma logs_row op : logs op -> logs (sys_table_row op).
Proof. intros H. unfold sys_table_row. logs_auto; done. Qed.

Lemma logs_update_row op : logs op -> logs (update_sys_table_row op).
Proof. intros H. unfold update_sys_table_row. logs_auto; done. Qed.

Lemma logs_check k : logs (spider_check_sys_table k).
Proof. unfold spider_check_sys_table. logs_auto. Qed.

Lemma logs_require k m : logs m -> logs (require_xa k m).
Proof. intros H. unfold require_xa. apply logs_bind; [apply logs_check|intros e]. logs_auto; done. Qed.

Lemma logs_insert_xa x st : logs (spider_insert_xa x st).
Proof.
  unfold spider_insert_xa. apply logs_bind; [apply logs_check|intros e].
  destruct (Z.eqb e 0); [logs_auto|]. destruct (negb (not_found e)); [logs_auto|].
  apply logs_row. logs_auto.
Qed.

Lemma logs_update_xa x st : logs (spider_update_xa x st).
Proof. apply logs_require, logs_update_row. logs_auto. Qed.

Lemma logs_delete_xa x : logs (spider_delete_xa x).
Proof. apply logs_require, logs_row. logs_auto. Qed.

(** Every round of the loop deletes a row. *)
Lemma logs_delete_member_loop k fuel w :
  (length (w_xa_member w) < fuel)%nat ->
  exists r w', delete_xa_member_loop fuel k w = Some (r, w') /\ wlog w w'.
Proof.
  revert w. induction fuel as [|fuel IH]; intros w Hlen; [lia|].
  cbn [delete_xa_member_loop]. unfold sys_table_row, outside, my_message. mrun.
  destruct (Z.eqb (env_engine (w_tick w)) 0) eqn:He; mrun;
    [|rewrite He; eexists _, _; split; [reflexivity|by apply quiet_wlog]].
  destruct (list_find (fun r => xm_key r = k) (w_xa_member w)) as [[i row]|] eqn:Hf; mrun.
  - apply list_find_Some in Hf as (Hi & _ & _).
    destruct (_ && _); mrun; [|eexists _, _; split; [reflexivity|by apply quiet_wlog]].
    match goal with |- context [delete_xa_member_loop fuel k ?w1] => set (w1' := w1) end.
    destruct (IH w1') as (r & w' & Hm & W).
    { unfold w1'. simpl. apply lookup_lt_Some in Hi as Hl. rewrite length_delete by (by eexists). lia. }
    exists r, w'. split; [exact Hm|]. eapply wstep_trans; [|exact W]. by apply quiet_wlog.
  - rewrite Hf. rewrite bool_decide_false by (by intros [? ?]). rewrite andb_false_r.
    eexists _, _. split; [reflexivity|by apply quiet_wlog].
Qed.

Lemma outside_eq {A} (f : nat -> A) w :
  outside f w = Some (f (w_tick w), w <| w_tick := S (w_tick w) |>).
Proof. done. Qed.

(** [logs] of the rest after a state where it is already known. *)
Lemma logs_after {A} (m : M world A) w w' :
  wlog w w' -> logs m -> exists r w'', m w' = Some (r, w'') /\ wlog w w''.
Proof. intros W H. destruct (H w') as (r & w'' & Hm & W'). exists r, w''. split; [done|by eapply wstep_trans]. Qed.

Lemma logs_delete_member x : logs (spider_delete_xa_member x).
Proof.
  intros w. unfold spider_delete_xa_member.
  rewrite (bind_eq _ _ _ _ _ (outside_eq _ w)), (bind_eq _ _ _ _ _ (gets_eq _ _)).
  set (w1 := w <| w_tick := S (w_tick w) |>). assert (wlog w w1) as W1 by (by apply quiet_wlog).
  destruct (_ && _); [apply (logs_after _ _ _ W1); logs_auto|].
  destruct (_ || _); [apply (logs_after _ _ _ W1); logs_auto|].
  destruct (logs_delete_member_loop (spider_store_xa_pk x) (S (length (w_xa_member w1))) w1)
    as (r & w2 & Hm & W2); [lia|].
  rewrite (bind_eq _ _ _ _ _ Hm). apply (logs_after _ _ _ (wstep_trans _ _ _ _ _ W1 W2)). logs_auto.
Qed.

Lemma logs_decision trx allowed st : logs (log_decision trx allowed st).
Proof.
  unfold log_decision. repeat apply logs_andthen.
  - apply logs_open.
  - apply logs_require, logs_ret.
  - unfold spider_check_sys_xa_status. logs_auto.
  - apply logs_update_xa.
Qed.

Lemma logs_delete trx : logs (log_delete trx).
Proof.
  unfold log_delete. repeat apply logs_andthen;
    [apply logs_open|apply logs_delete_member|apply logs_open|apply logs_delete_xa].
Qed.

Lemma logs_prepared trx : logs (log_prepared trx).
Proof.
  unfold log_prepared. destruct (negb (xa_logged trx)); [apply logs_ret|].
  apply logs_andthen; [apply logs_open|apply logs_update_xa].
Qed.

(** The rows of the members are written from the connections' fields. *)
Lemma insert_member_log x c st w n :
  w_conns w !! c = Some n ->
  exists r w', spider_insert_xa_member x c st w = Some (r, w') /\ wlog w w'.
Proof.
  intros Hn. unfold spider_insert_xa_member.
  assert (Hg : getc c w = Some (n, w)) by (unfold getc; by rewrite Hn).
  rewrite (bind_eq _ _ _ _ _ Hg). apply (logs_after _ _ _ (wstep_refl _ _ w)).
  apply logs_bind; [unfold check_xa_member; logs_auto|intros e].
  destruct (Z.eqb e 0); [logs_auto|]. destruct (negb (not_found e)); [logs_auto|].
  apply logs_row. logs_auto.
Qed.

Lemma restore_log da c e w n :
  w_conns w !! c = Some n -> exists r w', restore_dastatus da c e w = Some (r, w') /\ wlog w w'.
Proof.
  intros Hn. unfold restore_dastatus.
  assert (Hg : getc c w = Some (n, w)) by (unfold getc; by rewrite Hn).
  rewrite (bind_eq _ _ _ _ _ Hg). apply (logs_after _ _ _ (wstep_refl _ _ w)). logs_auto.
Qed.
End Log.

Section Phases.
  Context `{JO : JoinOrder walks} `{env : Env, vars : Vars}.
  Context (stmt_nonneg : forall k, 0 <= env_stmt k).
  Context (no_oom : forall k, env_oom k = false).
  Context (no_dry : spider_param_dry_access = false).

(** ** Phase one *)

(** Participant [c] was prepared: its fields are the same, and if it takes part
    on the backend, XA PREPARE was acknowledged. *)
Definition prepared (x : XID) (w0 w : world) (c : cid) : Prop :=
  forall n0, w_conns w0 !! c = Some n0 -> disable_xa n0 = false ->
    (exists n, w_conns w !! c = Some n /\ pview n = pview n0 /\ settled n0 n) /\
    (xa_sendable n0 = true -> since w0 w (EvStmt c (XaPrepare x) 0)).

Lemma prepared_step x w0 w w' cs S c :
  prepared x w0 w c -> wstep cs S w w' -> c ∉ cs -> prepared x w0 w' c.
Proof.
  intros H W Hc n0 Hn0 Hd. destruct (H n0 Hn0 Hd) as [Hn Hs]. split.
  - by rewrite (ws_frame _ _ _ _ W c Hc).
  - intros Hx. eapply since_trace; [by apply Hs|exact W].
Qed.

Definition phase_one_stmts (x : XID) : list stmt := XaCommitOnePhase x :: prepare_stmts x.

(** What phase one promises. *)
Record phase_one (x : XID) (cs : list cid) (w0 : world) (e : Z) (w : world) : Prop := {
  p1_step : wstep cs (among (phase_one_stmts x)) w0 w;
  p1_ok : e = 0 -> exists init z, cs = init ++ [z] /\ (forall c, c ∈ init -> prepared x w0 w c) /\
    (forall n0, w_conns w0 !! z = Some n0 -> xa_sendable n0 = true ->
       since w0 w (EvStmt z (XaCommitOnePhase x) 0)) /\
    (forall c r, since w0 w (EvStmt c (XaCommitOnePhase x) r) ->
       exists n, w_conns w !! c = Some n /\ is_xa_commit_one_phase n = true);
  p1_bad : e <> 0 -> forall c, ~ since w0 w (EvStmt c (XaCommitOnePhase x) 0)
}.

Lemma prepare_body_step da x cs dn c rest w0 w :
  parts_ok w0 cs -> NoDup cs -> cs = dn ++ c :: rest ->
  wstep dn (among (prepare_stmts x)) w0 w -> (forall c', c' ∈ dn -> prepared x w0 w c') ->
  exists e w', prepare_participant da x c w = Some (e, w') /\ w_links w' = w_links w /\
    wstep (dn ++ [c]) (among (prepare_stmts x)) w0 w' /\
    (e = 0 -> forall c', c' ∈ dn ++ [c] -> prepared x w0 w' c').
Proof.
  intros P0 Hnd Hcs W Hp. assert (Hc : c ∉ dn).
  { rewrite Hcs in Hnd. apply NoDup_app in Hnd as (_ & Hd & _). intros Hin. apply (Hd c Hin). set_solver. }
  destruct (wstep_parts _ _ _ _ _ W P0 c) as (n & Hn & Hok); [rewrite Hcs; set_solver|].
  destruct (wp_frame c _ w n _ Hn (wp_prepare_participant c stmt_nonneg no_oom no_dry da x (loc_of n w) Hok))
    as (e & l' & Hm & Kw & Ks & Ka).
  pose proof (went_wstep _ _ _ _ _ Hn Kw) as W'.
  exists e, (put c l' w). split_and!; [done|done|by eapply wstep_snoc|].
  intros -> c' [Hin| ->%list_elem_of_singleton]%elem_of_app.
  - eapply prepared_step; [by apply Hp|exact W'|set_solver].
  - rewrite (ws_frame _ _ _ _ W c Hc) in Hn. intros n0 Hn0 Hd. rewrite Hn in Hn0. injection Hn0 as <-.
    specialize (Ks Hd). split.
    + exists (l_conn l'). split; [simpl; by rewrite lookup_insert_eq|]. split; apply Ks.
    + intros Hs. eapply since_before; [exact W|]. eapply acked_since. by apply Ka.
Qed.

Lemma wstep_links_walks cs' S w w' cs :
  wstep cs' S w w' -> walks (w_links w) (join_trx_top (w_trx w)) cs ->
  walks (w_links w') (join_trx_top (w_trx w')) cs.
Proof.
  intros W H. rewrite (ws_links _ _ _ _ W). pose proof (ws_sess _ _ _ _ W) as Hs.
  unfold wsess, sess in Hs. by replace (join_trx_top (w_trx w')) with (join_trx_top (w_trx w)) by congruence.
Qed.

(** No one-phase commit among the statements of the prepare. *)
Lemma prepare_no_commit x cs w w' c e :
  wstep cs (among (prepare_stmts x)) w w' -> ~ since w w' (EvStmt c (XaCommitOnePhase x) e).
Proof. intros W H. apply (wstep_stmt _ _ _ _ _ _ _ W) in H as [[]|H]. set_solver. Qed.

Lemma prepare_to_phase_one x cs cs' w w' :
  cs' ⊆ cs -> wstep cs' (among (prepare_stmts x)) w w' -> wstep cs (among (phase_one_stmts x)) w w'.
Proof.
  intros Hs. apply wstep_mono; [done|]. intros s. apply among_mono. unfold phase_one_stmts. set_solver.
Qed.

(** The last participant. *)
Lemma last_participant_step x init z w0 w :
  parts_ok w0 (init ++ [z]) -> z ∉ init ->
  wstep init (among (prepare_stmts x)) w0 w -> (forall c, c ∈ init -> prepared x w0 w c) ->
  exists e w', spider_db_xa_commit_one_phase z x w = Some (e, w') /\
    phase_one x (init ++ [z]) w0 e w'.
Proof.
  intros P0 Hz W Hp.
  destruct (wstep_parts _ _ _ _ _ W P0 z) as (n & Hn & Hok); [set_solver|].
  destruct (wp_frame z _ w n _ Hn (wp_xa_commit_one_phase z stmt_nonneg no_oom no_dry x (loc_of n w) Hok))
    as (e & l' & Hm & K & Ka & Kn & Ki).
  assert (went z (among [XaEnd x; XaCommitOnePhase x]) (loc_of n w) l') as Kw.
  { apply stays_went in K as [O T E]. unfold one_phase_conn in *. by destruct (xa_sendable _). }
  pose proof (went_wstep _ _ _ _ _ Hn Kw) as W'.
  exists e, (put z l' w). split; [done|]. split.
  - eapply wstep_trans; [apply (prepare_to_phase_one _ _ _ _ _ (app_subset_l _ _) W)|].
    eapply wstep_mono; [apply app_subset_r| |exact W']. intros s. apply among_mono.
    unfold phase_one_stmts, prepare_stmts. set_solver.
  - intros ->. exists init, z. split_and!; [done| | |].
    + intros c Hc. eapply prepared_step; [by apply Hp|exact W'|set_solver].
    + rewrite (ws_frame _ _ _ _ W z Hz) in Hn. intros n0 Hn0 Hs. rewrite Hn in Hn0. injection Hn0 as <-.
      eapply since_before; [exact W|]. eapply acked_since. by apply Ka.
    + intros c r Hs. destruct (since_split w0 w _ _ (wstep_ext _ _ _ _ W) (wstep_ext _ _ _ _ W') Hs) as [Hs'|Hs'].
      { by apply (prepare_no_commit _ _ _ _ _ _ W) in Hs'. }
      assert (c = z) as ->.
      { destruct (ws_trace _ _ _ _ W') as (t1 & E1 & F1), Hs' as (t2 & E2 & H2). rewrite E1 in E2.
        apply app_inv_head in E2 as <-. rewrite Forall_forall in F1.
        apply F1 in H2 as [?%list_elem_of_singleton _]. done. }
      exists (l_conn l'). split; [simpl; by rewrite lookup_insert_eq|].
      pose proof (sy_pview _ _ _ _ K) as Hv. unfold one_phase_conn in Hv. simpl in Hv, Ki.
      destruct (xa_sendable n).
      * unfold pview in Hv. simpl in Hv. congruence.
      * rewrite (Ki eq_refl) in Hs'. destruct Hs' as (t2 & E2 & H2). simpl in E2. rewrite app_nil_r in E2.
        rewrite <- (app_nil_r (w_trace w)) in E2 at 1. apply app_inv_head in E2 as <-.
        by apply elem_of_nil in H2.
  - intros He c (t & E & Hin). destruct (ws_trace _ _ _ _ W) as (t0 & E0 & F0).
    destruct (Kn He) as (t1 & E1 & H1). simpl in E, E1. rewrite E1, E0, <- (assoc_L (++)) in E.
    apply app_inv_head in E as <-. apply elem_of_app in Hin as [Hin|Hin].
    + by eapply (prepare_no_commit _ _ _ _ c 0 W); exists t0.
    + destruct (decide (c = z)) as [->|Hcz]; [done|].
      destruct Kw as [_ _ (t2 & E2 & F2)]. simpl in E2. rewrite E1 in E2. subst t2.
      rewrite Forall_forall in F2. apply F2 in Hin as [Hc _]. done.
Qed.

(** Phase one on two or more participants. *)
Lemma prepare_participants_spec x cs w :
  walks (w_links w) (join_trx_top (w_trx w)) cs -> parts_ok w cs -> (2 <= length cs)%nat ->
  exists e w', prepare_participants x w = Some (e, w') /\ phase_one x cs w e w'.
Proof.
  intros Hw P Hlen. pose proof (walks_nodup _ _ _ Hw) as Hnd.
  destruct cs as [|c [|c' rest]]; simpl in Hlen; [lia|lia|].
  unfold prepare_participants, backup_dastatus.
  rewrite (bind_eq _ _ _ _ _ (gets_eq _ w)), (bind_eq _ _ _ _ _ (tree_first_walks _ _ Hw)),
    (bind_eq _ _ _ _ _ (gets_eq _ w)).
  set (da := is_error (w_thd w)). set (cs := c :: c' :: rest) in *.
  set (I := fun dn w' => wstep dn (among (prepare_stmts x)) w w' /\ forall c, c ∈ dn -> prepared x w w' c).
  set (E := fun (e : Z) w' => wstep cs (among (prepare_stmts x)) w w').
  destruct (prepare_loop_rule (prepare_participant da x) I E (w_links w) (join_trx_top (w_trx w)) cs Hw)
    with (fuel := size (w_links w)) (dn := @nil cid) (c := c) (rest := c' :: rest) (w := w)
    as (r & w1 & Hm & HL & Hr); try done.
  - intros dn y ys w1 Hcs Hne HL [W Hp].
    destruct (prepare_body_step da x cs dn y ys w w1 P Hnd Hcs W Hp) as (e & w2 & Hb & HL2 & W2 & Hp2).
    exists e, w2. split_and!; [done|congruence| |by intros; split; [|apply Hp2]].
    intros _. eapply wstep_mono; [|by intros s|exact W2]. rewrite Hcs. set_solver.
  - pose proof (walks_size _ _ _ Hw) as Hsz. unfold cs in Hsz. simpl in *. lia.
  - split; [apply wstep_refl|]. set_solver.
  - simpl head. cbn iota beta. rewrite (bind_eq _ _ _ _ _ Hm). destruct r as [e|o].
    + destruct Hr as [He W]. exists e, w1. split; [done|]. split; [|done|].
      * by apply (prepare_to_phase_one _ _ _ _ _ (reflexivity cs) W).
      * intros _ y. by eapply prepare_no_commit.
    + destruct Hr as (init & z & Hcs & -> & W & Hp). rewrite Hcs in *.
      apply last_participant_step; try done.
      apply NoDup_app in Hnd as (_ & Hd & _). intros Hin. apply (Hd z Hin). set_solver.
Qed.

(** ** The loops that visit every participant *)

Definition forgotten (w : world) : world := w <| w_trx := (w_trx w) <| join_trx_top := None |> |>.

(** The log tables are the same. *)
Definition same_log (w w' : world) : Prop :=
  w_xa w' = w_xa w /\ w_xa_member w' = w_xa_member w.

(** Participant [c] has left the transaction. *)
Definition left_trx (w : world) (c : cid) : Prop :=
  exists n, w_conns w !! c = Some n /\ join_trx n = 0.

(** [I0] is what one participant's body adds for itself; it must survive the
    steps of the others. *)
Lemma all_joined_rule {A} (body : A -> cid -> M world (Z + A)) (S : stmt -> Prop)
    (J : A -> A -> Prop) (R : A -> world -> world -> cid -> Prop) cs a0 w0 :
  walks (w_links w0) (join_trx_top (w_trx w0)) cs -> parts_ok w0 cs ->
  (forall a c n w, c ∈ cs -> w_conns w !! c = Some n -> w_conns w0 !! c = Some n -> conn_ok n ->
     (exists dn, c ∉ dn /\ wstep dn S w0 w) ->
     exists a' l', body a c w = Some (inr a', put c l' w) /\ went c S (loc_of n w) l' /\
       join_trx (l_conn l') = 0 /\ J a a' /\ R a' w0 (put c l' w) c) ->
  (forall a a' w w' dn c, J a a' -> R a w0 w c -> wstep dn S w w' -> c ∉ dn -> R a' w0 w' c) ->
  exists a w, all_joined body a0 w0 = Some (a, forgotten w) /\ wstep cs S w0 w /\ same_log w0 w /\
    (forall c, c ∈ cs -> left_trx w c /\ R a w0 w c).
Proof.
  intros Hw P Hbody Hstab. pose proof (walks_nodup _ _ _ Hw) as Hnd.
  set (I := fun dn a w => wstep dn S w0 w /\ same_log w0 w /\ forall c, c ∈ dn -> left_trx w c /\ R a w0 w c).
  destruct (for_each_rule body I (fun _ _ => False) cs a0 w0 Hw) as (r & w1 & Hm & HL & Hr).
  - intros dn c rest a w Hcs HL (W & HLog & HI).
    assert (Hc : c ∉ dn).
    { rewrite Hcs in Hnd. apply NoDup_app in Hnd as (_ & Hd & _). intros Hin. apply (Hd c Hin). set_solver. }
    assert (Hin : c ∈ cs) by (rewrite Hcs; set_solver).
    destruct (wstep_parts _ _ _ _ _ W P c Hin) as (n & Hn & Hok).
    destruct (Hbody a c n w Hin Hn) as (a' & l' & Hb & Kw & Hj & HJ & HR); [|done|by exists dn|].
    { by rewrite <- (ws_frame _ _ _ _ W c Hc). }
    pose proof (went_wstep _ _ _ _ _ Hn Kw) as W'.
    exists (inr a'), (put c l' w). split_and!; [done|done|]. split_and!; [by eapply wstep_snoc|exact HLog|].
    intros c' [Hc'| ->%list_elem_of_singleton]%elem_of_app.
    + destruct (HI c' Hc') as [(n' & Hn' & Hj') HR']. split.
      * exists n'. rewrite (ws_frame _ _ _ _ W'); [done|]. set_solver.
      * eapply Hstab; [exact HJ|exact HR'|exact W'|set_solver].
    + split; [|done]. exists (l_conn l'). simpl. by rewrite lookup_insert_eq.
  - split_and!; [apply wstep_refl|done|]. set_solver.
  - destruct r as [e|a]; [done|]. destruct Hr as (W & HLog & HI). exists a, w1. split_and!; [|done|exact HLog|done].
    unfold all_joined. by rewrite (bind_eq _ _ _ _ _ Hm).
Qed.

(** ** Phase two *)

(** XA COMMIT was acknowledged where it had to be sent. *)
Definition committed (x : XID) (e : Z) (w0 w : world) (c : cid) : Prop :=
  forall n0, w_conns w0 !! c = Some n0 ->
    (is_xa_commit_one_phase n0 = true -> forall r, ~ since w0 w (EvStmt c (XaCommit x) r)) /\
    (e = 0 -> join_trx n0 <> 0 -> is_xa_commit_one_phase n0 = false -> xa_sendable n0 = true ->
     error_mode n0 = 0 -> spider_param_force_commit = 0 -> since w0 w (EvStmt c (XaCommit x) 0)).

Lemma wstep_other cs S w w' c s e : wstep cs S w w' -> c ∉ cs -> ~ since w w' (EvStmt c s e).
Proof.
  intros [_ _ _ _ (t & E & F)] Hc (t' & E' & H). rewrite E in E'. apply app_inv_head in E' as <-.
  rewrite Forall_forall in F. by apply F in H as [? _].
Qed.


Lemma committed_stable x a a' w0 w w' dn c S S' dn0 :
  wstep dn0 S' w0 w -> (a' = 0 -> a = 0) -> committed x a w0 w c -> wstep dn S w w' -> c ∉ dn ->
  committed x a' w0 w' c.
Proof.
  intros W0 HJ HR W Hc n0 Hn0. destruct (HR n0 Hn0) as [H1 H2]. split.
  - intros Hf r Hs. destruct (since_split w0 w w' _ (wstep_ext _ _ _ _ W0) (wstep_ext _ _ _ _ W) Hs) as [Hs'|Hs'].
    + by eapply H1.
    + exact (wstep_other _ _ _ _ _ _ _ W Hc Hs').
  - intros Ha Hj Hf Hx Hm Hfc. eapply since_trace; [|exact W]. apply H2; auto.
Qed.

Definition phase_two_stmts (x : XID) : list stmt := [XaCommit x; UnlockTables].

Lemma commit_loop_spec da x cs w0 :
  walks (w_links w0) (join_trx_top (w_trx w0)) cs -> parts_ok w0 cs ->
  exists e w, all_joined (commit_participant da x) 0 w0 = Some (e, forgotten w) /\
    wstep cs (among (phase_two_stmts x)) w0 w /\
    (forall c, c ∈ cs -> left_trx w c /\ committed x e w0 w c).
Proof.
  intros Hw P.
  (* [committed], and that the step before it is one *)
  destruct (all_joined_rule (commit_participant da x) (among (phase_two_stmts x)) (fun a a' => a' = 0 -> a = 0)
    (fun a w0 w c => (exists dn, wstep dn (among (phase_two_stmts x)) w0 w) /\ committed x a w0 w c)
    cs 0 w0 Hw P) as (e & w & Hm & W & _ & HI).
  - intros a c n w Hc Hn Hn0 Hok (dn & Hdn & W).
    destruct (wp_frame c _ w n _ Hn (wp_commit_participant c stmt_nonneg no_oom no_dry da x a (loc_of n w) Hok))
      as (r & l' & Hm & e' & -> & Kw & Hj & He).
    exists e', l'. simpl in Kw, He.
    assert (went c (among (phase_two_stmts x)) (loc_of n w) l') as Kw'.
    { eapply went_mono; [|exact Kw]. intros s. apply among_mono. unfold phase_two_stmts.
      destruct (is_xa_commit_one_phase n); set_solver. }
    pose proof (went_wstep _ _ _ _ _ Hn Kw') as W'.
    split_and!; [done|done|done|by intros ->; apply He|exists (dn ++ [c]); by eapply wstep_snoc|].
    intros n1 Hn1. rewrite Hn0 in Hn1. injection Hn1 as <-. split.
    + intros Hf r Hs. destruct (since_split w0 w _ _ (wstep_ext _ _ _ _ W) (wstep_ext _ _ _ _ W') Hs) as [Hs'|Hs'].
      * exact (wstep_other _ _ _ _ _ _ _ W Hdn Hs').
      * rewrite Hf in Kw. apply (went_wstep _ _ _ _ _ Hn) in Kw.
        apply (wstep_stmt _ _ _ _ _ _ _ Kw) in Hs' as [[]|Hs']. set_solver.
    + intros -> Hj0 Hf Hx Hm0 Hfc. destruct (He eq_refl) as [_ Ha].
      eapply since_before; [exact W|]. eapply acked_since. by apply Ha.
  - intros a a' w w' dn c HJ [[dn0 W0] HR] W Hc. split.
    + exists (dn0 ++ dn). eapply wstep_trans.
      * eapply wstep_mono; [apply app_subset_l|by intros s|exact W0].
      * eapply wstep_mono; [apply app_subset_r|by intros s|exact W].
    + by eapply committed_stable.
  - exists e, w. split_and!; [done|done|]. intros c Hc. destruct (HI c Hc) as [? [_ ?]]. done.
Qed.

(** ** Rollback *)

(** XA ROLLBACK was acknowledged where it had to be sent. *)
Definition rolled_back (x : XID) (e : Z) (w0 w : world) (c : cid) : Prop :=
  forall n0, w_conns w0 !! c = Some n0 -> e = 0 -> join_trx n0 <> 0 -> disable_xa n0 = false ->
    server_lost n0 = false -> error_mode n0 = 0 -> spider_param_force_commit = 0 ->
    xa_sendable n0 = true -> since w0 w (EvStmt c (XaRollback x) 0).

Lemma rollback_loop_spec da prepared x cs w0 :
  walks (w_links w0) (join_trx_top (w_trx w0)) cs -> parts_ok w0 cs ->
  exists st' w, all_joined (rollback_participant da prepared x) (0, false) w0 = Some (st', forgotten w) /\
    wstep cs (among (rollback_stmts x)) w0 w /\
    (forall c, c ∈ cs -> left_trx w c /\ rolled_back x st'.1 w0 w c).
Proof.
  intros Hw P.
  destruct (all_joined_rule (rollback_participant da prepared x) (among (rollback_stmts x))
    (fun a a' => a'.1 = 0 -> a.1 = 0) (fun a => rolled_back x a.1) cs (0, false) w0 Hw P)
    as (st' & w & Hm & W & _ & HI).
  - intros a c n w Hc Hn Hn0 Hok (dn & Hdn & W).
    destruct (wp_frame c _ w n _ Hn
      (wp_rollback_participant c stmt_nonneg no_oom no_dry da prepared x a (loc_of n w) Hok))
      as (r & l' & Hm & st' & -> & Kw & Hj & Hack).
    exists st', l'. split_and!; [done|done|done|by intros ?; apply Hack|].
    intros n1 Hn1 He ?????? . rewrite Hn0 in Hn1. injection Hn1 as <-.
    eapply since_before; [exact W|]. eapply acked_since. by apply Hack.
  - intros a a' w w' dn c HJ HR W _ n0 Hn0 He ??????. eapply since_trace; [|exact W].
    apply (HR n0 Hn0); auto.
  - exists st', w. split_and!; [done|done|]. intros c Hc. by apply HI.
Qed.

Lemma one_phase_loop_spec x cs w0 :
  walks (w_links w0) (join_trx_top (w_trx w0)) cs -> parts_ok w0 cs ->
  exists e w, all_joined (one_phase_participant x) 0 w0 = Some (e, forgotten w) /\
    wstep cs (among [XaEnd x; XaCommitOnePhase x; UnlockTables]) w0 w /\ same_log w0 w /\
    (forall c, c ∈ cs -> left_trx w c).
Proof.
  intros Hw P.
  destruct (all_joined_rule (one_phase_participant x) (among [XaEnd x; XaCommitOnePhase x; UnlockTables])
    (fun _ _ => True) (fun _ _ _ _ => True) cs 0 w0 Hw P) as (e & w & Hm & W & HLog & HI); [|done|].
  - intros a c n w Hc Hn Hn0 Hok _.
    destruct (wp_frame c _ w n _ Hn
      (wp_one_phase_participant c stmt_nonneg no_oom no_dry x a (loc_of n w) Hok))
      as (r & l' & Hm & e' & -> & Kw & Hj).
    by exists e', l'.
  - exists e, w. split_and!; [done|done|exact HLog|]. intros c Hc. by apply HI.
Qed.

(** ** Writing the log *)

Lemma log_members_spec x cs w :
  walks (w_links w) (join_trx_top (w_trx w)) cs -> parts_ok w cs ->
  exists r w', log_members x w = Some (r, w') /\ wlog w w'.
Proof.
  intros Hw P. unfold log_members, backup_dastatus. rewrite (bind_eq _ _ _ _ _ (gets_eq _ w)).
  set (da := is_error (w_thd w)).
  match goal with |- context [for_each_joined ?b tt] => set (body := b) end.
  destruct (for_each_rule body (fun _ _ w' => wlog w w') (fun _ w' => wlog w w') cs tt w Hw)
    as (r & w1 & Hm & _ & Hr).
  - intros dn c rest [] w1 Hcs HL W. unfold body.
    destruct (P c) as (n & Hn & _); [rewrite Hcs; set_solver|].
    rewrite <- (wlog_conns _ _ c W) in Hn.
    destruct (insert_member_log x c NOT_YET w1 n Hn) as (e & w2 & Hi & W2).
    assert (exists e' w3, with_restore da c (spider_insert_xa_member x c NOT_YET) w1 = Some (e', w3) /\
      wlog w1 w3) as (e' & w3 & Hr & W3).
    { unfold with_restore. rewrite (bind_eq _ _ _ _ _ Hi). destruct (Z.eqb e 0); [by exists 0, w2|].
      rewrite <- (wlog_conns _ _ c W2) in Hn. destruct (restore_log da c e w2 n Hn) as (e' & w3 & ? & ?).
      exists e', w3. split; [done|by eapply wstep_trans]. }
    rewrite (bind_eq _ _ _ _ _ Hr). eexists _, w3. split; [reflexivity|].
    rewrite (ws_links _ _ _ _ W3). split; [done|]. destruct (Z.eqb e' 0); by eapply wstep_trans.
  - apply wstep_refl.
  - rewrite (bind_eq _ _ _ _ _ Hm). eexists _, w1. split; [reflexivity|]. by destruct r.
Qed.

Lemma log_not_yet_spec cs w :
  walks (w_links w) (join_trx_top (w_trx w)) cs -> parts_ok w cs ->
  exists r w', log_not_yet (w_trx w) w = Some (r, w') /\ wlog w w'.
Proof.
  intros Hw P. unfold log_not_yet. destruct (negb _); [by apply logs_ret|].
  assert (Hthen : forall m k w1, wlog w w1 -> logs m ->
    (forall w2, wlog w w2 -> exists r w', k w2 = Some (r, w') /\ wlog w w') ->
    exists r w', (m &&; k) w1 = Some (r, w') /\ wlog w w').
  { intros m k w1 W1 Hm Hk. destruct (logs_after m _ _ W1 Hm) as (e & w2 & E & W2). unfold andthen.
    rewrite (bind_eq _ _ _ _ _ E). destruct (Z.eqb e 0); [by apply Hk|]. by exists e, w2. }
  apply Hthen; [apply wstep_refl|apply logs_open|]. intros w1 W1.
  apply Hthen; [done|apply logs_insert_xa|]. intros w2 W2.
  apply Hthen; [done|apply logs_open|]. intros w3 W3.
  destruct (log_members_spec (xid (w_trx w)) cs w3) as (r & w4 & Hm & W4).
  - by eapply wstep_links_walks.
  - by eapply wstep_parts.
  - exists r, w4. split; [done|by eapply wstep_trans].
Qed.

(** ** The outcome of the prepare *)

Inductive prepare_outcome (cs : list cid) (internal : bool) (w : world) : Z -> world -> Prop :=
| prepare_log_failed e w' : e <> 0 -> wlog w w' -> prepare_outcome cs internal w e w'
| prepare_failed e w1 w' : e <> 0 -> wlog w w1 -> phase_one (xid (w_trx w)) cs w1 e w' ->
    prepare_outcome cs internal w e w'
| prepare_log2_failed e w1 w2 w' : e <> 0 -> xa_logged (w_trx w) = true -> wlog w w1 ->
    phase_one (xid (w_trx w)) cs w1 0 w2 -> wlog w2 w' -> prepare_outcome cs internal w e w'
| prepare_ok w1 w2 w3 : wlog w w1 -> phase_one (xid (w_trx w)) cs w1 0 w2 -> wlog w2 w3 ->
    prepare_outcome cs internal w 0
      (if internal then w3 <| w_trx := (w_trx w3) <| internal_xa_state := XA_PREPARED |> |> else w3).

Lemma xa_prepare_spec internal cs w :
  walks (w_links w) (join_trx_top (w_trx w)) cs -> parts_ok w cs -> (2 <= length cs)%nat ->
  exists e w', spider_internal_xa_prepare internal w = Some (e, w') /\ prepare_outcome cs internal w e w'.
Proof.
  intros Hw P Hlen. unfold spider_internal_xa_prepare. rewrite (bind_eq _ _ _ _ _ (gets_eq _ w)).
  destruct (log_not_yet_spec cs w Hw P) as (e1 & w1 & E1 & W1). unfold andthen.
  rewrite (bind_eq _ _ _ _ _ E1). destruct (Z.eqb_spec e1 0) as [->|He1].
  2: { exists e1, w1. split; [done|by constructor]. }
  destruct (prepare_participants_spec (xid (w_trx w)) cs w1) as (e2 & w2 & E2 & H2);
    [by eapply wstep_links_walks|by eapply wstep_parts|done|].
  rewrite (bind_eq _ _ _ _ _ E2). destruct (Z.eqb_spec e2 0) as [->|He2].
  2: { exists e2, w2. split; [done|by econstructor]. }
  destruct (logs_prepared (w_trx w) w2) as (e3 & w3 & E3 & W3).
  rewrite (bind_eq _ _ _ _ _ E3). destruct (Z.eqb_spec e3 0) as [->|He3].
  2: { exists e3, w3. split; [done|]. eapply prepare_log2_failed; try done.
       unfold log_prepared in E3. destruct (xa_logged (w_trx w)); [done|]. simpl in E3. by injection E3 as <- _. }
  eexists 0, _. split; [|by eapply (prepare_ok cs internal w w1 w2 w3)]. by destruct internal.
Qed.
End Phases.
