(* ===== verification/XaMain.v ===== *)
(** * Commit and rollback of a distributed transaction

    The entry points [spider_internal_xa_commit], [spider_internal_xa_rollback],
    [rollback_trx] and [commit_internal_xa] as wholes, and the theorems about
    what the backends see of them. *)

From stdpp Require Import base gmap list strings.
From Stdlib Require Import ZArith Lia.
From S2P Require Import Prelude ConnTree World ConnQueue DbXa SysTable ConnPool XaTrx.
From S2P Require Import ConnWp ConnSpec QuerySpec StmtSpec PartSpec XaSpec.
Local Open Scope spider_scope.
Local Open Scope Z_scope.

(** What was added to the trace. *)
Definition traced (cs : list cid) (S : stmt -> Prop) (w w' : world) : Prop :=
  exists t, w_trace w' = w_trace w ++ t /\ Forall (ev_of cs S) t.

Lemma traced_refl cs S w w' : w_trace w' = w_trace w -> traced cs S w w'.
Proof. intros H. exists []. by rewrite app_nil_r. Qed.

Lemma traced_trans cs S w1 w2 w3 : traced cs S w1 w2 -> traced cs S w2 w3 -> traced cs S w1 w3.
Proof.
  intros (t1 & E1 & F1) (t2 & E2 & F2). exists (t1 ++ t2).
  rewrite E2, E1, <- (assoc_L (++)). split; [done|by apply Forall_app].
Qed.

Lemma traced_mono cs cs' (S S' : stmt -> Prop) w w' :
  cs ⊆ cs' -> (forall s, S s -> S' s) -> traced cs S w w' -> traced cs' S' w w'.
Proof.
  intros H1 H2 (t & E & F). exists t. split; [done|]. eapply Forall_impl; [exact F|].
  intros ev. by apply ev_of_mono.
Qed.

Lemma wlog_traced cs S w w' : wlog w w' -> traced cs S w w'.
Proof. intros W. eapply traced_mono; [| |apply (ws_trace _ _ _ _ W)]; [set_solver|done]. Qed.

Lemma traced_stmt cs S w w' c s e : traced cs S w w' -> since w w' (EvStmt c s e) -> c ∈ cs /\ S s.
Proof.
  intros (t & E & F) (t' & E' & H). rewrite E in E'. apply app_inv_head in E' as <-.
  rewrite Forall_forall in F. by apply F in H.
Qed.

Lemma since_traced cs S w w' w'' ev : since w w' ev -> traced cs S w' w'' -> since w w'' ev.
Proof.
  intros (t1 & E1 & H1) (t2 & E2 & _). exists (t1 ++ t2).
  rewrite E2, E1, <- (assoc_L (++)). split; [done|]. apply elem_of_app. by left.
Qed.

Lemma traced_since cs S w0 w w' ev : traced cs S w0 w -> since w w' ev -> since w0 w' ev.
Proof.
  intros (t1 & E1 & _) (t2 & E2 & H2). exists (t1 ++ t2).
  rewrite E2, E1, <- (assoc_L (++)). split; [done|]. apply elem_of_app. by right.
Qed.

Lemma traced_split cs S cs' S' w0 w w' ev :
  traced cs S w0 w -> traced cs' S' w w' -> since w0 w' ev -> since w0 w ev \/ since w w' ev.
Proof. intros (t1 & E1 & _) (t2 & E2 & _). apply since_split; eauto. Qed.

(** ** What the outcomes of the prepare say *)

Section Outcomes.
  Context `{env : Env, vars : Vars}.

(** After a prepare that succeeded every participant is prepared, or committed
    in one phase. *)
Lemma prepare_ok_acked cs w w1 p n :
  prepare_outcome cs true w 0 w1 -> p ∈ cs -> w_conns w !! p = Some n ->
  disable_xa n = false -> xa_sendable n = true ->
  (since w w1 (EvStmt p (XaPrepare (xid (w_trx w))) 0) /\
   exists n', w_conns w1 !! p = Some n' /\ pview n' = pview n /\ settled n n') \/
  since w w1 (EvStmt p (XaCommitOnePhase (xid (w_trx w))) 0).
Proof.
  intros H Hp Hn Hd Hs. inversion H as [| | |w2 w3 w4 W1 H1 W3]; subst; try done.
  destruct (p1_ok _ _ _ _ _ H1 eq_refl) as (init & z & -> & Hi & Hz & _).
  rewrite <- (wlog_conns _ _ p W1) in Hn.
  assert (Hlift : forall ev, since w2 w3 ev ->
    since w (w4 <| w_trx := (w_trx w4) <| internal_xa_state := XA_PREPARED |> |>) ev).
  { intros ev Hev. eapply (since_traced [] (fun _ => False)); [|exact (wlog_traced _ _ _ _ W3)].
    eapply traced_since; [exact (wlog_traced [] (fun _ => False) _ _ W1)|exact Hev]. }
  apply elem_of_app in Hp as [Hp| ->%list_elem_of_singleton].
  - left. destruct (Hi p Hp n Hn Hd) as [(n' & Hn' & ? & ?) Ha]. split; [by apply Hlift, Ha|].
    exists n'. split; [|done]. change (w_conns w4 !! p = Some n'). by rewrite (wlog_conns _ _ p W3).
  - right. apply Hlift. by apply (Hz n Hn Hs).
Qed.

(** The one-phase commit marks its connection. *)
Lemma prepare_one_phase_flag cs w w1 c r :
  prepare_outcome cs true w 0 w1 -> since w w1 (EvStmt c (XaCommitOnePhase (xid (w_trx w))) r) ->
  exists n, w_conns w1 !! c = Some n /\ is_xa_commit_one_phase n = true.
Proof.
  intros H Hs. inversion H as [| | |w2 w3 w4 W1 H1 W3]; subst; try done.
  destruct (p1_ok _ _ _ _ _ H1 eq_refl) as (init & z & -> & _ & _ & Hf).
  pose proof (wlog_traced [] (fun _ => False) _ _ W1) as T1.
  pose proof (ws_trace _ _ _ _ (p1_step _ _ _ _ _ H1)) as T2.
  pose proof (wlog_traced [] (fun _ => False) _ _ W3) as T3.
  destruct (traced_split _ _ _ _ w w2 w4 _ T1
    (traced_trans _ _ _ _ _ T2 (wlog_traced _ _ _ _ W3)) Hs) as [Hs'|Hs'].
  { by apply (traced_stmt _ _ _ _ _ _ _ T1) in Hs' as [_ ?]. }
  destruct (traced_split _ _ _ _ _ _ _ _ T2 T3 Hs') as [Hs''|Hs''].
  - destruct (Hf c r Hs'') as (n & Hn & Hfl). exists n. split; [|done].
    change (w_conns w4 !! c = Some n). by rewrite (wlog_conns _ _ c W3).
  - by apply (traced_stmt _ _ _ _ _ _ _ T3) in Hs'' as [_ ?].
Qed.

Lemma prepare_ok_traced cs w w1 :
  prepare_outcome cs true w 0 w1 -> traced cs (among (phase_one_stmts (xid (w_trx w)))) w w1.
Proof.
  intros H. inversion H as [| | |w2 w3 w4 W1 H1 W3]; subst; try done.
  eapply traced_trans; [exact (wlog_traced _ _ _ _ W1)|].
  eapply traced_trans; [apply (ws_trace _ _ _ _ (p1_step _ _ _ _ _ H1))|]. exact (wlog_traced _ _ _ _ W3).
Qed.

(** A prepare that failed without a log acknowledged no commit. *)
Lemma prepare_failed_no_commit cs w e w1 c :
  prepare_outcome cs true w e w1 -> e <> 0 -> xa_logged (w_trx w) = false ->
  ~ since w w1 (EvStmt c (XaCommitOnePhase (xid (w_trx w))) 0).
Proof.
  intros H He Hl Hs. inversion H as [e' w' _ W|e' w2 w' _ W H1|e' w2 w3 w' _ Hl' |]; subst; try congruence.
  - by apply (wstep_stmt _ _ _ _ _ _ _ W) in Hs.
  - destruct (traced_split _ _ _ _ _ _ _ _ (wlog_traced [] (fun _ => False) _ _ W)
      (ws_trace _ _ _ _ (p1_step _ _ _ _ _ H1)) Hs) as [Hs'|Hs'].
    + by apply (wstep_stmt _ _ _ _ _ _ _ W) in Hs'.
    + by apply (p1_bad _ _ _ _ _ H1 He c).
Qed.

(** What the prepare leaves behind when it fails. *)
Lemma prepare_failed_step cs w e w1 :
  prepare_outcome cs true w e w1 -> e <> 0 ->
  wstep cs (among (phase_one_stmts (xid (w_trx w)))) w w1.
Proof.
  intros H He. destruct H as [e w' _ W|e w2 w' _ W H|e w2 w3 w' _ _ W H W'|w2 w3 w4 W H W']; [| | |done].
  - eapply wstep_mono; [| |exact W]; [set_solver|done].
  - eapply wstep_trans; [eapply wstep_mono; [| |exact W]; [set_solver|done]|apply H].
  - eapply wstep_trans; [eapply wstep_mono; [| |exact W]; [set_solver|done]|].
    eapply wstep_trans; [apply H|]. eapply wstep_mono; [| |exact W']; [set_solver|done].
Qed.
End Outcomes.

Section Giving.
  Context `{JO : JoinOrder walks} `{env : Env, vars : Vars}.

(** ** Giving up the connections *)

(** What [spider_free_conn] does. *)
Definition freed (c : cid) (n : SPIDER_CONN) (w : world) : world :=
  w <| w_ip_port := match ip_port_conn n with
                    | None => w_ip_port w
                    | Some k => alter (fun m => if Z.ltb 0 m then m - 1 else m) k (w_ip_port w)
                    end |>
    <| w_trace := w_trace w ++ (if db_conn n then [EvDisconnect c] else []) |>
    <| w_conns := delete c (w_conns w) |> <| w_links := delete c (w_links w) |>.

Lemma free_conn_eq c n w :
  w_conns w !! c = Some n -> spider_free_conn c w = Some (tt, freed c n w).
Proof.
  intros Hn. unfold spider_free_conn, spider_free_conn_alloc, spider_db_disconnect, mysql_disconnect,
    emit, getc, updc, freed.
  destruct w as [conns links trx thd mons xa xam gtrid pool ipp meta cid0 tr tick]. mrun. simpl in Hn.
  rewrite Hn. destruct (ip_port_conn n); mrun; rewrite Hn; destruct (db_conn n) eqn:Hd; mrun.
  all: rewrite ?Hn, ?app_nil_r; mrun; rewrite ?Hd; mrun; rewrite ?Hn; mrun.
  all: rewrite ?delete_insert_eq; try done.
Qed.

(** What the transaction record says of the transaction itself. *)
Definition trx_view (t : SPIDER_TRX) :=
  (trx_started t, trx_xa t, trx_xa_prepared t, internal_xa t, updated_in_this_trx t, xid t, internal_xa_state t).

(** The participants [cs] are gone, and nothing was sent. *)
Record given_up (cs : list cid) (w w' : world) : Prop := {
  gu_gone : forall c, c ∈ cs -> w_conns w' !! c = None /\ w_links w' !! c = None;
  gu_frame : forall c, c ∉ cs ->
    w_conns w' !! c = w_conns w !! c /\ w_links w' !! c = w_links w !! c;
  gu_hash : trx_conn_hash (w_trx w') = trx_conn_hash (w_trx w) ∖ list_to_set cs;
  gu_trx : trx_view (w_trx w') = trx_view (w_trx w);
  gu_trace : traced cs (fun _ => False) w w'
}.

Lemma free_prepared_loop_spec cs : forall fuel top w,
  walks (w_links w) top cs -> (forall c, c ∈ cs -> is_Some (w_conns w !! c)) ->
  (length cs <= fuel)%nat ->
  exists w', free_prepared_loop fuel (head cs) w = Some (tt, w') /\ given_up cs w w'.
Proof.
  induction cs as [|c rest IH]; intros fuel top w Hw P Hlen.
  { exists w. split; [by destruct fuel|]. split; [set_solver|done|set_solver|done|by apply traced_refl]. }
  destruct fuel as [|fuel]; [simpl in Hlen; lia|]. cbn [free_prepared_loop head].
  rewrite (bind_eq _ _ _ _ _ (tree_next_walks [] c rest w top Hw)).
  destruct (walks_delete _ _ _ c (join_trx_top (w_trx w)) Hw) as (top' & r & h' & Hd & _ & Hw' & Hf); [set_solver|].
  pose proof (walks_nodup _ _ _ Hw) as [Hc Hnd]%NoDup_cons.
  rewrite filter_cons_False, filter_notin in Hw'; [|done|by intros ?].
  unfold lift_opt. unfold mbind at 1, M_bind at 1. rewrite Hd.
  destruct (P c) as [n Hn]; [set_solver|].
  match goal with |- context [modify ?f] => set (g := f) end.
  rewrite (bind_eq _ _ _ _ _ (modify_eq g w)).
  rewrite (bind_eq _ _ _ _ _ (free_conn_eq c n (g w) Hn)).
  destruct (IH fuel top' (freed c n (g w))) as (w' & Hm & G).
  - simpl. eapply walks_frame; [|exact Hw']. intros y Hy. rewrite lookup_delete_ne; [done|]. set_solver.
  - intros y Hy. simpl. rewrite lookup_delete_ne by set_solver. apply P. set_solver.
  - simpl in Hlen. lia.
  - exists w'. split; [exact Hm|]. destruct G as [G1 G2 G3 G5 G4]. split.
    + intros y Hy. destruct (decide (y ∈ rest)) as [Hy'|Hy']; [by apply G1|].
      assert (y = c) as -> by set_solver. destruct (G2 c Hy') as [-> ->]. simpl.
      by rewrite !lookup_delete_eq.
    + intros y Hy. destruct (G2 y) as [-> ->]; [set_solver|]. simpl.
      rewrite !lookup_delete_ne by set_solver. split; [done|]. apply Hf. set_solver.
    + rewrite G3. simpl. set_solver.
    + exact G5.
    + eapply (traced_trans (c :: rest) (fun _ => False)); [|eapply traced_mono; [| |exact G4]; [set_solver|done]].
      exists (if db_conn n then [EvDisconnect c] else []). split; [done|].
      destruct (db_conn n); repeat constructor.
Qed.

Lemma free_prepared_spec cs w :
  walks (w_links w) (join_trx_top (w_trx w)) cs -> (forall c, c ∈ cs -> is_Some (w_conns w !! c)) ->
  exists w', spider_free_prepared_trx w = Some (tt, w') /\ given_up cs w w' /\
    join_trx_top (w_trx w') = None.
Proof.
  intros Hw P. unfold spider_free_prepared_trx.
  rewrite (bind_eq _ _ _ _ _ (tree_first_walks _ _ Hw)), (bind_eq _ _ _ _ _ (gets_eq _ w)).
  destruct cs as [|c cs].
  - simpl. exists w. apply walks_top in Hw. split; [by destruct (size (w_links w))|]. split; [|done].
    split; [set_solver|done|set_solver|done|by apply traced_refl].
  - destruct (free_prepared_loop_spec _ (size (w_links w)) _ w Hw P (walks_size _ _ _ Hw)) as (w' & Hm & G).
    rewrite (bind_eq _ _ _ _ _ Hm). simpl. eexists _. split; [reflexivity|]. split; [|done].
    destruct G as [G1 G2 G3 G5 G4]. by split.
Qed.
End Giving.

Section Main.
  Context `{JO : JoinOrder walks} `{env : Env, vars : Vars}.
  Context (stmt_nonneg : forall k, 0 <= env_stmt k).
  Context (no_oom : forall k, env_oom k = false).
  Context (no_dry : spider_param_dry_access = false).

(** ** Phase two as a whole *)

(** The transaction is over on every participant. *)
Record ended (cs : list cid) (w : world) : Prop := {
  en_top : join_trx_top (w_trx w) = None;
  en_active : internal_xa_state (w_trx w) = XA_NOTR;
  en_left : forall c, c ∈ cs -> left_trx w c;
  en_ok : parts_ok w cs
}.

Definition notr (w : world) : world := w <| w_trx := (w_trx w) <| internal_xa_state := XA_NOTR |> |>.

Lemma ended_log cs w w' :
  join_trx_top (w_trx w) = None -> (forall c, c ∈ cs -> left_trx w c) -> parts_ok w cs -> wlog w w' ->
  ended cs (notr w').
Proof.
  intros H1 H3 H4 W. pose proof (ws_sess _ _ _ _ W) as Hs. unfold wsess, sess in Hs. split; simpl.
  - congruence.
  - done.
  - intros c Hc. destruct (H3 c Hc) as (n & Hn & ?). exists n. split; [|done].
    change (w_conns w' !! c = Some n). by rewrite (wlog_conns _ _ c W).
  - apply (wstep_parts _ _ _ _ _ W H4).
Qed.

Lemma committed_log x e cs w0 w1 w2 w' c S :
  wlog w0 w1 -> traced cs S w1 w2 -> traced [] (fun _ => False) w2 w' ->
  committed x e w1 w2 c -> committed x e w0 w' c.
Proof.
  intros W T2 T3 H n0 Hn0. rewrite <- (wlog_conns _ _ c W) in Hn0. destruct (H n0 Hn0) as [H1 H2].
  pose proof (wlog_traced [] (fun _ => False) _ _ W) as T1. split.
  - intros Hf r Hs. destruct (traced_split _ _ _ _ _ _ _ _
      T1 (traced_trans cs S _ _ _ T2 ltac:(eapply traced_mono; [| |exact T3]; [set_solver|done])) Hs) as [Hs'|Hs'].
    + by apply (traced_stmt _ _ _ _ _ _ _ T1) in Hs' as [_ ?].
    + destruct (traced_split _ _ _ _ _ _ _ _ T2 T3 Hs') as [?|Hs'']; [by eapply H1|].
      by apply (traced_stmt _ _ _ _ _ _ _ T3) in Hs'' as [_ ?].
  - intros He Hj Hf Hx Hm Hfc. eapply since_traced; [|exact T3].
    eapply traced_since; [exact T1|]. by apply H2.
Qed.

(** [spider_internal_xa_commit]: either the log refuses and nothing is sent, or
    every participant is visited. *)
Lemma xa_commit_spec cs w :
  walks (w_links w) (join_trx_top (w_trx w)) cs -> parts_ok w cs ->
  exists e w', spider_internal_xa_commit w = Some (e, w') /\
    ((xa_logged (w_trx w) = true /\ e <> 0 /\ exists w1, wlog w w1 /\ w' = notr w1) \/
     (ended cs w' /\ traced cs (among (phase_two_stmts (xid (w_trx w)))) w w' /\
      exists e1, (e = 0 -> e1 = 0) /\ forall c, c ∈ cs -> committed (xid (w_trx w)) e1 w w' c)).
Proof.
  intros Hw P. unfold spider_internal_xa_commit. rewrite (bind_eq _ _ _ _ _ (gets_eq _ w)).
  set (x := xid (w_trx w)).
  set (dec := if xa_logged (w_trx w) then log_decision (w_trx w) [PREPARED; COMMIT] COMMIT else mret 0).
  assert (logs dec) as Hdec by (unfold dec; destruct (xa_logged _); [apply logs_decision|apply logs_ret]).
  destruct (Hdec w) as (e0 & w1 & E0 & W1). unfold andthen at 1.
  rewrite bind_assoc, (bind_eq _ _ _ _ _ E0). destruct (Z.eqb_spec e0 0) as [->|He0].
  2: { eexists e0, (notr w1). split; [done|]. left. split_and!; [|done|by exists w1].
       unfold dec in E0. destruct (xa_logged _); [done|]. by injection E0 as <- _. }
  unfold backup_dastatus. rewrite bind_assoc, (bind_eq _ _ _ _ _ (gets_eq _ w1)).
  destruct (commit_loop_spec stmt_nonneg no_oom no_dry (is_error (w_thd w1)) x cs w1)
    as (e & w2 & Hm & W2 & HI); [by eapply wstep_links_walks|by eapply wstep_parts|].
  rewrite bind_assoc, (bind_eq _ _ _ _ _ Hm).
  set (fin := if negb (Z.eqb e 0) then clear_error;; my_message ER_SPIDER_XA_TIMEOUT_NUM;; mret e
              else if xa_logged (w_trx w) then log_delete (w_trx w) else mret 0).
  assert (logs fin) as Hfin.
  { unfold fin. destruct (negb _); [|destruct (xa_logged _); [apply logs_delete|apply logs_ret]].
    apply logs_bind; [apply logs_clear|intros _]. apply logs_bind; [apply logs_message|intros _]. apply logs_ret. }
  destruct (Hfin (forgotten w2)) as (e3 & w3 & E3 & W3). rewrite (bind_eq _ _ _ _ _ E3).
  exists e3, (notr w3). split; [done|]. right.
  assert (T3 : traced [] (fun _ => False) w2 (notr w3)) by
    exact (wlog_traced [] (fun _ => False) _ _ W3).
  split_and!.
  - eapply ended_log; [| | |exact W3].
    + done.
    + intros c Hc. by apply HI.
    + exact (wstep_parts _ _ _ _ _ W2 (wstep_parts _ _ _ _ _ W1 P)).
  - eapply traced_trans; [apply (wlog_traced _ _ _ _ W1)|]. eapply traced_trans; [apply (ws_trace _ _ _ _ W2)|].
    eapply traced_mono; [| |exact T3]; [set_solver|done].
  - exists e. split.
    + intros ->. destruct (Z.eqb_spec e 0) as [|Hne]; [done|]. unfold fin in E3.
      by injection E3 as ? _.
    + intros c Hc. eapply committed_log; [exact W1|apply (ws_trace _ _ _ _ W2)|exact T3|]. by apply HI.
Qed.

(** ** Rollback as a whole *)

Lemma xa_rollback_spec cs w :
  walks (w_links w) (join_trx_top (w_trx w)) cs -> parts_ok w cs ->
  exists e w', spider_internal_xa_rollback w = Some (e, w') /\
    traced cs (among (rollback_stmts (xid (w_trx w)))) w w' /\
    ((trx_xa_prepared (w_trx w) && xa_logged (w_trx w) = true /\ e <> 0 /\ exists w1, wlog w w1 /\ w' = notr w1) \/
     (ended cs w' /\ forall c, c ∈ cs -> rolled_back (xid (w_trx w)) e w w' c)).
Proof.
  intros Hw P. unfold spider_internal_xa_rollback. rewrite (bind_eq _ _ _ _ _ (gets_eq _ w)).
  set (x := xid (w_trx w)). set (lg := trx_xa_prepared (w_trx w) && xa_logged (w_trx w)).
  set (dec := if lg then log_decision (w_trx w) [PREPARED; ROLLBACK] ROLLBACK else mret 0).
  assert (logs dec) as Hdec by (unfold dec; destruct lg; [apply logs_decision|apply logs_ret]).
  destruct (Hdec w) as (e0 & w1 & E0 & W1). unfold andthen at 1.
  rewrite bind_assoc, (bind_eq _ _ _ _ _ E0). destruct (Z.eqb_spec e0 0) as [->|He0].
  2: { eexists e0, (notr w1). split_and!; [done|apply (wlog_traced _ _ _ _ W1)|].
       left. split_and!; [|done|by exists w1].
       unfold dec in E0. destruct lg; [done|]. by injection E0 as <- _. }
  unfold backup_dastatus. rewrite bind_assoc, (bind_eq _ _ _ _ _ (gets_eq _ w1)).
  destruct (rollback_loop_spec stmt_nonneg no_oom no_dry (is_error (w_thd w1)) (trx_xa_prepared (w_trx w)) x cs w1)
    as (st & w2 & Hm & W2 & HI); [by eapply wstep_links_walks|by eapply wstep_parts|].
  rewrite bind_assoc, (bind_eq _ _ _ _ _ Hm).
  set (fin := if negb (Z.eqb st.1 0) then mret st.1
              else if lg && negb st.2 then log_delete (w_trx w) else mret 0).
  assert (logs fin) as Hfin.
  { unfold fin. destruct (negb (Z.eqb st.1 0)); [apply logs_ret|].
    destruct (lg && _); [apply logs_delete|apply logs_ret]. }
  destruct (Hfin (forgotten w2)) as (e3 & w3 & E3 & W3). rewrite (bind_eq _ _ _ _ _ E3).
  exists e3, (notr w3). split_and!; [done| |right; split].
  - eapply traced_trans; [apply (wlog_traced _ _ _ _ W1)|]. eapply traced_trans; [apply (ws_trace _ _ _ _ W2)|].
    exact (wlog_traced _ _ _ _ W3).
  - apply (ended_log cs (forgotten w2)); [done|intros c Hc; by apply HI| |exact W3].
    exact (wstep_parts _ _ _ _ _ W2 (wstep_parts _ _ _ _ _ W1 P)).
  - intros c Hc n0 Hn0 -> ??????.
    eapply traced_since; [exact (wlog_traced [] (fun _ => False) _ _ W1)|].
    eapply since_traced; [|exact (wlog_traced [] (fun _ => False) _ _ W3)].
    destruct (HI c Hc) as [_ HR]. apply (HR n0); try done; [by rewrite (wlog_conns _ _ c W1)|].
    unfold fin in E3. destruct (Z.eqb_spec st.1 0); [done|]. simpl in E3. by injection E3 as <- _.
Qed.

(** The session has no transaction any more, and no participant is in one. *)
Record over (cs : list cid) (w : world) : Prop := {
  ov_started : trx_started (w_trx w) = false;
  ov_xa : trx_xa (w_trx w) = false;
  ov_ended : ended cs w
}.

(** The transaction [spider_rollback] is called for, and what it may not find in
    the log. *)
Definition rolls_back (all : bool) (w : world) : bool :=
  ends_trx all (w_thd w) && trx_started (w_trx w) &&
  negb (trx_xa_prepared (w_trx w) && xa_logged (w_trx w)).

Lemma over_trx cs w w' :
  ended cs w -> w_conns w' = w_conns w -> join_trx_top (w_trx w') = None ->
  internal_xa_state (w_trx w') = internal_xa_state (w_trx w) ->
  trx_started (w_trx w') = false -> trx_xa (w_trx w') = false -> over cs w'.
Proof.
  intros [E1 E2 E3 E4] HC H1 H2 H3 H4. split; [done|done|]. split; [done|congruence|..].
  - intros c Hc. unfold left_trx. rewrite HC. by apply E3.
  - intros c Hc. rewrite HC. by apply E4.
Qed.

(** [spider_rollback] of an XA transaction that no kill interrupted. *)
Lemma rollback_trx_spec all cs w :
  walks (w_links w) (join_trx_top (w_trx w)) cs -> parts_ok w cs ->
  trx_xa (w_trx w) = true -> last_killed (w_thd w) = 0 ->
  exists e w', rollback_trx all w = Some (e, w') /\
    traced cs (among (rollback_stmts (xid (w_trx w)))) w w' /\
    (rolls_back all w = true -> over cs w' /\ forall c, c ∈ cs -> rolled_back (xid (w_trx w)) e w w' c).
Proof.
  intros Hw P Hx Hk. unfold rollback_trx, rollback_kill.
  rewrite bind_assoc, (bind_eq _ _ _ _ _ (gets_eq _ w)), Hk. simpl (Z.eqb 0 0). cbn iota.
  rewrite (bind_eq _ _ _ _ _ (ret_eq _ w)), (bind_eq _ _ _ _ _ (gets_eq _ w)).
  set (x := xid (w_trx w)). set (S := among (rollback_stmts x)).
  match goal with |- exists e w', (?m ≫= _) w = _ /\ _ =>
    enough (Hmid : exists e w', m w = Some (e, w') /\ traced cs S w w' /\
      (rolls_back all w = true -> over cs w' /\ forall c, c ∈ cs -> rolled_back x e w w' c)) end.
  { destruct Hmid as (e & w1 & Hm & T1 & HO). rewrite (bind_eq _ _ _ _ _ Hm), (bind_eq _ _ _ _ _ (gets_eq _ w1)).
    destruct (_ && _ && _); eexists e, _; (split; [reflexivity|]); [|done].
    split; [eapply traced_trans; [exact T1|]; by apply traced_refl|].
    intros Hr. destruct (HO Hr) as [[O1 O2 O3] O4]. split; [|exact O4].
    eapply over_trx; [exact O3|done|apply O3|done..]. }
  unfold rolls_back. destruct (ends_trx all (w_thd w)); simpl.
  2: { exists 0, w. split_and!; [done|by apply traced_refl|done]. }
  rewrite (bind_eq _ _ _ _ _ (gets_eq _ w)). rewrite Hx. destruct (trx_started (w_trx w)); simpl.
  2: { eexists 0, _. split_and!; [reflexivity|by apply traced_refl|done]. }
  destruct (xa_rollback_spec cs w Hw P) as (e & w1 & Hm & T1 & HO).
  rewrite bind_assoc, bind_assoc, (bind_eq _ _ _ _ _ Hm).
  eexists e, _. split; [reflexivity|]. split; [eapply traced_trans; [exact T1|]; by apply traced_refl|].
  intros Hp%negb_true_iff. destruct HO as [(Hp' & _)|[HE HR]]; [by rewrite Hp in Hp'|]. split; [|exact HR].
  eapply over_trx; [exact HE|done..].
Qed.

(** ** The commit of an internal XA transaction *)

(** The transaction of the session is an XA one over the participants [cs]. *)
Record in_xa (cs : list cid) (w : world) : Prop := {
  ix_walks : walks (w_links w) (join_trx_top (w_trx w)) cs;
  ix_ok : parts_ok w cs;
  ix_num : 0 < Z.of_nat (length cs) < 2 ^ 32;
  ix_xa : trx_xa (w_trx w) = true;
  ix_alive : last_killed (w_thd w) = 0
}.

Lemma wstep_in_xa cs' S cs w w' : wstep cs' S w w' -> in_xa cs w -> in_xa cs w'.
Proof.
  intros W [H1 H2 H3 H4 H5]. pose proof (ws_sess _ _ _ _ W) as Hs. unfold wsess, sess in Hs. split.
  - by eapply wstep_links_walks.
  - by eapply wstep_parts.
  - done.
  - congruence.
  - congruence.
Qed.

Lemma wstep_xid cs' S w w' : wstep cs' S w w' -> xid (w_trx w') = xid (w_trx w).
Proof. intros W. pose proof (ws_sess _ _ _ _ W) as Hs. unfold wsess, sess in Hs. congruence. Qed.

Lemma wstep_trx_eq cs S w w' : wstep cs S w w' ->
  xid (w_trx w') = xid (w_trx w) /\ xa_logged (w_trx w') = xa_logged (w_trx w).
Proof.
  intros W. pose proof (ws_sess _ _ _ _ W) as Hs. unfold wsess, sess in Hs. unfold xa_logged.
  split; [congruence|]. by replace (updated_in_this_trx (w_trx w')) with (updated_in_this_trx (w_trx w)) by congruence.
Qed.

(** The three ways a commit goes. *)
Inductive commit_outcome (all : bool) (cs : list cid) (w : world) : Z + Z -> world -> Prop :=
| co_single e w' : length cs = 1%nat ->
    traced cs (among [XaEnd (xid (w_trx w)); XaCommitOnePhase (xid (w_trx w)); UnlockTables]) w w' ->
    (xa_logged (w_trx w) = false -> ended cs w') ->
    commit_outcome all cs w (inr e) w'
| co_aborted e w1 w' : e <> 0 -> prepare_outcome cs true w e w1 ->
    traced cs (among (rollback_stmts (xid (w_trx w)))) w1 w' ->
    (if Z.eqb e ER_SPIDER_XA_TIMEOUT_NUM
     then given_up cs w1 w' /\ join_trx_top (w_trx w') = None
     else rolls_back all w1 = true -> over cs w') ->
    commit_outcome all cs w (inl e) w'
| co_decided e w1 w' : prepare_outcome cs true w 0 w1 ->
    traced cs (among (phase_two_stmts (xid (w_trx w)))) w1 w' ->
    (exists e1, (e = 0 -> e1 = 0) /\ forall c, c ∈ cs -> committed (xid (w_trx w)) e1 w1 w' c) ->
    (xa_logged (w_trx w) = false -> ended cs w') ->
    commit_outcome all cs w (inr e) w'.

Lemma one_phase_spec cs w :
  walks (w_links w) (join_trx_top (w_trx w)) cs -> parts_ok w cs ->
  exists e w', spider_internal_xa_commit_one_phase w = Some (e, w') /\
    traced cs (among [XaEnd (xid (w_trx w)); XaCommitOnePhase (xid (w_trx w)); UnlockTables]) w w' /\
    xid (w_trx w') = xid (w_trx w) /\ xa_logged (w_trx w') = xa_logged (w_trx w) /\ w_xa w' = w_xa w /\ ended cs w'.
Proof.
  intros Hw P. unfold spider_internal_xa_commit_one_phase. rewrite (bind_eq _ _ _ _ _ (gets_eq _ w)).
  destruct (one_phase_loop_spec stmt_nonneg no_oom no_dry (xid (w_trx w)) cs w Hw P) as (e & w1 & Hm & W1 & [HX _] & HI).
  rewrite (bind_eq _ _ _ _ _ Hm).
  assert (logs (when (negb (Z.eqb e 0)) (clear_error;; my_message ER_SPIDER_XA_TIMEOUT_NUM))) as Hl.
  { destruct (negb _); [|apply logs_ret]. apply logs_bind; [apply logs_clear|intros _]. apply logs_message. }
  destruct (Hl (forgotten w1)) as ([] & w2 & E2 & W2). rewrite (bind_eq _ _ _ _ _ E2).
  destruct (wstep_trx_eq _ _ _ _ W1) as [A1 B1], (wstep_trx_eq _ _ _ _ W2) as [A2 B2].
  exists e, (notr w2). split_and!; [done| | | | |].
  - eapply traced_trans; [apply (ws_trace _ _ _ _ W1)|]. exact (wlog_traced _ _ _ _ W2).
  - exact (eq_trans A2 A1).
  - exact (eq_trans B2 B1).
  - change (w_xa w2 = w_xa w). destruct (negb _); injection E2 as <-; exact HX.
  - apply (ended_log cs (forgotten w1)); [done|exact HI| |exact W2]. exact (wstep_parts _ _ _ _ _ W1 P).
Qed.

Lemma prepare_ok_in_xa cs w w1 :
  prepare_outcome cs true w 0 w1 -> in_xa cs w ->
  in_xa cs w1 /\ xid (w_trx w1) = xid (w_trx w) /\ xa_logged (w_trx w1) = xa_logged (w_trx w).
Proof.
  intros H Hx. inversion H as [| | |w2 w3 w4 W Hp W']; subst; try done.
  pose proof (wstep_in_xa _ _ _ _ _ W' (wstep_in_xa _ _ _ _ _ (p1_step _ _ _ _ _ Hp) (wstep_in_xa _ _ _ _ _ W Hx)))
    as [H1 H2 H3 H4 H5].
  destruct (wstep_trx_eq _ _ _ _ W') as [A1 B1], (wstep_trx_eq _ _ _ _ (p1_step _ _ _ _ _ Hp)) as [A2 B2],
    (wstep_trx_eq _ _ _ _ W) as [A3 B3].
  split; [by split|]. simpl. split; [congruence|]. change (xa_logged (w_trx w4) = xa_logged (w_trx w)). congruence.
Qed.

(** What follows a prepare that failed. *)
Lemma abort_spec all cs w e w1 :
  in_xa cs w -> e <> 0 -> prepare_outcome cs true w e w1 ->
  exists w2, (if Z.eqb e ER_SPIDER_XA_TIMEOUT_NUM then spider_free_prepared_trx
      else rollback_trx all;; mret tt) w1 = Some (tt, w2) /\
    traced cs (among (rollback_stmts (xid (w_trx w)))) w1 w2 /\
    (if Z.eqb e ER_SPIDER_XA_TIMEOUT_NUM
     then given_up cs w1 w2 /\ join_trx_top (w_trx w2) = None
     else rolls_back all w1 = true -> over cs w2).
Proof.
  intros Hx He H2. pose proof (prepare_failed_step _ _ _ _ H2 He) as W1.
  pose proof (wstep_in_xa _ _ _ _ _ W1 Hx) as [Hw1 P1 Hn1 Hxa1 Hk1].
  pose proof (wstep_xid _ _ _ _ W1) as Hxid. destruct (Z.eqb e ER_SPIDER_XA_TIMEOUT_NUM).
  - destruct (free_prepared_spec cs w1 Hw1) as (w2 & E2 & G & HT).
    { intros c Hc. destruct (P1 c Hc) as (n & Hn & _). by exists n. }
    exists w2. split_and!; [done| |done|done].
    eapply traced_mono; [| |apply (gu_trace _ _ _ G)]; [set_solver|done].
  - destruct (rollback_trx_spec all cs w1 Hw1 P1 Hxa1 Hk1) as (e2 & w2 & E2 & T2 & HO).
    exists w2. rewrite (bind_eq _ _ _ _ _ E2), <- Hxid. split_and!; [done|done|]. intros Hr. by apply HO.
Qed.

(** The commit of nobody, after the commit in one phase. *)
Lemma xa_commit_empty w :
  join_trx_top (w_trx w) = None -> xa_logged (w_trx w) = false ->
  spider_internal_xa_commit w = Some (0, notr (forgotten w)).
Proof.
  intros Ht Hl. assert (walks (w_links w) (join_trx_top (w_trx w)) []) as Hw by (rewrite Ht; apply walks_nil).
  unfold spider_internal_xa_commit. rewrite (bind_eq _ _ _ _ _ (gets_eq _ w)), Hl. unfold andthen at 1.
  rewrite bind_assoc, (bind_eq _ _ _ _ _ (ret_eq 0 w)). simpl (Z.eqb 0 0). cbn iota. unfold backup_dastatus.
  rewrite bind_assoc, (bind_eq _ _ _ _ _ (gets_eq _ w)). unfold all_joined, for_each_joined.
  rewrite !bind_assoc, (bind_eq _ _ _ _ _ (tree_first_walks _ _ Hw)). simpl. 
  rewrite bind_assoc, (bind_eq _ _ _ _ _ (gets_eq _ w)). by destruct (size (w_links w)).
Qed.

Lemma commit_internal_xa_spec all cs w :
  in_xa cs w -> exists r w', commit_internal_xa all w = Some (r, w') /\ commit_outcome all cs w r w'.
Proof.
  intros Hx. destruct Hx as [Hw P Hnum Hxa Hk] eqn:HX. clear HX. unfold commit_internal_xa.
  unfold lift_opt. unfold mbind at 1, M_bind at 1. rewrite (walks_num _ _ _ Hw), Z.mod_small by lia.
  destruct (Z.eqb_spec (Z.of_nat (length cs)) 1) as [H1|H1].
  - destruct (one_phase_spec cs w Hw P) as (e1 & w1 & E1 & T1 & Hxid & Hlog & _ & HE).
    rewrite (bind_eq _ _ _ _ _ E1). pose proof (en_top _ _ HE) as N1.
    destruct (xa_commit_spec [] w1) as (e2 & w2 & E2 & H2); [rewrite N1; apply walks_nil|by intros ? ?%elem_of_nil|].
    rewrite (bind_eq _ _ _ _ _ E2). eexists _, w2. split; [reflexivity|]. apply co_single; [lia| |].
    + eapply traced_trans; [exact T1|]. destruct H2 as [(_ & _ & w3 & W3 & ->)|(_ & (t & E & F) & _)].
      * exact (wlog_traced _ _ _ _ W3).
      * exists t. split; [done|]. eapply Forall_impl; [exact F|].
        intros []; simpl; try done; [set_solver..|]. intros [?%elem_of_nil _]. done.
    + intros Hl. rewrite <- Hlog in Hl. rewrite (xa_commit_empty w1 N1 Hl) in E2. injection E2 as _ <-.
      destruct HE as [? ? ? ?]. by split.
  - destruct (xa_prepare_spec stmt_nonneg no_oom no_dry true cs w Hw P) as (e & w1 & E1 & H2); [lia|].
    rewrite (bind_eq _ _ _ _ _ E1). destruct (Z.eqb_spec e 0) as [->|He]; simpl.
    + destruct (prepare_ok_in_xa _ _ _ H2 Hx) as ([Hw1 P1 _ _ _] & Hxid & Hlog).
      set (w1' := w1 <| w_trx := (w_trx w1) <| trx_xa_prepared := true |> |>).
      destruct (xa_commit_spec cs w1' Hw1 P1) as (e2 & w2 & E2 & H3).
      rewrite (bind_eq (upd_trx _) _ w1 tt w1' eq_refl), (bind_eq _ _ _ _ _ E2).
      eexists _, w2. split; [reflexivity|]. apply (co_decided all cs w e2 w1 w2 H2); rewrite <- ?Hxid.
      * destruct H3 as [(_ & _ & w3 & W3 & ->)|(_ & T & _)]; [exact (wlog_traced _ _ _ _ W3)|exact T].
      * destruct H3 as [(_ & Hne & w3 & W3 & ->)|(_ & _ & Hc)]; [|exact Hc].
        exists e2. split; [done|]. intros c _ n0 _. split; [|done]. intros _ r Hs.
        by apply (wstep_stmt _ _ _ _ _ _ _ W3) in Hs.
      * rewrite <- Hlog. intros Hl. destruct H3 as [(Hl' & _)|(? & _)]; [|done].
        by replace (xa_logged (w_trx w1')) with (xa_logged (w_trx w1)) in Hl'; [rewrite Hl in Hl'|].
    + destruct (abort_spec all cs w e w1 Hx He H2) as (w2 & E2 & T2 & HO).
      rewrite (bind_eq _ _ _ _ _ E2). eexists _, w2. split; [reflexivity|].
      by apply (co_aborted all cs w e w1 w2).
Qed.

(** A transaction of the server's own that [spider_commit] really commits. *)
Definition committable (all : bool) (w : world) : bool :=
  ends_trx all (w_thd w) && trx_started (w_trx w) && internal_xa (w_trx w) &&
  negb (trx_xa_prepared (w_trx w)).

(** What is left after the early return of [spider_commit]. *)
Record abandoned (cs : list cid) (w w' : world) : Prop := {
  ab_gone : forall c, c ∈ cs -> w_conns w' !! c = None;
  ab_hash : trx_conn_hash (w_trx w') = trx_conn_hash (w_trx w) ∖ list_to_set cs;
  ab_top : join_trx_top (w_trx w') = None;
  ab_started : trx_started (w_trx w') = true;
  ab_xa : trx_xa (w_trx w') = true;
  ab_xid : xid (w_trx w') = xid (w_trx w)
}.

Lemma committable_started all w : committable all w = true -> trx_started (w_trx w) = true.
Proof. intros Hc. by apply andb_true_iff in Hc as [[[_ ?]%andb_true_iff _]%andb_true_iff _]. Qed.

Lemma committable_step all cs S w w1 :
  wstep cs S w w1 -> committable all w = true -> in_xa cs w -> rolls_back all w1 = true.
Proof.
  intros W Hc _. pose proof (ws_sess _ _ _ _ W) as Hs. unfold wsess, sess in Hs.
  unfold committable in Hc. apply andb_true_iff in Hc as [[[H1 H2]%andb_true_iff H3]%andb_true_iff H4%negb_true_iff].
  unfold rolls_back, ends_trx in *.
  replace (option_not_autocommit (w_thd w1)) with (option_not_autocommit (w_thd w)) by congruence.
  replace (option_begin (w_thd w1)) with (option_begin (w_thd w)) by congruence.
  replace (trx_started (w_trx w1)) with (trx_started (w_trx w)) by congruence.
  replace (trx_xa_prepared (w_trx w1)) with (trx_xa_prepared (w_trx w)) by congruence.
  by rewrite H1, H2, H4.
Qed.

Lemma given_up_abandoned cs S w w1 w' :
  wstep cs S w w1 -> trx_started (w_trx w) = true -> trx_xa (w_trx w) = true ->
  given_up cs w1 w' -> join_trx_top (w_trx w') = None -> abandoned cs w w'.
Proof.
  intros W Hs Hx [G1 G2 G3 G4 _] Ht. pose proof (ws_sess _ _ _ _ W) as E. unfold wsess, sess in E.
  unfold trx_view in G4. split; [intros c Hc; by apply G1|congruence..].
Qed.

(** [spider_commit] of such a transaction. *)
Lemma commit_trx_spec all cs w :
  in_xa cs w -> committable all w = true ->
  exists r w1 e w', commit_internal_xa all w = Some (r, w1) /\ commit_outcome all cs w r w1 /\
    commit_trx all w = Some (e, w') /\ w_trace w' = w_trace w1 /\
    match r with
    | inl e1 => e = e1 /\ w' = w1
    | inr e1 => e = e1 /\ w_conns w' = w_conns w1 /\ join_trx_top (w_trx w') = None /\
        internal_xa_state (w_trx w') = internal_xa_state (w_trx w1) /\
        trx_started (w_trx w') = false /\ trx_xa (w_trx w') = false
    end.
Proof.
  intros Hx Hc. destruct (commit_internal_xa_spec all cs w Hx) as (r & w1 & Hm & Ho).
  unfold committable in Hc. apply andb_true_iff in Hc as [[[H1 H2]%andb_true_iff H3]%andb_true_iff H4].
  unfold commit_trx. rewrite (bind_eq _ _ _ _ _ (gets_eq _ w)), H1. cbn [negb].
  rewrite (bind_eq _ _ _ _ _ (gets_eq _ w)), H2, (ix_xa _ _ Hx), H3, H4. cbn [negb andb].
  rewrite !bind_assoc, (bind_eq _ _ _ _ _ Hm). exists r, w1.
  destruct r as [e1|e1]; eexists e1, _; split_and!; [done|done|reflexivity|done|done|done|done|done|reflexivity|done..].
Qed.

(** A commit given up in doubt. *)
Lemma commit_trx_given_up all cs w w1 :
  in_xa cs w -> committable all w = true -> commit_internal_xa all w = Some (inl ER_SPIDER_XA_TIMEOUT_NUM, w1) ->
  commit_trx all w = Some (ER_SPIDER_XA_TIMEOUT_NUM, w1) /\ abandoned cs w w1.
Proof.
  intros Hx Hc Hg. destruct (commit_trx_spec all cs w Hx Hc) as (r & w1' & e & w' & Hg' & Ho & Hm & _ & Hr).
  rewrite Hg in Hg'. injection Hg' as <- <-. destruct Hr as [-> ->]. split; [done|].
  inversion Ho as [|e w2 w' He Hp _ HO E E'|]; subst e w'. destruct HO as [G Ht]. eapply given_up_abandoned; [by eapply prepare_failed_step|by eapply committable_started|apply Hx|done..].
Qed.

Lemma commit_trx_over all cs w :
  in_xa cs w -> committable all w = true -> xa_logged (w_trx w) = false ->
  exists e w', commit_trx all w = Some (e, w') /\
    (over cs w' \/ e = ER_SPIDER_XA_TIMEOUT_NUM /\ abandoned cs w w').
Proof.
  intros Hx Hc Hl. destruct (commit_trx_spec all cs w Hx Hc) as (r & w1 & e & w' & _ & Ho & Hm & _ & Hr).
  exists e, w'. split; [done|]. destruct Ho as [e1 w1 _ _ HE|e1 w2 w1 He Hp _ HE|e1 w2 w1 _ _ _ HE].
  - left. destruct Hr as (-> & R1 & R2 & R3 & R4 & R5). by eapply over_trx; [apply HE|..].
  - destruct Hr as [-> ->]. pose proof (prepare_failed_step _ _ _ _ Hp He) as W.
    destruct (Z.eqb_spec e1 ER_SPIDER_XA_TIMEOUT_NUM) as [->|_].
    + right. split; [done|]. destruct HE as [G Ht]. eapply given_up_abandoned; [exact W|by eapply committable_started|apply Hx|done..].
    + left. apply HE. by eapply committable_step.
  - left. destruct Hr as (-> & R1 & R2 & R3 & R4 & R5). by eapply over_trx; [apply HE|..].
Qed.
End Main.

(** [ev] does not occur before the second part of a trace. *)
Lemma first_occurrence {A} (tp tc t1 t2 : list A) ev :
  tp ++ tc = t1 ++ ev :: t2 -> ev ∉ tp -> exists t, t1 = tp ++ t.
Proof.
  revert t1. induction tp as [|a tp IH]; intros t1 E H; [by exists t1|].
  destruct t1 as [|b t1]; simplify_eq/=; [set_solver|].
  destruct (IH t1) as [t ->]; [done|set_solver|]. by exists t.
Qed.
