(* ===== verification/SysSpec.v ===== *)
(** * What the log functions do to the tables

    Exact behaviour of the functions of SysTable and of the log steps of XaTrx,
    error paths included: a function that returns 0 made its change (or was told that
    the row is the same already), one that returns an error left the tables alone,
    and with a healthy engine an error means that the row it needs is missing. *)

From stdpp Require Import base gmap list strings.
From Stdlib Require Import ZArith Lia.
From S2P Require Import Prelude ConnTree World ConnQueue DbXa SysTable ConnPool XaTrx.
Local Open Scope spider_scope.
Local Open Scope Z_scope.

Section Sys.
  Context `{env : Env, vars : Vars}.
  (** Whether a key exists is what the table says, never a failure. *)
  Context (engine_honest : forall k, not_found (env_engine k) = false).

(** The engine says of some update that the row is the same already. *)
Definition says_same : Prop := exists k, env_engine k = HA_ERR_RECORD_IS_THE_SAME.

(** [m] needs [P] of the rows of [spider_xa] and makes [f] of them, or, under [same],
    leaves them. *)
Definition table_op (m : M world Z) (P : list xa_row -> Prop) (f : list xa_row -> list xa_row) (same : Prop) : Prop :=
  forall w, exists r w', m w = Some (r, w') /\
    w_xa_member w' = w_xa_member w /\
    (r = 0 -> P (w_xa w) /\ (w_xa w' = f (w_xa w) \/ same /\ w_xa w' = w_xa w)) /\
    (r <> 0 -> w_xa w' = w_xa w) /\
    ((forall k, env_engine k = 0) -> P (w_xa w) -> r = 0).

Lemma outside_run {A} (f : nat -> A) w :
  outside f w = Some (f (w_tick w), w <| w_tick := S (w_tick w) |>).
Proof. done. Qed.

(** A row operation, run. *)
Lemma row_run (op : M world unit) (f : world -> world) w :
  (forall w, op w = Some (tt, f w)) ->
  exists r w', sys_table_row op w = Some (r, w') /\
    (r = 0 -> exists k, w' = f (w <| w_tick := k |>)) /\
    (r <> 0 -> w_xa w' = w_xa w /\ w_xa_member w' = w_xa_member w) /\
    ((forall k, env_engine k = 0) -> r = 0).
Proof.
  intros Hop. unfold sys_table_row, outside, my_message. mrun.
  destruct (Z.eqb_spec (env_engine (w_tick w)) 0) as [E|E]; mrun.
  - rewrite Hop. eexists _, _. split; [reflexivity|]. split_and!; [by eexists|done|done].
  - eexists _, _. split; [reflexivity|]. split_and!; [done|done|intros H; by rewrite H in E].
Qed.

(** The lookup by primary key. *)
Lemma check_run k w : exists r w', spider_check_sys_table k w = Some (r, w') /\
  w_xa w' = w_xa w /\ w_xa_member w' = w_xa_member w /\
  (r = 0 -> is_Some (find_xa k (w_xa w))) /\
  (not_found r = true -> find_xa k (w_xa w) = None) /\
  ((forall j, env_engine j = 0) -> r = if find_xa k (w_xa w) then 0 else HA_ERR_KEY_NOT_FOUND).
Proof.
  unfold spider_check_sys_table, outside. mrun. destruct (Z.eqb_spec (env_engine (w_tick w)) 0) as [E|E]; mrun.
  - eexists _, _. split; [reflexivity|]. split_and!; [done|done| | |done]; by destruct (find_xa k (w_xa w)).
  - eexists _, _. split; [reflexivity|]. split_and!; [done|done|done| |intros H; by rewrite H in E].
    by rewrite engine_honest.
Qed.

(** A lookup, then an error for every reason but a missing row. *)
Lemma not_found_key : not_found HA_ERR_KEY_NOT_FOUND = true.
Proof. reflexivity. Qed.

(** A row operation that makes [g] of the rows. *)
Lemma row_op (op : M world unit) (f : world -> world) (g : list xa_row -> list xa_row) :
  (forall w, op w = Some (tt, f w)) ->
  (forall w, w_xa (f w) = g (w_xa w) /\ w_xa_member (f w) = w_xa_member w) ->
  table_op (sys_table_row op) (fun _ => True) g False /\ table_op (update_sys_table_row op) (fun _ => True) g says_same.
Proof.
  intros Hop Hf. split; intros w; unfold sys_table_row, update_sys_table_row, outside, my_message; mrun;
    (destruct (Z.eqb_spec (env_engine (w_tick w)) 0) as [E|E]; mrun; [rewrite Hop|]).
  - eexists _, _. split; [reflexivity|]. split_and!; [by rewrite (proj2 (Hf _))|intros _; split; [done|left; by rewrite (proj1 (Hf _))]|done|done].
  - eexists _, _. split; [reflexivity|]. split_and!; [done|done|done|intros H; by rewrite H in E].
  - eexists _, _. split; [reflexivity|]. split_and!; [by rewrite (proj2 (Hf _))|intros _; split; [done|left; by rewrite (proj1 (Hf _))]|done|done].
  - destruct (Z.eqb_spec (env_engine (w_tick w)) HA_ERR_RECORD_IS_THE_SAME) as [E'|E']; mrun; eexists _, _; (split; [reflexivity|]).
    + split_and!; [done| |done|done]. intros _. split; [done|]. right. split; [by exists (w_tick w)|done].
    + split_and!; [done|done|done|intros H; by rewrite H in E].
Qed.

Lemma require_run k (m : M world Z) (g : list xa_row -> list xa_row) same :
  table_op m (fun _ => True) g same -> table_op (require_xa k m) (fun l => is_Some (find_xa k l)) g same.
Proof.
  intros Hm w. unfold require_xa. destruct (check_run k w) as (e & w1 & E & H1 & H2 & H3 & Hno & H4).
  rewrite (bind_eq _ _ _ _ _ E). destruct (Z.eqb_spec e 0) as [->|He].
  - destruct (Hm w1) as (r & w2 & E2 & R0 & R1 & R2 & R3). rewrite H1, H2 in *. exists r, w2. split_and!; [done|done| |done|auto].
    intros Hr. split; [auto|]. by apply R1.
  - assert (forall v (w' : world), w_xa w' = w_xa w1 -> w_xa_member w' = w_xa_member w1 -> v <> 0 ->
      exists r w'', mret (M := M world) v w' = Some (r, w'') /\ w_xa_member w'' = w_xa_member w /\
      (r = 0 -> is_Some (find_xa k (w_xa w)) /\ (w_xa w'' = g (w_xa w) \/ same /\ w_xa w'' = w_xa w)) /\
      (r <> 0 -> w_xa w'' = w_xa w) /\
      ((forall j, env_engine j = 0) -> is_Some (find_xa k (w_xa w)) -> r = 0)) as Hret.
    { intros v w' E1 E2 Hv. exists v, w'. split_and!; [done|congruence|done|congruence|].
      intros Heng [row Hrow]. specialize (H4 Heng). by rewrite Hrow in H4. }
    destruct (negb (not_found e)); unfold my_message; mrun; apply Hret; done.
Qed.

(** ** Rows *)

Lemma find_xa_Some k l r : find_xa k l = Some r -> xr_key r = k /\ r ∈ l.
Proof.
  unfold find_xa. destruct (list_find _ l) as [[i r']|] eqn:E; [|done]. simpl. intros [= ->].
  apply list_find_Some in E as (Hi & Hk & _). split; [done|]. by eapply list_elem_of_lookup_2.
Qed.

Lemma find_xa_None k l : find_xa k l = None <-> Forall (fun r => xr_key r <> k) l.
Proof.
  unfold find_xa. rewrite fmap_None, list_find_None. done.
Qed.

Lemma find_xa_app k l row : find_xa k l = None -> xr_key row = k -> find_xa k (l ++ [row]) = Some row.
Proof.
  intros H%find_xa_None Hk. unfold find_xa. rewrite list_find_app_r.
  - unfold list_find. by rewrite decide_True.
  - apply list_find_None. done.
Qed.

Lemma find_set_status k st l :
  find_xa k (set_status k st l) = (fun r => mk_xa_row (xr_key r) (xr_bqual_length r) st) <$> find_xa k l.
Proof.
  unfold find_xa, set_status. rewrite list_find_fmap.
  rewrite (list_find_ext _ (fun r => xr_key r = k)).
  - destruct (list_find _ l) as [[i r]|] eqn:E; [|done]. simpl.
    apply list_find_Some in E as (_ & Hk & _). by rewrite decide_True.
  - intros r. simpl. by destruct (decide (xr_key r = k)).
Qed.

Lemma find_filter k l : find_xa k (filter (fun r => xr_key r <> k) l) = None.
Proof. apply find_xa_None, Forall_forall. intros r [? _]%list_elem_of_filter. done. Qed.

Lemma find_filter_other k k' l : k <> k' -> find_xa k' (filter (fun r => xr_key r <> k) l) = find_xa k' l.
Proof.
  intros Hne. unfold find_xa. induction l as [|r l IH]; [done|]. rewrite filter_cons. simpl.
  destruct (decide (xr_key r <> k)) as [Hk|Hk]; simpl.
  - destruct (decide (xr_key r = k')); [done|]. revert IH.
    destruct (list_find _ (filter _ l)) as [[??]|], (list_find _ l) as [[??]|]; simpl; congruence.
  - apply dec_stable in Hk. rewrite decide_False by congruence. rewrite IH.
    by destruct (list_find _ l) as [[??]|].
Qed.

(** ** The functions of SysTable *)

(** What [spider_insert_xa] makes of the rows. *)
Definition insert_row (row : xa_row) (l : list xa_row) : list xa_row :=
  if find_xa (xr_key row) l then l else l ++ [row].

Lemma insert_xa_op x st :
  table_op (spider_insert_xa x st) (fun _ => True)
    (insert_row (mk_xa_row (spider_store_xa_pk x) (bqual_length x) st)) False.
Proof.
  intros w. unfold spider_insert_xa, insert_row. simpl. set (k := spider_store_xa_pk x).
  destruct (check_run k w) as (e & w1 & E & H1 & H2 & H3 & Hno & H4). rewrite (bind_eq _ _ _ _ _ E).
  destruct (Z.eqb_spec e 0) as [->|He].
  { exists 0, w1. destruct (H3 eq_refl) as [row ->]. split_and!; auto. }
  destruct (negb (not_found e)) eqn:Hnf.
  { unfold my_message. mrun. eexists e, _. split; [reflexivity|]. split_and!; [done|done|done|].
    intros Heng _. rewrite (H4 Heng) in Hnf, He. by destruct (find_xa k (w_xa w)). }
  set (row := mk_xa_row k (bqual_length x) st).
  destruct (row_run (modify (fun w => w <| w_xa := w_xa w ++ [row] |>);; emit (EvLogInsert k st))
    (fun w => w <| w_xa := w_xa w ++ [row] |> <| w_trace := w_trace w ++ [EvLogInsert k st] |>) w1)
    as (r & w2 & E2 & R1 & R2 & R3); [done|].
  exists r, w2. split_and!; [done|..].
  - destruct (Z.eq_dec r 0) as [->|Hr]; [|rewrite <- H2; by apply R2]. by destruct (R1 eq_refl) as [j ->].
  - intros ->. split; [done|]. left. destruct (R1 eq_refl) as [j ->]. simpl. rewrite H1.
    apply negb_false_iff in Hnf. by rewrite (Hno Hnf).
  - intros Hr. rewrite <- H1. by apply R2.
  - auto.
Qed.

Lemma update_xa_op x st :
  table_op (spider_update_xa x st) (fun l => is_Some (find_xa (spider_store_xa_pk x) l))
    (set_status (spider_store_xa_pk x) st) says_same.
Proof. unfold spider_update_xa. apply require_run. by eapply row_op. Qed.

Lemma delete_xa_op x :
  table_op (spider_delete_xa x) (fun l => is_Some (find_xa (spider_store_xa_pk x) l))
    (filter (fun r => xr_key r <> spider_store_xa_pk x)) False.
Proof. unfold spider_delete_xa. apply require_run. by eapply row_op. Qed.

(** ** Members *)

Lemma filter_delete_key (P : xa_member_row -> Prop) `{!forall r, Decision (P r)}
    (l : list xa_member_row) i row :
  l !! i = Some row -> ~ P row -> filter P (delete i l) = filter P l.
Proof.
  intros Hi Hp. rewrite <- (take_drop_middle l i row Hi) at 2.
  rewrite delete_take_drop, !filter_app, filter_cons_False; done.
Qed.

Lemma no_member k (l : list xa_member_row) :
  ~ is_Some (list_find (fun r => xm_key r = k) l) -> filter (fun r => xm_key r <> k) l = l.
Proof.
  intros Hn. apply eq_None_not_Some, list_find_None in Hn. induction l as [|a l IH]; [done|].
  apply Forall_cons in Hn as [Ha Hl]. rewrite filter_cons_True by done. by rewrite IH.
Qed.

(** Rows of other transactions stay; with a healthy engine all rows of [k] go. *)
Lemma delete_member_loop_run k fuel w :
  (length (w_xa_member w) < fuel)%nat ->
  exists r w', delete_xa_member_loop fuel k w = Some (r, w') /\ w_xa w' = w_xa w /\
    filter (fun r => xm_key r <> k) (w_xa_member w') = filter (fun r => xm_key r <> k) (w_xa_member w) /\
    ((forall j, env_engine j = 0) -> r = 0 /\ w_xa_member w' = filter (fun r => xm_key r <> k) (w_xa_member w)).
Proof.
  revert w. induction fuel as [|fuel IH]; intros w Hlen; [lia|].
  cbn [delete_xa_member_loop].
  set (del := fun w : world => w <| w_xa_member := match list_find (fun r => xm_key r = k) (w_xa_member w) with
     | Some (i, _) => delete i (w_xa_member w) | None => w_xa_member w end |>).
  destruct (row_run (modify del) del w (fun _ => eq_refl)) as (e & w1 & E & R1 & R2 & R3).
  rewrite (bind_eq _ _ _ _ _ E). destruct (Z.eqb_spec e 0) as [->|He]; simpl.
  2: { exists e, w1. destruct (R2 He) as [-> ->]. split_and!; [done|done|done|]. intros Heng. by specialize (R3 Heng). }
  destruct (R1 eq_refl) as [j ->]. clear R1 R2 R3 E. set (w1 := del _).
  assert (w_xa w1 = w_xa w) as Hx by done.
  assert (Hf : filter (fun r => xm_key r <> k) (w_xa_member w1) = filter (fun r => xm_key r <> k) (w_xa_member w)).
  { unfold w1, del. simpl. destruct (list_find _ (w_xa_member w)) as [[i row]|] eqn:Hl; [|done].
    apply list_find_Some in Hl as (Hi & Hk & _). eapply filter_delete_key; [exact Hi|]. tauto. }
  rewrite (bind_eq _ _ _ _ _ (outside_run _ w1)), (bind_eq _ _ _ _ _ (gets_eq _ _)). simpl (w_xa_member _).
  destruct (Z.eqb (env_engine (w_tick w1)) 0 && _) eqn:Hb.
  - apply andb_true_iff in Hb as [_ Hs%bool_decide_eq_true].
    set (w2 := w1 <| w_tick := S (w_tick w1) |>).
    destruct (IH w2) as (r & w' & E & H1 & H2 & H3).
    { change (length (w_xa_member w1) < fuel)%nat. unfold w1, del in *. simpl in *.
      destruct (list_find _ (w_xa_member w)) as [[i row]|] eqn:Hl; [|rewrite Hl in Hs; by destruct Hs].
      apply list_find_Some in Hl as (Hi & _). apply lookup_lt_Some in Hi as Hlt.
      rewrite length_delete by (by eexists). lia. }
    exists r, w'. split_and!; [done|done|by rewrite H2|]. intros Heng. destruct (H3 Heng) as [-> ->].
    split; [done|]. exact Hf.
  - eexists 0, _. split; [reflexivity|]. split_and!; [done|done|]. intros Heng. split; [done|]. simpl.
    rewrite Heng in Hb. simpl in Hb. apply bool_decide_eq_false in Hb. by rewrite <- Hf, no_member.
Qed.

Lemma delete_member_run x w :
  let k := spider_store_xa_pk x in
  exists r w', spider_delete_xa_member x w = Some (r, w') /\ w_xa w' = w_xa w /\
    filter (fun r => xm_key r <> k) (w_xa_member w') = filter (fun r => xm_key r <> k) (w_xa_member w) /\
    ((forall j, env_engine j = 0) -> r = 0 /\ w_xa_member w' = filter (fun r => xm_key r <> k) (w_xa_member w)).
Proof.
  intros k. unfold spider_delete_xa_member. fold k.
  rewrite (bind_eq _ _ _ _ _ (outside_run _ w)), (bind_eq _ _ _ _ _ (gets_eq _ _)).
  set (w1 := w <| w_tick := S (w_tick w) |>). simpl (w_xa_member _).
  destruct (Z.eqb_spec (env_engine (w_tick w)) 0) as [E|E]; simpl.
  2: { unfold my_message. destruct (negb _); mrun; eexists _, _;
       (split; [reflexivity|]); (split_and!; [done|done|]); intros Heng; by rewrite Heng in E. }
  destruct (bool_decide _) eqn:Hb; simpl.
  2: { exists 0, w1. split_and!; [done|done|done|]. intros _. split; [done|].
       apply bool_decide_eq_false in Hb. simpl. by rewrite no_member. }
  destruct (delete_member_loop_run k (S (length (w_xa_member w))) w1) as (r & w2 & E2 & H1 & H2 & H3); [simpl; lia|].
  rewrite (bind_eq _ _ _ _ _ E2). destruct (Z.eqb_spec r 0) as [->|Hr]; simpl.
  2: { exists r, w2. split_and!; [done|done|done|]. intros Heng. by destruct (H3 Heng). }
  rewrite (bind_eq _ _ _ _ _ (outside_run _ w2)).
  destruct (Z.eqb_spec (env_engine (w_tick w2)) 0) as [E3|E3]; unfold emit, my_message; mrun.
  - eexists _, _. split; [reflexivity|]. split_and!; [done|done|]. intros Heng. by apply H3.
  - eexists _, _. split; [reflexivity|]. split_and!; [done|done|]. intros Heng. by rewrite Heng in E3.
Qed.

(** ** The steps of the transaction's log *)

Lemma open_run f n w : exists r w', spider_open_sys_table f n w = Some (r, w') /\
  w_xa w' = w_xa w /\ w_xa_member w' = w_xa_member w /\ (r = 0 -> f = n) /\
  ((forall j, env_engine j = 0) -> r = if Z.eqb f n then 0 else ER_SPIDER_SYS_TABLE_VERSION_NUM).
Proof.
  unfold spider_open_sys_table, outside, my_message. mrun.
  destruct (Z.eqb_spec (env_engine (w_tick w)) 0) as [E|E]; mrun.
  - destruct (Z.eqb_spec f n); mrun; eexists _, _; (split; [reflexivity|]); split_and!; done.
  - eexists _, _. split; [reflexivity|]. split_and!; [done|done|done|]. intros Heng. by rewrite Heng in E.
Qed.

Lemma require_check_run k w : exists r w', require_xa k (mret 0) w = Some (r, w') /\
  w_xa w' = w_xa w /\ w_xa_member w' = w_xa_member w /\ (r = 0 -> is_Some (find_xa k (w_xa w))) /\
  ((forall j, env_engine j = 0) -> r = if find_xa k (w_xa w) then 0 else ER_SPIDER_XA_NOT_EXISTS_NUM).
Proof.
  unfold require_xa. destruct (check_run k w) as (e & w1 & E & H1 & H2 & H3 & Hno & H4).
  rewrite (bind_eq _ _ _ _ _ E). destruct (Z.eqb_spec e 0) as [->|He].
  - exists 0, w1. split_and!; [done|done|done|done|]. intros Heng. by destruct (H3 eq_refl) as [row ->].
  - unfold my_message. destruct (not_found e) eqn:Hf; mrun; eexists _, _; (split; [reflexivity|]);
      split_and!; try done.
    + intros _. by rewrite Hno.
    + intros Heng. rewrite (H4 Heng) in Hf, He. by destruct (find_xa k (w_xa w)).
Qed.

(** The rows of [trx]: found with a status that allows the decision. *)
Definition decidable_row (allowed : list xa_status) (k : xa_key) (l : list xa_row) : Prop :=
  exists row, find_xa k l = Some row /\ (spider_param_force_commit = 2 \/ xr_status row ∈ allowed).

(** The check of the status. *)
Lemma status_run k allowed row w : find_xa k (w_xa w) = Some row ->
  exists w', (if Z.eqb spider_param_force_commit 2 then mret 0 else
     e ← spider_check_sys_xa_status k allowed ER_SPIDER_XA_NOT_PREPARED_NUM;
     when (Z.eqb e ER_SPIDER_XA_NOT_PREPARED_NUM) (my_message e);; mret e) w =
    Some (if Z.eqb spider_param_force_commit 2 || bool_decide (xr_status row ∈ allowed)
          then 0 else ER_SPIDER_XA_NOT_PREPARED_NUM, w') /\
    w_xa w' = w_xa w /\ w_xa_member w' = w_xa_member w.
Proof.
  intros Hrow. destruct (Z.eqb spider_param_force_commit 2); [by exists w|].
  unfold spider_check_sys_xa_status, my_message. mrun. rewrite Hrow.
  destruct (decide (xr_status row ∈ allowed)) as [Hin|Hin];
    [rewrite bool_decide_true by done|rewrite bool_decide_false by done]; mrun;
    (eexists; split; [reflexivity|done]).
Qed.

Lemma decision_run trx allowed st w :
  let k := spider_store_xa_pk (xid trx) in
  exists r w', log_decision trx allowed st w = Some (r, w') /\ w_xa_member w' = w_xa_member w /\
    (r = 0 -> decidable_row allowed k (w_xa w) /\ (w_xa w' = set_status k st (w_xa w) \/ says_same /\ w_xa w' = w_xa w)) /\
    (r <> 0 -> w_xa w' = w_xa w) /\
    ((forall j, env_engine j = 0) -> sys_xa_fields = SPIDER_SYS_XA_COL_CNT ->
     r = match find_xa k (w_xa w) with
         | None => ER_SPIDER_XA_NOT_EXISTS_NUM
         | Some row => if Z.eqb spider_param_force_commit 2 || bool_decide (xr_status row ∈ allowed)
                       then 0 else ER_SPIDER_XA_NOT_PREPARED_NUM
         end).
Proof.
  intros k. unfold log_decision. fold k. unfold andthen.
  destruct (open_run sys_xa_fields SPIDER_SYS_XA_COL_CNT w) as (e1 & w1 & E1 & A1 & B1 & _ & C1).
  rewrite (bind_eq open_xa _ _ _ _ E1). destruct (Z.eqb_spec e1 0) as [->|He1].
  2: { exists e1, w1. split_and!; try done. intros Heng Hf. rewrite (C1 Heng), Hf in He1. done. }
  destruct (require_check_run k w1) as (e2 & w2 & E2 & A2 & B2 & D2 & C2). rewrite A1 in *.
  rewrite (bind_eq _ _ _ _ _ E2). destruct (Z.eqb_spec e2 0) as [->|He2].
  2: { exists e2, w2. split_and!; try done; [congruence|].
       intros Heng Hf. rewrite (C2 Heng) in *. by destruct (find_xa k (w_xa w)). }
  destruct (D2 eq_refl) as [row Hrow]. rewrite Hrow.
  destruct (status_run k allowed row w2 ltac:(by rewrite A2)) as (w3 & E3 & A3 & B3).
  rewrite (bind_eq _ _ _ _ _ E3). destruct (_ || bool_decide _) eqn:Hok; simpl.
  2: { eexists _, w3. split; [reflexivity|]. split_and!; try done; congruence. }
  destruct (update_xa_op (xid trx) st w3) as (r & w4 & E4 & B4 & S4 & F4 & G4).
  rewrite A3, A2 in *. exists r, w4. split_and!; [exact E4|congruence| |exact F4|].
  - intros ->. destruct (S4 eq_refl) as [_ H4]. split; [|exact H4]. exists row. split; [done|].
    apply orb_true_iff in Hok as [Hok%Z.eqb_eq|Hok%bool_decide_eq_true]; auto.
  - intros Heng _. apply G4; [done|]. by exists row.
Qed.
End Sys.
