(* ===== verification/SysTheorems.v ===== *)
(** * The XA log as a map

    The table [mysql.spider_xa] under any sequence of the operations of
    spd_sys_table.cc: it is a finite map from the keys of transactions to their
    status. The engine may fail with any error at any call but one: that a row is
    missing is what the table says, never a failure. *)

From stdpp Require Import base gmap functions list strings.
From Stdlib Require Import ZArith Lia.
From S2P Require Import Prelude ConnTree World ConnQueue DbXa SysTable ConnPool XaTrx Example SysSpec.
Local Open Scope spider_scope.
Local Open Scope Z_scope.

(** ** The promise *)

Inductive log_op := LInsert (x : XID) (st : xa_status) | LUpdate (x : XID) (st : xa_status) | LDelete (x : XID).

Abbreviation log_map := (xa_key -> option xa_status).

(** What an operation does to the map when it succeeds; an insertion keeps what
    is there, the others need the transaction. *)
Definition log_effect (op : log_op) (m : log_map) : option log_map :=
  match op with
  | LInsert x st => let k := spider_store_xa_pk x in Some (match m k with Some _ => m | None => <[k := Some st]> m end)
  | LUpdate x st => let k := spider_store_xa_pk x in m k ≫= fun _ => Some (<[k := Some st]> m)
  | LDelete x => let k := spider_store_xa_pk x in m k ≫= fun _ => Some (<[k := None]> m)
  end.

(** A step with its result: it succeeds with the effect, or fails and changes
    nothing; a healthy engine fails only for want of the transaction. An update
    also succeeds when the engine answers that the row is the same already, and
    then changes nothing; with an [effective] engine, which never answers that of
    a row, success is the effect. *)
Inductive log_step (healthy effective : bool) (m : log_map) (op : log_op) : Z -> log_map -> Prop :=
| log_done m' : log_effect op m = Some m' -> log_step healthy effective m op 0 m'
| log_same x st : effective = false -> op = LUpdate x st -> is_Some (m (spider_store_xa_pk x)) -> log_step healthy effective m op 0 m
| log_missing r : r <> 0 -> log_effect op m = None -> log_step healthy effective m op r m
| log_error r : healthy = false -> r <> 0 -> log_step healthy effective m op r m.

Inductive log_steps (healthy effective : bool) : log_map -> list log_op -> list Z -> log_map -> Prop :=
| log_nil m : log_steps healthy effective m [] [] m
| log_cons m op r m1 ops rs m2 :
    log_step healthy effective m op r m1 -> log_steps healthy effective m1 ops rs m2 -> log_steps healthy effective m (op :: ops) (r :: rs) m2.

(** The rows are those of the map, one for each transaction; maps are compared
    key by key. *)
Record log_rel (rows : list xa_row) (m : log_map) : Prop := {
  lr_unique : NoDup (xr_key <$> rows);
  lr_status : forall k, xr_status <$> find_xa k rows = m k }.

(** ** Rows and the map *)

Lemma find_app_other k l row : xr_key row <> k -> find_xa k (l ++ [row]) = find_xa k l.
Proof.
  intros Hk. destruct (find_xa k l) as [r|] eqn:E.
  - unfold find_xa in *. destruct (list_find _ l) as [[i r']|] eqn:El; [|done]. by rewrite (list_find_app_l _ _ _ _ _ El).
  - apply find_xa_None in E. apply find_xa_None. apply Forall_app. by split; [|repeat constructor].
Qed.

Lemma find_set_other k k' st l : k <> k' -> find_xa k' (set_status k st l) = find_xa k' l.
Proof.
  intros Hne. unfold find_xa, set_status. rewrite list_find_fmap. rewrite (list_find_ext _ (fun r => xr_key r = k')).
  - destruct (list_find _ l) as [[i r]|] eqn:E; [|done]. simpl. apply list_find_Some in E as (_ & Hk & _). by rewrite decide_False by congruence.
  - intros r. simpl. by destruct (decide (xr_key r = k)).
Qed.

Lemma set_status_keys k st l : xr_key <$> set_status k st l = xr_key <$> l.
Proof. unfold set_status. rewrite <- list_fmap_compose. apply list_fmap_ext. intros i r _. simpl. by destruct (decide _). Qed.

Lemma rel_insert rows m row : log_rel rows m -> m (xr_key row) = None ->
  log_rel (rows ++ [row]) (<[xr_key row := Some (xr_status row)]> m).
Proof.
  intros [Hu Hs] Hk. rewrite <- Hs in Hk. apply fmap_None in Hk. split.
  - rewrite fmap_app. apply NoDup_app. split_and!; [done| |apply NoDup_singleton].
    intros k Hin Hk'. apply list_elem_of_singleton in Hk' as ->. apply list_elem_of_fmap in Hin as (r & E & Hr).
    apply find_xa_None in Hk. rewrite Forall_forall in Hk. by apply (Hk r Hr).
  - intros k. destruct (decide (k = xr_key row)) as [->|Hne].
    + by rewrite fn_lookup_insert, find_xa_app.
    + by rewrite fn_lookup_insert_ne, find_app_other by done.
Qed.

Lemma rel_update rows m k st : log_rel rows m -> is_Some (m k) -> log_rel (set_status k st rows) (<[k := Some st]> m).
Proof.
  intros [Hu Hs] Hk. split; [by rewrite set_status_keys|]. intros k'. destruct (decide (k = k')) as [<-|Hne].
  - rewrite fn_lookup_insert, find_set_status. rewrite <- Hs in Hk. destruct (find_xa k rows); [done|]. by destruct Hk.
  - by rewrite fn_lookup_insert_ne, find_set_other by done.
Qed.

Lemma rel_delete rows m k : log_rel rows m -> log_rel (filter (fun r => xr_key r <> k) rows) (<[k := None]> m).
Proof.
  intros [Hu Hs]. split.
  - eapply sublist_NoDup; [exact Hu|]. apply fmap_sublist, sublist_filter.
  - intros k'. destruct (decide (k = k')) as [<-|Hne].
    + by rewrite fn_lookup_insert, find_filter.
    + by rewrite fn_lookup_insert_ne, find_filter_other by done.
Qed.

(** ** The operations *)

Section Log.
  Context `{env : Env, vars : Vars}.
  (** Whether a key exists is what the table says, never a failure. *)
  Context (engine_honest : forall k, not_found (env_engine k) = false).

Definition run_log_op (op : log_op) : M world Z :=
  match op with
  | LInsert x st => spider_insert_xa x st
  | LUpdate x st => spider_update_xa x st
  | LDelete x => spider_delete_xa x
  end.

Fixpoint run_log_ops (ops : list log_op) : M world (list Z) :=
  match ops with
  | [] => mret []
  | op :: ops => r ← run_log_op op; rs ← run_log_ops ops; mret (r :: rs)
  end.

(** Every operation as one of the table, with its effect on the map. *)
Lemma log_op_table op rows m : log_rel rows m ->
  exists P f same, table_op (run_log_op op) P f same /\
    (P rows -> exists m', log_effect op m = Some m' /\ log_rel (f rows) m') /\ (P rows \/ log_effect op m = None) /\
    (same -> says_same /\ (P rows -> exists x st, op = LUpdate x st /\ is_Some (m (spider_store_xa_pk x)))).
Proof.
  intros Hrel. pose proof (lr_status _ _ Hrel) as Hs. destruct op as [x st|x st|x]; eexists _, _, _; simpl;
    (split; [apply insert_xa_op || apply update_xa_op || apply delete_xa_op; exact engine_honest|]); set (k := spider_store_xa_pk x).
  - split_and!; [|by left|done]. intros _. eexists. split; [reflexivity|]. unfold insert_row. simpl. fold k. rewrite <- Hs.
    destruct (find_xa k rows) as [row|] eqn:E; simpl; [done|]. apply (rel_insert _ _ (mk_xa_row k (bqual_length x) st)); [done|].
    simpl. by rewrite <- Hs, E.
  - rewrite <- (Hs k). split_and!.
    + intros [row E]. rewrite E. simpl. eexists. split; [reflexivity|]. apply rel_update; [done|]. rewrite <- Hs, E. by eexists.
    + destruct (find_xa k rows); [left; by eexists|by right].
    + intros Hsame. split; [done|]. intros [row E]. exists x, st. split; [done|]. fold k. rewrite <- Hs, E. by eexists.
  - rewrite <- (Hs k). split_and!; [| |done].
    + intros [row E]. rewrite E. simpl. eexists. split; [reflexivity|]. by apply rel_delete.
    + destruct (find_xa k rows); [left; by eexists|by right].
Qed.

Lemma log_step_ok healthy effective op w m :
  (healthy = true -> forall k, env_engine k = 0) -> (effective = true -> ~ says_same) -> log_rel (w_xa w) m ->
  exists r w' m', run_log_op op w = Some (r, w') /\ log_step healthy effective m op r m' /\ log_rel (w_xa w') m' /\
    w_xa_member w' = w_xa_member w.
Proof.
  intros Hh He Hrel. destruct (log_op_table op _ _ Hrel) as (P & f & same & Hop & Heff & Hmiss & Hsame).
  destruct (Hop w) as (r & w' & E & Hm & H0 & H1 & H2). destruct (decide (r = 0)) as [->|Hr].
  - destruct (H0 eq_refl) as [HP [E'|[Hs E']]].
    + destruct (Heff HP) as (m' & Em & Hrel'). exists 0, w', m'. rewrite E'. split; [done|]. split; [by constructor|done].
    + destruct (Hsame Hs) as [Hsays Hup]. destruct (Hup HP) as (x & st & -> & Hk). exists 0, w', m. rewrite E'.
      split; [done|]. split; [|done]. apply (log_same _ _ _ _ x st); [|done|done]. destruct effective; [by destruct (He eq_refl)|done].
  - exists r, w', m. rewrite (H1 Hr). split; [done|]. split; [|done]. destruct Hmiss as [HP|Hn]; [|by apply log_missing].
    destruct healthy; [|by apply log_error]. exfalso. apply Hr, H2; auto.
Qed.

(** C21. The XA log refines a map from transactions to statuses: whatever
    operations are run in whatever order, the engine failing with any error at any
    call (that a row is missing it says only when the row is missing), every
    operation returns, the table keeps one row for each transaction, holds exactly
    the statuses of the successful operations, and a failed operation leaves no
    trace; with a healthy engine an operation fails only for want of its row. An
    update that the engine answers with "the record is the same" counts as a
    success and changes nothing; an engine that never gives that answer makes every
    successful update show in the table. *)
Theorem log_refines_map healthy effective ops w m :
  (healthy = true -> forall k, env_engine k = 0) -> (effective = true -> ~ says_same) -> log_rel (w_xa w) m ->
  exists rs w' m', run_log_ops ops w = Some (rs, w') /\ log_steps healthy effective m ops rs m' /\ log_rel (w_xa w') m' /\ w_xa_member w' = w_xa_member w.
Proof.
  intros Hh He. revert w m. induction ops as [|op ops IH]; intros w m Hrel; simpl.
  - exists [], w, m. split; [done|]. split; [constructor|done].
  - destruct (log_step_ok healthy effective op w m Hh He Hrel) as (r & w1 & m1 & E1 & S1 & R1 & M1).
    destruct (IH w1 m1 R1) as (rs & w2 & m2 & E2 & S2 & R2 & M2). exists (r :: rs), w2, m2.
    rewrite (bind_eq _ _ _ _ _ E1), (bind_eq _ _ _ _ _ E2). split; [done|]. split; [by econstructor|]. split; [done|congruence].
Qed.
End Log.

(** An update of a transaction that is not there, an insertion, a second one, an
    update and two deletions, the engine failing once. *)
Lemma log_refines_map_witness :
  let env := example_env (fun _ => 0) (fun k => if Nat.eqb k 8 then 9 else 0) in
  let ops := [LUpdate example_xid COMMIT; LInsert example_xid NOT_YET; LInsert example_xid PREPARED; LUpdate example_xid PREPARED;
              LDelete example_xid; LDelete example_xid] in
  exists rs w' m', run_log_ops (env := env) ops example_world = Some (rs, w') /\
    log_steps false true (fun _ => None) ops rs m' /\ log_rel (w_xa w') m' /\ w_xa_member w' = [].
Proof.
  intros env ops. apply (log_refines_map (env := env)); [|done| |split; [constructor|done]].
  - intros k. simpl. by destruct (Nat.eqb k 8).
  - intros _ [k Hk]. revert Hk. simpl. by destruct (Nat.eqb k 8).
Defined.
