(* ===== verification/LiveSpec.v ===== *)
(** * Transactions on healthy backends

    When the backends acknowledge every statement, the functions of the
    transaction return 0 on a connection that is idle: connected, with nothing
    queued and no result waiting.  These are the lemmas behind the theorem that a
    distributed commit then succeeds. *)

From stdpp Require Import base gmap list strings.
From Stdlib Require Import ZArith Lia.
From S2P Require Import Prelude ConnTree World ConnQueue DbXa SysTable ConnPool XaTrx.
From S2P Require Import ConnWp ConnSpec QuerySpec StmtSpec PartSpec XaSpec XaMain SysSpec.
Local Open Scope spider_scope.
Local Open Scope Z_scope.

(** Nothing is queued on the connection. *)
Definition queue_empty (n : SPIDER_CONN) : bool :=
  negb (queued_connect n) && negb (queued_trx_isolation n) && negb (queued_semi_trx_isolation n) &&
  negb (queued_autocommit n) && negb (queued_sql_log_off n) && negb (queued_time_zone n) &&
  negb (queued_trx_start n) && negb (queued_xa_start n).

(** A connected connection with nothing queued; the results of [q] wait. *)
Record quiet (q : list stmt) (n : SPIDER_CONN) : Prop := {
  qt_queue : queue_empty n = true;
  qt_lost : server_lost n = false;
  qt_db : db_conn n = true;
  qt_semi : semi_trx_isolation n < 0;
  qt_table : table_lock n = 0;
  qt_pending : pending n = q
}.

(** ... and that no function is working on; [later] is TRUE within a rollback. *)
Record idle_as (later : bool) (q : list stmt) (n : SPIDER_CONN) : Prop := {
  id_before : in_before_query n = false;
  id_lock : mta_conn_mutex_lock_already n = false;
  id_later : mta_conn_mutex_unlock_later n = later;
  id_quiet : quiet q n
}.

Abbreviation idle := (idle_as false []).

Section Live.
  Context `{env : Env, vars : Vars} (c : cid).
  Context (all_ack : forall k, env_stmt k = 0).
  Context (no_dry : spider_param_dry_access = false).

Lemma queue_empty_sql n thd l (Q : Z + list stmt -> loc -> Prop) :
  queue_empty n = true -> Q (inr []) l -> wp c (queue_sql n thd) l Q.
Proof.
  unfold queue_empty. intros H HQ. bool_norm.
  unfold queue_sql, queue_append, needs_trx_isolation, needs_semi_trx_isolation, needs_autocommit,
    needs_sql_log_off, needs_time_zone.
  repeat match goal with H : _ n = false |- _ => rewrite H; clear H end. simpl. wp_run. exact HQ.
Qed.

(** The fields of [quiet] that the bookkeeping after the queue leaves alone. *)
Definition idle_view (n : SPIDER_CONN) := (done_view n, semi_trx_isolation n, table_lock n).

Lemma queue_empty_done thd n :
  queued_semi_trx_isolation n = false -> idle_view (queue_done thd n) = idle_view n.
Proof.
  intros H. unfold queue_done. etransitivity; [reflexivity|].
  do 3 (etransitivity; [apply (view_if idle_view); reflexivity|]).
  etransitivity; [apply (view_if idle_view)|apply (view_if idle_view); reflexivity].
  unfold needs_semi_trx_isolation at 1. intros Hb. exfalso. revert Hb.
  rewrite (view_if queued_semi_trx_isolation) by reflexivity. by rewrite H.
Qed.

Lemma clear_queue_empty n : queue_empty (conn_clear_queue n) = negb (queued_connect (conn_clear_queue n)).
Proof. unfold queue_empty. simpl. by rewrite !andb_true_r. Qed.

Lemma queue_done_clear thd n : exists m, queue_done thd n = conn_clear_queue m.
Proof. unfold queue_done. eexists. reflexivity. Qed.

Lemma quiet_done thd q n : quiet q n -> quiet q (queue_done thd n) /\ fview (queue_done thd n) = fview n.
Proof.
  intros [H1 H2 H3 H4 H5 H6]. unfold queue_empty in H1. bool_norm.
  pose proof (queue_empty_done thd n ltac:(done)) as Hv.
  assert (queue_empty (queue_done thd n) = negb (queued_connect (queue_done thd n))) as Hq.
  { destruct (queue_done_clear thd n) as [m ->]. apply clear_queue_empty. }
  set (n' := queue_done thd n) in *. clearbody n'. unfold idle_view, done_view in Hv.
  split; [|congruence]. split; try congruence. rewrite Hq.
  replace (queued_connect n') with (queued_connect n) by congruence. by apply negb_true_iff.
Qed.

#[local] Opaque queue_done.

(** [quiet] after assignments to other fields. *)
Ltac quiet_upd H := destruct H; split; done.

Lemma quiet_connect q n : quiet q n -> queued_connect n = false.
Proof. intros H. pose proof (qt_queue _ _ H) as Hq. unfold queue_empty in Hq. by bool_norm. Qed.

Lemma quiet_send q l :
  quiet q (l_conn l) ->
  wp c (queue_action_send c) l (fun r l' =>
    r = 0 /\ quiet q (l_conn l') /\ fview (l_conn l') = fview (l_conn l)).
Proof.
  intros H. unfold queue_action_send. do 2 wp_step. rewrite (qt_lost _ _ H). do 4 wp_step.
  apply wp_bind, queue_empty_sql; [apply (qt_queue _ _ H)|]. wp_run.
  set (n1 := (l_conn l) <| queued_net_timeout := false |>).
  assert (quiet q n1) as H1 by quiet_upd H. destruct (quiet_done (l_thd l) q n1 H1). done.
Qed.

Lemma quiet_queue_action q l :
  quiet q (l_conn l) ->
  wp c (spider_db_conn_queue_action c) l (fun r l' =>
    r = 0 /\ quiet q (l_conn l') /\ fview (l_conn l') = fview (l_conn l)).
Proof.
  intros H. unfold spider_db_conn_queue_action, spider_db_ping. do 2 wp_step.
  rewrite (quiet_connect _ _ H). wp_run.
  - match goal with |- wp _ _ ?l1 _ => change (fview (l_conn l)) with (fview (l_conn l1)) end.
    apply quiet_send. quiet_upd H.
  - by apply quiet_send.
Qed.

Lemma idle_before_query later q mon l :
  idle_as later q (l_conn l) ->
  wp c (spider_db_before_query c mon) l (fun r l' =>
    r = 0 /\ idle_as later q (l_conn l') /\ need_mon (l_conn l') = Some mon).
Proof.
  intros [H1 H2 H3 H4]. unfold spider_db_before_query. wp_run; [|congruence].
  eapply wp_conseq; [apply (quiet_queue_action q)|].
  { quiet_upd H4. }
  intros r l' (-> & Hq & Hf). unfold fview in Hf. simpl in Hf. wp_run. rewrite (qt_lost _ _ Hq).
  split_and!; [done| |congruence]. split; simpl; [done|done|congruence|]. quiet_upd Hq.
Qed.

(** ** Statements *)

(** [idle_as] after assignments to other fields. *)
Ltac idle_upd H := destruct H as [? ? ? []]; split; [done|done|done|by split].

(** A query is acknowledged; the results of its other statements wait. *)
Lemma idle_query later s rest mon l :
  idle_as later [] (l_conn l) ->
  wp c (spider_db_query c (s :: rest) mon) l (fun r l' =>
    r = 0 /\ idle_as later rest (l_conn l') /\ need_mon (l_conn l') = Some mon /\ last_errno (l_conn l') = 0).
Proof.
  intros H. unfold spider_db_query. do 2 wp_step. rewrite (id_before _ _ _ H). wp_step.
  eapply wp_conseq; [by apply idle_before_query|]. intros r l1 (-> & H1 & Hm). simpl.
  unfold exec_query, mysql_real_query. rewrite no_dry. do 3 wp_step.
  rewrite (qt_db _ _ (id_quiet _ _ _ H1)). simpl. wp_run. rewrite !all_ack. simpl.
  split_and!; [done|idle_upd H1|done|done].
Qed.

Lemma idle_simple s mon l :
  idle (l_conn l) -> wp c (mysql_simple c [s] mon) l (fun r l' => r = 0 /\ idle (l_conn l')).
Proof.
  intros H. unfold mysql_simple. wp_step. eapply wp_conseq; [by apply idle_query|].
  intros r l1 (-> & H1 & _). simpl. wp_run. split; [done|]. idle_upd H1.
Qed.

Lemma idle_two s1 s2 mon l :
  idle (l_conn l) -> wp c (mysql_two_statements c s1 s2 mon) l (fun r l' => r = 0 /\ idle (l_conn l')).
Proof.
  intros H. unfold mysql_two_statements. wp_step. eapply wp_conseq; [by apply idle_query|].
  intros r l1 (-> & H1 & Hm & He). simpl. wp_run. unfold next_result. do 2 wp_step.
  rewrite (qt_db _ _ (id_quiet _ _ _ H1)). simpl. do 2 wp_step. rewrite (qt_pending _ _ (id_quiet _ _ _ H1)).
  wp_run; rewrite all_ack in *; simpl; [|done]. split; [done|]. idle_upd H1.
Qed.

Lemma idle_rollback mon l :
  idle (l_conn l) -> wp c (mysql_rollback c mon) l (fun r l' => r = 0 /\ idle (l_conn l')).
Proof.
  intros H. unfold mysql_rollback. do 3 wp_step. eapply wp_conseq; [apply (idle_query true)|].
  { idle_upd H. }
  intros r l1 (-> & H1 & _). simpl. wp_run. split; [done|]. idle_upd H1.
Qed.

(** ** The participants *)

Lemma idle_sendable n : idle n -> xa_sendable n = true /\ failover_refused n = false.
Proof.
  intros H. pose proof (id_quiet _ _ _ H) as [Hq Hl _ _ _ _]. unfold queue_empty in Hq. bool_norm.
  unfold xa_sendable, failover_refused. repeat match goal with H : _ n = false |- _ => rewrite H end.
  by rewrite andb_false_r.
Qed.

Lemma idle_end_and_prepare x l :
  idle (l_conn l) -> wp c (spider_db_xa_end_and_prepare c x) l (fun r l' => r = 0 /\ idle (l_conn l')).
Proof.
  intros H. unfold spider_db_xa_end_and_prepare. do 2 wp_step.
  destruct (idle_sendable _ H) as [-> ->]. by apply idle_two.
Qed.

Lemma idle_commit_one_phase x l :
  idle (l_conn l) -> wp c (spider_db_xa_commit_one_phase c x) l (fun r l' => r = 0 /\ idle (l_conn l')).
Proof.
  intros H. unfold spider_db_xa_commit_one_phase. do 2 wp_step.
  destruct (idle_sendable _ H) as [-> _]. do 2 wp_step. apply idle_two. idle_upd H.
Qed.

Lemma idle_xa_commit x l :
  idle (l_conn l) -> wp c (spider_db_xa_commit c x) l (fun r l' => r = 0 /\ idle (l_conn l')).
Proof. intros H. unfold spider_db_xa_commit. wp_run; [by apply idle_simple|done]. Qed.

Lemma idle_db_rollback l :
  idle (l_conn l) -> wp c (spider_db_rollback c) l (fun r l' => r = 0 /\ idle (l_conn l')).
Proof.
  intros H. unfold spider_db_rollback. wp_run; [|split; [done|idle_upd H]].
  eapply wp_conseq; [by apply idle_rollback|]. intros r l1 [-> Hi]. simpl. wp_run. split; [done|]. idle_upd Hi.
Qed.

Lemma idle_end_trx l :
  idle (l_conn l) -> wp c (spider_end_trx c) l (fun r l' => r = 0 /\ idle (l_conn l')).
Proof.
  intros H. pose proof (id_quiet _ _ _ H) as [_ _ _ Hs Ht _]. unfold spider_end_trx, end_trx_unlock.
  do 3 wp_step. rewrite Ht. simpl. do 5 wp_step.
  destruct (Z.leb_spec 0 (semi_trx_isolation (l_conn l))); [lia|]. simpl. wp_run.
  split; [done|]. destruct H as [? ? ? []]. split; [done|done|done|]. by split.
Qed.

Lemma idle_restored da m l :
  wp c m l (fun r l' => r = 0 /\ idle (l_conn l')) ->
  wp c (with_restore da c m) l (fun r l' => r = 0 /\ idle (l_conn l')).
Proof.
  intros H. unfold with_restore. wp_step. eapply wp_conseq; [exact H|]. intros r l1 [-> H1]. simpl. by wp_run.
Qed.

Lemma idle_prepare da x l :
  idle (l_conn l) -> wp c (prepare_participant da x c) l (fun r l' => r = 0 /\ idle (l_conn l')).
Proof.
  intros H. unfold prepare_participant. do 3 wp_step; [|by apply idle_end_and_prepare].
  rewrite (qt_table _ _ (id_quiet _ _ _ H)). simpl. wp_step.
  eapply wp_conseq; [by apply idle_restored, idle_db_rollback|]. intros r l1 [-> H1]. simpl. wp_step.
  eapply wp_conseq; [by apply idle_restored, idle_end_trx|]. intros r l2 [-> H2]. simpl.
  unfold leave_trx. wp_run. split; [done|]. idle_upd H2.
Qed.

Lemma idle_commit da x l :
  idle (l_conn l) -> wp c (commit_participant da x 0 c) l (fun r l' => r = inr 0 /\ idle (l_conn l')).
Proof.
  intros H. unfold commit_participant, commit_error. do 3 wp_step; [by wp_run|].
  wp_step. eapply wp_conseq; [by apply idle_xa_commit|]. intros r l1 [-> H1]. simpl. do 2 wp_step.
  wp_step. eapply wp_conseq; [by apply idle_restored, idle_end_trx|]. intros r l2 [-> H2].
  unfold leave_trx. wp_run. split; [done|]. idle_upd H2.
Qed.
End Live.

(** ** The whole transaction *)

Lemma idle_conn_ok n : idle n -> conn_ok n.
Proof.
  intros [H1 H2 H3 [Hq Hl Hd Hs Ht Hp]]. unfold queue_empty in Hq. bool_norm.
  split; try done. split; try congruence. by rewrite Hd, orb_true_r.
Qed.

(** All participants are idle. *)
Definition calm (cs : list cid) (w : world) : Prop :=
  forall c, c ∈ cs -> exists n, w_conns w !! c = Some n /\ idle n.

Lemma calm_parts cs w : calm cs w -> parts_ok w cs.
Proof. intros H c Hc. destruct (H c Hc) as (n & Hn & Hi). exists n. split; [done|by apply idle_conn_ok]. Qed.

Lemma calm_put cs c l w : calm cs w -> idle (l_conn l) -> calm cs (put c l w).
Proof.
  intros H Hi c' Hc'. destruct (decide (c = c')) as [<-|Hne].
  - exists (l_conn l). simpl. by rewrite lookup_insert_eq.
  - simpl. rewrite lookup_insert_ne by done. by apply H.
Qed.

Section Whole.
  Context `{JO : JoinOrder walks} `{env : Env, vars : Vars}.
  Context (all_ack : forall k, env_stmt k = 0).
  Context (no_oom : forall k, env_oom k = false).
  Context (no_dry : spider_param_dry_access = false).

Lemma ack_nonneg k : 0 <= env_stmt k.
Proof. by rewrite all_ack. Qed.

(** One participant's part, as a step of the world. *)
Lemma live_step {A} c S (m : M world A) (a0 : A) cs w n :
  w_conns w !! c = Some n -> calm cs w ->
  wp c m (loc_of n w) (fun a l' => a = a0 /\ idle (l_conn l')) ->
  wp c m (loc_of n w) (fun _ l' => went c S (loc_of n w) l') ->
  exists w', m w = Some (a0, w') /\ wstep [c] S w w' /\ calm cs w' /\ same_log w w'.
Proof.
  intros Hn HC H1 H2. destruct (wp_frame c m w n _ Hn (wp_and c m _ _ _ H1 H2)) as (a & l' & Hm & [-> Hi] & Hw).
  exists (put c l' w). split_and!; [done|by eapply went_wstep|by apply calm_put|done].
Qed.

(** The invariant of the loops over the participants. *)
Record going (S : stmt -> Prop) (cs : list cid) (w0 w : world) : Prop := {
  go_step : wstep cs S w0 w;
  go_calm : calm cs w;
  go_log : same_log w0 w
}.

Lemma going_refl S cs w : calm cs w -> going S cs w w.
Proof. intros H. split; [apply wstep_refl|done|done]. Qed.

Lemma going_step S cs w0 w w' c :
  c ∈ cs -> going S cs w0 w -> wstep [c] S w w' -> calm cs w' -> same_log w w' -> going S cs w0 w'.
Proof.
  intros Hc [W _ [L1 L2]] W' HC [M1 M2]. split; [|done|].
  - eapply wstep_trans; [exact W|]. eapply wstep_mono; [|by intros s|exact W']. set_solver.
  - split; congruence.
Qed.

Lemma live_prepare x cs w :
  walks (w_links w) (join_trx_top (w_trx w)) cs -> calm cs w -> (2 <= length cs)%nat ->
  exists w', prepare_participants x w = Some (0, w') /\ going (among (phase_one_stmts x)) cs w w'.
Proof.
  intros Hw P Hlen. destruct cs as [|c [|c' rest]]; simpl in Hlen; [lia|lia|].
  unfold prepare_participants, backup_dastatus.
  rewrite (bind_eq _ _ _ _ _ (gets_eq _ w)), (bind_eq _ _ _ _ _ (tree_first_walks _ _ Hw)),
    (bind_eq _ _ _ _ _ (gets_eq _ w)).
  set (da := is_error (w_thd w)). set (cs := c :: c' :: rest) in *.
  set (S := among (phase_one_stmts x)).
  assert (HS : forall ss s, ss ⊆ phase_one_stmts x -> among ss s -> S s) by (intros ss s; apply among_mono).
  destruct (prepare_loop_rule (prepare_participant da x) (fun _ => going S cs w) (fun _ _ => False)
    (w_links w) (join_trx_top (w_trx w)) cs Hw)
    with (fuel := size (w_links w)) (dn := @nil cid) (c := c) (rest := c' :: rest) (w := w)
    as (r & w1 & Hm & HL & Hr); try done.
  - intros dn y ys w1 Hcs _ HL G. assert (y ∈ cs) as Hy by (rewrite Hcs; set_solver).
    destruct (go_calm _ _ _ _ G y Hy) as (n & Hn & Hi).
    destruct (live_step y S (prepare_participant da x y) 0 cs w1 n Hn (go_calm _ _ _ _ G))
      as (w2 & E & W2 & C2 & L2).
    + by apply idle_prepare.
    + eapply wp_conseq; [apply wp_prepare_participant; [exact ack_nonneg|done|done|by apply idle_conn_ok]|].
      intros r l' (K & _). eapply went_mono; [|exact K]. intros s. apply HS. unfold phase_one_stmts. set_solver.
    + exists 0, w2. split_and!; [done|by rewrite (ws_links _ _ _ _ W2)|done|]. intros _. by eapply going_step.
  - pose proof (walks_size _ _ _ Hw) as Hsz. unfold cs in Hsz. simpl in *. lia.
  - by apply going_refl.
  - simpl head. cbn iota beta. rewrite (bind_eq _ _ _ _ _ Hm). destruct r as [e|o]; [by destruct Hr|].
    destruct Hr as (init & z & Hcs & -> & G). assert (z ∈ cs) as Hz by (rewrite Hcs; set_solver).
    destruct (go_calm _ _ _ _ G z Hz) as (n & Hn & Hi).
    destruct (live_step z S (spider_db_xa_commit_one_phase z x) 0 cs w1 n Hn (go_calm _ _ _ _ G))
      as (w2 & E & W2 & C2 & L2).
    + by apply idle_commit_one_phase.
    + eapply wp_conseq; [apply wp_xa_commit_one_phase; [exact ack_nonneg|done|done|by apply idle_conn_ok]|].
      intros r l' (K & _). apply stays_went in K as [O T E]. 
      eapply (went_mono z (among [XaEnd x; XaCommitOnePhase x])).
      { intros s. apply HS. unfold phase_one_stmts, prepare_stmts. set_solver. }
      unfold one_phase_conn in *. by destruct (xa_sendable _).
    + exists w2. split; [done|]. by eapply going_step.
Qed.

Lemma live_commit_loop da x cs w :
  walks (w_links w) (join_trx_top (w_trx w)) cs -> calm cs w ->
  exists w', all_joined (commit_participant da x) 0 w = Some (0, forgotten w') /\
    going (among (phase_two_stmts x)) cs w w'.
Proof.
  intros Hw P. set (S := among (phase_two_stmts x)).
  destruct (for_each_rule (commit_participant da x) (fun _ a w' => a = 0 /\ going S cs w w')
    (fun _ _ => False) cs 0 w Hw) as (r & w1 & Hm & HL & Hr).
  - intros dn c rest a w1 Hcs HL [-> G]. assert (c ∈ cs) as Hc by (rewrite Hcs; set_solver).
    destruct (go_calm _ _ _ _ G c Hc) as (n & Hn & Hi).
    destruct (live_step c S (commit_participant da x 0 c) (inr 0) cs w1 n Hn (go_calm _ _ _ _ G))
      as (w2 & E & W2 & C2 & L2).
    + by apply idle_commit.
    + eapply wp_conseq; [apply wp_commit_participant; [exact ack_nonneg|done|done|by apply idle_conn_ok]|].
      intros r l' (e' & _ & K & _). eapply went_mono; [|exact K]. intros s. apply among_mono.
      unfold phase_two_stmts. destruct (is_xa_commit_one_phase _); set_solver.
    + exists (inr 0), w2. split_and!; [done|by rewrite (ws_links _ _ _ _ W2)|done|]. by eapply going_step.
  - split; [done|]. by apply going_refl.
  - destruct r as [e|a]; [done|]. destruct Hr as [-> G]. exists w1. split; [|done].
    unfold all_joined. by rewrite (bind_eq _ _ _ _ _ Hm).
Qed.

End Whole.

(** ** The log *)

Section LogLive.
  Context `{JO : JoinOrder walks} `{env : Env, vars : Vars}.
  Context (engine_ok : forall k, env_engine k = 0).

Lemma engine_honest k : not_found (env_engine k) = false.
Proof. by rewrite engine_ok. Qed.

Lemma not_same : ~ says_same.
Proof. intros [k Hk]. by rewrite engine_ok in Hk. Qed.

Lemma live_insert_member x c st w n :
  w_conns w !! c = Some n ->
  exists w', spider_insert_xa_member x c st w = Some (0, w') /\ w_xa w' = w_xa w.
Proof.
  intros Hn. unfold spider_insert_xa_member.
  rewrite (bind_eq (getc c) _ w n w) by (unfold getc; by rewrite Hn).
  unfold check_xa_member, sys_table_row, outside. mrun. rewrite !engine_ok. mrun.
  destruct (list_find _ (w_xa_member w)); mrun; [by eexists|].
  rewrite engine_ok. mrun. by eexists.
Qed.

Lemma calm_log cs w w' : wlog w w' -> calm cs w -> calm cs w'.
Proof. intros W H c Hc. rewrite (wlog_conns _ _ c W). by apply H. Qed.

(** A log function whose run is known. *)
Lemma logs_known {A} (m : M world A) a w w' : logs m -> m w = Some (a, w') -> wlog w w'.
Proof. intros H E. destruct (H w) as (a' & w'' & E' & W). rewrite E in E'. by injection E' as <- <-. Qed.

Lemma live_members x cs w :
  walks (w_links w) (join_trx_top (w_trx w)) cs -> calm cs w ->
  exists w', log_members x w = Some (0, w') /\ wlog w w' /\ w_xa w' = w_xa w.
Proof.
  intros Hw P. unfold log_members, backup_dastatus. rewrite (bind_eq _ _ _ _ _ (gets_eq _ w)).
  set (da := is_error (w_thd w)).
  match goal with |- context [for_each_joined ?b tt] => set (body := b) end.
  destruct (for_each_rule body (fun _ _ w' => wlog w w' /\ w_xa w' = w_xa w) (fun _ _ => False) cs tt w Hw)
    as (r & w1 & Hm & _ & Hr).
  - intros dn c rest [] w1 Hcs HL [W HX]. unfold body, with_restore.
    destruct (calm_log _ _ _ W P c) as (n & Hn & _); [rewrite Hcs; set_solver|].
    destruct (live_insert_member x c NOT_YET w1 n Hn) as (w2 & E & HX2).
    destruct (insert_member_log x c NOT_YET w1 n Hn) as (r & w2' & E' & W2).
    rewrite E in E'. injection E' as <- <-. rewrite bind_assoc, (bind_eq _ _ _ _ _ E).
    exists (inr tt), w2. split_and!; [done|by rewrite (ws_links _ _ _ _ W2)|by eapply wstep_trans|congruence].
  - split; [apply wstep_refl|done].
  - rewrite (bind_eq _ _ _ _ _ Hm). destruct r as [e|u]; [by destruct Hr|]. by exists w1.
Qed.

  Context (xa_cols : sys_xa_fields = SPIDER_SYS_XA_COL_CNT).
  Context (member_cols : sys_xa_member_fields = SPIDER_SYS_XA_MEMBER_COL_CNT).

Lemma live_open f n w : f = n ->
  exists w', spider_open_sys_table f n w = Some (0, w') /\ wlog w w' /\ same_log w w'.
Proof.
  intros ->. destruct (open_run n n w) as (r & w' & E & H1 & H2 & _ & H3).
  rewrite (H3 engine_ok), Z.eqb_refl in E. exists w'. split; [done|].
  split; [by eapply logs_known; [apply logs_open|]|done].
Qed.

(** Sequencing after a step that returned 0. *)
Lemma andthen_0 (m k : M world Z) w w' : m w = Some (0, w') -> (m &&; k) w = k w'.
Proof. intros E. unfold andthen. by rewrite (bind_eq _ _ _ _ _ E). Qed.

Lemma live_not_yet cs w :
  walks (w_links w) (join_trx_top (w_trx w)) cs -> calm cs w -> xa_logged (w_trx w) = true ->
  exists w', log_not_yet (w_trx w) w = Some (0, w') /\ wlog w w' /\
    is_Some (find_xa (spider_store_xa_pk (xid (w_trx w))) (w_xa w')).
Proof.
  intros Hw P Hl. unfold log_not_yet. rewrite Hl. simpl. set (x := xid (w_trx w)).
  destruct (live_open _ _ w xa_cols) as (w1 & E1 & W1 & _). rewrite (andthen_0 open_xa _ _ _ E1).
  destruct (insert_xa_op engine_honest x NOT_YET w1) as (r & w2 & E2 & _ & S2 & _ & G2).
  rewrite (G2 engine_ok I) in *. destruct (S2 eq_refl) as [_ [HX|[[] _]]].
  pose proof (logs_known _ _ _ _ (logs_insert_xa x NOT_YET) E2) as W2. rewrite (andthen_0 _ _ _ _ E2).
  destruct (live_open _ _ w2 member_cols) as (w3 & E3 & W3 & L3 & _). rewrite (andthen_0 open_xa_member _ _ _ E3).
  pose proof (wstep_trans _ _ _ _ _ W1 (wstep_trans _ _ _ _ _ W2 W3)) as W.
  destruct (live_members x cs w3) as (w4 & E4 & W4 & L4); [by eapply wstep_links_walks|by eapply calm_log|].
  exists w4. split_and!; [done|by eapply wstep_trans|]. rewrite L4, L3, HX. unfold insert_row. simpl.
  destruct (find_xa (spider_store_xa_pk x) (w_xa w1)) as [row|] eqn:Hf; [by exists row|].
  by rewrite find_xa_app.
Qed.

Lemma live_prepared trx w :
  xa_logged trx = true -> is_Some (find_xa (spider_store_xa_pk (xid trx)) (w_xa w)) ->
  exists w' row, log_prepared trx w = Some (0, w') /\ wlog w w' /\
    find_xa (spider_store_xa_pk (xid trx)) (w_xa w') = Some row /\ xr_status row = PREPARED.
Proof.
  intros Hl [row Hrow]. unfold log_prepared. rewrite Hl. simpl.
  destruct (live_open _ _ w xa_cols) as (w1 & E1 & W1 & L1 & _). rewrite (andthen_0 open_xa _ _ _ E1).
  destruct (update_xa_op engine_honest (xid trx) PREPARED w1) as (r & w2 & E2 & _ & S2 & _ & G2).
  rewrite L1 in *. rewrite (G2 engine_ok ltac:(by exists row)) in *. destruct (S2 eq_refl) as [_ [HX|[HX _]]]; [|by destruct (not_same HX)].
  exists w2. eexists. split_and!; [done|..].
  - eapply wstep_trans; [exact W1|]. by eapply logs_known; [apply logs_update_xa|].
  - by rewrite HX, find_set_status, Hrow.
  - done.
Qed.

Lemma live_decision trx allowed st w row :
  find_xa (spider_store_xa_pk (xid trx)) (w_xa w) = Some row -> xr_status row ∈ allowed ->
  exists w', log_decision trx allowed st w = Some (0, w') /\ wlog w w' /\
    is_Some (find_xa (spider_store_xa_pk (xid trx)) (w_xa w')).
Proof.
  intros Hrow Hin. destruct (decision_run engine_honest trx allowed st w) as (r & w' & E & _ & S & _ & G).
  rewrite (G engine_ok xa_cols), Hrow, bool_decide_true, orb_true_r in * by done.
  destruct (S eq_refl) as [_ [HX|[HX _]]]; [|by destruct (not_same HX)]. exists w'. split_and!; [done|by eapply logs_known; [apply logs_decision|]|].
  rewrite HX, find_set_status, Hrow. by eexists.
Qed.

Lemma live_delete trx w :
  is_Some (find_xa (spider_store_xa_pk (xid trx)) (w_xa w)) ->
  exists w', log_delete trx w = Some (0, w') /\ wlog w w' /\
    find_xa (spider_store_xa_pk (xid trx)) (w_xa w') = None /\
    Forall (fun r => xm_key r <> spider_store_xa_pk (xid trx)) (w_xa_member w').
Proof.
  intros Hs. unfold log_delete. set (k := spider_store_xa_pk (xid trx)) in *.
  destruct (live_open _ _ w member_cols) as (w1 & E1 & W1 & L1 & L1'). rewrite (andthen_0 open_xa_member _ _ _ E1).
  destruct (delete_member_run (xid trx) w1) as (r & w2 & E2 & X2 & _ & G2).
  destruct (G2 engine_ok) as [-> M2]. rewrite (andthen_0 _ _ _ _ E2).
  pose proof (logs_known _ _ _ _ (logs_delete_member (xid trx)) E2) as W2.
  destruct (live_open _ _ w2 xa_cols) as (w3 & E3 & W3 & L3 & L3'). rewrite (andthen_0 open_xa _ _ _ E3).
  destruct (delete_xa_op engine_honest (xid trx) w3) as (r & w4 & E4 & M4 & S4 & _ & G4).
  rewrite L3, X2, L1 in *. rewrite (G4 engine_ok Hs) in E4, S4. destruct (S4 eq_refl) as [_ [HX|[[] _]]].
  exists w4. split_and!; [done|..].
  - do 2 (eapply wstep_trans; [eassumption|]). eapply wstep_trans; [exact W3|].
    by eapply logs_known; [apply logs_delete_xa|].
  - rewrite HX. apply find_filter.
  - rewrite M4, L3', M2. apply Forall_forall. intros y [? _]%list_elem_of_filter. done.
Qed.
End LogLive.

(** The log is not used, or its engine answers and its tables have the columns
    the code expects. *)
Definition log_healthy `{Env, Vars} (trx : SPIDER_TRX) : Prop :=
  xa_logged trx = true ->
  (forall k, env_engine k = 0) /\ sys_xa_fields = SPIDER_SYS_XA_COL_CNT /\
  sys_xa_member_fields = SPIDER_SYS_XA_MEMBER_COL_CNT.

(** No trace of the transaction is left in the log. *)
Definition log_clean (x : XID) (w : world) : Prop :=
  find_xa (spider_store_xa_pk x) (w_xa w) = None /\
  Forall (fun r => xm_key r <> spider_store_xa_pk x) (w_xa_member w).

Section Commit.
  Context `{JO : JoinOrder walks} `{env : Env, vars : Vars}.
  Context (all_ack : forall k, env_stmt k = 0).
  Context (no_oom : forall k, env_oom k = false).
  Context (no_dry : spider_param_dry_access = false).

Lemma going_walks S cs w w' :
  going S cs w w' -> walks (w_links w) (join_trx_top (w_trx w)) cs ->
  walks (w_links w') (join_trx_top (w_trx w')) cs.
Proof. intros [W _ _]. by eapply wstep_links_walks. Qed.

(** The row of the transaction with one of the statuses [sts], if the log is used. *)
Definition row_in (sts : list xa_status) (trx : SPIDER_TRX) (w : world) : Prop :=
  xa_logged trx = true ->
  exists row, find_xa (spider_store_xa_pk (xid trx)) (w_xa w) = Some row /\ (sts = [] \/ xr_status row ∈ sts).

Lemma live_xa_prepare cs w :
  walks (w_links w) (join_trx_top (w_trx w)) cs -> calm cs w -> (2 <= length cs)%nat ->
  log_healthy (w_trx w) ->
  exists w', spider_internal_xa_prepare true w = Some (0, w') /\ calm cs w' /\
    walks (w_links w') (join_trx_top (w_trx w')) cs /\
    xid (w_trx w') = xid (w_trx w) /\ xa_logged (w_trx w') = xa_logged (w_trx w) /\
    row_in [PREPARED] (w_trx w) w'.
Proof.
  intros Hw P Hlen HL. unfold spider_internal_xa_prepare. rewrite (bind_eq _ _ _ _ _ (gets_eq _ w)).
  assert (exists w1, log_not_yet (w_trx w) w = Some (0, w1) /\ wlog w w1 /\ row_in [] (w_trx w) w1)
    as (w1 & E1 & W1 & R1).
  { unfold row_in. destruct (xa_logged (w_trx w)) eqn:Hl.
    - destruct (HL Hl) as (? & ? & ?). edestruct (live_not_yet) as (w1 & ? & ? & row & Hr); [done..|]. exists w1. split_and!; [done..|]. intros _. exists row. auto.
    - exists w. unfold log_not_yet. rewrite Hl. split_and!; [done|apply wstep_refl|done]. }
  rewrite (andthen_0 _ _ _ _ E1).
  destruct (live_prepare all_ack no_oom no_dry (xid (w_trx w)) cs w1) as (w2 & E2 & G2);
    [by eapply wstep_links_walks|by eapply calm_log|done|].
  rewrite (andthen_0 _ _ _ _ E2). pose proof (go_log _ _ _ _ G2) as [X2 _].
  assert (exists w3, log_prepared (w_trx w) w2 = Some (0, w3) /\ wlog w2 w3 /\ row_in [PREPARED] (w_trx w) w3)
    as (w3 & E3 & W3 & R3).
  { unfold row_in in *. destruct (xa_logged (w_trx w)) eqn:Hl.
    - destruct (HL Hl) as (? & ? & ?). destruct (R1 eq_refl) as (row & Hr & _). rewrite <- X2 in Hr.
      edestruct (live_prepared) as (w3 & row' & ? & ? & ? & ?); [done|done|exact Hl|by exists row|].
      exists w3. split_and!; [done|done|]. intros _. exists row'. split; [done|]. right. set_solver.
    - exists w2. unfold log_prepared. rewrite Hl. split_and!; [done|apply wstep_refl|done]. }
  rewrite (andthen_0 _ _ _ _ E3). eexists. split; [reflexivity|].
  destruct (wstep_trx_eq _ _ _ _ W1) as [A1 B1], (wstep_trx_eq _ _ _ _ (go_step _ _ _ _ G2)) as [A2 B2],
    (wstep_trx_eq _ _ _ _ W3) as [A3 B3].
  split_and!; [|simpl..|done].
  - exact (calm_log _ _ _ W3 (go_calm _ _ _ _ G2)).
  - eapply (wstep_links_walks [] _ w2 w3); [exact W3|]. eapply going_walks; [exact G2|]. by eapply wstep_links_walks.
  - congruence.
  - change (xa_logged (w_trx w3) = xa_logged (w_trx w)). congruence.
Qed.

Lemma live_xa_commit cs w :
  walks (w_links w) (join_trx_top (w_trx w)) cs -> calm cs w -> log_healthy (w_trx w) ->
  row_in [PREPARED] (w_trx w) w ->
  exists w', spider_internal_xa_commit w = Some (0, w') /\
    (xa_logged (w_trx w) = true -> log_clean (xid (w_trx w)) w').
Proof.
  intros Hw P HL HR. unfold spider_internal_xa_commit. rewrite (bind_eq _ _ _ _ _ (gets_eq _ w)).
  set (x := xid (w_trx w)).
  assert (exists w1, (if xa_logged (w_trx w) then log_decision (w_trx w) [PREPARED; COMMIT] COMMIT else mret 0) w =
    Some (0, w1) /\ wlog w w1 /\ row_in [] (w_trx w) w1) as (w1 & E1 & W1 & R1).
  { unfold row_in in *. destruct (xa_logged (w_trx w)) eqn:Hl.
    - destruct (HL Hl) as (? & ? & ?). destruct (HR eq_refl) as (row & Hr & [?|Hst]); [done|].
      edestruct live_decision as (w1 & ? & ? & row' & ?); [done|done|exact Hr| |].
      { apply list_elem_of_singleton in Hst as ->. apply list_elem_of_here. }
      exists w1. split_and!; [done|done|]. intros _. exists row'. auto.
    - exists w. split_and!; [done|apply wstep_refl|done]. }
  unfold andthen at 1. rewrite bind_assoc, (bind_eq _ _ _ _ _ E1). simpl (Z.eqb 0 0). cbn iota.
  unfold backup_dastatus. rewrite bind_assoc, (bind_eq _ _ _ _ _ (gets_eq _ w1)).
  destruct (live_commit_loop all_ack no_oom no_dry (is_error (w_thd w1)) x cs w1) as (w2 & E2 & G2);
    [by eapply wstep_links_walks|by eapply calm_log|].
  rewrite bind_assoc, (bind_eq _ _ _ _ _ E2). simpl (negb (Z.eqb 0 0)). cbn iota.
  pose proof (go_log _ _ _ _ G2) as [X2 _]. unfold row_in in *. destruct (xa_logged (w_trx w)) eqn:Hl.
  - destruct (HL Hl) as (? & ? & ?). destruct (R1 eq_refl) as (row & Hr & _). rewrite <- X2 in Hr.
    edestruct (fun a b c => live_delete a b c (w_trx w) (forgotten w2)) as (w3 & E3 & _ & C1 & C2);
      [done|done|done|by exists row|].
    rewrite (bind_eq _ _ _ _ _ E3). eexists. split; [reflexivity|]. done.
  - rewrite (bind_eq _ _ _ _ _ (ret_eq 0 (forgotten w2))). eexists. split; [reflexivity|done].
Qed.

Lemma live_commit_internal all cs w :
  in_xa (walks := walks) cs w -> calm cs w -> (2 <= length cs)%nat -> log_healthy (w_trx w) ->
  exists w', commit_internal_xa all w = Some (inr 0, w') /\
    (xa_logged (w_trx w) = true -> log_clean (xid (w_trx w)) w').
Proof.
  intros [Hw _ Hnum _ _] P Hlen HL. unfold commit_internal_xa.
  unfold lift_opt. unfold mbind at 1, M_bind at 1. rewrite (walks_num _ _ _ Hw), Z.mod_small by lia.
  destruct (Z.eqb_spec (Z.of_nat (length cs)) 1) as [|_]; [lia|].
  destruct (live_xa_prepare cs w Hw P Hlen HL) as (w1 & E1 & P1 & Hw1 & Hx & Hl & R1).
  rewrite (bind_eq _ _ _ _ _ E1). simpl (negb (Z.eqb 0 0)). cbn iota.
  set (w1' := w1 <| w_trx := (w_trx w1) <| trx_xa_prepared := true |> |>).
  rewrite (bind_eq (upd_trx _) _ w1 tt w1' eq_refl).
  destruct (live_xa_commit cs w1' Hw1 P1) as (w2 & E2 & C2).
  - intros Hl'. apply HL. by rewrite <- Hl.
  - intros Hl'. change (xid (w_trx w1')) with (xid (w_trx w1)). rewrite Hx. apply R1. by rewrite <- Hl.
  - rewrite (bind_eq _ _ _ _ _ E2). eexists. split; [reflexivity|]. intros Hl'. rewrite <- Hx. apply C2.
    change (xa_logged (w_trx w1) = true). by rewrite Hl.
Qed.
End Commit.
