(* ===== verification/XaTheorems.v ===== *)
(** * Theorems about the distributed commit

    The order of the two phases, the atomicity of the outcome as the backends
    acknowledged it, what is left of the transaction afterwards, and the cases
    in which the coordinator's log makes the outcome worse than without it. *)

From stdpp Require Import base gmap list strings.
From Stdlib Require Import ZArith Lia.
From S2P Require Import Prelude ConnTree World ConnQueue DbXa SysTable ConnPool XaTrx Example.
From S2P Require Import ConnWp ConnSpec QuerySpec StmtSpec PartSpec XaSpec XaMain SysSpec LiveSpec.
Local Open Scope spider_scope.
Local Open Scope Z_scope.

(** ** The concrete session *)

Lemma example_conn_ok host : conn_ok (example_conn host).
Proof. by repeat split. Qed.

Lemma example_in_xa : in_xa (walks := tree_walks) [1; 2]%positive example_world.
Proof.
  split.
  - exists (Node Leaf 1 (Node Leaf 2 Leaf))%positive. split; [|done].
    split; [|apply (bool_decide_unpack _); vm_compute; exact I].
    repeat split. eexists. repeat split. eexists. repeat split.
  - intros c [->|[->|[]%elem_of_nil]%elem_of_cons]%elem_of_cons.
    + exists (example_conn "a"). split; [reflexivity|apply example_conn_ok].
    + exists (example_conn "b"). split; [reflexivity|apply example_conn_ok].
  - done.
  - done.
  - done.
Qed.

Lemma example_single_in_xa : in_xa (walks := tree_walks) [1]%positive example_single.
Proof.
  split.
  - exists (Node Leaf 1 Leaf)%positive. split; [|done].
    split; [|apply (bool_decide_unpack _); vm_compute; exact I].
    repeat split. eexists. repeat split.
  - intros c ->%list_elem_of_singleton. exists (example_conn "a"). split; [reflexivity|apply example_conn_ok].
  - done.
  - done.
  - done.
Qed.

(** ** Order and atomicity *)

Section Theorems.
  Context `{env : Env, vars : Vars}.

(** C1. No branch is told to commit before all of them can: when an XA COMMIT is
    sent to any backend, every participant whose branch was started has already
    acknowledged XA PREPARE, or XA COMMIT ONE PHASE for the last one.  This holds
    whatever the backends answer, and the commit always returns. *)
Theorem commit_only_after_all_prepared (all : bool) (cs : list cid) (w : world) :
  client_ok -> in_xa (walks := tree_walks) cs w ->
  exists r w', commit_internal_xa all w = Some (r, w') /\
    forall t1 t2 c e,
      w_trace w' = w_trace w ++ t1 ++ EvStmt c (XaCommit (xid (w_trx w))) e :: t2 ->
      forall p n, p ∈ cs -> w_conns w !! p = Some n -> disable_xa n = false -> xa_sendable n = true ->
        EvStmt p (XaPrepare (xid (w_trx w))) 0 ∈ t1 \/ EvStmt p (XaCommitOnePhase (xid (w_trx w))) 0 ∈ t1.
Proof.
  intros [K1 K2 K3] Hx. destruct (commit_internal_xa_spec K1 K2 K3 all cs w Hx) as (r & w' & Hm & Ho).
  exists r, w'. split; [done|]. intros t1 t2 c e Ht p n Hp Hn Hd Hs.
  set (x := xid (w_trx w)) in *.
  assert (Hin : since w w' (EvStmt c (XaCommit x) e)).
  { exists (t1 ++ EvStmt c (XaCommit x) e :: t2). split; [done|]. set_solver. }
  destruct Ho as [e1 w' _ T _|e1 w1 w' He Hp1 T _|e1 w1 w' Hp1 T _ _].
  - apply (traced_stmt _ _ _ _ _ _ _ T) in Hin as [_ [[]|Hin]]. set_solver.
  - exfalso. destruct (traced_split _ _ _ _ _ _ _ _
      (ws_trace _ _ _ _ (prepare_failed_step _ _ _ _ Hp1 He)) T Hin) as [Hin'|Hin'].
    + apply (wstep_stmt _ _ _ _ _ _ _ (prepare_failed_step _ _ _ _ Hp1 He)) in Hin' as [[]|?]. set_solver.
    + apply (traced_stmt _ _ _ _ _ _ _ T) in Hin' as [_ [[]|?]]. set_solver.
  - pose proof (prepare_ok_traced _ _ _ Hp1) as (tp & Ep & Fp). destruct T as (tc & Ec & Fc).
    rewrite Ec, Ep, <- (assoc_L (++)) in Ht. apply app_inv_head in Ht.
    destruct (first_occurrence _ _ _ _ _ Ht) as [t ->].
    { intros Hc. rewrite Forall_forall in Fp. apply Fp in Hc as [_ [[]|Hc]]. set_solver. }
    destruct (prepare_ok_acked _ _ _ p n Hp1 Hp Hn Hd Hs) as [[(t' & Et & Ht') _]|(t' & Et & Ht')];
      rewrite Ep in Et; apply app_inv_head in Et as <-; [left|right]; apply elem_of_app; by left.
Qed.

(** C2. Without the log the outcome is atomic as far as the backends acknowledged
    it: no run acknowledges a commit of one branch and the rollback of another. *)
Theorem commit_atomic (all : bool) (cs : list cid) (w : world) :
  client_ok -> in_xa (walks := tree_walks) cs w -> xa_logged (w_trx w) = false ->
  exists r w', commit_internal_xa all w = Some (r, w') /\
    forall c1 c2,
      since w w' (EvStmt c1 (XaCommit (xid (w_trx w))) 0) \/
      since w w' (EvStmt c1 (XaCommitOnePhase (xid (w_trx w))) 0) ->
      ~ since w w' (EvStmt c2 (XaRollback (xid (w_trx w))) 0).
Proof.
  intros [K1 K2 K3] Hx Hl. destruct (commit_internal_xa_spec K1 K2 K3 all cs w Hx) as (r & w' & Hm & Ho).
  exists r, w'. split; [done|]. intros c1 c2 Hc Hr.
  destruct Ho as [e1 w' _ T _|e1 w1 w' He Hp1 T _|e1 w1 w' Hp1 T _ _].
  - apply (traced_stmt _ _ _ _ _ _ _ T) in Hr as [_ [[]|?]]. set_solver.
  - pose proof (ws_trace _ _ _ _ (prepare_failed_step _ _ _ _ Hp1 He)) as T0.
    destruct Hc as [Hc|Hc]; destruct (traced_split _ _ _ _ _ _ _ _ T0 T Hc) as [Hc'|Hc'].
    + apply (traced_stmt _ _ _ _ _ _ _ T0) in Hc' as [_ [[]|?]]. set_solver.
    + apply (traced_stmt _ _ _ _ _ _ _ T) in Hc' as [_ [[]|?]]. set_solver.
    + by eapply prepare_failed_no_commit.
    + apply (traced_stmt _ _ _ _ _ _ _ T) in Hc' as [_ [[]|?]]. set_solver.
  - pose proof (prepare_ok_traced _ _ _ Hp1) as T0.
    destruct (traced_split _ _ _ _ _ _ _ _ T0 T Hr) as [Hr'|Hr'].
    + apply (traced_stmt _ _ _ _ _ _ _ T0) in Hr' as [_ [[]|?]]. set_solver.
    + apply (traced_stmt _ _ _ _ _ _ _ T) in Hr' as [_ [[]|?]]. set_solver.
Qed.

(** C3. With commits not forced ([spider_force_commit] 0; the default is 2), a
    commit of two or more participants that reports success was acknowledged: each
    participant whose branch was started and which is not in error mode has
    acknowledged XA COMMIT, or XA COMMIT ONE PHASE for the last one. *)
Theorem commit_success_acknowledged (all : bool) (cs : list cid) (w : world) :
  client_ok -> in_xa (walks := tree_walks) cs w -> (2 <= length cs)%nat ->
  spider_param_force_commit = 0 ->
  exists r w', commit_internal_xa all w = Some (r, w') /\
    (r = inr 0 -> forall p n, p ∈ cs -> w_conns w !! p = Some n ->
       disable_xa n = false -> xa_sendable n = true -> is_xa_commit_one_phase n = false ->
       join_trx n <> 0 -> error_mode n = 0 ->
       since w w' (EvStmt p (XaCommit (xid (w_trx w))) 0) \/
       since w w' (EvStmt p (XaCommitOnePhase (xid (w_trx w))) 0)).
Proof.
  intros [K1 K2 K3] Hx Hlen Hf. destruct (commit_internal_xa_spec K1 K2 K3 all cs w Hx) as (r & w' & Hm & Ho).
  exists r, w'. split; [done|]. intros -> p n Hp Hn Hd Hs Hone Hj He.
  inversion Ho as [e1 w2 H1 T _|e1 w1 w2|e1 w1 w2 Hp1 T (e2 & He2 & HC) _]; subst; [lia|].
  specialize (He2 eq_refl) as ->.
  destruct (prepare_ok_acked _ _ _ p n Hp1 Hp Hn Hd Hs) as [[_ (n' & Hn' & Hv & Hset)]|Ha].
  - left. eapply traced_since; [exact (prepare_ok_traced _ _ _ Hp1)|].
    destruct (HC p Hp n' Hn') as [_ H]. unfold pview in Hv. injection Hv as V1 V2 V3 V4 V5 V6 V7 V8.
    apply H; try congruence. unfold xa_sendable in *. destruct Hset as [S1 S2].
    apply andb_true_iff in Hs as [Hs1%negb_true_iff Hs2%negb_true_iff]. by rewrite S1, S2.
  - right. eapply since_traced; [exact Ha|exact T].
Qed.

(** C4. A branch that was sent XA COMMIT ONE PHASE is never sent XA COMMIT by
    the same commit. *)
Theorem one_phase_not_committed_again (all : bool) (cs : list cid) (w : world) :
  client_ok -> in_xa (walks := tree_walks) cs w ->
  exists r w', commit_internal_xa all w = Some (r, w') /\
    forall c e1 e2, since w w' (EvStmt c (XaCommitOnePhase (xid (w_trx w))) e1) ->
      ~ since w w' (EvStmt c (XaCommit (xid (w_trx w))) e2).
Proof.
  intros [K1 K2 K3] Hx. destruct (commit_internal_xa_spec K1 K2 K3 all cs w Hx) as (r & w' & Hm & Ho).
  exists r, w'. split; [done|]. intros c e1 e2 H1 H2.
  destruct Ho as [e w' _ T _|e w1 w' He Hp1 T _|e w1 w' Hp1 T (e3 & _ & HC) _].
  - apply (traced_stmt _ _ _ _ _ _ _ T) in H2 as [_ [[]|?]]. set_solver.
  - pose proof (ws_trace _ _ _ _ (prepare_failed_step _ _ _ _ Hp1 He)) as T0.
    destruct (traced_split _ _ _ _ _ _ _ _ T0 T H2) as [H'|H'].
    + apply (traced_stmt _ _ _ _ _ _ _ T0) in H' as [_ [[]|?]]. set_solver.
    + apply (traced_stmt _ _ _ _ _ _ _ T) in H' as [_ [[]|?]]. set_solver.
  - pose proof (prepare_ok_traced _ _ _ Hp1) as T0.
    destruct (traced_split _ _ _ _ _ _ _ _ T0 T H2) as [H2'|H2'].
    { apply (traced_stmt _ _ _ _ _ _ _ T0) in H2' as [_ [[]|?]]. set_solver. }
    destruct (traced_split _ _ _ _ _ _ _ _ T0 T H1) as [H1'|H1'].
    2: { apply (traced_stmt _ _ _ _ _ _ _ T) in H1' as [_ [[]|?]]. set_solver. }
    apply (traced_stmt _ _ _ _ _ _ _ T) in H2' as Hc. destruct Hc as [Hc _].
    destruct (prepare_one_phase_flag _ _ _ _ _ Hp1 H1') as (n & Hn & Hf).
    destruct (HC c Hc n Hn) as [Hno _]. exact (Hno Hf e2 H2').
Qed.

(** C19. A commit succeeds when the backends do: if every statement is acknowledged
    and the participants are connected with nothing queued, the two-phase commit
    of two or more participants returns success, and when the log is used and
    healthy it leaves no row of the transaction there. *)
Theorem commit_succeeds (all : bool) (cs : list cid) (w : world) :
  client_ok -> (forall k, env_stmt k = 0) -> in_xa (walks := tree_walks) cs w -> calm cs w ->
  (2 <= length cs)%nat -> log_healthy (w_trx w) ->
  exists w', commit_internal_xa all w = Some (inr 0, w') /\
    (xa_logged (w_trx w) = true -> log_clean (xid (w_trx w)) w').
Proof.
  intros [_ K2 K3] Hack Hx HC Hlen HL.
  exact (live_commit_internal Hack K2 K3 all cs w Hx HC Hlen HL).
Qed.

(** ** The end of the transaction *)

(** C20. With the log not in use ([xa_logged] false), [spider_commit] of a
    transaction of the server's own ends it, whatever the backends answer: either every participant has left it, the join tree is empty
    and the session is outside any transaction, or the outcome is in doubt, the
    error is ER_SPIDER_XA_TIMEOUT and the participants are given up. *)
Theorem commit_ends (all : bool) (cs : list cid) (w : world) :
  client_ok -> in_xa (walks := tree_walks) cs w -> committable all w = true ->
  xa_logged (w_trx w) = false ->
  exists e w', commit_trx all w = Some (e, w') /\
    (over cs w' \/ e = ER_SPIDER_XA_TIMEOUT_NUM /\ abandoned cs w w').
Proof. intros [K1 K2 K3] Hx Hc Hl. exact (commit_trx_over K1 K2 K3 all cs w Hx Hc Hl). Qed.

(** C7. With [spider_force_commit] 0 (the default is 2), [spider_rollback] of an
    XA transaction that is not in the log as prepared ends it, whatever the
    backends answer; it sends nothing but XA END, XA ROLLBACK, ROLLBACK and UNLOCK
    TABLES (and what reconnecting needs), and when it reports success every branch
    that was started on a connection that is not lost and not in error mode has
    acknowledged XA ROLLBACK. *)
Theorem rollback_ends (all : bool) (cs : list cid) (w : world) :
  client_ok -> in_xa (walks := tree_walks) cs w -> rolls_back all w = true ->
  spider_param_force_commit = 0 ->
  exists e w', rollback_trx all w = Some (e, w') /\ over cs w' /\
    traced cs (among (rollback_stmts (xid (w_trx w)))) w w' /\
    (e = 0 -> forall p n, p ∈ cs -> w_conns w !! p = Some n -> join_trx n <> 0 ->
       disable_xa n = false -> server_lost n = false -> error_mode n = 0 -> xa_sendable n = true ->
       since w w' (EvStmt p (XaRollback (xid (w_trx w))) 0)).
Proof.
  intros [K1 K2 K3] [Hw P _ Hx Hk] Hr Hf.
  destruct (rollback_trx_spec K1 K2 K3 all cs w Hw P Hx Hk) as (e & w' & Hm & T & HO).
  destruct (HO Hr) as [HV HR]. exists e, w'. split_and!; [done..|].
  intros -> p n Hp Hn Hj Hd Hs He Hx'. by apply (HR p Hp n Hn).
Qed.

(** Giving up a transaction in doubt frees exactly the participants, on every
    list of them, leaves the other connections as they were, and sends nothing:
    the prepared branches stay on the backends for recovery. *)
Theorem in_doubt_given_up (cs : list cid) (w : world) :
  tree_walks (w_links w) (join_trx_top (w_trx w)) cs ->
  (forall c, c ∈ cs -> is_Some (w_conns w !! c)) ->
  exists w', spider_free_prepared_trx w = Some (tt, w') /\ join_trx_top (w_trx w') = None /\
    (forall c, c ∈ cs -> w_conns w' !! c = None /\ w_links w' !! c = None) /\
    (forall c, c ∉ cs -> w_conns w' !! c = w_conns w !! c /\ w_links w' !! c = w_links w !! c) /\
    trx_conn_hash (w_trx w') = trx_conn_hash (w_trx w) ∖ list_to_set cs /\
    (forall c s e, ~ since w w' (EvStmt c s e)).
Proof.
  intros Hw P. destruct (free_prepared_spec cs w Hw P) as (w' & Hm & [G1 G2 G3 _ G4] & Ht).
  exists w'. split_and!; [done..|]. intros c s e Hs.
  by apply (traced_stmt _ _ _ _ _ _ _ G4) in Hs as [_ []].
Qed.
End Theorems.

(** ** Witnesses on the concrete session *)

Lemma example_client_ok b m : @client_ok ok_env (example_vars b m).
Proof. by split. Qed.

(** The statements of phase one in the session of two participants. *)
Definition example_phase_one : list event :=
  [EvStmt 1 (XaEnd example_xid) 0; EvStmt 1 (XaPrepare example_xid) 0;
   EvStmt 2 (XaEnd example_xid) 0; EvStmt 2 (XaCommitOnePhase example_xid) 0].

Lemma commit_only_after_all_prepared_witness :
  exists r w', @commit_internal_xa ok_env plain_vars true example_world = Some (r, w') /\
    w_trace w' = example_phase_one ++ [EvStmt 1 (XaCommit example_xid) 0] /\
    (EvStmt 2 (XaPrepare example_xid) 0 ∈ example_phase_one \/
     EvStmt 2 (XaCommitOnePhase example_xid) 0 ∈ example_phase_one).
Proof.
  destruct (@commit_only_after_all_prepared ok_env plain_vars true [1; 2]%positive example_world)
    as (r & w' & Hm & H); [apply example_client_ok|apply example_in_xa|].
  change (xid (w_trx example_world)) with example_xid in H. change (w_trace example_world) with (@nil event) in H.
  assert (w_trace w' = example_phase_one ++ [EvStmt 1 (XaCommit example_xid) 0]) as Ht.
  { vm_compute in Hm. injection Hm as <- <-. reflexivity. }
  exists r, w'. split_and!; [done|done|].
  clear Hm. apply (H example_phase_one [] 1%positive 0 Ht 2%positive (example_conn "b"));
    [apply list_elem_of_further, list_elem_of_here|vm_compute; reflexivity..].
Defined.

Lemma commit_atomic_witness :
  exists r w', @commit_internal_xa ok_env plain_vars true example_world = Some (r, w') /\
    since example_world w' (EvStmt 1 (XaCommit example_xid) 0) /\
    ~ since example_world w' (EvStmt 2 (XaRollback example_xid) 0).
Proof.
  destruct (@commit_atomic ok_env plain_vars true [1; 2]%positive example_world)
    as (r & w' & Hm & H); [apply example_client_ok|apply example_in_xa|reflexivity|].
  assert (since example_world w' (EvStmt 1 (XaCommit example_xid) 0)) as Hs.
  { exists (w_trace w'). split; [done|]. vm_compute in Hm. injection Hm as <- <-.
    apply (bool_decide_unpack _). vm_compute. exact I. }
  exists r, w'. split_and!; [done|done|]. clear Hm. apply (H 1%positive 2%positive). by left.
Defined.

Lemma commit_success_acknowledged_witness :
  exists w', @commit_internal_xa ok_env plain_vars true example_world = Some (inr 0, w') /\
    (since example_world w' (EvStmt 2 (XaCommit example_xid) 0) \/
     since example_world w' (EvStmt 2 (XaCommitOnePhase example_xid) 0)).
Proof.
  destruct (@commit_success_acknowledged ok_env plain_vars true [1; 2]%positive example_world)
    as (r & w' & Hm & H); [apply example_client_ok|apply example_in_xa|done|reflexivity|].
  assert (r = inr 0) as -> by (vm_compute in Hm; by injection Hm as <- _).
  exists w'. split; [done|]. clear Hm. apply (H eq_refl 2%positive (example_conn "b"));
    [apply list_elem_of_further, list_elem_of_here|vm_compute; done..].
Defined.

Lemma one_phase_not_committed_again_witness :
  exists r w', @commit_internal_xa ok_env plain_vars true example_world = Some (r, w') /\
    ~ since example_world w' (EvStmt 2 (XaCommit example_xid) 0).
Proof.
  destruct (@one_phase_not_committed_again ok_env plain_vars true [1; 2]%positive example_world)
    as (r & w' & Hm & H); [apply example_client_ok|apply example_in_xa|].
  exists r, w'. split; [done|]. apply (H 2%positive 0 0). exists (w_trace w'). split; [done|].
  vm_compute in Hm. injection Hm as <- <-. apply (bool_decide_unpack _). vm_compute. exact I.
Defined.

Lemma example_calm : calm [1; 2]%positive example_world.
Proof.
  intros c [->|[->|[]%elem_of_nil]%elem_of_cons]%elem_of_cons.
  - exists (example_conn "a"). split; [reflexivity|by repeat split].
  - exists (example_conn "b"). split; [reflexivity|by repeat split].
Qed.

Lemma commit_succeeds_witness :
  exists w', @commit_internal_xa ok_env (example_vars false 19) true example_world = Some (inr 0, w') /\
    log_clean example_xid w'.
Proof.
  destruct (@commit_succeeds ok_env (example_vars false 19) true [1; 2]%positive example_world)
    as (w' & Hm & H); [apply example_client_ok|done|apply example_in_xa|apply example_calm|done|by repeat split|].
  exists w'. split; [done|]. clear Hm. by apply H.
Defined.

Lemma commit_ends_witness :
  exists e w', @commit_trx ok_env plain_vars true example_world = Some (e, w') /\
    (over [1; 2]%positive w' \/
     e = ER_SPIDER_XA_TIMEOUT_NUM /\ abandoned [1; 2]%positive example_world w').
Proof.
  exact (@commit_ends ok_env plain_vars true [1; 2]%positive example_world
    (example_client_ok _ _) example_in_xa eq_refl eq_refl).
Defined.

Lemma rollback_ends_witness :
  exists w', @rollback_trx ok_env plain_vars true example_world = Some (0, w') /\ over [1; 2]%positive w' /\
    since example_world w' (EvStmt 1 (XaRollback example_xid) 0).
Proof.
  destruct (@rollback_ends ok_env plain_vars true [1; 2]%positive example_world
    (example_client_ok _ _) example_in_xa eq_refl eq_refl) as (e & w' & Hm & HO & _ & H).
  assert (e = 0) as -> by (vm_compute in Hm; by injection Hm as <- _).
  exists w'. split_and!; [done|done|]. clear Hm.
  apply (H eq_refl 1%positive (example_conn "a")); [apply list_elem_of_here|vm_compute; done..].
Defined.

Lemma in_doubt_given_up_witness :
  exists w', spider_free_prepared_trx example_world = Some (tt, w') /\
    w_conns w' !! 1%positive = None.
Proof.
  destruct (in_doubt_given_up [1; 2]%positive example_world) as (w' & Hm & _ & H & _).
  - apply example_in_xa.
  - intros c Hc. destruct (ix_ok _ _ example_in_xa c Hc) as (n & Hn & _). by exists n.
  - exists w'. split; [done|]. apply H, list_elem_of_here.
Defined.
