(* ===== verification/XaLimits.v ===== *)
(** * Limits of the distributed commit

    Where the outcome depends on the coordinator's log or on a lost connection:
    the cases in which [spider_commit] reports an error for a transaction that
    the backends committed, cannot commit at all, mixes commits and rollbacks, or
    keeps the identifier of a transaction it gave up. *)

From stdpp Require Import base gmap list strings.
From Stdlib Require Import ZArith Lia.
From S2P Require Import Prelude ConnTree World ConnQueue DbXa SysTable ConnPool XaTrx Example.
From S2P Require Import ConnWp ConnSpec QuerySpec StmtSpec PartSpec XaSpec XaMain SysSpec LiveSpec.
From S2P Require Import XaTheorems.
Local Open Scope spider_scope.
Local Open Scope Z_scope.

Section Limits.
  Context `{env : Env, vars : Vars}.

(** C39. With the log in use, the commit of a single participant always reports
    that the transaction does not exist, whatever the backend answered: the
    one-phase commit writes no row, and the second phase that follows it
    requires one. *)
Theorem single_participant_log_error (all : bool) (c : cid) (w : world) :
  client_ok -> in_xa (walks := tree_walks) [c] w -> xa_logged (w_trx w) = true ->
  (forall k, env_engine k = 0) -> sys_xa_fields = SPIDER_SYS_XA_COL_CNT ->
  find_xa (spider_store_xa_pk (xid (w_trx w))) (w_xa w) = None ->
  exists w', commit_internal_xa all w = Some (inr ER_SPIDER_XA_NOT_EXISTS_NUM, w').
Proof.
  intros [K1 K2 K3] [Hw P _ _ _] Hl He Hf Hrow. unfold commit_internal_xa, lift_opt.
  unfold mbind at 1, M_bind at 1. rewrite (walks_num _ _ _ Hw). simpl (Z.eqb _ 1). cbn iota.
  destruct (one_phase_spec K1 K2 K3 [c] w Hw P) as (e1 & w1 & E1 & _ & Hxid & Hlog & Hxa & _).
  rewrite (bind_eq _ _ _ _ _ E1). unfold spider_internal_xa_commit at 1.
  rewrite !bind_assoc, (bind_eq _ _ _ _ _ (gets_eq _ w1)), Hlog, Hl. unfold andthen at 1.
  assert (forall k, not_found (env_engine k) = false) as Hh by (intros k; by rewrite He).
  destruct (decision_run Hh (w_trx w1) [PREPARED; COMMIT] COMMIT w1) as (r & w2 & E2 & _ & _ & _ & Hr).
  rewrite Hxid, Hxa, Hrow in Hr. specialize (Hr He Hf) as ->.
  rewrite !bind_assoc, (bind_eq _ _ _ _ _ E2). by eexists.
Qed.

(** The log is not written when its member table cannot be opened. *)
Lemma members_unopened trx w :
  xa_logged trx = true -> sys_xa_member_fields <> SPIDER_SYS_XA_MEMBER_COL_CNT ->
  (forall k, not_found (env_engine k) = false) ->
  exists e w', log_not_yet trx w = Some (e, w') /\ e <> 0.
Proof.
  intros Hl Hf Hh. unfold log_not_yet. rewrite Hl. cbn [negb]. unfold andthen at 1.
  destruct (open_run sys_xa_fields SPIDER_SYS_XA_COL_CNT w) as (e1 & w1 & E1 & _).
  rewrite (bind_eq open_xa _ _ _ _ E1). destruct (Z.eqb_spec e1 0) as [->|]; [|by exists e1, w1].
  unfold andthen at 1. destruct (insert_xa_op Hh (xid trx) NOT_YET w1) as (e2 & w2 & E2 & _).
  rewrite (bind_eq _ _ _ _ _ E2). destruct (Z.eqb_spec e2 0) as [->|]; [|by exists e2, w2].
  unfold andthen at 1.
  destruct (open_run sys_xa_member_fields SPIDER_SYS_XA_MEMBER_COL_CNT w2) as (e3 & w3 & E3 & _ & _ & H3 & _).
  rewrite (bind_eq open_xa_member _ _ _ _ E3). destruct (Z.eqb_spec e3 0) as [->|]; [|by exists e3, w3].
  exfalso. by apply Hf, H3.
Qed.

(** With the log in use, no transaction of two or more participants can be
    committed while the member table has another number of columns than the
    engine expects: the commit fails before phase one, and only rollbacks are
    sent.  The table that the installation script creates has one column less. *)
Theorem member_columns_required (all : bool) (cs : list cid) (w : world) :
  client_ok -> in_xa (walks := tree_walks) cs w -> (2 <= length cs)%nat ->
  xa_logged (w_trx w) = true -> (forall k, not_found (env_engine k) = false) ->
  sys_xa_member_fields <> SPIDER_SYS_XA_MEMBER_COL_CNT ->
  exists e w', commit_internal_xa all w = Some (inl e, w') /\ e <> 0 /\
    traced cs (among (rollback_stmts (xid (w_trx w)))) w w'.
Proof.
  intros [K1 K2 K3] Hx Hlen Hl Hh Hf. destruct (members_unopened (w_trx w) w Hl Hf Hh) as (e & w1 & E1 & He).
  assert (spider_internal_xa_prepare true w = Some (e, w1)) as Em.
  { unfold spider_internal_xa_prepare. rewrite (bind_eq _ _ _ _ _ (gets_eq _ w)). unfold andthen at 1.
    rewrite (bind_eq _ _ _ _ _ E1). by destruct (Z.eqb_spec e 0). }
  destruct Hx as [Hw P Hn Hxa Hk] eqn:HX. clear HX.
  destruct (log_not_yet_spec K1 K2 K3 cs w Hw P) as (e' & w1' & E1' & W). rewrite E1 in E1'. injection E1' as <- <-.
  destruct (abort_spec K1 K2 K3 all cs w e w1 Hx He (prepare_log_failed _ _ _ _ _ He W)) as (w2 & E2 & T2 & _).
  exists e, w2. unfold commit_internal_xa, lift_opt. unfold mbind at 1, M_bind at 1.
  rewrite (walks_num _ _ _ Hw), Z.mod_small by lia. destruct (Z.eqb_spec (Z.of_nat (length cs)) 1); [lia|].
  rewrite (bind_eq _ _ _ _ _ Em). destruct (Z.eqb_spec e 0); [done|]. cbn [negb].
  rewrite (bind_eq _ _ _ _ _ E2). split_and!; [done..|].
  eapply traced_trans; [exact (wlog_traced _ _ _ _ W)|exact T2].
Qed.

(** [start_trx_queue] inside an XA transaction queues its XA START. *)
Lemma queue_xa_start_run c w n :
  w_conns w !! c = Some n -> table_lock n <> 3 -> trx_xa (w_trx w) = true ->
  exists w' n', start_trx_queue c w = Some (tt, w') /\ w_conns w' !! c = Some n' /\
    queued_xa_start n' = true /\ queued_xa_start_xid n' = true /\ xid (w_trx w') = xid (w_trx w).
Proof.
  intros Hn Hl Hx. apply Z.eqb_neq in Hl. unfold start_trx_queue, spider_conn_queue_xa_start. mrun. unfold updc, getc. mrun.
  rewrite Hn. mrun. rewrite lookup_insert_eq. mrun. rewrite Hl, Hx.
  destruct (_ && _); mrun; rewrite ?lookup_insert_eq; mrun; rewrite ?lookup_insert_eq; mrun; rewrite ?lookup_insert_eq; mrun;
    (eexists _, _; split; [reflexivity|]; simpl; rewrite lookup_insert_eq; done).
Qed.

(** C40. A commit that gives up a transaction in doubt (an internal XA transaction
    whose prepare ends with the error that stands for an unknown outcome, with the
    log or without it) returns that error and leaves the session inside the
    transaction: the participants are freed, and the transaction is started, XA and
    under the same identifier. The next statement that joins finds it started and
    changes nothing of it, and a connection that joins (unless its tables are
    locked) is told to start a branch under the identifier whose branches may still
    be prepared on the backends. *)
Theorem in_doubt_keeps_xid (all : bool) (cs : list cid) (w w1 : world) :
  client_ok -> in_xa (walks := tree_walks) cs w -> committable all w = true ->
  commit_internal_xa all w = Some (inl ER_SPIDER_XA_TIMEOUT_NUM, w1) ->
  commit_trx all w = Some (ER_SPIDER_XA_TIMEOUT_NUM, w1) /\ abandoned cs w w1 /\
  (forall is_select is_lock_tables, start_trx_first is_select is_lock_tables w1 = Some (0, w1)) /\
  forall c n, w_conns w1 !! c = Some n -> table_lock n <> 3 ->
    exists w2 n2, start_trx_queue c w1 = Some (tt, w2) /\ w_conns w2 !! c = Some n2 /\
      queued_xa_start n2 = true /\ queued_xa_start_xid n2 = true /\ xid (w_trx w2) = xid (w_trx w).
Proof.
  intros [K1 K2 K3] Hx Hc Hgive.
  destruct (commit_trx_given_up K1 K2 K3 all cs w w1 Hx Hc Hgive) as [Hm Ha]. split_and!; [done..| |].
  - intros is_select is_lock_tables. unfold start_trx_first.
    by rewrite (bind_eq _ _ _ _ _ (gets_eq _ w1)), (ab_started _ _ _ Ha).
  - intros c n Hn Hl. rewrite <- (ab_xid _ _ _ Ha). apply (queue_xa_start_run c w1 n Hn Hl (ab_xa _ _ _ Ha)).
Qed.
End Limits.

(** ** Concrete runs *)

(** The answers at given ticks, 0 elsewhere. *)
Definition answers (l : list (nat * Z)) (k : nat) : Z :=
  match list_find (fun p => p.1 = k) l with
  | Some (_, (_, e)) => e
  | None => 0
  end.

(** The PREPARED status cannot be written; the backends refuse the XA END of a
    prepared branch and every statement for a branch that is gone. *)
Definition log_failure_env : Env :=
  example_env (answers [(16%nat, ER_XAER_RMFAIL); (20%nat, ER_XAER_NOTA); (22%nat, ER_XAER_NOTA)]) (answers [(15%nat, 5)]).

(** The branch committed in one phase is committed before the log says that
    the transaction is prepared.  When that write fails the others are rolled
    back: one backend has acknowledged a commit and another a rollback of the
    same transaction. *)
Theorem one_phase_before_log :
  exists e w', @commit_trx log_failure_env (example_vars false 19) true example_world = Some (e, w') /\
    since example_world w' (EvStmt 2 (XaCommitOnePhase example_xid) 0) /\
    since example_world w' (EvStmt 1 (XaRollback example_xid) 0).
Proof.
  eexists _, _. split; [vm_compute; reflexivity|].
  split; (eexists; split; [reflexivity|]; apply (bool_decide_unpack _); vm_compute; exact I).
Qed.

(** The connection is lost during the XA COMMIT ONE PHASE of the second
    participant; the first refuses the XA END of its prepared branch. *)
Definition lost_env : Env := example_env (answers [(5%nat, CR_SERVER_LOST); (6%nat, ER_XAER_RMFAIL)]) (answers []).

(** An XA COMMIT ONE PHASE without an answer is treated as a failure, not as
    an outcome in doubt: the other participants are rolled back, although the
    backend may have committed. *)
Theorem one_phase_lost_rolled_back :
  exists w', @commit_trx lost_env plain_vars true example_world =
      Some (ER_SPIDER_REMOTE_SERVER_GONE_AWAY_NUM, w') /\
    since example_world w' (EvStmt 2 (XaCommitOnePhase example_xid) CR_SERVER_LOST) /\
    since example_world w' (EvStmt 1 (XaRollback example_xid) 0).
Proof.
  eexists. split; [vm_compute; reflexivity|].
  split; (eexists; split; [reflexivity|]; apply (bool_decide_unpack _); vm_compute; exact I).
Qed.

Lemma single_participant_log_error_witness :
  exists w', @commit_internal_xa ok_env (example_vars false 19) true example_single =
    Some (inr ER_SPIDER_XA_NOT_EXISTS_NUM, w').
Proof.
  exact (@single_participant_log_error ok_env (example_vars false 19) true 1%positive example_single
    (example_client_ok _ _) example_single_in_xa eq_refl (fun _ => eq_refl) eq_refl eq_refl).
Defined.

Lemma member_columns_required_witness :
  exists e w', @commit_internal_xa ok_env (example_vars false 18) true example_world = Some (inl e, w') /\
    e <> 0 /\ traced [1; 2]%positive (among (rollback_stmts example_xid)) example_world w'.
Proof.
  exact (@member_columns_required ok_env (example_vars false 18) true [1; 2]%positive example_world
    (example_client_ok _ _) example_in_xa (le_n 2) eq_refl (fun _ => eq_refl) ltac:(discriminate)).
Defined.

(** The XA COMMIT ONE PHASE is refused. *)
Definition refused_env : Env := example_env (answers [(5%nat, 1402)]) (answers []).

Lemma in_doubt_keeps_xid_witness :
  exists w1, @commit_trx refused_env plain_vars true example_world = Some (ER_SPIDER_XA_TIMEOUT_NUM, w1) /\
    abandoned [1; 2]%positive example_world w1 /\ xid (w_trx w1) = example_xid /\
    @start_trx_first refused_env plain_vars false false w1 = Some (0, w1).
Proof.
  assert (@client_ok refused_env plain_vars) as Hk.
  { split; [|done|done]. intros k. unfold env_stmt, refused_env, example_env, answers.
    destruct (list_find _ _) as [[? [? e]]|] eqn:E; [|done].
    apply list_find_Some in E as (E & _ & _). by apply list_lookup_singleton_Some in E as [_ [= <- <-]]. }
  destruct (@commit_internal_xa refused_env plain_vars true example_world) as [[r w1]|] eqn:E; [|by vm_compute in E].
  assert (r = inl ER_SPIDER_XA_TIMEOUT_NUM) as -> by (vm_compute in E; by injection E as <- _).
  destruct (@in_doubt_keeps_xid refused_env plain_vars true [1; 2]%positive example_world w1
    Hk example_in_xa eq_refl E) as (Hm & Ha & Hf & _). exists w1. split_and!; [done|done|exact (ab_xid _ _ _ Ha)|apply Hf].
Defined.
